(* ===== verification/_CoqProject ===== *)
-Q . S2P
Prelude.v
GoLib.v
Types.v
Util.v
Labels.v
Numbers.v
Net.v
NetProps.v
NetText.v
Client.v
Mem.v
Names.v
Manifests.v
Yaml.v
Embedded.v
Decode.v
Samples.v
Tls.v
DaemonSet.v
DaemonSetProps.v
DNSStatus.v
Corefile.v
CorefileGolden.v
CorefileProps.v
CorefileSyntax.v
Service.v
NodeResolver.v
NetworkPolicies.v
CABundle.v
Controller.v
StatusController.v
Operator.v
ControllerProps.v
Installed.v
ControllerRuns.v
Calm.v
Ensure.v
Settled.v
Converge.v
Pass.v
StatusControllerProps.v
Watches.v
WatchesProps.v
Startup.v
Claimed.v
System.v
Freshness.v
SystemRuns.v
