(* ===== verification/Prelude.v ===== *)
(** * Verification of the OpenShift cluster DNS operator

    The operator keeps the DNS of an OpenShift cluster running.  It is one process with
    two reconciliation loops over the Kubernetes API:

    - the DNS controller (pkg/operator/controller) reads the cluster-scoped DNS object
      called "default" and keeps its operands in the state the DNS asks for: the
      namespace openshift-dns, its roles and service accounts, the daemonset dns-default
      (CoreDNS and kube-rbac-proxy), the configmap with the Corefile, copies of the CA
      bundles, network policies, the service, the metrics objects, the node-resolver
      daemonset and the service openshift in the namespace default; then it writes the
      status of the DNS;
    - the status controller (pkg/operator/controller/status) reads that DNS, the
      daemonsets and their pods, and writes the ClusterOperator "dns": four conditions,
      the versions and the related objects.

    cmd/dns-operator and pkg/operator collect the configuration from the environment,
    start both controllers and keep the default DNS in existence; pkg/util and the
    embedded manifests serve both.  The two loops meet only in the cluster: watches turn
    events about objects into requests for them.

    ** How the code is translated

    A pure Go function is a Rocq function.  Code that calls the API is a computation of
    the monad [M W] of [Client], a function from the world [W] to a result, [None] for a
    panic, and a new world; it is written in the order of the Go statements, with the
    early returns.  Errors are values of the type [error] of [GoLib]: wrapped,
    aggregated and retryable errors keep their structure, since the code inspects it.
    Integers are [Z] at the width Go gives them where they can leave it (durations,
    uint32 TTLs, int32 counters, bytes of addresses); strings are byte strings; maps are
    [gmap]; a pointer is an [option].  Go's randomized order of map iteration is supplied
    by the world.  Each definition keeps its Go name.  Log messages are left out.

    ** The files

    - Basis.  [Prelude]: tactics, hint databases, machine integers, shared lemmas.
      [GoLib]: errors, strings, time, stable sorting and package cmp with SortSlices,
      its panic included.  [Types]: the API structs.  [Util]: pkg/util/slice,
      retryableerror, conditions.  [Labels], [Numbers], [Net]: the vendored or standard
      functions for selectors, percentages and addresses, with [NetProps] and [NetText]
      the theorems on addresses and on their texts.
    - The API.  [Client]: the monad, its weakest preconditions [wp] and [wlp], the class
      [Client] of operations, the class [ClientLaws] of what the operator relies on,
      and footprints ([touches]).  [Mem]: an in-memory server with injected failures and
      a trace of the writes; it discharges the laws and runs every handler.
    - Operands of the DNS controller, one file per Go file: [Names] (names.go),
      [Manifests] (pkg/manifests: the objects), [Yaml], [Embedded] and [Decode] (that the
      embedded files decode to them), [Tls] (tls.go), [DaemonSet] and [DaemonSetProps]
      (controller_dns_daemonset.go), [DNSStatus] (dns_status.go), [Corefile],
      [CorefileGolden], [CorefileProps] and [CorefileSyntax]
      (controller_dns_configmap.go), [Service] (controller_dns_service.go),
      [NodeResolver] (controller_dns_node_resolver_daemonset.go), [NetworkPolicies]
      (controller_dns_networkpolicy.go, controller_cluster_role.go,
      controller_service_monitor.go), [CABundle] (controller_cabundle_configmap.go).
      [Ensure]: the one specification all operand handlers refine.  [Samples]: the
      concrete objects on which the theorems are applied.
    - The controllers.  [Controller] (controller.go): Reconcile, its three branches
      ([reconcile_unmanaged], [reconcile_deletion], [reconcile_managed]), ensureDNS, the
      finalizer, the cluster IP; [ControllerProps], [Installed] and [ControllerRuns]: its
      theorems.  [Calm], [Settled], [Converge] and [Pass]: that a pass without errors
      brings the cluster to a state [Settled] in which the next one writes no operand.
      [StatusController] (status/controller.go) and [StatusControllerProps].
    - The process.  [Operator] (configuration, the default DNS), [Watches] and
      [WatchesProps] (the watches of both New functions, with the event handlers of the
      vendored controller-runtime), [Startup] (main.go, New and Start of operator.go, New
      of both controllers, client.go with the registration of the API types), [Claimed] (every object the operator writes keeps
      the mark its watch goes by), [System], [Freshness] and [SystemRuns] (the running
      operator as a transition system: both controllers with their pending requests, the
      periodic creation of the default DNS, and everybody else).

    ** What the theorems show

    - The running system: no wake-up is lost, in any interleaving and with any failures
      (no_lost_wakeup), and the ClusterOperator is never left behind what it reports on
      (operator_status_fresh); neither a DNS nor, while a DNS is listed, the ClusterOperator
      becomes Degraded (degraded_only_without_dns); which events wake the DNS controller
      (operand_watches); how the process is put together and how it ends
      (operator_New_spec, main_spec).
    - The DNS controller as a whole: it touches only its operands (Reconcile_footprint);
      a reconciliation without errors leaves every operand in the cluster
      (reconcile_managed_installs); Unmanaged means hands off (Reconcile_unmanaged); the
      finalizer is put before and removed only after the operands
      (reconcile_deletion_finalizer, enforceDNSFinalizer_spec); from an empty cluster the
      exact sequence of writes, and that it ends (Reconcile_install).
    - Each operand handler refines the specification [sync] of [Ensure]: its object is
      left alone, created or updated, and no other is touched (handlers_refine).  Together
      they come to rest: after one pass without errors, over the cluster as it was, the
      next pass writes no operand, whatever it finds the status of the DNS to be
      (second_pass_writes_nothing).
    - Comparisons.  Applying a comparison's update makes the comparison silent
      (serviceChanged_spec; the other comparisons within second_pass_writes_nothing); what
      "in sync" means for the DNS daemonset (daemonsetConfigChanged_iff).  Neither controller writes a status that says the
      same (syncDNSStatus_quiescent, status_Reconcile_quiescent).
    - Safety of updates: a node placement with which no pod of the daemonset could run
      is not applied (updateDNSDaemonSet_safe); the desired daemonset is well formed
      (desiredDNSDaemonSet_wf); kube-rbac-proxy is never left without ciphers
      (kubeRBACProxyArgs_ciphers).
    - The Corefile: its text reads as the server blocks the DNS asks for
      (corefile_reads); sanitizing (sanitizeTLSSettings_spec), when rendering succeeds
      (desiredDNSConfigMap_total), the range of the TTLs (coreDNSCache_spec); [CorefileGolden] evaluates the
      renderer on the repository's own test cases.
    - Manifests: the embedded YAML files decode to the objects the handlers start from
      (manifests_decode).
    - CA bundles: after the synchronization openshift-dns holds a copy of every
      referenced bundle (ensureCABundleConfigMaps_sync).
    - Status: each condition is characterized on every branch
      (computeDNSDegradedCondition_spec, computeDNSProgressingCondition_spec,
      operator_conditions_spec), with the grace period at its exact bounds
      (lastTransitionTimeIsRecent_spec); the versions of the ClusterOperator advance only
      with enough pods (computeCurrentVersions_spec); conditions are merged by type and
      keep their transition time (mergeConditions_spec).
    - Arithmetic and data: the cluster IP is host number ten of the network, in a
      text that reads back as it (clusterIP_of_network_spec), the hints decision agrees with its specification
      (hints_loop_spec), aggregation takes the least delay (NewMaybeRetryableAggregate_spec).
    - Deviations from what the code means to do, as theorems: a comparison panics on some
      tolerations (daemonsetConfigChanged_panics), an error of the scaffolding is lost
      (Reconcile_drops_scaffolding_error), one failed read takes the name server from the
      node resolver (Reconcile_drops_nameserver), an upgrade is reported in the order of map
      iteration (status_Reconcile_upgrade_order), and degraded_only_without_dns above.

    ** Parameters and bounds

    What is not in the repository is a class, with an instance that shows its laws can
    hold: [Client]/[ClientLaws] the API server and cache (instance [Mem]),
    [Stores] what the server stores of an object it is sent ([verbatim] in [Ensure]:
    everything but the UID, the resource version, defaulted fields of services and the
    status), [Informed] that the cache lists what is in the cluster, [Closed] and [Calm]
    the worlds in which reads fail only for missing objects,
    [CoherentCache] that the cache lists DNSes that exist, [Runtime] and [RuntimeLaws]
    the addresses %+v prints and the logger, [MapRange] and [MapRangeLaws] the order of
    map iteration, [UnicodeTables] case mapping outside ASCII, [FloatConversion] the
    conversion of a float outside uint32, [Assets] the text of the embedded shell script
    (instance: the file), [Decoder] the YAML library, which reads at least what
    [read_yaml] of [Yaml] reads,
    [RESTMapper] and [RESTMapperLaws] that DNSes are cluster-scoped, [Libraries] the
    answers of the constructors called at start-up.  A write may be reported as failed
    after it took effect, and the cache may be stale: only the laws listed in
    [ClientLaws] hold of it.  The laws say what one call does to the objects, so that
    nobody else writes between two calls of one handler; between two reconciliations
    [System] lets everybody write.  The client does not read from the cache, as
    operator.go sets it up.  In [System] others may do anything but remove the mark of an
    operand (its owner reference or label) or write the status of a DNS.

    Recursion is structural but for the block reader of [Yaml], whose fuel of four steps
    a line is enough for every asset (manifests_decode evaluates it), and three loops of
    the address code, which carry fuel:
    eight groups for parsing an IPv6 address, as many as sixteen bytes hold; nine steps
    for printing its eight groups; four digits for a 16-bit group.  These are the
    bounds of the Go loops; parsing is shown to give addresses of the right length, and
    the printed text of every address to parse back.

    ** Not modelled

    What the libraries' constructors build (clients, manager, leader election): each call
    succeeds or fails, by a parameter; goroutines and signals beyond the steps of [System];
    rate limits and delays of the work queue (a request is pending or not), since they
    belong to client-go and depend on time; the YAML library beyond the part of YAML the
    assets use; the vendored DNSNameResolver controller, which the process only starts; the
    end-to-end tests.

    ** Further work

    The convergence of a pass when others write between its calls: the theorem of [Pass]
    has the operator alone during its two passes, and a reconciliation is one step of
    [System], with the others acting between steps. *)

From stdpp Require Export prelude gmap strings list pretty sorting.
From Stdlib Require Export ZArith Lia.

(** ** Scope and notation of the development *)

Declare Scope go_scope.
Delimit Scope go_scope with go.
Open Scope string_scope.
Open Scope list_scope.

(** Go's string concatenation and string equality test. *)
Notation "s =s t" := (bool_decide (s = t :> string))
  (at level 70, no associativity) : go_scope.
Open Scope go_scope.

(** ** Tactics *)

(** Case analysis on every [if] and [match] the goal or a hypothesis is
    stuck on, with the boolean tests turned into propositions. *)
Ltac split_ifs :=
  repeat (case_match || case_bool_decide || case_decide).

(** Turn boolean connectives in the context and in the goal into
    propositional ones. *)
Ltac to_prop :=
  repeat match goal with
  | H : context [(_ && _)%bool = true] |- _ => rewrite andb_true_iff in H
  | H : context [(_ || _)%bool = true] |- _ => rewrite orb_true_iff in H
  | H : context [(_ && _)%bool = false] |- _ => rewrite andb_false_iff in H
  | H : context [(_ || _)%bool = false] |- _ => rewrite orb_false_iff in H
  | H : context [negb _ = true] |- _ => rewrite negb_true_iff in H
  | H : context [negb _ = false] |- _ => rewrite negb_false_iff in H
  | H : context [bool_decide _ = true] |- _ => rewrite bool_decide_eq_true in H
  | H : context [bool_decide _ = false] |- _ => rewrite bool_decide_eq_false in H
  | |- context [(_ && _)%bool = true] => rewrite andb_true_iff
  | |- context [(_ || _)%bool = true] => rewrite orb_true_iff
  | |- context [(_ && _)%bool = false] => rewrite andb_false_iff
  | |- context [(_ || _)%bool = false] => rewrite orb_false_iff
  | |- context [negb _ = true] => rewrite negb_true_iff
  | |- context [negb _ = false] => rewrite negb_false_iff
  | |- context [bool_decide _ = true] => rewrite bool_decide_eq_true
  | |- context [bool_decide _ = false] => rewrite bool_decide_eq_false
  end.

Create HintDb dnsop.

(** ** Machine integers

    A w-bit Go integer is the [Z] it denotes; an operation that can leave
    the range wraps around, as Go's integer arithmetic does. *)

Definition wrap_u (w : Z) (x : Z) : Z := x mod 2 ^ w.
Definition wrap_s (w : Z) (x : Z) : Z :=
  (x + 2 ^ (w - 1)) mod 2 ^ w - 2 ^ (w - 1).

Definition in_u (w : Z) (x : Z) : Prop := (0 <= x < 2 ^ w)%Z.
Definition in_s (w : Z) (x : Z) : Prop := (- 2 ^ (w - 1) <= x < 2 ^ (w - 1))%Z.

(** The extreme values of the widths the operator uses. *)
Definition MaxInt32 : Z := 2147483647.
Definition MinInt64 : Z := -9223372036854775808.
Definition MaxInt64 : Z := 9223372036854775807.

Lemma wrap_u_range w x : (0 <= w)%Z → in_u w (wrap_u w x).
Proof. intros Hw. unfold in_u, wrap_u. apply Z.mod_pos_bound. lia. Qed.

Lemma wrap_s_id w x : (0 < w)%Z → in_s w x → wrap_s w x = x.
Proof.
  unfold in_s, wrap_s. intros Hw Hx.
  assert (2 ^ w = 2 * 2 ^ (w - 1))%Z as Hpow.
  { rewrite <- Z.pow_succ_r by lia. f_equal. lia. }
  rewrite Z.mod_small; lia.
Qed.

Lemma wrap_s_range w x : (0 < w)%Z → in_s w (wrap_s w x).
Proof.
  intros Hw. unfold in_s, wrap_s.
  assert (2 ^ w = 2 * 2 ^ (w - 1))%Z as Hpow.
  { rewrite <- Z.pow_succ_r by lia. f_equal. lia. }
  pose proof (Z.mod_pos_bound (x + 2 ^ (w - 1)) (2 ^ w)). lia.
Qed.

#[export] Hint Resolve wrap_u_range wrap_s_range : dnsop.

(** ** Lists *)

(** [existsb] and [forallb] over [bool_decide]d tests. *)
Lemma existsb_elem {A} (f : A → bool) (l : list A) :
  existsb f l = true ↔ ∃ x, x ∈ l ∧ f x = true.
Proof.
  rewrite existsb_exists. split; intros [x [Hx Hf]]; exists x; split; auto;
    by apply list_elem_of_In.
Qed.

Lemma existsb_elem_false {A} (f : A → bool) (l : list A) :
  existsb f l = false ↔ ∀ x, x ∈ l → f x = false.
Proof.
  split.
  - intros Hl x Hx. destruct (f x) eqn:E; [|done].
    rewrite <- Hl. symmetry. apply existsb_elem. eauto.
  - intros Hl. destruct (existsb f l) eqn:E; [|done].
    apply existsb_elem in E as [x [Hx Hf]]. by rewrite Hl in Hf.
Qed.

Lemma forallb_elem {A} (f : A → bool) (l : list A) :
  forallb f l = true ↔ ∀ x, x ∈ l → f x = true.
Proof.
  rewrite forallb_forall. split; intros H x Hx; apply H; by apply list_elem_of_In.
Qed.

Lemma filter_all_keep {A} (P : A → Prop) `{∀ x, Decision (P x)} (l : list A) :
  (∀ x, x ∈ l → P x) → filter P l = l.
Proof.
  intros HP. induction l as [|x l IH]; [done|].
  rewrite filter_cons_True by (apply HP; set_solver).
  f_equal. apply IH. intros y Hy. apply HP. set_solver.
Qed.

(** ** Strings *)

Lemma string_app_cons (x : Ascii.ascii) (a b : string) :
  String x a +:+ b = String x (a +:+ b).
Proof. done. Qed.

Lemma string_app_nil_l (b : string) : "" +:+ b = b.
Proof. done. Qed.

Lemma string_app_assoc (a b c : string) : (a +:+ b) +:+ c = a +:+ (b +:+ c).
Proof. induction a as [|x a IH]; [done|]. by rewrite !string_app_cons, IH. Qed.

Lemma string_app_nil_r (a : string) : a +:+ "" = a.
Proof. induction a as [|x a IH]; [done|]. by rewrite string_app_cons, IH. Qed.

Lemma string_length_app (a b : string) :
  String.length (a +:+ b) = (String.length a + String.length b)%nat.
Proof. induction a as [|x a IH]; [done|]. rewrite string_app_cons. simpl. by rewrite IH. Qed.

(** Go's [len(s) == 0] and [s == ""]. *)
Lemma string_length_zero (s : string) : String.length s = 0 ↔ s = "".
Proof. destruct s; naive_solver. Qed.

Create Rewrite HintDb dnsop_str.
#[export] Hint Rewrite string_app_assoc string_app_nil_r : dnsop_str.
