(* ===== verification/GoLib.v ===== *)
(** * What the operator uses of the Go language and its libraries

    Error values (package errors, fmt.Errorf, k8s.io/apimachinery's
    util/errors), strings, time.Duration and time.Time, stable sorting, and
    package cmp with the options the operator passes to it. *)

From S2P Require Import Prelude.

(** ** Error values *)

(** [ErrNew] is errors.New and fmt.Errorf without %w; [ErrWrap] is
    fmt.Errorf with %w as its last verb; [ErrAggregate] is the aggregate of
    util/errors; [ErrRetryable] is the retryableError struct of package
    retryableerror.  A nil error is [None] of [option error]. *)
Inductive error : Type :=
| ErrNew (msg : string)
| ErrWrap (prefix : string) (inner : error)
| ErrAggregate (errs : list error)
| ErrRetryable (inner : error) (after : Z).

(** Error() of an aggregate: the distinct messages of its leaves, in order. *)
Definition aggregate_text (msgs : list string) : string :=
  let distinct :=
    foldl (λ acc m, if bool_decide (m ∈ acc) then acc else acc ++ [m]) [] msgs in
  match distinct with
  | [m] => m
  | _ => "[" +:+ String.concat ", " distinct +:+ "]"
  end.

(** The text of an error, and the texts aggregate.visit collects from it. *)
Fixpoint error_texts (e : error) : string * list string :=
  match e with
  | ErrNew m => (m, [m])
  | ErrWrap p i => let t := p +:+ (error_texts i).1 in (t, [t])
  | ErrRetryable i _ => let t := (error_texts i).1 in (t, [t])
  | ErrAggregate es =>
      let sub := (fix go (es : list error) : list (string * list string) :=
                    match es with
                    | [] => []
                    | e :: es => error_texts e :: go es
                    end) es in
      let leaves := concat (map snd sub) in
      (match sub with
       | [] => ""
       | [(t, _)] => t
       | _ => aggregate_text leaves
       end, leaves)
  end.

Definition Error (e : error) : string := (error_texts e).1.

(** fmt.Errorf(prefix + "%v", err): a new error that only keeps the text. *)
Definition Errorf_v (prefix : string) (e : error) : error :=
  ErrNew (prefix +:+ Error e).

(** utilerrors.NewAggregate: nil for a list with no non-nil error. *)
Definition NewAggregate (errlist : list (option error)) : option error :=
  match omap id errlist with
  | [] => None
  | errs => Some (ErrAggregate errs)
  end.

(** aggregate.Errors(). *)
Definition aggregate_Errors (e : error) : list error :=
  match e with ErrAggregate errs => errs | _ => [] end.

(** ** Strings *)

(** strings.Join(elems, sep). *)
Definition strings_Join (elems : list string) (sep : string) : string :=
  String.concat sep elems.

Definition is_ascii (c : Ascii.ascii) : bool := (Ascii.nat_of_ascii c <? 128)%nat.

Fixpoint string_all (f : Ascii.ascii → bool) (s : string) : bool :=
  match s with
  | EmptyString => true
  | String c s => f c && string_all f s
  end.

Fixpoint string_map (f : Ascii.ascii → Ascii.ascii) (s : string) : string :=
  match s with
  | EmptyString => EmptyString
  | String c s => String (f c) (string_map f s)
  end.

Definition is_lower (c : Ascii.ascii) : bool :=
  let n := Ascii.nat_of_ascii c in (97 <=? n)%nat && (n <=? 122)%nat.

Definition upper_ascii (c : Ascii.ascii) : Ascii.ascii :=
  if is_lower c then Ascii.ascii_of_nat (Ascii.nat_of_ascii c - 32) else c.

(** The Unicode tables behind package strings, for text that is not ASCII. *)
Class UnicodeTables := {
  unicode_ToUpper : string → string;
  unicode_EqualFold : string → string → bool;
}.

(** strings.ToUpper: the ASCII path, else the Unicode mapping. *)
Definition strings_ToUpper `{UnicodeTables} (s : string) : string :=
  if string_all is_ascii s then string_map upper_ascii s else unicode_ToUpper s.

(** strings.EqualFold: the ASCII loop, leaving for the Unicode comparison at
    the first pair with a byte outside ASCII. *)
Fixpoint strings_EqualFold `{UnicodeTables} (s t : string) : bool :=
  match s, t with
  | EmptyString, EmptyString => true
  | String a s', String b t' =>
      if is_ascii a && is_ascii b then
        if bool_decide (upper_ascii a = upper_ascii b) then strings_EqualFold s' t'
        else false
      else unicode_EqualFold s t
  | _, _ => false
  end.

(** The %q verb (strconv.Quote); bytes outside ASCII are copied, as Quote does
    for printable text. *)
Definition hex_digit (n : nat) : Ascii.ascii :=
  Ascii.ascii_of_nat (if (n <? 10)%nat then 48 + n else 87 + n).

Definition newline : string := String (Ascii.ascii_of_nat 10) EmptyString.
Definition dquote : string := String (Ascii.ascii_of_nat 34) EmptyString.

Definition quote_char (c : Ascii.ascii) : string :=
  let n := Ascii.nat_of_ascii c in
  let esc (x : nat) := String (Ascii.ascii_of_nat 92) (String (Ascii.ascii_of_nat x) "") in
  match n with
  | 34 => esc 34 | 92 => esc 92
  | 7 => esc 97 | 8 => esc 98 | 12 => esc 102 | 10 => esc 110
  | 13 => esc 114 | 9 => esc 116 | 11 => esc 118
  | _ => if ((n <? 32) || (n =? 127))%nat then
           String (Ascii.ascii_of_nat 92) (String (Ascii.ascii_of_nat 120)
             (String (hex_digit (n / 16)) (String (hex_digit (n mod 16)) "")))
         else String c ""
  end.

Fixpoint quote_body (s : string) : string :=
  match s with
  | EmptyString => EmptyString
  | String c s => quote_char c +:+ quote_body s
  end.

Definition Quote (s : string) : string := dquote +:+ quote_body s +:+ dquote.

(** Go's [<] on strings: lexicographic on bytes. *)
Definition string_ltb (s t : string) : bool := String.ltb s t.

(** ** Time *)

(** A time.Duration is an int64 count of nanoseconds; a time.Time is the
    number of nanoseconds since the zero Time (January 1, year 1). *)
Definition Second : Z := 1000000000.

Definition Time_IsZero (t : Z) : bool := bool_decide (t = 0%Z).

(** t.Sub(u), which saturates at the int64 limits. *)
Definition Time_Sub (t u : Z) : Z := Z.max MinInt64 (Z.min MaxInt64 (t - u)).

(** d.Round(m), with the half-way and overflow cases of the library. *)
Definition lessThanHalf (x y : Z) : bool :=
  (wrap_u 64 (wrap_u 64 x + wrap_u 64 x) <? wrap_u 64 y)%Z.

Definition Duration_Round (d m : Z) : Z :=
  if (m <=? 0)%Z then d
  else
    let r := Z.rem d m in
    if (d <? 0)%Z then
      let r := (- r)%Z in
      if lessThanHalf r m then wrap_s 64 (d + r)
      else let d1 := wrap_s 64 (d - m + r) in
           if (d1 <? d)%Z then d1 else MinInt64
    else
      if lessThanHalf r m then (d - r)%Z
      else let d1 := wrap_s 64 (d + m - r) in
           if (d1 >? d)%Z then d1 else MaxInt64.

(** ** Stable sorting and package cmp *)

(** sort.SliceStable: insertion sort, each element moved left past the
    elements it is less than. [insert_left x rev_prefix] works on the prefix
    already sorted, last element first.  For more than 20 elements the library
    sorts blocks of 20 this way and merges them; for a strict weak order that
    is the same stable sort. *)
Fixpoint insert_left {A} (less : A → A → bool) (x : A) (rp : list A) : list A :=
  match rp with
  | [] => [x]
  | y :: ys => if less x y then y :: insert_left less x ys else x :: y :: ys
  end.

Definition SliceStable {A} (less : A → A → bool) (l : list A) : list A :=
  rev (foldl (λ rp x, insert_left less x rp) [] l).

(** sort.SliceIsSorted: no element is less than its predecessor. *)
Fixpoint SliceIsSorted {A} (less : A → A → bool) (l : list A) : bool :=
  match l with
  | x :: ((y :: _) as l') => negb (less y x) && SliceIsSorted less l'
  | _ => true
  end.

(** sliceSorter.checkSort of cmpopts: [false] stands for its panic. [start] is
    the first element of the current run of elements none of which is less
    than its successor, [prev] the element before the rest. *)
Fixpoint checkSort_from {A} (less : A → A → bool) (start : option A) (prev : A) (l : list A) : bool :=
  match l with
  | [] => true
  | x :: l' =>
      if less prev x then
        match start with
        | Some s => if less s prev || less prev s then false
                    else checkSort_from less None x l'
        | None => checkSort_from less None x l'
        end
      else match start with
           | None => checkSort_from less (Some x) x l'
           | Some s => checkSort_from less (Some s) x l'
           end
  end.

Definition checkSort {A} (less : A → A → bool) (l : list A) : bool :=
  match l with
  | [] => true
  | x :: l' => checkSort_from less None x l'
  end.

(** Element-wise comparison of two slices. *)
Fixpoint list_eqb {A} (eqb : A → A → bool) (x y : list A) : bool :=
  match x, y with
  | [], [] => true
  | a :: x, b :: y => eqb a b && list_eqb eqb x y
  | _, _ => false
  end.

(** cmp.Equal(x, y, cmpopts.EquateEmpty(), cmpopts.SortSlices(less)) on slices:
    when one of the two is not sorted both are sorted and checked, a failed
    check being a panic ([None]), and then compared element by element. *)
Definition cmp_Equal_SortSlices {A} (less eqb : A → A → bool) (x y : list A) : option bool :=
  if ((length x <=? 1) && (length y <=? 1))%nat
     || (SliceIsSorted less x && SliceIsSorted less y)
  then Some (list_eqb eqb x y)
  else
    let x' := SliceStable less x in
    let y' := SliceStable less y in
    if checkSort less x' && checkSort less y' then Some (list_eqb eqb x' y') else None.

(** ** Lemmas *)

Lemma NewAggregate_nil_iff errs : NewAggregate errs = None ↔ omap id errs = [].
Proof. unfold NewAggregate. by destruct (omap id errs). Qed.

Lemma NewAggregate_somes errs : NewAggregate (Some <$> errs) = None ↔ errs = [].
Proof.
  rewrite NewAggregate_nil_iff.
  assert (omap id (Some <$> errs) = errs) as ->; [|done].
  induction errs as [|e errs IH]; [done|]. csimpl. by rewrite IH.
Qed.

Lemma string_ltb_leb s t : string_ltb s t = negb (String.leb t s).
Proof.
  unfold string_ltb, String.ltb, String.leb.
  rewrite (String.compare_antisym s t). by destruct (String.compare t s).
Qed.

(** Sorting a slice by the [<] order of a string key: what the options
    cmpopts.SortSlices(func(a, b T) bool { return a.key < b.key }) do. *)
Section sort_by_key.
Context {A : Type} (key : A → string).

Definition key_less (x y : A) : bool := string_ltb (key x) (key y).
Definition key_le (x y : A) : Prop := String.le (key x) (key y).

#[local] Instance key_le_trans : Transitive key_le.
Proof. intros x y z. unfold key_le. apply transitivity. Qed.

Lemma key_less_false x y : key_less x y = false ↔ key_le y x.
Proof.
  unfold key_less, key_le, String.le. rewrite string_ltb_leb, negb_false_iff.
  by rewrite Is_true_true.
Qed.

Lemma key_less_le x y : key_less x y = true → key_le x y.
Proof.
  intros Hxy. destruct (String.le_total (key x) (key y)) as [|Hyx]; [done|].
  apply key_less_false in Hyx. congruence.
Qed.

Lemma insert_left_perm x rp : insert_left key_less x rp ≡ₚ x :: rp.
Proof.
  induction rp as [|y rp IH]; [done|]. simpl. case_match; [|done].
  rewrite IH. apply Permutation_swap.
Qed.

Lemma foldl_insert_perm l rp :
  foldl (λ rp x, insert_left key_less x rp) rp l ≡ₚ l ++ rp.
Proof.
  revert rp. induction l as [|x l IH]; intros rp; [done|].
  simpl. rewrite IH, insert_left_perm. solve_Permutation.
Qed.

Lemma SliceStable_perm l : SliceStable key_less l ≡ₚ l.
Proof.
  unfold SliceStable. rewrite <- Permutation_rev, foldl_insert_perm.
  by rewrite app_nil_r.
Qed.

Lemma insert_left_sorted x rp :
  StronglySorted (flip key_le) rp → StronglySorted (flip key_le) (insert_left key_less x rp).
Proof.
  induction 1 as [|y rp Hrp IH Hy]; simpl; [by repeat constructor|].
  destruct (key_less x y) eqn:E.
  - constructor; [done|]. rewrite insert_left_perm. constructor; [|done].
    by apply key_less_le.
  - apply key_less_false in E. constructor; [by constructor|].
    constructor; [done|]. eapply Forall_impl; [done|]. intros z Hz. simpl in *.
    by transitivity y.
Qed.

Lemma StronglySorted_rev (R : relation A) l :
  StronglySorted (flip R) l → StronglySorted R (rev l).
Proof.
  induction 1 as [|x l Hl IH Hx]; simpl; [constructor|].
  apply StronglySorted_app_2; [|done|by repeat constructor].
  intros y z Hy ->%list_elem_of_singleton.
  rewrite list_elem_of_In, <- in_rev, <- list_elem_of_In in Hy.
  rewrite Forall_forall in Hx. by apply Hx.
Qed.

Lemma SliceStable_sorted l : StronglySorted key_le (SliceStable key_less l).
Proof.
  apply StronglySorted_rev.
  assert (∀ rp, StronglySorted (flip key_le) rp →
    StronglySorted (flip key_le) (foldl (λ rp x, insert_left key_less x rp) rp l)) as Hgen.
  { induction l as [|x l IH]; intros rp Hrp; [done|]. simpl.
    apply IH. by apply insert_left_sorted. }
  apply Hgen. constructor.
Qed.

Lemma SliceIsSorted_sorted l :
  SliceIsSorted key_less l = true → StronglySorted key_le l.
Proof.
  intros Hl. apply Sorted_StronglySorted; [apply _|].
  induction l as [|x [|y l] IH]; [constructor|by repeat constructor|].
  simpl in Hl. to_prop. destruct Hl as [Hxy Hl].
  constructor; [by apply IH|]. constructor. by apply key_less_false.
Qed.

Lemma checkSort_sorted l : StronglySorted key_le l → checkSort key_less l = true.
Proof.
  destruct l as [|x l]; [done|]. simpl. intros Hl.
  assert (∀ start prev, StronglySorted key_le (prev :: l) →
    (∀ s, start = Some s → key_le s prev ∧ key_le prev s) →
    checkSort_from key_less start prev l = true) as Hgen; [|by apply Hgen].
  clear x Hl. induction l as [|x l IH]; intros start prev Hs Hstart; [done|]. simpl.
  inversion_clear Hs as [|?? Hs' Hall].
  destruct (key_less prev x) eqn:E.
  - destruct start as [s|]; [|by apply IH].
    destruct (Hstart s eq_refl) as [H1 H2].
    apply key_less_false in H1 as ->. apply key_less_false in H2 as ->. simpl.
    by apply IH.
  - apply key_less_false in E. apply Forall_cons_1 in Hall as [Hpx _].
    destruct start as [s|]; apply IH; [done| |done|].
    + intros s' [= <-]. destruct (Hstart s eq_refl) as [H1 H2]. split.
      * by transitivity prev.
      * by transitivity prev.
    + intros s' [= <-]. unfold key_le. by split.
Qed.

(** cmp.Equal with a key order never panics. *)
Lemma cmp_Equal_SortSlices_total eqb (x y : list A) :
  is_Some (cmp_Equal_SortSlices key_less eqb x y).
Proof.
  unfold cmp_Equal_SortSlices.
  rewrite (checkSort_sorted _ (SliceStable_sorted x)), (checkSort_sorted _ (SliceStable_sorted y)).
  case_match; eauto.
Qed.

(** It equates a slice with itself. *)
Lemma cmp_Equal_SortSlices_refl eqb (x : list A) :
  (∀ a, eqb a a = true) → cmp_Equal_SortSlices key_less eqb x x = Some true.
Proof.
  intros Heq. assert (∀ l, list_eqb eqb l l = true) as Hl.
  { induction l; simpl; [done|]. by rewrite Heq. }
  destruct (cmp_Equal_SortSlices_total eqb x x) as [b Hb]. revert Hb.
  unfold cmp_Equal_SortSlices. repeat case_match; intros [= <-]; by rewrite Hl.
Qed.

Context `{EqDecision A}.

Lemma list_eqb_eq (x y : list A) :
  list_eqb (λ a b, bool_decide (a = b)) x y = bool_decide (x = y).
Proof.
  revert y. induction x as [|a x IH]; intros [|b y]; [done..|]. simpl. rewrite IH.
  repeat case_bool_decide; naive_solver.
Qed.

(** Two sorted slices with the same elements and pairwise distinct keys are
    the same slice. *)
Lemma sorted_by_key_unique (x y : list A) :
  NoDup (key <$> x) → x ≡ₚ y →
  StronglySorted key_le x → StronglySorted key_le y → x = y.
Proof.
  intros Hnd Hp Hx Hy. eapply StronglySorted_unique_strong; [|done..].
  intros a b Ha Hb H1 H2. rewrite <- Hp in Hb.
  assert (key a = key b) as Hk by (by apply (anti_symm String.le)).
  apply list_elem_of_lookup in Ha as [i Ha], Hb as [j Hb].
  assert (i = j) as ->; [|congruence].
  eapply NoDup_lookup; [exact Hnd|rewrite list_lookup_fmap, Ha; done|].
  rewrite list_lookup_fmap, Hb. simpl. by rewrite Hk.
Qed.

(** cmp.Equal with a key order never panics, and equates exactly the slices
    that are permutations of each other, when keys are pairwise distinct. *)
Lemma cmp_Equal_SortSlices_key (x y : list A) :
  NoDup (key <$> x) →
  cmp_Equal_SortSlices key_less (λ a b, bool_decide (a = b)) x y = Some (bool_decide (x ≡ₚ y)).
Proof.
  intros Hnd. unfold cmp_Equal_SortSlices. rewrite !list_eqb_eq.
  pose proof (SliceStable_sorted x) as Sx. pose proof (SliceStable_sorted y) as Sy.
  rewrite (checkSort_sorted _ Sx), (checkSort_sorted _ Sy). simpl.
  assert (NoDup (key <$> SliceStable key_less x)) as Hnd'.
  { by rewrite SliceStable_perm. }
  case_match eqn:E; f_equal; apply bool_decide_ext.
  - split; [by intros ->|]. intros Hp. to_prop. destruct E as [E|E]; to_prop.
    + destruct E as [Ex Ey]. apply Nat.leb_le in Ex, Ey.
      pose proof (Permutation_length Hp).
      destruct x as [|a [|]], y as [|b [|]]; simplify_eq/=; try lia; [done|].
      by apply Permutation_singleton_inj in Hp as ->.
    + destruct E as [Ex Ey]. apply sorted_by_key_unique; auto using SliceIsSorted_sorted.
  - split.
    + intros Heq. by rewrite <- (SliceStable_perm x), Heq, SliceStable_perm.
    + intros Hp. apply sorted_by_key_unique; auto. by rewrite !SliceStable_perm.
Qed.

End sort_by_key.
