(* ===== verification/Types.v ===== *)
(** * The API objects the operator reads and writes

    The structs of github.com/openshift/api and k8s.io/api that the operator
    handles, with the fields it reads, writes or compares.  A pointer field is
    an [option]; a nil slice or map and an empty one are identified, except
    for ConfigMap data, which the operator compares with reflect.DeepEqual; a
    Go string type (an "enum") is a [string], since nothing in Go restricts it
    to its constants.  Fields the operator only carries along are kept in
    [..._Other] maps from field name to serialized value. *)

From S2P Require Import Prelude GoLib.

(** ** Metadata (k8s.io/apimachinery/pkg/apis/meta/v1) *)

Record NamespacedName := mkNN { nn_Namespace : string; nn_Name : string }.

Record OwnerReference := mkOwnerReference {
  or_APIVersion : string; or_Kind : string; or_Name : string; or_UID : string;
  or_Controller : option bool }.

Record ObjectMeta := mkObjectMeta {
  om_Name : string; om_Namespace : string; om_UID : string; om_ResourceVersion : string;
  om_Labels : gmap string string; om_Annotations : gmap string string;
  om_OwnerReferences : list OwnerReference; om_Finalizers : list string;
  om_DeletionTimestamp : option Z }.

(** The zero ObjectMeta. *)
Definition meta0 : ObjectMeta := mkObjectMeta "" "" "" "" ∅ ∅ [] [] None.

Record LabelSelectorRequirement := mkLabelSelectorRequirement {
  lsr_Key : string; lsr_Operator : string; lsr_Values : list string }.

Record LabelSelector := mkLabelSelector {
  ls_MatchLabels : gmap string string;
  ls_MatchExpressions : list LabelSelectorRequirement }.

(** ** dnses.operator.openshift.io (operator/v1/types_dns.go) *)

Definition CleartextTransport : string := "Cleartext".
Definition TLSTransport : string := "TLS".
Definition RandomForwardingPolicy : string := "Random".
Definition RoundRobinForwardingPolicy : string := "RoundRobin".
Definition SequentialForwardingPolicy : string := "Sequential".
Definition SystemResolveConfType : string := "SystemResolvConf".
Definition NetworkResolverType : string := "Network".
Definition ProtocolStrategyTCP : string := "TCP".
Definition DNSLogLevelNormal : string := "Normal".
Definition DNSLogLevelDebug : string := "Debug".
Definition DNSLogLevelTrace : string := "Trace".
Definition Unmanaged : string := "Unmanaged".
Definition ConditionTrue : string := "True".
Definition ConditionFalse : string := "False".
Definition ConditionUnknown : string := "Unknown".
Definition OperatorStatusTypeAvailable : string := "Available".
Definition OperatorStatusTypeProgressing : string := "Progressing".
Definition OperatorStatusTypeDegraded : string := "Degraded".
Definition OperatorStatusTypeUpgradeable : string := "Upgradeable".

Record DNSOverTLSConfig := mkDNSOverTLSConfig {
  tls_ServerName : string; tls_CABundle_Name : string }.

Record DNSTransportConfig := mkDNSTransportConfig {
  tc_Transport : string; tc_TLS : option DNSOverTLSConfig }.

Record ForwardPlugin := mkForwardPlugin {
  fp_Upstreams : list string; fp_Policy : string;
  fp_TransportConfig : DNSTransportConfig; fp_ProtocolStrategy : string }.

Record Server := mkServer {
  srv_Name : string; srv_Zones : list string; srv_ForwardPlugin : ForwardPlugin }.

(** [up_Port] is a uint32. *)
Record Upstream := mkUpstream { up_Type : string; up_Address : string; up_Port : Z }.

Record UpstreamResolvers := mkUpstreamResolvers {
  ur_Upstreams : list Upstream; ur_Policy : string;
  ur_TransportConfig : DNSTransportConfig; ur_ProtocolStrategy : string }.

(** [tol_TolerationSeconds] is a *int64. *)
Record Toleration := mkToleration {
  tol_Key : string; tol_Operator : string; tol_Value : string; tol_Effect : string;
  tol_TolerationSeconds : option Z }.

Record DNSNodePlacement := mkDNSNodePlacement {
  np_NodeSelector : gmap string string; np_Tolerations : list Toleration }.

(** The TTLs are metav1.Durations, int64 nanoseconds. *)
Record DNSCache := mkDNSCache { cache_PositiveTTL : Z; cache_NegativeTTL : Z }.

Record DNSSpec := mkDNSSpec {
  spec_Servers : list Server; spec_UpstreamResolvers : UpstreamResolvers;
  spec_NodePlacement : DNSNodePlacement; spec_ManagementState : string;
  spec_OperatorLogLevel : string; spec_LogLevel : string; spec_Cache : DNSCache }.

Record OperatorCondition := mkOperatorCondition {
  oc_Type : string; oc_Status : string; oc_LastTransitionTime : Z;
  oc_Reason : string; oc_Message : string }.

Record DNSStatus := mkDNSStatus {
  st_ClusterIP : string; st_ClusterDomain : string; st_Conditions : list OperatorCondition }.

Record DNS := mkDNS { dns_meta : ObjectMeta; dns_Spec : DNSSpec; dns_Status : DNSStatus }.

Definition dns_Name (d : DNS) : string := om_Name (dns_meta d).

(** ** Pods, containers and volumes (k8s.io/api/core/v1) *)

Record Probe := mkProbe {
  pr_Path : string; pr_Port : Z; pr_Scheme : string; pr_InitialDelaySeconds : Z;
  pr_PeriodSeconds : Z; pr_TimeoutSeconds : Z; pr_SuccessThreshold : Z;
  pr_FailureThreshold : Z; pr_Other : gmap string string }.

(** The zero Probe. *)
Definition probe0 : Probe := mkProbe "" 0 "" 0 0 0 0 0 ∅.

Record EnvVar := mkEnvVar { ev_Name : string; ev_Value : string; ev_ValueFrom : option string }.

Record VolumeMount := mkVolumeMount {
  vm_Name : string; vm_MountPath : string; vm_ReadOnly : bool;
  vm_Other : gmap string string }.

Record ContainerPort := mkContainerPort {
  cp_Name : string; cp_ContainerPort : Z; cp_Protocol : string }.

Record Container := mkContainer {
  c_Name : string; c_Image : string; c_Command : list string; c_Args : list string;
  c_Env : list EnvVar; c_VolumeMounts : list VolumeMount;
  c_ReadinessProbe : option Probe; c_LivenessProbe : option Probe;
  c_Ports : list ContainerPort; c_Other : gmap string string }.

Record KeyToPath := mkKeyToPath { kp_Key : string; kp_Path : string; kp_Mode : option Z }.

Record ConfigMapVolumeSource := mkConfigMapVolumeSource {
  cmv_Name : string; cmv_Items : list KeyToPath; cmv_DefaultMode : option Z;
  cmv_Optional : option bool }.

Record SecretVolumeSource := mkSecretVolumeSource {
  sv_SecretName : string; sv_Items : list KeyToPath; sv_DefaultMode : option Z;
  sv_Optional : option bool }.

Record HostPathVolumeSource := mkHostPathVolumeSource {
  hp_Path : string; hp_Type : option string }.

(** [v_EmptyDir] is the serialized EmptyDirVolumeSource; [v_Other] any other
    source. *)
Record Volume := mkVolume {
  v_Name : string; v_ConfigMap : option ConfigMapVolumeSource;
  v_Secret : option SecretVolumeSource; v_HostPath : option HostPathVolumeSource;
  v_EmptyDir : option string; v_Other : option string }.

Record PodSpec := mkPodSpec {
  ps_Containers : list Container; ps_NodeSelector : gmap string string;
  ps_Tolerations : list Toleration; ps_Volumes : list Volume;
  ps_TerminationGracePeriodSeconds : option Z; ps_Other : gmap string string }.

Record PodTemplateSpec := mkPodTemplateSpec {
  pt_Labels : gmap string string; pt_Annotations : gmap string string; pt_Spec : PodSpec }.

Record PodCondition := mkPodCondition {
  pc_Type : string; pc_Status : string; pc_LastTransitionTime : Z }.

Record Pod := mkPod {
  pod_meta : ObjectMeta; pod_Containers : list Container; pod_Conditions : list PodCondition }.

Record Taint := mkTaint { tn_Key : string; tn_Value : string; tn_Effect : string }.

Record NodeCondition := mkNodeCondition { nc_Type : string; nc_Status : string }.

(** [node_AllocatableCPU] is the value of Status.Allocatable.Cpu(), in its
    smallest unit. *)
Record Node := mkNode {
  node_meta : ObjectMeta; node_Unschedulable : bool; node_Taints : list Taint;
  node_Conditions : list NodeCondition; node_AllocatableCPU : Z }.

(** ** DaemonSets (k8s.io/api/apps/v1) *)

Inductive IntOrString := IntVal (n : Z) | StrVal (s : string).

Record RollingUpdateDaemonSet := mkRollingUpdateDaemonSet {
  ru_MaxUnavailable : option IntOrString; ru_MaxSurge : option IntOrString }.

Record DaemonSetUpdateStrategy := mkDaemonSetUpdateStrategy {
  us_Type : string; us_RollingUpdate : option RollingUpdateDaemonSet }.

(** [dss_MinReadySeconds] and the status counters are int32s. *)
Record DaemonSetSpec := mkDaemonSetSpec {
  dss_Selector : option LabelSelector; dss_Template : PodTemplateSpec;
  dss_UpdateStrategy : DaemonSetUpdateStrategy; dss_MinReadySeconds : Z }.

Record DaemonSetStatus := mkDaemonSetStatus {
  dst_DesiredNumberScheduled : Z; dst_NumberAvailable : Z; dst_UpdatedNumberScheduled : Z }.

Record DaemonSet := mkDaemonSet {
  ds_meta : ObjectMeta; ds_Spec : DaemonSetSpec; ds_Status : DaemonSetStatus }.

(** ** Services, ConfigMaps, namespaces, policies and RBAC objects *)

Record ServicePort := mkServicePort {
  sp_Name : string; sp_Port : Z; sp_TargetPort : string; sp_Protocol : string;
  sp_Other : gmap string string }.

Record ServiceSpec := mkServiceSpec {
  ss_Ports : list ServicePort; ss_Selector : gmap string string;
  ss_ClusterIP : string; ss_ClusterIPs : list string; ss_IPFamilies : list string;
  ss_IPFamilyPolicy : option string; ss_Type : string; ss_SessionAffinity : string;
  ss_InternalTrafficPolicy : option string; ss_TrafficDistribution : option string;
  ss_ExternalName : string; ss_Other : gmap string string }.

Record Service := mkService { svc_meta : ObjectMeta; svc_Spec : ServiceSpec }.

(** [cm_Data] is [None] for a nil map. *)
Record ConfigMap := mkConfigMap { cm_meta : ObjectMeta; cm_Data : option (gmap string string) }.

Record Namespace := mkNamespace { ns_meta : ObjectMeta }.

Record ServiceAccount := mkServiceAccount { sa_meta : ObjectMeta }.

Record PolicyRule := mkPolicyRule {
  prule_APIGroups : list string; prule_Resources : list string; prule_Verbs : list string;
  prule_Other : gmap string string }.

Record ClusterRole := mkClusterRole { cr_meta : ObjectMeta; cr_Rules : list PolicyRule }.

Record Subject := mkSubject { sub_Kind : string; sub_Name : string; sub_Namespace : string }.

Record RoleRef := mkRoleRef { rr_APIGroup : string; rr_Kind : string; rr_Name : string }.

Record ClusterRoleBinding := mkClusterRoleBinding {
  crb_meta : ObjectMeta; crb_Subjects : list Subject; crb_RoleRef : RoleRef }.

Record Role := mkRole { role_meta : ObjectMeta; role_Rules : list PolicyRule }.

Record RoleBinding := mkRoleBinding {
  rb_meta : ObjectMeta; rb_Subjects : list Subject; rb_RoleRef : RoleRef }.

Record NetworkPolicyPort := mkNetworkPolicyPort { npp_Protocol : string; npp_Port : Z }.

Inductive NetworkPolicyPeer :=
| PeerIPBlock (cidr : string)
| PeerNamespaceSelector (sel : LabelSelector).

Record NetworkPolicyRule := mkNetworkPolicyRule {
  npr_Ports : list NetworkPolicyPort; npr_Peers : list NetworkPolicyPeer }.

Record NetworkPolicySpec := mkNetworkPolicySpec {
  nps_PodSelector : LabelSelector; nps_Ingress : list NetworkPolicyRule;
  nps_Egress : list NetworkPolicyRule; nps_PolicyTypes : list string }.

Record NetworkPolicy := mkNetworkPolicy {
  netpol_meta : ObjectMeta; netpol_Spec : NetworkPolicySpec }.

(** An unstructured value, for the ServiceMonitor. *)
Inductive Unstructured :=
| UString (s : string)
| UList (l : list Unstructured)
| UMap (m : list (string * Unstructured)).

(** A ServiceMonitor: its metadata and Object["spec"]. *)
Record ServiceMonitor := mkServiceMonitor {
  sm_meta : ObjectMeta; sm_spec : option Unstructured }.

(** ** config.openshift.io objects *)

Record TLSProfileSpec := mkTLSProfileSpec {
  tps_Ciphers : list string; tps_Groups : list string; tps_MinTLSVersion : string }.

Record TLSSecurityProfile := mkTLSSecurityProfile {
  tsp_Type : string; tsp_Custom : option TLSProfileSpec }.

Record APIServer := mkAPIServer {
  as_meta : ObjectMeta; as_TLSSecurityProfile : option TLSSecurityProfile }.

Record Network := mkNetwork { net_meta : ObjectMeta; net_ServiceNetwork : list string }.

Record ClusterOperatorStatusCondition := mkCOCondition {
  coc_Type : string; coc_Status : string; coc_LastTransitionTime : Z;
  coc_Reason : string; coc_Message : string }.

Record OperandVersion := mkOperandVersion { ov_Name : string; ov_Version : string }.

Record ObjectReference := mkObjectReference {
  oref_Group : string; oref_Resource : string; oref_Namespace : string; oref_Name : string }.

Record ClusterOperatorStatus := mkCOStatus {
  cos_Conditions : list ClusterOperatorStatusCondition; cos_Versions : list OperandVersion;
  cos_RelatedObjects : list ObjectReference }.

Record ClusterOperator := mkClusterOperator {
  co_meta : ObjectMeta; co_Status : ClusterOperatorStatus }.

(** ** Decidable equality *)

#[export] Instance NamespacedName_eq : EqDecision NamespacedName.
Proof. solve_decision. Defined.
#[export] Instance OwnerReference_eq : EqDecision OwnerReference.
Proof. solve_decision. Defined.
#[export] Instance LabelSelectorRequirement_eq : EqDecision LabelSelectorRequirement.
Proof. solve_decision. Defined.
#[export] Instance LabelSelector_eq : EqDecision LabelSelector.
Proof. solve_decision. Defined.
#[export] Instance ObjectMeta_eq : EqDecision ObjectMeta.
Proof. solve_decision. Defined.
#[export] Instance Upstream_eq : EqDecision Upstream.
Proof. solve_decision. Defined.
#[export] Instance Toleration_eq : EqDecision Toleration.
Proof. solve_decision. Defined.
#[export] Instance OperatorCondition_eq : EqDecision OperatorCondition.
Proof. solve_decision. Defined.
#[export] Instance Probe_eq : EqDecision Probe.
Proof. solve_decision. Defined.
#[export] Instance EnvVar_eq : EqDecision EnvVar.
Proof. solve_decision. Defined.
#[export] Instance VolumeMount_eq : EqDecision VolumeMount.
Proof. solve_decision. Defined.
#[export] Instance KeyToPath_eq : EqDecision KeyToPath.
Proof. solve_decision. Defined.
#[export] Instance HostPathVolumeSource_eq : EqDecision HostPathVolumeSource.
Proof. solve_decision. Defined.
#[export] Instance IntOrString_eq : EqDecision IntOrString.
Proof. solve_decision. Defined.
#[export] Instance RollingUpdateDaemonSet_eq : EqDecision RollingUpdateDaemonSet.
Proof. solve_decision. Defined.
#[export] Instance DaemonSetUpdateStrategy_eq : EqDecision DaemonSetUpdateStrategy.
Proof. solve_decision. Defined.
#[export] Instance ServicePort_eq : EqDecision ServicePort.
Proof. solve_decision. Defined.
#[export] Instance PolicyRule_eq : EqDecision PolicyRule.
Proof. solve_decision. Defined.
#[export] Instance NetworkPolicyPort_eq : EqDecision NetworkPolicyPort.
Proof. solve_decision. Defined.
#[export] Instance NetworkPolicyPeer_eq : EqDecision NetworkPolicyPeer.
Proof. solve_decision. Defined.
#[export] Instance NetworkPolicyRule_eq : EqDecision NetworkPolicyRule.
Proof. solve_decision. Defined.
#[export] Instance NetworkPolicySpec_eq : EqDecision NetworkPolicySpec.
Proof. solve_decision. Defined.
#[export] Instance COCondition_eq : EqDecision ClusterOperatorStatusCondition.
Proof. solve_decision. Defined.
#[export] Instance OperandVersion_eq : EqDecision OperandVersion.
Proof. solve_decision. Defined.
#[export] Instance ObjectReference_eq : EqDecision ObjectReference.
Proof. solve_decision. Defined.
#[export] Instance DNSOverTLSConfig_eq : EqDecision DNSOverTLSConfig.
Proof. solve_decision. Defined.
#[export] Instance DNSTransportConfig_eq : EqDecision DNSTransportConfig.
Proof. solve_decision. Defined.
#[export] Instance ForwardPlugin_eq : EqDecision ForwardPlugin.
Proof. solve_decision. Defined.
#[export] Instance Server_eq : EqDecision Server.
Proof. solve_decision. Defined.
#[export] Instance UpstreamResolvers_eq : EqDecision UpstreamResolvers.
Proof. solve_decision. Defined.
#[export] Instance DNSNodePlacement_eq : EqDecision DNSNodePlacement.
Proof. solve_decision. Defined.
#[export] Instance DNSCache_eq : EqDecision DNSCache.
Proof. solve_decision. Defined.
#[export] Instance DNSSpec_eq : EqDecision DNSSpec.
Proof. solve_decision. Defined.
#[export] Instance DNSStatus_eq : EqDecision DNSStatus.
Proof. solve_decision. Defined.
#[export] Instance DNS_eq : EqDecision DNS.
Proof. solve_decision. Defined.

(** Objects the status controller watches. *)
#[export] Instance ConfigMapVolumeSource_eq : EqDecision ConfigMapVolumeSource.
Proof. solve_decision. Defined.
#[export] Instance SecretVolumeSource_eq : EqDecision SecretVolumeSource.
Proof. solve_decision. Defined.
#[export] Instance Volume_eq : EqDecision Volume.
Proof. solve_decision. Defined.
#[export] Instance ContainerPort_eq : EqDecision ContainerPort.
Proof. solve_decision. Defined.
#[export] Instance Container_eq : EqDecision Container.
Proof. solve_decision. Defined.
#[export] Instance PodSpec_eq : EqDecision PodSpec.
Proof. solve_decision. Defined.
#[export] Instance PodTemplateSpec_eq : EqDecision PodTemplateSpec.
Proof. solve_decision. Defined.
#[export] Instance DaemonSetSpec_eq : EqDecision DaemonSetSpec.
Proof. solve_decision. Defined.
#[export] Instance DaemonSetStatus_eq : EqDecision DaemonSetStatus.
Proof. solve_decision. Defined.
#[export] Instance DaemonSet_eq : EqDecision DaemonSet.
Proof. solve_decision. Defined.
#[export] Instance ClusterOperatorStatus_eq : EqDecision ClusterOperatorStatus.
Proof. solve_decision. Defined.
#[export] Instance ClusterOperator_eq : EqDecision ClusterOperator.
Proof. solve_decision. Defined.
