(* ===== verification/Util.v ===== *)
(** * The utility packages: pkg/util/slice, retryableerror and conditions *)

From S2P Require Import Prelude GoLib Types.

(** ** pkg/util/slice *)

Module slice.

(** RemoveString, with the loop's accumulator [newSlice]; a nil result is
    [None]. *)
Fixpoint RemoveString_loop (slice : list string) (s : string) (newSlice : list string) : list string :=
  match slice with
  | [] => newSlice
  | item :: rest =>
      if item =s s then RemoveString_loop rest s newSlice
      else RemoveString_loop rest s (newSlice ++ [item])
  end.

Definition RemoveString (slice : list string) (s : string) : option (list string) :=
  match RemoveString_loop slice s [] with
  | [] => None
  | newSlice => Some newSlice
  end.

Fixpoint ContainsString (slice : list string) (s : string) : bool :=
  match slice with
  | [] => false
  | item :: rest => if item =s s then true else ContainsString rest s
  end.

End slice.

(** ** pkg/util/retryableerror *)

Module retryable.

(** New(err, after). *)
Definition New (err : error) (after : Z) : error := ErrRetryable err after.

(** The interface test err.(Error): the error's After(), when it has one. *)
Definition After (err : error) : option Z :=
  match err with ErrRetryable _ after => Some after | _ => None end.

(** The loop of NewMaybeRetryableAggregate over aggregate.Errors():
    [None] is the early return of the aggregate itself. *)
Fixpoint after_loop (errs : list error) (afterHasInitialValue : bool) (after : Z) : option Z :=
  match errs with
  | [] => Some after
  | err :: rest =>
      match After err with
      | Some a =>
          let after := if negb afterHasInitialValue || (a <? after)%Z then a else after in
          after_loop rest true after
      | None => None
      end
  end.

Definition NewMaybeRetryableAggregate (errs : list (option error)) : option error :=
  match NewAggregate errs with
  | None => None
  | Some aggregate =>
      match after_loop (aggregate_Errors aggregate) false 0 with
      | None => Some aggregate
      | Some after => Some (New aggregate after)
      end
  end.

End retryable.

(** ** pkg/util/conditions *)

Module cond.

(** fmt.Sprintf(", %s=%s (%s: %s)", ...) *)
Definition format_one (c : OperatorCondition) : string :=
  ", " +:+ oc_Type c +:+ "=" +:+ oc_Status c +:+ " (" +:+ oc_Reason c +:+ ": "
  +:+ oc_Message c +:+ ")".

(** s[2:] *)
Definition drop2 (s : string) : string :=
  match s with
  | String _ (String _ s') => s'
  | _ => ""
  end.

Definition FormatConditions (conditions : list OperatorCondition) : string :=
  if (length conditions =? 0)%nat then ""
  else drop2 (foldl (λ formatted c, formatted +:+ format_one c) "" conditions).

(** The less function a.Type < b.Type. *)
Definition type_less (a b : OperatorCondition) : bool := string_ltb (oc_Type a) (oc_Type b).

(** ConditionsEqual; [None] is a panic of package cmp. *)
Definition ConditionsEqual (a b : list OperatorCondition) : option bool :=
  cmp_Equal_SortSlices type_less (λ x y, bool_decide (x = y)) a b.

End cond.

(** ** Properties *)

Lemma RemoveString_loop_filter l s acc :
  slice.RemoveString_loop l s acc = acc ++ filter (λ x, x ≠ s) l.
Proof.
  revert acc. induction l as [|x l IH]; intros acc; simpl; [by rewrite app_nil_r|].
  rewrite filter_cons. repeat case_decide; case_bool_decide; try done; rewrite IH.
  by rewrite <- app_assoc.
Qed.

Lemma ContainsString_elem l s : slice.ContainsString l s = true ↔ s ∈ l.
Proof.
  induction l as [|x l IH]; simpl; [set_solver|].
  case_bool_decide; set_solver.
Qed.

(** Removing a string keeps exactly the other items, in order. *)
Lemma RemoveString_spec l s :
  default [] (slice.RemoveString l s) = filter (λ x, x ≠ s) l.
Proof.
  unfold slice.RemoveString. rewrite RemoveString_loop_filter. simpl.
  by destruct (filter _ l).
Qed.

Lemma RemoveString_not_contains l s :
  slice.ContainsString (default [] (slice.RemoveString l s)) s = false.
Proof.
  rewrite RemoveString_spec. apply not_true_iff_false. rewrite ContainsString_elem.
  rewrite list_elem_of_filter. naive_solver.
Qed.

(** Appending a string that is not contained, then removing it, gives the
    list back. *)
Lemma append_RemoveString l s :
  slice.ContainsString l s = false →
  default [] (slice.RemoveString (l ++ [s]) s) = l.
Proof.
  intros Hl. rewrite RemoveString_spec, filter_app, filter_cons_False by naive_solver.
  rewrite filter_nil, app_nil_r. apply filter_all_keep.
  intros x Hx ->. apply not_true_iff_false in Hl. by apply Hl, ContainsString_elem.
Qed.

Lemma after_loop_spec errs b a :
  match retryable.after_loop errs b a with
  | None => ∃ e, e ∈ errs ∧ retryable.After e = None
  | Some m =>
      Forall (λ e, is_Some (retryable.After e)) errs ∧
      Forall (λ e, ∀ x, retryable.After e = Some x → (m <= x)%Z) errs ∧
      (b = true → (m <= a)%Z) ∧
      (errs = [] ∧ m = a ∨ b = true ∧ m = a ∨ ∃ e, e ∈ errs ∧ retryable.After e = Some m)
  end.
Proof.
  revert b a. induction errs as [|e errs IH]; intros b a; simpl.
  { repeat split; [constructor..|done|auto]. }
  destruct (retryable.After e) as [x|] eqn:Ee; [|exists e; set_solver].
  set (a' := if negb b || (x <? a)%Z then x else a).
  assert (a' <= x ∧ (b = true → a' <= a) ∧ (a' = x ∨ b = true ∧ a' = a))%Z as (Hx & Ha & Hc).
  { subst a'. destruct b; simpl; [destruct (Z.ltb_spec x a)|]; naive_solver lia. }
  clearbody a'. specialize (IH true a').
  destruct (retryable.after_loop errs true a') as [m|]; [|naive_solver set_solver].
  destruct IH as (H1 & H2 & H3 & H4). specialize (H3 eq_refl).
  split; [|split; [|split]].
  - constructor; [by rewrite Ee|done].
  - constructor; [|done]. intros y [= <-]%(λ H, eq_trans (eq_sym Ee) H). lia.
  - intros Hb. specialize (Ha Hb). lia.
  - destruct H4 as [[-> ->]|[[_ ->]|(e' & ? & ?)]]; [..|right; right; exists e'; set_solver];
      (destruct Hc as [->|[-> ->]]; [right; right; exists e; set_solver|auto]).
Qed.

(** No error is dropped by the aggregate. *)
Lemma NewMaybeRetryableAggregate_None errs :
  retryable.NewMaybeRetryableAggregate (Some <$> errs) = None → errs = [].
Proof.
  unfold retryable.NewMaybeRetryableAggregate, NewAggregate.
  destruct errs as [|e es]; [done|]. cbn [fmap list_fmap omap list_omap id].
  by destruct (retryable.after_loop _ _ _).
Qed.

(** An aggregate that is retryable has only retryable errors. *)
Lemma NewMaybeRetryableAggregate_After errs :
  (∀ e, retryable.NewMaybeRetryableAggregate (Some <$> errs) = Some e → is_Some (retryable.After e)) →
  Forall (λ e, is_Some (retryable.After e)) errs.
Proof.
  unfold retryable.NewMaybeRetryableAggregate, NewAggregate.
  assert (omap id (Some <$> errs) = errs) as -> by (induction errs as [|e es IH]; [done|]; exact (f_equal (cons e) IH)).
  destruct errs as [|e es]; [done|]. cbn [aggregate_Errors]. pose proof (after_loop_spec (e :: es) false 0) as Hl.
  destruct (retryable.after_loop (e :: es) false 0) as [m|]; [intros _; apply Hl|].
  intros Hx. by destruct (Hx _ eq_refl).
Qed.

(** C35: NewMaybeRetryableAggregate gives nil exactly when the list has no
    non-nil error; the plain aggregate exactly when some error is not
    retryable; and otherwise a retryable error whose After() is the least of
    the After() values of the errors. *)
Theorem NewMaybeRetryableAggregate_spec errs :
  let es := omap id errs in
  match retryable.NewMaybeRetryableAggregate errs with
  | None => es = []
  | Some e =>
      es ≠ [] ∧
      match retryable.After e with
      | None => e = ErrAggregate es ∧ ∃ x, x ∈ es ∧ retryable.After x = None
      | Some m =>
          e = ErrRetryable (ErrAggregate es) m ∧
          (∃ x, x ∈ es ∧ retryable.After x = Some m) ∧
          Forall (λ x, ∃ a, retryable.After x = Some a ∧ (m <= a)%Z) es
      end
  end.
Proof.
  simpl. unfold retryable.NewMaybeRetryableAggregate, NewAggregate.
  destruct (omap id errs) as [|e es]; [done|]. cbn [aggregate_Errors].
  pose proof (after_loop_spec (e :: es) false 0) as H.
  destruct (retryable.after_loop (e :: es) false 0) as [m|]; [|done].
  destruct H as (H1 & H2 & _ & [[? _]|[[? _]|H3]]); [done..|].
  split; [done|]. simpl. repeat split; [done|].
  rewrite Forall_forall in H1, H2 |- *. intros x Hx.
  destruct (H1 x Hx) as [a Ha]. eauto.
Qed.

(** The text of one condition, without the separator. *)
Definition condition_text (c : OperatorCondition) : string :=
  oc_Type c +:+ "=" +:+ oc_Status c +:+ " (" +:+ oc_Reason c +:+ ": " +:+ oc_Message c +:+ ")".

(** FormatConditions is the comma-separated list of the conditions' texts. *)
Lemma FormatConditions_join cs :
  cond.FormatConditions cs = strings_Join (condition_text <$> cs) ", ".
Proof.
  unfold cond.FormatConditions, strings_Join.
  destruct cs as [|c cs]; [done|]. simpl.
  assert (∀ cs acc, foldl (λ f c, f +:+ cond.format_one c) acc cs
    = acc +:+ foldr (λ c f, ", " +:+ condition_text c +:+ f) "" cs) as Hgen.
  { clear. induction cs as [|c cs IH]; intros acc; simpl.
    - by rewrite string_app_nil_r.
    - rewrite IH, string_app_assoc. unfold cond.format_one, condition_text.
      by rewrite !string_app_assoc. }
  rewrite Hgen. rewrite string_app_nil_l.
  change (cond.format_one c) with (", " +:+ condition_text c).
  rewrite string_app_assoc. cbn [cond.drop2]. clear Hgen.
  change (cond.drop2 (", " +:+ ?s)) with s.
  revert c. induction cs as [|c' cs IH]; intros c; simpl.
  - by rewrite string_app_nil_r.
  - f_equal. f_equal. apply IH.
Qed.

(** ConditionsEqual does not depend on the order of the conditions. *)
Lemma ConditionsEqual_perm a b :
  NoDup (oc_Type <$> a) → cond.ConditionsEqual a b = Some (bool_decide (a ≡ₚ b)).
Proof. apply (cmp_Equal_SortSlices_key oc_Type). Qed.
