(* ===== verification/Labels.v ===== *)
(** * Label selectors (the vendored k8s.io/apimachinery/pkg/labels)

    metav1.LabelSelectorAsSelector, labels.NewRequirement with the validation of
    keys and values, and Requirement.Matches: what the operator uses to select
    pods and nodes. *)

From S2P Require Import Prelude GoLib Types.

(** ** Label syntax *)

Definition between (lo hi : nat) (c : Ascii.ascii) : bool :=
  let n := Ascii.nat_of_ascii c in (lo <=? n)%nat && (n <=? hi)%nat.

Definition is_digit (c : Ascii.ascii) : bool := between 48 57 c.
Definition is_lower_letter (c : Ascii.ascii) : bool := between 97 122 c.
Definition is_alnum (c : Ascii.ascii) : bool :=
  is_digit c || is_lower_letter c || between 65 90 c.
Definition is_lower_alnum (c : Ascii.ascii) : bool := is_digit c || is_lower_letter c.

Fixpoint last_char (s : string) : option Ascii.ascii :=
  match s with
  | EmptyString => None
  | String c EmptyString => Some c
  | String _ s' => last_char s'
  end.

(** The shape [edge(inner-star edge)?] of the validation patterns: non-empty, first and
    last characters satisfy [edge], all satisfy [inner]. *)
Definition bracketed (edge inner : Ascii.ascii → bool) (s : string) : bool :=
  match s, last_char s with
  | String c _, Some d => edge c && edge d && string_all inner s
  | _, _ => false
  end.

(** strings.Split(s, sep) for a one-character separator. *)
Fixpoint strings_Split (sep : Ascii.ascii) (s : string) : list string :=
  match s with
  | EmptyString => [""]
  | String c s' =>
      if bool_decide (c = sep) then "" :: strings_Split sep s'
      else match strings_Split sep s' with
           | w :: ws => String c w :: ws
           | [] => [String c ""]
           end
  end.

Definition char_dash : Ascii.ascii := Ascii.ascii_of_nat 45.
Definition char_dot : Ascii.ascii := Ascii.ascii_of_nat 46.
Definition char_slash : Ascii.ascii := Ascii.ascii_of_nat 47.
Definition char_underscore : Ascii.ascii := Ascii.ascii_of_nat 95.

(** content.IsLabelValue's and the name part's pattern, without the length. *)
Definition label_name_pattern : string → bool :=
  bracketed is_alnum (λ c, is_alnum c || bool_decide (c = char_dash)
                           || bool_decide (c = char_underscore) || bool_decide (c = char_dot)).

(** IsDNS1123Subdomain *)
Definition IsDNS1123Subdomain (s : string) : bool :=
  (String.length s <=? 253)%nat &&
  forallb (bracketed is_lower_alnum (λ c, is_lower_alnum c || bool_decide (c = char_dash)))
          (strings_Split char_dot s).

(** validateLabelKey (IsQualifiedName) *)
Definition validateLabelKey (key : string) : bool :=
  let name_ok n := (String.length n <=? 63)%nat && label_name_pattern n in
  match strings_Split char_slash key with
  | [name] => name_ok name
  | [prefix; name] => IsDNS1123Subdomain prefix && name_ok name
  | _ => false
  end.

(** validateLabelValue (IsValidLabelValue) *)
Definition validateLabelValue (value : string) : bool :=
  (String.length value <=? 63)%nat && ((value =s "") || label_name_pattern value).

(** ** Selectors *)

Inductive SelOperator := OpEquals | OpIn | OpNotIn | OpExists | OpDoesNotExist.

Record Requirement := mkRequirement {
  req_key : string; req_op : SelOperator; req_values : list string }.

(** labels.Nothing(), or the conjunction of requirements (labels.Everything()
    is the empty one). *)
Inductive Selector := SelNothing | SelRequirements (rs : list Requirement).

Definition NewRequirement (key : string) (op : SelOperator) (vals : list string)
    : error + Requirement :=
  let arity_ok :=
    match op with
    | OpIn | OpNotIn => negb (length vals =? 0)%nat
    | OpEquals => (length vals =? 1)%nat
    | OpExists | OpDoesNotExist => (length vals =? 0)%nat
    end in
  if validateLabelKey key && arity_ok && forallb validateLabelValue vals
  then inr (mkRequirement key op vals)
  else inl (ErrNew ("invalid label selector requirement on key " +:+ Quote key)).

Definition selection_op (operator : string) : option SelOperator :=
  if operator =s "In" then Some OpIn
  else if operator =s "NotIn" then Some OpNotIn
  else if operator =s "Exists" then Some OpExists
  else if operator =s "DoesNotExist" then Some OpDoesNotExist
  else None.

Fixpoint requirements_of_labels (l : list (string * string)) : error + list Requirement :=
  match l with
  | [] => inr []
  | (k, v) :: l =>
      match NewRequirement k OpEquals [v] with
      | inl err => inl err
      | inr r => match requirements_of_labels l with
                 | inl err => inl err
                 | inr rs => inr (r :: rs)
                 end
      end
  end.

Fixpoint requirements_of_exprs (l : list LabelSelectorRequirement) : error + list Requirement :=
  match l with
  | [] => inr []
  | e :: l =>
      match selection_op (lsr_Operator e) with
      | None => inl (ErrNew (Quote (lsr_Operator e) +:+ " is not a valid label selector operator"))
      | Some op =>
          match NewRequirement (lsr_Key e) op (lsr_Values e) with
          | inl err => inl err
          | inr r => match requirements_of_exprs l with
                     | inl err => inl err
                     | inr rs => inr (r :: rs)
                     end
          end
      end
  end.

Definition LabelSelectorAsSelector (ps : option LabelSelector) : error + Selector :=
  match ps with
  | None => inr SelNothing
  | Some ps =>
      match requirements_of_labels (map_to_list (ls_MatchLabels ps)) with
      | inl err => inl err
      | inr rs =>
          match requirements_of_exprs (ls_MatchExpressions ps) with
          | inl err => inl err
          | inr rs' => inr (SelRequirements (rs ++ rs'))
          end
      end
  end.

Definition Requirement_Matches (r : Requirement) (ls : gmap string string) : bool :=
  match req_op r with
  | OpEquals | OpIn =>
      match ls !! req_key r with
      | None => false
      | Some val => bool_decide (val ∈ req_values r)
      end
  | OpNotIn =>
      match ls !! req_key r with
      | None => true
      | Some val => negb (bool_decide (val ∈ req_values r))
      end
  | OpExists => match ls !! req_key r with Some _ => true | None => false end
  | OpDoesNotExist => match ls !! req_key r with Some _ => false | None => true end
  end.

Definition Selector_Matches (s : Selector) (ls : gmap string string) : bool :=
  match s with
  | SelNothing => false
  | SelRequirements rs => forallb (λ r, Requirement_Matches r ls) rs
  end.

(** ** Properties *)

Lemma NewRequirement_inr k op vs r :
  NewRequirement k op vs = inr r → r = mkRequirement k op vs.
Proof. unfold NewRequirement. case_match; naive_solver. Qed.

Lemma requirements_of_labels_match l rs ls :
  requirements_of_labels l = inr rs →
  forallb (λ r, Requirement_Matches r ls) rs = true ↔
  ∀ k v, (k, v) ∈ l → ls !! k = Some v.
Proof.
  revert rs. induction l as [|[k v] l IH]; intros rs; simpl.
  { intros [= <-]. set_solver. }
  destruct (NewRequirement k OpEquals [v]) as [|r] eqn:Er; [done|].
  apply NewRequirement_inr in Er as ->.
  destruct (requirements_of_labels l) as [|rs'] eqn:El; [done|]. intros [= <-]. simpl.
  rewrite andb_true_iff, IH by done.
  unfold Requirement_Matches at 1. simpl.
  destruct (ls !! k) as [v'|] eqn:E.
  - rewrite bool_decide_eq_true, list_elem_of_singleton. set_solver.
  - set_solver.
Qed.

(** A node (or pod) is selected by a plain matchLabels selector exactly when
    it carries all its labels. *)
Lemma matchLabels_Matches m s ls :
  LabelSelectorAsSelector (Some (mkLabelSelector m [])) = inr s →
  Selector_Matches s ls = true ↔ m ⊆ ls.
Proof.
  simpl. destruct (requirements_of_labels (map_to_list m)) as [|rs] eqn:E; [done|].
  intros [= <-]. rewrite app_nil_r. simpl.
  rewrite (requirements_of_labels_match _ _ ls E), map_subseteq_spec.
  by setoid_rewrite elem_of_map_to_list.
Qed.
