(* ===== verification/Numbers.v ===== *)
(** * Numbers as text: strconv.Atoi, the %d verb, and the vendored
    k8s.io/apimachinery/pkg/util/intstr *)

From S2P Require Import Prelude GoLib Types Labels.

(** The %d verb. *)
Definition fmt_d (z : Z) : string := pretty z.

Definition digit_value (c : Ascii.ascii) : Z := Z.of_nat (Ascii.nat_of_ascii c) - 48.

(** The value of a string of decimal digits, after the prefix of value [acc]. *)
Fixpoint decimal_value (acc : Z) (s : string) : Z :=
  match s with
  | EmptyString => acc
  | String c s => decimal_value (acc * 10 + digit_value c) s
  end.

Definition is_decimal (s : string) : bool := negb (s =s "") && string_all is_digit s.

(** strconv.Atoi: an optional sign and decimal digits, in the range of int. *)
Definition Atoi (s : string) : error + Z :=
  let '(neg, digits) :=
    match s with
    | String c rest =>
        if bool_decide (c = Ascii.ascii_of_nat 45) then (true, rest)
        else if bool_decide (c = Ascii.ascii_of_nat 43) then (false, rest)
        else (false, s)
    | EmptyString => (false, s)
    end in
  if negb (is_decimal digits)
  then inl (ErrNew ("strconv.Atoi: parsing " +:+ Quote s +:+ ": invalid syntax"))
  else
    let v := decimal_value 0 digits in
    let v := if neg : bool then (- v)%Z else v in
    if (v <? MinInt64)%Z || (MaxInt64 <? v)%Z
    then inl (ErrNew ("strconv.Atoi: parsing " +:+ Quote s +:+ ": value out of range"))
    else inr v.

(** strings.TrimSuffix(s, "%"), when s has that suffix. *)
Fixpoint trim_percent (s : string) : option string :=
  match s with
  | EmptyString => None
  | String c EmptyString => if bool_decide (c = Ascii.ascii_of_nat 37) then Some "" else None
  | String c s => String c <$> trim_percent s
  end.

(** getIntOrPercentValueSafely: the value and whether it is a percentage. *)
Definition getIntOrPercentValueSafely (intOrStr : IntOrString) : error + (Z * bool) :=
  match intOrStr with
  | IntVal n => inr (n, false)
  | StrVal s =>
      match trim_percent s with
      | None => inl (ErrNew "invalid type: string is not a percentage")
      | Some digits =>
          match Atoi digits with
          | inl err => inl (Errorf_v ("invalid value " +:+ Quote s +:+ ": ") err)
          | inr v => inr (v, true)
          end
      end
  end.

(** math.Floor and math.Ceil of float64(value) * float64(total) / 100, as
    integers; the float computation gives these values while the product is
    below 2^53 in absolute value (the operator multiplies 10 by an int32). *)
Definition percent_floor (value total : Z) : Z := (value * total / 100)%Z.
Definition percent_ceil (value total : Z) : Z := (- ((- (value * total)) / 100))%Z.

Definition GetScaledValueFromIntOrPercent (intOrPercent : option IntOrString) (total : Z)
    (roundUp : bool) : error + Z :=
  match intOrPercent with
  | None => inl (ErrNew "nil value for IntOrString")
  | Some ip =>
      match getIntOrPercentValueSafely ip with
      | inl err => inl (Errorf_v "invalid value for IntOrString: " err)
      | inr (value, isPercent) =>
          inr (if isPercent
               then (if roundUp then percent_ceil value total else percent_floor value total)
               else value)
      end
  end.

(** The ceiling is the least integer that is at least value * total / 100. *)
Lemma percent_ceil_spec v t k : (percent_ceil v t <= k ↔ v * t <= 100 * k)%Z.
Proof.
  unfold percent_ceil.
  pose proof (Z.div_mod (- (v * t)) 100). pose proof (Z.mod_pos_bound (- (v * t)) 100).
  lia.
Qed.
