(* ===== verification/Net.v ===== *)
(** * Addresses: what the operator uses of package net, and the vendored
    github.com/apparentlymart/go-cidr

    net.SplitHostPort, net.JoinHostPort, net.ParseIP, net.ParseCIDR,
    net.IP.String and cidr.Host.  A net.IP is its list of bytes (4 or 16). *)

From S2P Require Import Prelude GoLib Types Labels Numbers.

Definition IP : Type := list Z.

(** net.IPNet: the masked address and the length of the prefix. *)
Record IPNet := mkIPNet { ipnet_IP : IP; ipnet_PrefixLen : Z }.

(** ** Host and port *)

Definition char_colon : Ascii.ascii := Ascii.ascii_of_nat 58.
Definition char_lbracket : Ascii.ascii := Ascii.ascii_of_nat 91.
Definition char_rbracket : Ascii.ascii := Ascii.ascii_of_nat 93.
Definition char_percent : Ascii.ascii := Ascii.ascii_of_nat 37.

Fixpoint contains_char (c : Ascii.ascii) (s : string) : bool :=
  match s with
  | EmptyString => false
  | String x s => bool_decide (x = c) || contains_char c s
  end.

(** The text before and after the first occurrence of [c]. *)
Fixpoint cut_first (c : Ascii.ascii) (s : string) : option (string * string) :=
  match s with
  | EmptyString => None
  | String x s' => if bool_decide (x = c) then Some ("", s')
                   else (λ p : string * string, (String x p.1, p.2)) <$> cut_first c s'
  end.

(** The text before and after the last occurrence of [c]. *)
Fixpoint cut_last (c : Ascii.ascii) (s : string) : option (string * string) :=
  match s with
  | EmptyString => None
  | String x s' =>
      match cut_last c s' with
      | Some p => Some (String x p.1, p.2)
      | None => if bool_decide (x = c) then Some ("", s') else None
      end
  end.

(** SplitHostPort *)
Definition SplitHostPort (hostport : string) : error + (string * string) :=
  let addrErr why := inl (ErrNew ("address " +:+ hostport +:+ ": " +:+ why)) in
  match cut_last char_colon hostport with
  | None => addrErr "missing port in address"
  | Some (before, port) =>
      match hostport with
      | String c rest =>
          if bool_decide (c = char_lbracket) then
            (* the first ']' just before the last ':' *)
            match cut_first char_rbracket hostport with
            | None => addrErr "missing ']' in address"
            | Some (inside, after) =>
                match after with
                | EmptyString => addrErr "missing port in address"
                | String d after' =>
                    if negb (inside +:+ "]" =s before) then
                      (if bool_decide (d = char_colon) then addrErr "too many colons in address"
                       else addrErr "missing port in address")
                    else
                      let host := match inside with String _ h => h | EmptyString => "" end in
                      if contains_char char_lbracket host || contains_char char_lbracket after
                      then addrErr "unexpected '[' in address"
                      else if contains_char char_rbracket after
                      then addrErr "unexpected ']' in address"
                      else inr (host, port)
                end
            end
          else if contains_char char_colon before then addrErr "too many colons in address"
          else if contains_char char_lbracket hostport then addrErr "unexpected '[' in address"
          else if contains_char char_rbracket hostport then addrErr "unexpected ']' in address"
          else inr (before, port)
      | EmptyString => addrErr "missing port in address"
      end
  end.

(** JoinHostPort *)
Definition JoinHostPort (host port : string) : string :=
  if contains_char char_colon host then "[" +:+ host +:+ "]:" +:+ port
  else host +:+ ":" +:+ port.

(** ** Parsing addresses (net/netip.ParseAddr without a zone) *)

(** One octet of a dotted address: decimal digits, no leading zero, at most 255. *)
Definition parse_octet (s : string) : option Z :=
  if negb (is_decimal s) then None
  else if match s with String c (String _ _) => bool_decide (c = Ascii.ascii_of_nat 48) | _ => false end
  then None
  else let v := decimal_value 0 s in
       if (255 <? v)%Z then None else Some v.

Definition parseIPv4 (s : string) : option IP :=
  match strings_Split char_dot s with
  | [a; b; c; d] =>
      a ← parse_octet a; b ← parse_octet b; c ← parse_octet c; d ← parse_octet d;
      Some [a; b; c; d]
  | _ => None
  end.

Definition hex_value (c : Ascii.ascii) : option Z :=
  let n := Z.of_nat (Ascii.nat_of_ascii c) in
  if between 48 57 c then Some (n - 48)%Z
  else if between 97 102 c then Some (n - 87)%Z
  else if between 65 70 c then Some (n - 55)%Z
  else None.

(** The hexadecimal digits at the head of [s]: their number, value and the rest. *)
Fixpoint hex_prefix (s : string) (off : nat) (acc : Z) : nat * Z * string :=
  match s with
  | String c s' => match hex_value c with
                   | Some v => hex_prefix s' (S off) (acc * 16 + v)%Z
                   | None => (off, acc, s)
                   end
  | EmptyString => (off, acc, s)
  end.

(** The loop of parseIPv6 over the groups: [ip] the bytes so far, [ellipsis] the
    position of "::".  Each turn appends at least two bytes and the loop stops at
    16, so 8 turns are enough. *)
Fixpoint parse_groups (fuel : nat) (s : string) (ip : IP) (ellipsis : option nat)
    : option (string * IP * option nat) :=
  match fuel with
  | O => Some (s, ip, ellipsis)
  | S fuel =>
      let '(off, acc, rest) := hex_prefix s 0 0 in
      if (off =? 0)%nat || (4 <? off)%nat then None
      else
        match rest with
        | String c _ =>
            if bool_decide (c = char_dot) then
              if match ellipsis with None => negb (length ip =? 12)%nat | Some _ => false end then None
              else if (16 <? length ip + 4)%nat then None
              else v4 ← parseIPv4 s; Some ("", ip ++ v4, ellipsis)
            else
              let ip := ip ++ [acc / 256; acc mod 256]%Z in
              if negb (bool_decide (c = char_colon)) then None
              else
                match rest with
                | String _ (String d more as rest') =>
                    if bool_decide (d = char_colon) then
                      match ellipsis with
                      | Some _ => None
                      | None =>
                          if more =s "" then Some ("", ip, Some (length ip))
                          else if (length ip <? 16)%nat then parse_groups fuel more ip (Some (length ip))
                          else Some (more, ip, Some (length ip))
                      end
                    else if (length ip <? 16)%nat then parse_groups fuel rest' ip ellipsis
                    else Some (rest', ip, ellipsis)
                | _ => None
                end
        | EmptyString => Some ("", ip ++ [acc / 256; acc mod 256]%Z, ellipsis)
        end
  end.

Definition parseIPv6 (s : string) : option IP :=
  let '(s, ellipsis) :=
    match s with
    | String a (String b rest) =>
        if bool_decide (a = char_colon) && bool_decide (b = char_colon)
        then (rest, Some 0%nat) else (s, None)
    | _ => (s, None)
    end in
  if (s =s "") && bool_decide (is_Some ellipsis) then Some (replicate 16 0%Z)
  else
    '(s, ip, ellipsis) ← parse_groups 8 s [] ellipsis;
    if negb (s =s "") then None
    else if (length ip <? 16)%nat then
      match ellipsis with
      | None => None
      | Some e => Some (take e ip ++ replicate (16 - length ip) 0%Z ++ drop e ip)
      end
    else match ellipsis with Some _ => None | None => Some ip end.

(** The first of '.', ':' and '%' decides the family. *)
Fixpoint address_kind (s : string) : option Ascii.ascii :=
  match s with
  | EmptyString => None
  | String c s' => if bool_decide (c = char_dot) || bool_decide (c = char_colon)
                      || bool_decide (c = char_percent)
                   then Some c else address_kind s'
  end.

(** netip.ParseAddr, an address with a zone being refused: 4 bytes, or 16. *)
Definition ParseAddr (s : string) : option IP :=
  match address_kind s with
  | Some c =>
      if bool_decide (c = char_dot) then parseIPv4 s
      else if bool_decide (c = char_colon) then
        (if contains_char char_percent s then None else parseIPv6 s)
      else None
  | None => None
  end.

(** As16: an IPv4 address in its 16-byte form. *)
Definition As16 (ip : IP) : IP :=
  if (length ip =? 4)%nat then replicate 10 0%Z ++ [255; 255]%Z ++ ip else ip.

(** net.ParseIP *)
Definition ParseIP (s : string) : option IP := As16 <$> ParseAddr s.

(** ** Numbers of addresses *)

(** big.Int.SetBytes and the bytes of a number. *)
Definition bytes_to_Z (ip : IP) : Z := foldl (λ acc b, acc * 256 + b)%Z 0%Z ip.

Fixpoint Z_to_bytes (n : nat) (v : Z) : IP :=
  match n with
  | O => []
  | S n => Z_to_bytes n (v / 256)%Z ++ [v mod 256]%Z
  end.

(** IP.Mask with a prefix of [n] bits. *)
Definition mask_prefix (ip : IP) (n : Z) : IP :=
  let bits := (8 * Z.of_nat (length ip))%Z in
  Z_to_bytes (length ip) (Z.shiftl (Z.shiftr (bytes_to_Z ip) (bits - n)) (bits - n)).

(** dtoi of the whole string: a decimal number below 2^24 - 1. *)
Definition dtoi (s : string) : option Z :=
  if negb (is_decimal s) then None
  else let v := decimal_value 0 s in
       if (16777215 <=? v)%Z then None else Some v.

(** net.ParseCIDR: its second result. *)
Definition ParseCIDR (s : string) : error + IPNet :=
  let bad := inl (ErrNew ("invalid CIDR address: " +:+ s)) in
  match cut_first char_slash s with
  | None => bad
  | Some (addr, mask) =>
      match ParseAddr addr, dtoi mask with
      | Some ip, Some n =>
          if (8 * Z.of_nat (length ip) <? n)%Z then bad
          else inr (mkIPNet (mask_prefix ip n) n)
      | _, _ => bad
      end
  end.

(** ip.To4() != nil *)
Definition is_4in6 (ip : IP) : bool :=
  (length ip =? 16)%nat && bool_decide (take 12 ip = replicate 10 0%Z ++ [255; 255]%Z).
Definition To4 (ip : IP) : option IP :=
  if (length ip =? 4)%nat then Some ip
  else if is_4in6 ip then Some (drop 12 ip) else None.

(** cidr.Host, for a host number that is not negative. *)
Definition insertNumIntoIP (ip : IP) (num : Z) (prefixLen : Z) : IP :=
  let totalBits := (8 * Z.of_nat (length ip))%Z in
  Z_to_bytes (length ip) (Z.lor (bytes_to_Z ip) (Z.shiftl num (totalBits - prefixLen))).

Definition cidr_Host (base : IPNet) (num : Z) : error + IP :=
  let ip := ipnet_IP base in
  let parentLen := ipnet_PrefixLen base in
  let addrLen := (8 * Z.of_nat (length ip))%Z in
  let maxHostNum := (2 ^ (addrLen - parentLen) - 1)%Z in
  if (maxHostNum <? num)%Z
  then inl (ErrNew ("prefix of " +:+ fmt_d parentLen +:+ " does not accommodate a host numbered "
                    +:+ fmt_d num))
  else
    let bitlength := match To4 ip with Some _ => 32%Z | None => 128%Z end in
    inr (insertNumIntoIP ip num bitlength).

(** ** Printing addresses *)

Definition print_IPv4 (ip : IP) : string := strings_Join (map fmt_d ip) ".".

Fixpoint hex_digits (fuel : nat) (v : Z) : string :=
  match fuel with
  | O => ""
  | S fuel =>
      let d := String (hex_digit (Z.to_nat (v mod 16))) "" in
      if (v <? 16)%Z then d else hex_digits fuel (v / 16)%Z +:+ d
  end.

(** The eight 16-bit groups of an address. *)
Fixpoint groups (ip : IP) : list Z :=
  match ip with
  | a :: b :: rest => (a * 256 + b)%Z :: groups rest
  | _ => []
  end.

(** The length of the run of zeros at the head. *)
Fixpoint zero_run (gs : list Z) : nat :=
  match gs with
  | g :: gs => if (g =? 0)%Z then S (zero_run gs) else 0
  | [] => 0
  end.

(** The first longest run of at least two zero groups: its start and end. *)
Fixpoint longest_run (gs : list Z) (i : nat) (best : option (nat * nat)) : option (nat * nat) :=
  match gs with
  | [] => best
  | g :: rest =>
      let l := zero_run gs in
      let best_len := match best with Some (a, b) => (b - a)%nat | None => 1%nat end in
      longest_run rest (S i) (if (best_len <? l)%nat then Some (i, (i + l)%nat) else best)
  end.

(** The loop of appendTo6: a colon between groups, "::" for the run. *)
Fixpoint print_groups (fuel : nat) (gs : list Z) (i : nat) (run : option (nat * nat)) : string :=
  match fuel with
  | O => ""
  | S fuel =>
      match gs !! i with
      | None => ""
      | Some g =>
          match run with
          | Some (a, b) =>
              if (i =? a)%nat then
                "::" +:+ match gs !! b with
                         | None => ""
                         | Some h => hex_digits 4 h +:+ print_groups fuel gs (S b) run
                         end
              else (if (i =? 0)%nat then "" else ":") +:+ hex_digits 4 g +:+ print_groups fuel gs (S i) run
          | None => (if (i =? 0)%nat then "" else ":") +:+ hex_digits 4 g +:+ print_groups fuel gs (S i) run
          end
      end
  end.

(** net.IP.String, for addresses of 4 or 16 bytes. *)
Definition IP_String (ip : IP) : string :=
  match To4 ip with
  | Some v4 => print_IPv4 v4
  | None => let gs := groups ip in print_groups 9 gs 0 (longest_run gs 0 None)
  end.

Example host_v4 : IP_String <$> (match ParseCIDR "172.30.0.0/16" with
  | inr n => match cidr_Host n 10 with inr ip => Some ip | _ => None end | _ => None end) = Some "172.30.0.10".
Proof. vm_compute. reflexivity. Qed.
Example host_v6 : IP_String <$> (match ParseCIDR "fd02::/112" with
  | inr n => match cidr_Host n 10 with inr ip => Some ip | _ => None end | _ => None end) = Some "fd02::a".
Proof. vm_compute. reflexivity. Qed.
Example host_small : (match ParseCIDR "10.0.0.0/30" with
  | inr n => match cidr_Host n 10 with inr ip => Some ip | _ => None end | _ => None end) = None.
Proof. vm_compute. reflexivity. Qed.
Example parse_v6_embedded : IP_String <$> ParseIP "2001:db8::1:10.0.0.1" = Some "2001:db8::1:a00:1".
Proof. vm_compute. reflexivity. Qed.
Example parse_v6_full : IP_String <$> ParseIP "1:2:3:4:5:6:7:8" = Some "1:2:3:4:5:6:7:8".
Proof. vm_compute. reflexivity. Qed.
Example parse_v6_bad : ParseIP "1:2:3:4:5:6:7::8" = None ∧ ParseIP "1:2:3:4:5:6:7:8:9" = None
  ∧ ParseIP "1.2.3" = None ∧ ParseIP "01.2.3.4" = None ∧ ParseIP "fe80::1%eth0" = None
  ∧ ParseIP "example.com" = None ∧ ParseIP "" = None.
Proof. vm_compute. repeat split. Qed.
Example split_ports : SplitHostPort "1.1.1.1:53" = inr ("1.1.1.1", "53")
  ∧ SplitHostPort "[fd00::1]:53" = inr ("fd00::1", "53")
  ∧ (∃ e, SplitHostPort "fd00::1" = inl e) ∧ (∃ e, SplitHostPort "1.1.1.1" = inl e).
Proof. vm_compute. repeat split; eauto. Qed.
