(* ===== verification/NetProps.v ===== *)
(** * Properties of addresses

    Parsed addresses are well formed, and cidr.Host numbers the hosts of a network. *)

From S2P Require Import Prelude GoLib Types Labels Numbers Net.

Definition byte (b : Z) : Prop := (0 <= b < 256)%Z.

(** An address: 4 or 16 bytes. *)
Definition wf_ip (ip : IP) : Prop := (length ip = 4 ∨ length ip = 16) ∧ Forall byte ip.

(** The number of bits of an address. *)
Definition bits (ip : IP) : Z := (8 * Z.of_nat (length ip))%Z.

(** ** Bytes and numbers *)

Lemma bytes_to_Z_snoc l b : bytes_to_Z (l ++ [b]) = (bytes_to_Z l * 256 + b)%Z.
Proof. unfold bytes_to_Z. by rewrite foldl_snoc. Qed.

Lemma Z_to_bytes_length n v : length (Z_to_bytes n v) = n.
Proof. revert v. induction n as [|n IH]; intros v; simpl; [done|]. rewrite length_app, IH. simpl. lia. Qed.

Lemma Z_to_bytes_byte n v : Forall byte (Z_to_bytes n v).
Proof.
  revert v. induction n as [|n IH]; intros v; simpl; [constructor|].
  apply Forall_app. split; [apply IH|]. constructor; [|constructor].
  unfold byte. apply Z.mod_pos_bound. lia.
Qed.

Lemma pow256_succ n : (256 ^ Z.of_nat (S n) = 256 * 256 ^ Z.of_nat n)%Z.
Proof. rewrite Nat2Z.inj_succ, Z.pow_succ_r; lia. Qed.

Lemma bytes_to_Z_to_bytes n v :
  (0 <= v < 256 ^ Z.of_nat n)%Z → bytes_to_Z (Z_to_bytes n v) = v.
Proof.
  revert v. induction n as [|n IH]; intros v Hv; cbn [Z_to_bytes].
  { change (256 ^ Z.of_nat 0)%Z with 1%Z in Hv. change (bytes_to_Z []) with 0%Z. lia. }
  rewrite pow256_succ in Hv. set (p := (256 ^ Z.of_nat n)%Z) in *. rewrite bytes_to_Z_snoc, IH.
  - pose proof (Z.div_mod v 256). lia.
  - split; [apply Z.div_pos; lia|]. apply Z.div_lt_upper_bound; lia.
Qed.

Lemma bytes_to_Z_range ip : Forall byte ip → (0 <= bytes_to_Z ip < 256 ^ Z.of_nat (length ip))%Z.
Proof.
  induction ip as [|b ip IH] using rev_ind; intros Hip.
  { change (0 <= 0 < 1)%Z. lia. }
  apply Forall_app in Hip as [Hip Hb]. apply Forall_cons_1 in Hb as [Hb _]. unfold byte in Hb.
  rewrite bytes_to_Z_snoc, length_app. simpl length. rewrite Nat.add_1_r, pow256_succ.
  specialize (IH Hip). lia.
Qed.

(** The bytes of the number of an address are the address. *)
Lemma Z_to_bytes_inverse ip : Forall byte ip → Z_to_bytes (length ip) (bytes_to_Z ip) = ip.
Proof.
  induction ip as [|b ip IH] using rev_ind; intros Hip; [done|].
  apply Forall_app in Hip as [Hip Hb]. apply Forall_cons_1 in Hb as [Hb _]. unfold byte in Hb.
  rewrite bytes_to_Z_snoc, length_app, Nat.add_1_r. cbn [Z_to_bytes].
  rewrite Z.div_add_l, (Z.div_small b), Z.add_0_r, IH by (done || lia). f_equal. f_equal.
  rewrite Z.add_comm, Z_mod_plus_full. apply Z.mod_small. lia.
Qed.

Lemma pow256_bits ip : (256 ^ Z.of_nat (length ip) = 2 ^ bits ip)%Z.
Proof. unfold bits. rewrite (Z.pow_mul_r 2 8) by lia. done. Qed.

(** ** Parsed addresses are well formed *)

Lemma decimal_value_nonneg acc s :
  (0 <= acc)%Z → string_all is_digit s = true → (0 <= decimal_value acc s)%Z.
Proof.
  revert acc. induction s as [|c s IH]; intros acc Ha Hs; simpl in *; [done|].
  to_prop. destruct Hs as [Hc Hs]. apply IH; [|done]. unfold digit_value, is_digit, between in *.
  to_prop. destruct Hc as [Hc _]. apply Nat.leb_le in Hc. lia.
Qed.

Lemma parse_octet_byte s v : parse_octet s = Some v → byte v.
Proof.
  unfold parse_octet. destruct (is_decimal s) eqn:Ed; cbn [negb]; [|done].
  match goal with |- (if ?b then _ else _) = _ → _ => destruct b end; [done|].
  destruct (255 <? decimal_value 0 s)%Z eqn:El; [done|]. intros [= <-]. unfold byte.
  apply Z.ltb_ge in El.
  unfold is_decimal in Ed. to_prop. destruct Ed as [_ Ed].
  pose proof (decimal_value_nonneg 0 s ltac:(lia) Ed). lia.
Qed.

Lemma parseIPv4_wf s ip : parseIPv4 s = Some ip → length ip = 4 ∧ Forall byte ip.
Proof.
  unfold parseIPv4. destruct (strings_Split char_dot s) as [|a [|b [|c [|d [|]]]]]; try done.
  destruct (parse_octet a) eqn:Ea; [|done]. destruct (parse_octet b) eqn:Eb; [|done].
  destruct (parse_octet c) eqn:Ec; [|done]. destruct (parse_octet d) eqn:Ed; [|done].
  intros [= <-]. split; [done|]. repeat constructor; eapply parse_octet_byte; eauto.
Qed.

Lemma hex_value_range c v : hex_value c = Some v → (0 <= v < 16)%Z.
Proof.
  unfold hex_value, between.
  repeat case_match; intros; simplify_eq; to_prop; rewrite ?Nat.leb_le in *; lia.
Qed.

Lemma hex_prefix_range s off acc off' acc' rest :
  (0 <= acc < 16 ^ Z.of_nat off)%Z → hex_prefix s off acc = (off', acc', rest) →
  (0 <= acc' < 16 ^ Z.of_nat off')%Z.
Proof.
  revert off acc. induction s as [|c s IH]; intros off acc Ha; simpl; [by intros [= <- <- <-]|].
  destruct (hex_value c) as [v|] eqn:Ev; [|by intros [= <- <- <-]].
  apply IH. apply hex_value_range in Ev.
  rewrite Nat2Z.inj_succ, Z.pow_succ_r by lia. lia.
Qed.

Lemma group_bytes acc off :
  (0 <= acc < 16 ^ Z.of_nat off)%Z → (off ≤ 4)%nat → byte (acc / 256) ∧ byte (acc mod 256).
Proof.
  intros Ha Ho. assert (16 ^ Z.of_nat off <= 16 ^ 4)%Z by (apply Z.pow_le_mono_r; lia).
  change (16 ^ 4)%Z with 65536%Z in *. unfold byte. split.
  - split; [apply Z.div_pos; lia|]. apply Z.div_lt_upper_bound; lia.
  - apply Z.mod_pos_bound. lia.
Qed.

(** The loop keeps an even number of bytes, at most 16, and the position of the
    ellipsis among them. *)
Lemma parse_groups_wf fuel s ip e s' ip' e' :
  (length ip < 16)%nat → Nat.Even (length ip) → Forall byte ip →
  (∀ x, e = Some x → (x ≤ length ip)%nat) →
  parse_groups fuel s ip e = Some (s', ip', e') →
  (length ip' ≤ 16)%nat ∧ Forall byte ip' ∧ (∀ x, e' = Some x → (x ≤ length ip')%nat).
Proof.
  revert s ip e. induction fuel as [|fuel IH]; intros s ip e Hl Hev Hb He; simpl.
  { intros [= <- <- <-]. split; [lia|done]. }
  destruct (hex_prefix s 0 0) as [[off acc] rest] eqn:Eh.
  apply hex_prefix_range in Eh; [|simpl; lia].
  destruct (off =? 0)%nat; [done|]. destruct (4 <? off)%nat eqn:E4; [done|].
  apply Nat.ltb_ge in E4. destruct (group_bytes acc off Eh E4) as [Hb1 Hb2].
  assert (Forall byte (ip ++ [acc / 256; acc mod 256]%Z)) as Hb'.
  { apply Forall_app. by rewrite !Forall_cons. }
  assert (length (ip ++ [acc / 256; acc mod 256]%Z) = length ip + 2)%nat as Hl'.
  { rewrite length_app. done. }
  assert (length ip ≤ 14)%nat as Hl14 by (destruct Hev; lia).
  assert (Nat.Even (length ip + 2)) as Hev' by (destruct Hev as [x ?]; exists (S x); lia).
  assert (∀ x, e = Some x → (x ≤ length ip + 2)%nat) as He'.
  { intros x Hx. specialize (He x Hx). lia. }
  simpl orb. cbv iota. destruct rest as [|c rest].
  { intros [= <- <- <-]. rewrite Hl'. split; [lia|]. done. }
  case_bool_decide.
  - match goal with |- (if ?b then _ else _) = _ → _ => destruct b end; [done|].
    destruct (16 <? length ip + 4)%nat eqn:E16; [done|]. apply Nat.ltb_ge in E16.
    destruct (parseIPv4 s) as [v4|] eqn:E4'; [|done]. apply parseIPv4_wf in E4' as [Hl4 Hb4].
    simpl. intros [= <- <- <-]. rewrite length_app. split; [lia|].
    split; [by apply Forall_app|]. intros x Hx. specialize (He x Hx). lia.
  - destruct (bool_decide (c = char_colon)); simpl; [|done]. destruct rest as [|d more]; [done|].
    rewrite !Hl'. case_bool_decide.
    + destruct e; [done|]. case_bool_decide.
      { intros [= <- <- <-]. rewrite Hl'. split; [lia|]. split; [done|]. intros x [= <-]. lia. }
      destruct (length ip + 2 <? 16)%nat eqn:E2.
      * apply Nat.ltb_lt in E2. apply IH; rewrite ?Hl'; try done. intros x [= <-]. lia.
      * intros [= <- <- <-]. rewrite Hl'. split; [lia|]. split; [done|]. intros x [= <-]. lia.
    + destruct (length ip + 2 <? 16)%nat eqn:E2.
      * apply Nat.ltb_lt in E2. apply IH; rewrite ?Hl'; done.
      * intros [= <- <- <-]. rewrite Hl'. split; [lia|]. done.
Qed.

Lemma parseIPv6_wf s ip : parseIPv6 s = Some ip → length ip = 16 ∧ Forall byte ip.
Proof.
  unfold parseIPv6.
  match goal with |- (let '(_, _) := ?x in _) = _ → _ => destruct x as [s1 e1] eqn:E1 end.
  assert (∀ x, e1 = Some x → (x ≤ 0)%nat) as He1.
  { repeat case_match; intros; simplify_eq; lia. }
  match goal with |- (if ?b then _ else _) = _ → _ => destruct b end.
  { intros [= <-]. split; [done|]. apply (Forall_replicate byte 16 0%Z). unfold byte. lia. }
  destruct (parse_groups 8 s1 [] e1) as [[[s2 ip2] e2]|] eqn:Eg; [|done]. simpl.
  apply parse_groups_wf in Eg as (Hl & Hb & He); [|simpl; lia|by exists 0%nat|constructor|done].
  destruct (negb (s2 =s "")); [done|]. destruct (length ip2 <? 16)%nat eqn:El.
  - apply Nat.ltb_lt in El. destruct e2 as [e|]; [|done]. intros [= <-]. specialize (He e eq_refl).
    rewrite !length_app, length_take, length_drop, length_replicate. split; [lia|].
    apply Forall_app. split; [by apply Forall_take|]. apply Forall_app. split; [|by apply Forall_drop].
    apply Forall_replicate. unfold byte. lia.
  - apply Nat.ltb_ge in El. destruct e2; [done|]. intros [= <-]. split; [lia|done].
Qed.

Lemma ParseAddr_wf s ip : ParseAddr s = Some ip → wf_ip ip.
Proof.
  unfold ParseAddr, wf_ip. repeat case_match; try done.
  - intros Hp. apply parseIPv4_wf in Hp. tauto.
  - intros Hp. apply parseIPv6_wf in Hp. tauto.
Qed.

(** ** Networks and their hosts *)

Lemma mask_prefix_value ip n :
  Forall byte ip → (0 <= n <= bits ip)%Z →
  length (mask_prefix ip n) = length ip ∧
  bytes_to_Z (mask_prefix ip n) = (bytes_to_Z ip / 2 ^ (bits ip - n) * 2 ^ (bits ip - n))%Z.
Proof.
  intros Hb Hn. unfold mask_prefix. fold (bits ip). split; [apply Z_to_bytes_length|].
  rewrite Z.shiftr_div_pow2, Z.shiftl_mul_pow2 by lia. apply bytes_to_Z_to_bytes.
  pose proof (bytes_to_Z_range ip Hb) as Hr.
  pose proof (Z.pow_pos_nonneg 2 (bits ip - n) ltac:(lia) ltac:(lia)).
  pose proof (Z.mul_div_le (bytes_to_Z ip) (2 ^ (bits ip - n))).
  pose proof (Z.div_pos (bytes_to_Z ip) (2 ^ (bits ip - n))). nia.
Qed.

Lemma lor_disjoint q h num :
  (0 <= h)%Z → (0 <= num < 2 ^ h)%Z → Z.lor (q * 2 ^ h) num = (q * 2 ^ h + num)%Z.
Proof.
  intros Hh Hn. rewrite <-Z.add_lor_land.
  assert (Z.land (q * 2 ^ h) num = 0)%Z as ->; [|lia].
  apply Z.bits_inj'. intros i Hi. rewrite Z.land_spec, Z.bits_0.
  destruct (Z.lt_ge_cases i h).
  - rewrite Z.mul_pow2_bits_low by lia. done.
  - destruct (Z.eq_dec num 0) as [->|]; [by rewrite Z.bits_0, andb_false_r|].
    rewrite (Z.bits_above_log2 num i), andb_false_r; [done|lia|]. apply Z.log2_lt_pow2; [lia|].
    eapply Z.lt_le_trans; [apply Hn|]. apply Z.pow_le_mono_r; lia.
Qed.

(** A network as ParseCIDR returns it. *)
Definition wf_net (net : IPNet) : Prop :=
  ∃ ip, wf_ip ip ∧ (0 <= ipnet_PrefixLen net <= bits ip)%Z ∧
        ipnet_IP net = mask_prefix ip (ipnet_PrefixLen net).

(** The address belongs to the network. *)
Definition in_net (net : IPNet) (ip : IP) : Prop :=
  length ip = length (ipnet_IP net) ∧ mask_prefix ip (ipnet_PrefixLen net) = ipnet_IP net.

Lemma dtoi_nonneg s n : dtoi s = Some n → (0 <= n)%Z.
Proof.
  unfold dtoi. destruct (is_decimal s) eqn:Ed; cbn [negb]; [|done]. cbv zeta.
  destruct (_ <=? _)%Z; [done|]. intros [= <-]. unfold is_decimal in Ed. to_prop.
  apply decimal_value_nonneg; [lia|]. tauto.
Qed.

Lemma ParseCIDR_wf s net : ParseCIDR s = inr net → wf_net net.
Proof.
  unfold ParseCIDR. destruct (cut_first char_slash s) as [[a m]|]; [|done].
  destruct (ParseAddr a) as [ip|] eqn:Ea; [|done]. destruct (dtoi m) as [n|] eqn:En; [|done].
  destruct (_ <? _)%Z eqn:El; [done|]. intros [= <-]. apply Z.ltb_ge in El. exists ip.
  split; [by eapply ParseAddr_wf|]. split; [|done]. split; [by eapply dtoi_nonneg|done].
Qed.

Lemma mask_prefix_byte ip n : Forall byte (mask_prefix ip n).
Proof. apply Z_to_bytes_byte. Qed.

Lemma length_mask_prefix ip n : length (mask_prefix ip n) = length ip.
Proof. apply Z_to_bytes_length. Qed.

Lemma wf_net_bits net :
  wf_net net → (0 <= ipnet_PrefixLen net <= bits (ipnet_IP net))%Z ∧ wf_ip (ipnet_IP net).
Proof.
  intros (ip & [Hl Hb] & Hn & ->). unfold wf_ip, bits. rewrite length_mask_prefix.
  split; [done|]. split; [done|]. apply mask_prefix_byte.
Qed.

(** The address of a network is a multiple of the number of its hosts. *)
Lemma wf_net_base net :
  wf_net net → ∃ q, (0 <= q)%Z ∧
    bytes_to_Z (ipnet_IP net) = (q * 2 ^ (bits (ipnet_IP net) - ipnet_PrefixLen net))%Z.
Proof.
  intros (ip & [Hl Hb] & Hn & ->). destruct (mask_prefix_value ip _ Hb Hn) as [Hlen ->].
  assert (bits (mask_prefix ip (ipnet_PrefixLen net)) = bits ip) as -> by (unfold bits; by rewrite Hlen).
  eexists. split; [|done].
  apply Z.div_pos; [apply bytes_to_Z_range, Hb|]. apply Z.pow_pos_nonneg; lia.
Qed.

(** The host numbers fit below the end of the address space. *)
Lemma host_in_range ip q h num :
  Forall byte ip → (0 <= h <= bits ip)%Z → bytes_to_Z ip = (q * 2 ^ h)%Z →
  (0 <= num < 2 ^ h)%Z → (0 <= q * 2 ^ h + num < 256 ^ Z.of_nat (length ip))%Z.
Proof.
  intros Hb Hh Hv Hn. pose proof (bytes_to_Z_range ip Hb) as Hr. rewrite Hv in Hr.
  rewrite pow256_bits in Hr |- *.
  assert (2 ^ bits ip = 2 ^ (bits ip - h) * 2 ^ h)%Z as Hp by (rewrite <-Z.pow_add_r by lia; f_equal; lia).
  rewrite Hp in *. pose proof (Z.pow_pos_nonneg 2 h ltac:(lia) ltac:(lia)).
  set (P := (2 ^ (bits ip - h))%Z) in *. set (H2 := (2 ^ h)%Z) in *.
  assert (q < P)%Z by (apply (Z.mul_lt_mono_pos_r H2); lia). nia.
Qed.

(** Adding a host number to the address of a network: the value of the result, and
    that it belongs to the network. *)
Lemma host_address net num :
  wf_net net → (0 <= num < 2 ^ (bits (ipnet_IP net) - ipnet_PrefixLen net))%Z →
  let ip := Z_to_bytes (length (ipnet_IP net)) (Z.lor (bytes_to_Z (ipnet_IP net)) num) in
  wf_ip ip ∧ bytes_to_Z ip = (bytes_to_Z (ipnet_IP net) + num)%Z ∧ in_net net ip.
Proof.
  intros Hnet Hn ip. destruct (wf_net_base net Hnet) as (q & Hq & Hbase).
  destruct (wf_net_bits net Hnet) as [Hbits [Hlen Hb]].
  set (h := (bits (ipnet_IP net) - ipnet_PrefixLen net)%Z) in *.
  assert (0 <= h <= bits (ipnet_IP net))%Z as Hh by lia.
  assert (bytes_to_Z ip = (bytes_to_Z (ipnet_IP net) + num)%Z) as Hval.
  { unfold ip. rewrite Hbase, lor_disjoint by lia. apply bytes_to_Z_to_bytes.
    by apply host_in_range. }
  assert (length ip = length (ipnet_IP net)) as Hl by apply Z_to_bytes_length.
  split; [split; [by rewrite Hl|apply Z_to_bytes_byte]|]. split; [done|]. split; [done|].
  unfold mask_prefix. rewrite Hval, Hbase, Hl. fold (bits (ipnet_IP net)). fold h.
  rewrite Z.shiftr_div_pow2, Z.shiftl_mul_pow2, Z.div_add_l, (Z.div_small num), Z.add_0_r
    by (try apply Z.pow_nonzero; lia).
  rewrite <-Hbase. apply Z_to_bytes_inverse, Hb.
Qed.

(** cidr.Host: the address is the number of the network plus the host number, and it
    belongs to the network; the call fails exactly when the network is too small.  An
    IPv4-mapped IPv6 network is excluded: there the host number is shifted by 96 bits. *)
Lemma cidr_Host_value net num :
  wf_net net → (0 <= num)%Z → is_4in6 (ipnet_IP net) = false →
  if bool_decide (num < 2 ^ (bits (ipnet_IP net) - ipnet_PrefixLen net))%Z
  then ∃ ip, cidr_Host net num = inr ip ∧ wf_ip ip ∧
             bytes_to_Z ip = (bytes_to_Z (ipnet_IP net) + num)%Z ∧ in_net net ip
  else ∃ err, cidr_Host net num = inl err.
Proof.
  intros Hnet Hn H46. unfold cidr_Host. fold (bits (ipnet_IP net)).
  set (h := (2 ^ (bits (ipnet_IP net) - ipnet_PrefixLen net))%Z).
  destruct (h - 1 <? num)%Z eqn:El; destruct (bool_decide (num < h)%Z) eqn:Eb; to_prop;
    rewrite ?Z.ltb_lt, ?Z.ltb_ge in El; try lia; [by eexists|].
  eexists. split; [done|]. destruct (wf_net_bits net Hnet) as [_ [Hlen _]].
  unfold insertNumIntoIP, To4. rewrite H46.
  assert (∀ b, (b = 8 * Z.of_nat (length (ipnet_IP net)))%Z →
    Z.shiftl num (8 * Z.of_nat (length (ipnet_IP net)) - b) = num) as Hshift.
  { intros b ->. rewrite Z.sub_diag. apply Z.shiftl_0_r. }
  rewrite Hshift; [by apply host_address|].
  destruct Hlen as [Hlen|Hlen]; rewrite Hlen; done.
Qed.

(** ** Printed IPv4 addresses parse back *)

(** Bytes are few: a property of all of them is checked by evaluation. *)
Lemma byte_forall (f : Z → bool) :
  forallb f (map Z.of_nat (seq 0 256)) = true → ∀ b, byte b → f b = true.
Proof.
  rewrite forallb_forall. intros Hf b Hb. unfold byte in Hb. apply Hf.
  apply in_map_iff. exists (Z.to_nat b). split; [lia|]. apply in_seq. lia.
Qed.

Lemma parse_octet_print b : byte b → parse_octet (fmt_d b) = Some b.
Proof.
  intros Hb. apply (bool_decide_eq_true_1 _).
  revert b Hb. apply (byte_forall (λ b, bool_decide (parse_octet (fmt_d b) = Some b))).
  vm_compute. reflexivity.
Qed.

Lemma print_octet_no_dot b : byte b → contains_char char_dot (fmt_d b) = false.
Proof.
  intros Hb. apply negb_true_iff.
  revert b Hb. apply (byte_forall (λ b, negb (contains_char char_dot (fmt_d b)))).
  vm_compute. reflexivity.
Qed.

Lemma print_octet_kind b : byte b → address_kind (fmt_d b) = None.
Proof.
  intros Hb. apply (bool_decide_eq_true_1 _).
  revert b Hb. apply (byte_forall (λ b, bool_decide (address_kind (fmt_d b) = None))).
  vm_compute. reflexivity.
Qed.

Lemma strings_Split_app sep a t :
  contains_char sep a = false → strings_Split sep (a +:+ String sep t) = a :: strings_Split sep t.
Proof.
  induction a as [|c a IH]; simpl; [by rewrite bool_decide_true|].
  rewrite orb_false_iff. intros [Hc Ha]. rewrite Hc, IH by done. done.
Qed.

Lemma strings_Split_single sep a : contains_char sep a = false → strings_Split sep a = [a].
Proof.
  induction a as [|c a IH]; simpl; [done|].
  rewrite orb_false_iff. intros [Hc Ha]. rewrite Hc, IH by done. done.
Qed.

Lemma address_kind_app a t :
  address_kind a = None → address_kind (a +:+ String char_dot t) = Some char_dot.
Proof.
  induction a as [|c a IH]; [done|]. simpl.
  destruct (bool_decide _ || bool_decide _ || bool_decide _); [done|]. apply IH.
Qed.

Lemma ParseAddr_print_IPv4 ip : length ip = 4%nat → Forall byte ip → ParseAddr (print_IPv4 ip) = Some ip.
Proof.
  intros Hl Hb. destruct ip as [|a [|b [|c [|d [|]]]]]; try done.
  rewrite !Forall_cons in Hb. destruct Hb as (Ha & Hb & Hc & Hd & _).
  change (print_IPv4 [a; b; c; d]) with
    (fmt_d a +:+ String char_dot (fmt_d b +:+ String char_dot (fmt_d c +:+ String char_dot (fmt_d d)))).
  unfold ParseAddr. rewrite address_kind_app by (by apply print_octet_kind).
  rewrite bool_decide_true by done. unfold parseIPv4.
  rewrite !strings_Split_app, strings_Split_single by (by apply print_octet_no_dot).
  by rewrite !parse_octet_print.
Qed.

Lemma wf_ip_print ip : wf_ip ip → length ip = 4%nat → ParseAddr (IP_String ip) = Some ip.
Proof.
  intros [_ Hb] Hl. unfold IP_String, To4. rewrite Hl. cbn. by apply ParseAddr_print_IPv4.
Qed.
