(* ===== verification/NetText.v ===== *)
(** * The text of IPv6 addresses

    net.IP.String prints an IPv6 address with "::" for its first longest run of zero
    groups, and the loop of netip.parseIPv6 reads the text back. *)

From S2P Require Import Prelude GoLib Types Labels Numbers Net NetProps.

(** ** Hexadecimal groups *)

(** A 16-bit group of an address. *)
Definition group (g : Z) : Prop := (0 <= g < 65536)%Z.

(** The text goes on with something other than a hexadecimal digit. *)
Definition no_hex_head (t : string) : Prop :=
  match t with String c _ => hex_value c = None | EmptyString => True end.

(** Digits that are read to the end do not depend on what follows them. *)
Lemma hex_prefix_app a t off acc off' acc' :
  hex_prefix a off acc = (off', acc', "") → hex_prefix (a +:+ t) off acc = hex_prefix t off' acc'.
Proof.
  revert off acc. induction a as [|c a IH]; intros off acc; [by intros [= -> ->]|].
  rewrite string_app_cons. simpl. destruct (hex_value c); [apply IH|done].
Qed.

Lemma hex_prefix_stop t off acc : no_hex_head t → hex_prefix t off acc = (off, acc, t).
Proof. destruct t as [|c t]; simpl; [done|]. by intros ->. Qed.

Lemma hex_value_digit v : (0 <= v < 16)%Z → hex_value (hex_digit (Z.to_nat v)) = Some v.
Proof.
  intros Hv. assert (∃ n, (n < 16)%nat ∧ v = Z.of_nat n) as (n & Hn & ->) by (exists (Z.to_nat v); lia).
  do 16 (destruct n as [|n]; [reflexivity|]). lia.
Qed.

(** The digits of a number are read as that number; there is one at least. *)
Lemma hex_digits_read fuel v off acc :
  (0 <= v < 16 ^ Z.of_nat (S fuel))%Z →
  ∃ n, (1 ≤ n ≤ S fuel)%nat ∧
    hex_prefix (hex_digits (S fuel) v) off acc = ((off + n)%nat, (acc * 16 ^ Z.of_nat n + v)%Z, "").
Proof.
  revert v off acc. induction fuel as [|fuel IH]; intros v off acc Hv.
  - exists 1%nat. split; [lia|]. change (16 ^ Z.of_nat 1)%Z with 16%Z in *. cbn [hex_digits].
    replace (v <? 16)%Z with true by (symmetry; apply Z.ltb_lt; lia).
    rewrite Z.mod_small by lia. simpl. rewrite hex_value_digit, Nat.add_1_r by lia. done.
  - rewrite Nat2Z.inj_succ, Z.pow_succ_r in Hv by lia. remember (S fuel) as f eqn:Ef.
    cbn [hex_digits]. destruct (v <? 16)%Z eqn:E.
    + apply Z.ltb_lt in E. exists 1%nat. split; [lia|]. rewrite Z.mod_small by lia. simpl.
      rewrite hex_value_digit, Nat.add_1_r by lia. change (16 ^ 1)%Z with 16%Z. done.
    + apply Z.ltb_ge in E. destruct (IH (v / 16)%Z off acc) as (n & Hn & Hr).
      { split; [apply Z.div_pos; lia|]. apply Z.div_lt_upper_bound; lia. }
      exists (S n). split; [lia|]. rewrite (hex_prefix_app _ _ _ _ _ _ Hr). cbn [hex_prefix].
      rewrite hex_value_digit by (apply Z.mod_pos_bound; lia).
      rewrite Nat.add_succ_r. f_equal. f_equal. rewrite Nat2Z.inj_succ, Z.pow_succ_r by lia.
      pose proof (Z.div_mod v 16). lia.
Qed.

(** A printed group: one to four digits, then the rest of the text. *)
Lemma hex_group_read g t :
  group g → no_hex_head t →
  ∃ n, (1 ≤ n ≤ 4)%nat ∧ hex_prefix (hex_digits 4 g +:+ t) 0 0 = (n, g, t).
Proof.
  intros Hg Ht. destruct (hex_digits_read 3 g 0 0 Hg) as (n & Hn & Hr).
  exists n. split; [done|]. rewrite (hex_prefix_app _ _ _ _ _ _ Hr). by apply hex_prefix_stop.
Qed.

(** Nothing but hexadecimal digits in a group. *)
Lemma hex_prefix_chars s off acc off' acc' c :
  hex_prefix s off acc = (off', acc', "") → hex_value c = None → contains_char c s = false.
Proof.
  revert off acc. induction s as [|x s IH]; intros off acc; simpl; [done|].
  destruct (hex_value x) eqn:Ex; [|done]. intros Hp Hc.
  rewrite (IH _ _ Hp Hc), orb_false_r. apply bool_decide_eq_false. congruence.
Qed.

Lemma hex_group_chars g c : group g → hex_value c = None → contains_char c (hex_digits 4 g) = false.
Proof.
  intros Hg. destruct (hex_digits_read 3 g 0 0 Hg) as (n & _ & Hr). by apply (hex_prefix_chars _ _ _ _ _ _ Hr).
Qed.

(** ** Groups of bytes *)

Definition group_bytes_of (g : Z) : IP := [g / 256; g mod 256]%Z.
Definition ungroup (gs : list Z) : IP := mjoin (map group_bytes_of gs).

Lemma ungroup_length gs : length (ungroup gs) = (2 * length gs)%nat.
Proof. induction gs as [|g gs IH]; [done|]. unfold ungroup in *. simpl in *. rewrite IH. lia. Qed.

Lemma ungroup_app gs hs : ungroup (gs ++ hs) = ungroup gs ++ ungroup hs.
Proof. unfold ungroup. rewrite map_app. apply join_app. Qed.

Lemma ungroup_zeros n : ungroup (replicate n 0%Z) = replicate (2 * n) 0%Z.
Proof.
  induction n as [|n IH]; [done|]. replace (2 * S n)%nat with (S (S (2 * n))) by lia.
  cbn [replicate]. rewrite <-IH. done.
Qed.

(** The groups of sixteen bytes, and the bytes of the groups. *)
Lemma ungroup_groups n ip :
  length ip = (2 * n)%nat → Forall byte ip →
  ungroup (groups ip) = ip ∧ length (groups ip) = n ∧ Forall group (groups ip).
Proof.
  revert ip. induction n as [|n IH]; intros ip Hl Hb.
  { destruct ip; [|done]. repeat split; constructor. }
  destruct ip as [|a [|b ip]]; [done|simpl in Hl; lia|]. simpl in Hl.
  rewrite !Forall_cons in Hb. destruct Hb as (Ha & Hb & Hip). unfold byte in Ha, Hb.
  destruct (IH ip ltac:(lia) Hip) as (Hu & Hn & Hg). simpl. unfold ungroup in *. simpl.
  rewrite Hu, Hn. split; [|split; [done|constructor; [unfold group; lia|done]]].
  unfold group_bytes_of. simpl. rewrite Z.div_add_l, (Z.div_small b), Z.add_0_r by lia.
  f_equal. f_equal. rewrite Z.add_comm, Z_mod_plus_full. apply Z.mod_small. lia.
Qed.

(** ** The run of zeros that is left out *)

(** A run of at least two zero groups. *)
Definition zeros_at (gs : list Z) (ab : nat * nat) : Prop :=
  (ab.1 + 2 ≤ ab.2 ≤ length gs)%nat ∧
  gs = take ab.1 gs ++ replicate (ab.2 - ab.1) 0%Z ++ drop ab.2 gs.

Lemma zero_run_split gs :
  (zero_run gs ≤ length gs)%nat ∧ gs = replicate (zero_run gs) 0%Z ++ drop (zero_run gs) gs.
Proof.
  induction gs as [|g gs [Hl IH]]; simpl; [done|]. destruct (g =? 0)%Z eqn:E; simpl.
  - apply Z.eqb_eq in E as ->. split; [lia|]. by rewrite <-IH.
  - split; [lia|done].
Qed.

Lemma longest_run_zeros pre gs best :
  (∀ ab, best = Some ab → zeros_at (pre ++ gs) ab) →
  ∀ ab, longest_run gs (length pre) best = Some ab → zeros_at (pre ++ gs) ab.
Proof.
  revert pre best. induction gs as [|g gs IH]; intros pre best Hbest; [done|].
  cbn [longest_run]. set (l := zero_run (g :: gs)).
  replace (pre ++ g :: gs) with ((pre ++ [g]) ++ gs) in * by (by rewrite <-app_assoc).
  replace (S (length pre)) with (length (pre ++ [g])) by (rewrite length_app; simpl; lia).
  apply IH. destruct (_ <? l)%nat eqn:El; [|done]. intros ab [= <-]. apply Nat.ltb_lt in El.
  rewrite <-app_assoc. simpl app. destruct (zero_run_split (g :: gs)) as [Hl Hs]. fold l in Hl, Hs.
  assert (2 ≤ l)%nat as H2.
  { destruct best as [[a b]|]; [|lia]. destruct (Hbest _ eq_refl) as [Hr _]. simpl in Hr. lia. }
  split; simpl fst; simpl snd.
  - rewrite length_app. lia.
  - rewrite take_app_length, drop_app_add. f_equal.
    replace (length pre + l - length pre)%nat with l by lia. exact Hs.
Qed.

(** ** Printing *)

(** Groups separated by colons. *)
Fixpoint show_groups (gs : list Z) : string :=
  match gs with
  | [] => ""
  | [g] => hex_digits 4 g
  | g :: gs => hex_digits 4 g +:+ String char_colon (show_groups gs)
  end.

Lemma show_groups_cons g gs :
  gs ≠ [] → show_groups (g :: gs) = hex_digits 4 g +:+ String char_colon (show_groups gs).
Proof. by destruct gs. Qed.

(** The eight groups, and every place of a run among them. *)
Lemma print_groups_run gs a b :
  (a + 2 ≤ b ≤ 8)%nat → length gs = 8%nat →
  print_groups 9 gs 0 (Some (a, b)) =
  show_groups (take a gs) +:+ "::" +:+ show_groups (drop b gs).
Proof.
  intros Hab Hl. destruct gs as [|g0 [|g1 [|g2 [|g3 [|g4 [|g5 [|g6 [|g7 [|]]]]]]]]]; try done. clear Hl.
  assert (a ∈ seq 0 7 ∧ b ∈ seq 2 7) as [Ha Hb] by (rewrite !elem_of_seq; lia).
  cbn [seq] in Ha, Hb. rewrite !elem_of_cons in Ha, Hb.
  destruct_or! Ha; destruct_or! Hb; subst; try lia; try (by apply not_elem_of_nil in Ha);
    try (by apply not_elem_of_nil in Hb);
    cbn -[hex_digits String.append]; repeat rewrite ?string_app_assoc, ?string_app_cons, ?string_app_nil_r; done.
Qed.

Lemma print_groups_all gs : length gs = 8%nat → print_groups 9 gs 0 None = show_groups gs.
Proof.
  intros Hl. destruct gs as [|g0 [|g1 [|g2 [|g3 [|g4 [|g5 [|g6 [|g7 [|]]]]]]]]]; try done.
  cbn -[hex_digits String.append]. by rewrite ?string_app_nil_r.
Qed.

(** ** Parsing *)

(** A printed group starts with a digit, so not with a colon. *)
Lemma hex_group_head g t :
  group g → ∃ d s, hex_digits 4 g +:+ t = String d s ∧ d ≠ char_colon.
Proof.
  intros Hg. destruct (hex_digits_read 3 g 0 0 Hg) as (n & Hn & Hr).
  destruct (hex_digits 4 g) as [|d s]; [simpl in Hr; simplify_eq; lia|].
  exists d, (s +:+ t). split; [done|]. intros ->.
  change (hex_value char_colon) with (@None Z) in Hr. cbn in Hr. by simplify_eq.
Qed.

Lemma show_groups_head gs t :
  gs ≠ [] → Forall group gs → ∃ d s, show_groups gs +:+ t = String d s ∧ d ≠ char_colon.
Proof.
  intros Hne Hgs. destruct gs as [|g gs]; [done|]. apply Forall_cons_1 in Hgs as [Hg _].
  destruct gs as [|g' gs]; [by apply hex_group_head|].
  rewrite show_groups_cons, string_app_assoc by done. by apply hex_group_head.
Qed.

(** One turn of the loop: the last group, a group before another one, and a group
    before the two colons. *)
Section turns.
Context (g : Z) (Hg : group g) (fuel : nat) (ip : IP).

Lemma turn_last e :
  parse_groups (S fuel) (hex_digits 4 g) ip e = Some ("", ip ++ group_bytes_of g, e).
Proof.
  destruct (hex_group_read g "" Hg I) as (n & Hn & Hr). rewrite string_app_nil_r in Hr.
  cbn [parse_groups]. rewrite Hr. cbn iota beta.
  by replace ((n =? 0)%nat || (4 <? n)%nat) with false by (symmetry; apply orb_false_iff;
    split; [apply Nat.eqb_neq|apply Nat.ltb_ge]; lia).
Qed.

Lemma turn_colon t e d s :
  t = String d s → d ≠ char_colon → (length ip + 2 < 16)%nat →
  parse_groups (S fuel) (hex_digits 4 g +:+ String char_colon t) ip e =
  parse_groups fuel t (ip ++ group_bytes_of g) e.
Proof.
  intros Ht Hd Hl. destruct (hex_group_read g (String char_colon t) Hg eq_refl) as (n & Hn & Hr).
  cbn [parse_groups]. rewrite Hr. cbn iota beta.
  replace ((n =? 0)%nat || (4 <? n)%nat) with false by (symmetry; apply orb_false_iff;
    split; [apply Nat.eqb_neq|apply Nat.ltb_ge]; lia).
  rewrite Ht. rewrite (bool_decide_false (char_colon = char_dot)), (bool_decide_true (char_colon = char_colon)),
    (bool_decide_false (d = char_colon)) by done. cbn [negb].
  rewrite length_app. by replace (length ip + length [g / 256; g mod 256]%Z <? 16)%nat with true
    by (symmetry; apply Nat.ltb_lt; simpl; lia).
Qed.

Lemma turn_ellipsis t :
  (length ip + 2 < 16)%nat →
  parse_groups (S fuel) (hex_digits 4 g +:+ "::" +:+ t) ip None =
  let ip' := ip ++ group_bytes_of g in
  if t =s "" then Some ("", ip', Some (length ip')) else parse_groups fuel t ip' (Some (length ip')).
Proof.
  intros Hl. change ("::" +:+ t) with (String char_colon (String char_colon t)).
  destruct (hex_group_read g (String char_colon (String char_colon t)) Hg eq_refl) as (n & Hn & Hr).
  cbn [parse_groups]. rewrite Hr. cbn iota beta.
  replace ((n =? 0)%nat || (4 <? n)%nat) with false by (symmetry; apply orb_false_iff;
    split; [apply Nat.eqb_neq|apply Nat.ltb_ge]; lia).
  rewrite (bool_decide_false (char_colon = char_dot)), (bool_decide_true (char_colon = char_colon)) by done.
  cbn [negb]. cbv zeta. destruct (t =s ""); [done|].
  by replace (length (ip ++ [g / 256; g mod 256]%Z) <? 16)%nat with true
    by (symmetry; apply Nat.ltb_lt; rewrite length_app; simpl; lia).
Qed.
End turns.

(** Groups up to the end of the text. *)
Lemma parse_show gs fuel ip e :
  gs ≠ [] → Forall group gs → (length gs ≤ fuel)%nat → (length ip + 2 * length gs ≤ 16)%nat →
  parse_groups fuel (show_groups gs) ip e = Some ("", ip ++ ungroup gs, e).
Proof.
  revert fuel ip. induction gs as [|g gs IH]; intros fuel ip Hne Hgs Hf Hl; [done|].
  apply Forall_cons_1 in Hgs as [Hg Hgs]. destruct fuel as [|fuel]; [simpl in Hf; lia|].
  destruct (decide (gs = [])) as [->|Hgs0]; [by apply turn_last|].
  rewrite show_groups_cons by done.
  destruct (show_groups_head gs "" Hgs0 Hgs) as (d & s & Hd & Hc). rewrite string_app_nil_r in Hd.
  assert (length gs ≠ 0)%nat by (by destruct gs).
  rewrite (turn_colon g Hg fuel ip _ e d s Hd Hc) by (simpl in Hl; lia).
  rewrite IH; [by rewrite <-app_assoc|done|done|simpl in Hf; lia|].
  rewrite length_app. simpl in *. lia.
Qed.

(** Groups up to the two colons. *)
Lemma parse_show_ellipsis gs fuel ip t :
  gs ≠ [] → Forall group gs → (length gs ≤ fuel)%nat → (length ip + 2 * length gs < 16)%nat →
  parse_groups fuel (show_groups gs +:+ "::" +:+ t) ip None =
  let ip' := ip ++ ungroup gs in
  if t =s "" then Some ("", ip', Some (length ip'))
  else parse_groups (fuel - length gs) t ip' (Some (length ip')).
Proof.
  revert fuel ip. induction gs as [|g gs IH]; intros fuel ip Hne Hgs Hf Hl; [done|].
  apply Forall_cons_1 in Hgs as [Hg Hgs]. destruct fuel as [|fuel]; [simpl in Hf; lia|].
  destruct (decide (gs = [])) as [->|Hgs0].
  { simpl in Hl. change (show_groups [g]) with (hex_digits 4 g).
    rewrite turn_ellipsis by (done || lia). cbn [length Nat.sub]. by rewrite Nat.sub_0_r. }
  rewrite show_groups_cons, string_app_assoc, string_app_cons by done.
  destruct (show_groups_head gs ("::" +:+ t) Hgs0 Hgs) as (d & s & Hd & Hc).
  assert (length gs ≠ 0)%nat by (by destruct gs).
  rewrite (turn_colon g Hg fuel ip _ None d s Hd Hc) by (simpl in Hl; lia).
  rewrite IH; [by rewrite <-app_assoc|done|done|simpl in Hf; lia|].
  rewrite length_app. simpl in *. lia.
Qed.

(** ** The round trip *)

Lemma address_kind_colon s :
  contains_char char_dot s = false → contains_char char_percent s = false →
  contains_char char_colon s = true → address_kind s = Some char_colon.
Proof.
  induction s as [|c s IH]; simpl; [done|]. rewrite !orb_false_iff, orb_true_iff.
  intros [Hd Hds] [Hp Hps] Hc. rewrite Hd, Hp. simpl. case_bool_decide; [by subst|].
  simpl. apply IH; [done|done|]. destruct Hc; [by to_prop|done].
Qed.

Lemma contains_char_app c a b : contains_char c (a +:+ b) = contains_char c a || contains_char c b.
Proof. induction a as [|x a IH]; [done|]. rewrite string_app_cons. simpl. by rewrite IH, orb_assoc. Qed.

Lemma show_groups_chars gs c :
  Forall group gs → hex_value c = None → c ≠ char_colon → contains_char c (show_groups gs) = false.
Proof.
  intros Hgs Hc Hn. induction gs as [|g gs IH]; [done|]. apply Forall_cons_1 in Hgs as [Hg Hgs].
  destruct (decide (gs = [])) as [->|]; [by apply hex_group_chars|].
  rewrite show_groups_cons, contains_char_app, hex_group_chars by done. simpl.
  rewrite IH, orb_false_r by done. apply bool_decide_eq_false. congruence.
Qed.

(** The test for a leading ellipsis. *)
Lemma no_leading_colons d s :
  d ≠ char_colon →
  match s with
  | String b rest => if bool_decide (d = char_colon) && bool_decide (b = char_colon)
                     then (rest, Some 0%nat) else (String d s, None)
  | EmptyString => (String d s, None)
  end = (String d s, None).
Proof. intros Hd. destruct s; [done|]. by rewrite (bool_decide_false (d = char_colon)). Qed.

Lemma parseIPv6_show gs : Forall group gs → length gs = 8%nat → parseIPv6 (show_groups gs) = Some (ungroup gs).
Proof.
  intros Hgs Hl. assert (gs ≠ []) as Hne by (by destruct gs).
  destruct (show_groups_head gs "" Hne Hgs) as (d & s & Hd & Hc). rewrite string_app_nil_r in Hd.
  assert (Hlen := ungroup_length gs). unfold parseIPv6. rewrite Hd.
  rewrite (no_leading_colons d s Hc), (bool_decide_false (is_Some None)), andb_false_r by (by intros []).
  rewrite <-Hd, parse_show by (done || (simpl; lia)). simpl. rewrite Hlen, Hl. done.
Qed.

(** The end of the parser: the bytes left out are put back where the colons were. *)
Definition expand (s : string) (ip : IP) (ellipsis : option nat) : option IP :=
  if negb (s =s "") then None
  else if (length ip <? 16)%nat then
    match ellipsis with
    | None => None
    | Some e => Some (take e ip ++ replicate (16 - length ip) 0%Z ++ drop e ip)
    end
  else match ellipsis with Some _ => None | None => Some ip end.

Lemma expand_run gs a b :
  length gs = 8%nat → zeros_at gs (a, b) →
  expand "" (ungroup (take a gs) ++ ungroup (drop b gs)) (Some (length (ungroup (take a gs)))) =
  Some (ungroup gs).
Proof.
  intros Hl [Hab Hgs]. simpl in Hab, Hgs. unfold expand. rewrite bool_decide_true by done. cbn [negb].
  assert (length (ungroup (take a gs) ++ ungroup (drop b gs)) = 16 - 2 * (b - a))%nat as ->.
  { rewrite length_app, !ungroup_length, length_take, length_drop. lia. }
  replace (16 - 2 * (b - a) <? 16)%nat with true by (symmetry; apply Nat.ltb_lt; lia).
  rewrite take_app_length, drop_app_length. rewrite Hgs at 3. rewrite !ungroup_app, ungroup_zeros.
  by replace (16 - (16 - 2 * (b - a)))%nat with (2 * (b - a))%nat by lia.
Qed.

(** The text before the two colons decides how parseIPv6 starts. *)
Lemma parseIPv6_ellipsis F t :
  Forall group F → (length F < 8)%nat →
  parseIPv6 (show_groups F +:+ "::" +:+ t) =
  if t =s "" then expand "" (ungroup F) (Some (length (ungroup F)))
  else '(s, ip, e) ← parse_groups (8 - length F) t (ungroup F) (Some (length (ungroup F)));
       expand s ip e.
Proof.
  intros HF Hl. destruct (decide (F = [])) as [->|HF0].
  { cbn [show_groups]. rewrite string_app_nil_l. change ("::" +:+ t) with (String char_colon (String char_colon t)).
    unfold parseIPv6. rewrite !bool_decide_true by done. cbn [andb].
    rewrite (bool_decide_true (is_Some (Some 0%nat))), andb_true_r by done. by destruct (t =s ""). }
  destruct (show_groups_head F ("::" +:+ t) HF0 HF) as (d & s & Hd & Hc).
  unfold parseIPv6. rewrite Hd.
  rewrite (no_leading_colons d s Hc), (bool_decide_false (is_Some None)), andb_false_r by (by intros []).
  rewrite <-Hd, parse_show_ellipsis by (done || (simpl; lia)). cbv zeta. rewrite app_nil_l.
  by destruct (t =s "").
Qed.

Lemma parseIPv6_run gs a b :
  Forall group gs → length gs = 8%nat → zeros_at gs (a, b) →
  parseIPv6 (show_groups (take a gs) +:+ "::" +:+ show_groups (drop b gs)) = Some (ungroup gs).
Proof.
  intros Hgs Hl Hz. assert (Hab := proj1 Hz). simpl in Hab.
  rewrite parseIPv6_ellipsis by (apply Forall_take, Hgs || (rewrite length_take; lia)).
  rewrite <-(expand_run gs a b Hl Hz). destruct (decide (drop b gs = [])) as [Hd|Hd].
  { rewrite Hd. cbn [show_groups]. rewrite bool_decide_true by done. by rewrite app_nil_r. }
  destruct (show_groups_head (drop b gs) "" Hd (Forall_drop _ _ _ Hgs)) as (c & s & Hs & _).
  rewrite string_app_nil_r in Hs. rewrite bool_decide_false by (by rewrite Hs).
  rewrite parse_show; [done|done|by apply Forall_drop| |];
    rewrite ?ungroup_length, !length_take, length_drop; lia.
Qed.

(** The printed text of sixteen bytes that are not an IPv4-mapped address. *)
Lemma ParseAddr_print_IPv6 ip :
  length ip = 16%nat → Forall byte ip → is_4in6 ip = false → ParseAddr (IP_String ip) = Some ip.
Proof.
  intros Hl Hb H46. destruct (ungroup_groups 8 ip Hl Hb) as (Hu & Hn & Hg).
  unfold IP_String, To4. rewrite Hl, H46. cbn [Nat.eqb]. cbv zeta.
  assert (∃ s, print_groups 9 (groups ip) 0 (longest_run (groups ip) 0 None) = s ∧
    parseIPv6 s = Some ip ∧ contains_char char_colon s = true ∧
    ∀ c, hex_value c = None → c ≠ char_colon → contains_char c s = false) as (s & -> & Hp & Hc & Hno).
  { eexists. split; [done|]. destruct (longest_run (groups ip) 0 None) as [[a b]|] eqn:Er.
    - assert (zeros_at (groups ip) (a, b)) as Hz.
      { by apply (longest_run_zeros [] (groups ip) None). }
      rewrite print_groups_run by (done || (destruct Hz as [Hz _]; simpl in Hz; lia)).
      rewrite parseIPv6_run, Hu by done. split; [done|]. split; [by rewrite !contains_char_app, orb_true_r|].
      intros c Hcv Hcc. rewrite !contains_char_app, !show_groups_chars by (done || by apply Forall_take || by apply Forall_drop).
      change (contains_char c "::") with (bool_decide (char_colon = c) || (bool_decide (char_colon = c) || false)).
      by rewrite !bool_decide_eq_false_2 by congruence.
    - rewrite print_groups_all, parseIPv6_show, Hu by done. split; [done|]. split.
      + destruct (groups ip) as [|g [|g' gs]]; [done|done|].
        rewrite show_groups_cons, contains_char_app by done. cbn [contains_char].
        by rewrite bool_decide_true, orb_true_r.
      + intros c Hcv Hcc. by apply show_groups_chars. }
  unfold ParseAddr. rewrite address_kind_colon by (done || by apply Hno).
  rewrite bool_decide_false, bool_decide_true by done. by rewrite Hno.
Qed.

(** net.ParseIP reads what net.IP.String prints: the address in its 16-byte form. *)
Lemma ParseIP_String ip : wf_ip ip → ParseIP (IP_String ip) = Some (As16 ip).
Proof.
  intros [Hl Hb]. unfold ParseIP. destruct (is_4in6 ip) eqn:E46.
  - unfold IP_String, To4. rewrite E46. unfold is_4in6 in E46. to_prop. destruct E46 as [E16 Ht].
    apply Nat.eqb_eq in E16. rewrite E16. cbn [Nat.eqb].
    rewrite ParseAddr_print_IPv4; [|rewrite length_drop; lia|by apply Forall_drop]. simpl. f_equal.
    unfold As16. rewrite length_drop, E16. cbn [Nat.sub Nat.eqb].
    rewrite <-(take_drop 12 ip) at 2. rewrite Ht. by rewrite <-app_assoc.
  - destruct Hl as [Hl|Hl]; [rewrite (wf_ip_print ip (conj (or_introl Hl) Hb) Hl); done|].
    by rewrite ParseAddr_print_IPv6.
Qed.
