(* ===== verification/Client.v ===== *)
(** * The Kubernetes API the operator runs against

    The API server and controller-runtime's client and cache are not part of
    the operator: they are an interface, the class [Client] of operations over
    an abstract world [W], with the behaviour the operator relies on in the
    class [ClientLaws].  [Mem] is a concrete in-memory server with a schedule
    of injected failures; it discharges the laws and makes every handler of the
    operator executable. *)

From stdpp Require Export propset.
From S2P Require Import Prelude GoLib Types Labels.

Create Rewrite HintDb dnsop_wp.

(** ** Kinds and objects *)

Inductive Kind :=
| KDNS | KDaemonSet | KService | KConfigMap | KNetworkPolicy | KNamespace
| KClusterRole | KClusterRoleBinding | KRole | KRoleBinding | KServiceAccount
| KServiceMonitor | KClusterOperator | KAPIServer | KNetwork | KNode | KPod.

#[export] Instance Kind_eq : EqDecision Kind.
Proof. solve_decision. Defined.

Definition obj (k : Kind) : Type :=
  match k with
  | KDNS => DNS | KDaemonSet => DaemonSet | KService => Service
  | KConfigMap => ConfigMap | KNetworkPolicy => NetworkPolicy
  | KNamespace => Namespace | KClusterRole => ClusterRole
  | KClusterRoleBinding => ClusterRoleBinding | KRole => Role
  | KRoleBinding => RoleBinding | KServiceAccount => ServiceAccount
  | KServiceMonitor => ServiceMonitor | KClusterOperator => ClusterOperator
  | KAPIServer => APIServer | KNetwork => Network | KNode => Node | KPod => Pod
  end.

Definition meta_of (k : Kind) : obj k → ObjectMeta :=
  match k with
  | KDNS => dns_meta | KDaemonSet => ds_meta | KService => svc_meta
  | KConfigMap => cm_meta | KNetworkPolicy => netpol_meta
  | KNamespace => ns_meta | KClusterRole => cr_meta
  | KClusterRoleBinding => crb_meta | KRole => role_meta
  | KRoleBinding => rb_meta | KServiceAccount => sa_meta
  | KServiceMonitor => sm_meta | KClusterOperator => co_meta
  | KAPIServer => as_meta | KNetwork => net_meta | KNode => node_meta | KPod => pod_meta
  end.

Definition key_of (k : Kind) (o : obj k) : NamespacedName :=
  mkNN (om_Namespace (meta_of k o)) (om_Name (meta_of k o)).

(** A failed call: a 404, or any other error, with its text. *)
Inductive APIError := NotFound (msg : string) | OtherError (msg : string).

(** errors.IsNotFound *)
Definition IsNotFound (e : APIError) : bool :=
  match e with NotFound _ => true | OtherError _ => false end.

(** The Go error value of a failed call. *)
Definition api_error (e : APIError) : error :=
  match e with NotFound m | OtherError m => ErrNew m end.

(** The options of a List call: a namespace (none for all) and a label
    selector (none for all). *)
Record ListOptions := mkListOptions {
  lo_Namespace : option string; lo_Selector : option Selector }.

(** What the options select, by namespace and labels. *)
Definition list_matches (l : ListOptions) (meta : ObjectMeta) : bool :=
  match lo_Namespace l with
  | Some ns => om_Namespace meta =s ns
  | None => true
  end &&
  match lo_Selector l with
  | Some sel => Selector_Matches sel (om_Labels meta)
  | None => true
  end.

(** ** The state monad of the handlers

    A handler runs on a world and returns a value or panics ([None]). *)

Definition M (W A : Type) : Type := W → option A * W.

#[export] Instance M_ret W : MRet (M W) := λ A a w, (Some a, w).
#[export] Instance M_bind W : MBind (M W) := λ A B f m w,
  let '(r, w') := m w in
  match r with
  | Some a => f a w'
  | None => (None, w')
  end.

(** A Go runtime panic. *)
Definition panic {W A} : M W A := λ w, (None, w).

(** Run a pure computation that can panic. *)
Definition lift_option {W A} (o : option A) : M W A := λ w, (o, w).

(** One call to the API: it returns a result and never panics. *)
Definition Op (W A : Type) : Type := W → A * W.
Definition call {W A} (op : Op W A) : M W A := λ w, let '(a, w') := op w in (Some a, w').

(** Read something of the running process. *)
Definition gets {W A} (f : W → A) : M W A := λ w, (Some (f w), w).

(** ** Weakest preconditions

    [wp m Q w]: run on [w], the handler returns (it does not panic) and its
    result and final world satisfy [Q]. *)

Definition wp {W A} (m : M W A) (Q : A → W → Prop) (w : W) : Prop :=
  match m w with
  | (Some a, w') => Q a w'
  | (None, _) => False
  end.

Section wp.
Context {W : Type}.

Lemma wp_ret {A} (a : A) Q (w : W) : wp (mret a) Q w ↔ Q a w.
Proof. done. Qed.

Lemma wp_bind {A B} (m : M W A) (f : A → M W B) Q w :
  wp (m ≫= f) Q w ↔ wp m (λ a w', wp (f a) Q w') w.
Proof. unfold wp, mbind, M_bind. by destruct (m w) as [[a|] w']. Qed.

Lemma wp_call {A} (op : Op W A) Q w : wp (call op) Q w ↔ Q (op w).1 (op w).2.
Proof. unfold wp, call. by destruct (op w). Qed.

Lemma wp_gets {A} (f : W → A) Q w : wp (gets f) Q w ↔ Q (f w) w.
Proof. done. Qed.

Lemma wp_lift {A} (a : A) Q (w : W) : wp (lift_option (Some a)) Q w ↔ Q a w.
Proof. done. Qed.

Lemma wp_mono {A} (m : M W A) (Q Q' : A → W → Prop) w :
  wp m Q w → (∀ a w', Q a w' → Q' a w') → wp m Q' w.
Proof. unfold wp. destruct (m w) as [[a|] w']; naive_solver. Qed.

(** A handler that returns has a result. *)
Lemma wp_run {A} (m : M W A) Q w : wp m Q w → ∃ a w', m w = (Some a, w') ∧ Q a w'.
Proof. unfold wp. destruct (m w) as [[a|] w']; naive_solver. Qed.

Lemma run_wp {A} (m : M W A) (Q : A → W → Prop) w a w' : m w = (Some a, w') → Q a w' → wp m Q w.
Proof. unfold wp. by intros ->. Qed.

End wp.

(** [wlp m Q w]: if the handler returns on [w], its result satisfies [Q]. *)
Definition wlp {W A} (m : M W A) (Q : A → W → Prop) (w : W) : Prop :=
  match m w with
  | (Some a, w') => Q a w'
  | (None, _) => True
  end.

Section wlp.
Context {W : Type}.

Lemma wlp_ret {A} (a : A) Q (w : W) : wlp (mret a) Q w ↔ Q a w.
Proof. done. Qed.

Lemma wlp_bind {A B} (m : M W A) (f : A → M W B) Q w :
  wlp (m ≫= f) Q w ↔ wlp m (λ a w', wlp (f a) Q w') w.
Proof. unfold wlp, mbind, M_bind. by destruct (m w) as [[a|] w']. Qed.

Lemma wlp_call {A} (op : Op W A) Q w : wlp (call op) Q w ↔ Q (op w).1 (op w).2.
Proof. unfold wlp, call. by destruct (op w). Qed.

Lemma wlp_gets {A} (f : W → A) Q w : wlp (gets f) Q w ↔ Q (f w) w.
Proof. done. Qed.

Lemma wlp_lift {A} (o : option A) Q (w : W) :
  wlp (lift_option o) Q w ↔ ∀ a, o = Some a → Q a w.
Proof. unfold wlp, lift_option. destruct o; naive_solver. Qed.

Lemma wlp_mono {A} (m : M W A) (Q Q' : A → W → Prop) w :
  wlp m Q w → (∀ a w', Q a w' → Q' a w') → wlp m Q' w.
Proof. unfold wlp. destruct (m w) as [[a|] w']; naive_solver. Qed.

Lemma wlp_and {A} (m : M W A) (Q Q' : A → W → Prop) w :
  wlp m Q w → wlp m Q' w → wlp m (λ a w', Q a w' ∧ Q' a w') w.
Proof. unfold wlp. destruct (m w) as [[a|] w']; naive_solver. Qed.

Lemma wlp_true {A} (m : M W A) (Q : A → W → Prop) w : (∀ a w', Q a w') → wlp m Q w.
Proof. unfold wlp. destruct (m w) as [[a|] w']; naive_solver. Qed.

Lemma wlp_run {A} (m : M W A) (Q : A → W → Prop) w a w' : wlp m Q w → m w = (Some a, w') → Q a w'.
Proof. unfold wlp. intros Hm He. by rewrite He in Hm. Qed.

End wlp.

#[export] Hint Rewrite @wlp_ret @wlp_bind @wlp_call @wlp_gets : dnsop_wp.
#[export] Hint Rewrite @wp_ret @wp_bind @wp_call @wp_gets @wp_lift : dnsop_wp.

(** ** The interface *)

Class Client (W : Type) := {
  client_Get : ∀ k, NamespacedName → Op W (APIError + obj k);
  client_Create : ∀ k, obj k → Op W (APIError + obj k);
  client_Update : ∀ k, obj k → Op W (APIError + obj k);
  client_Delete : ∀ k : Kind, NamespacedName → Op W (option APIError);
  client_StatusUpdate : ∀ k, obj k → Op W (APIError + obj k);
  cache_Get : ∀ k, NamespacedName → Op W (APIError + obj k);
  cache_List : ∀ k, ListOptions → Op W (APIError + list (obj k));
  time_Now : Op W Z;
}.

(** What the server keeps of an object sent to it: its key always, and the
    fields no defaulting or admission step touches. *)
Definition accepted (k : Kind) : obj k → obj k → Prop :=
  match k return obj k → obj k → Prop with
  | KDNS => λ o o', key_of KDNS o' = key_of KDNS o ∧ dns_Spec o' = dns_Spec o
                    ∧ om_Finalizers (dns_meta o') = om_Finalizers (dns_meta o)
  | KDaemonSet => λ o o', key_of KDaemonSet o' = key_of KDaemonSet o
      ∧ ps_NodeSelector (pt_Spec (dss_Template (ds_Spec o')))
        = ps_NodeSelector (pt_Spec (dss_Template (ds_Spec o)))
      ∧ ps_Tolerations (pt_Spec (dss_Template (ds_Spec o')))
        = ps_Tolerations (pt_Spec (dss_Template (ds_Spec o)))
  | KConfigMap => λ o o', key_of KConfigMap o' = key_of KConfigMap o
      ∧ default ∅ (cm_Data o') = default ∅ (cm_Data o)
  | KClusterRole => λ o o', key_of KClusterRole o' = key_of KClusterRole o
                            ∧ cr_Rules o' = cr_Rules o
  | KNamespace => λ o o', key_of KNamespace o' = key_of KNamespace o
                          ∧ om_Labels (ns_meta o) ⊆ om_Labels (ns_meta o')
  | k => λ o o', key_of k o' = key_of k o
  end.

(** What the status subresource keeps: the status that was sent, and of the
    rest what was stored. *)
Definition accepted_status (k : Kind) : option (obj k) → obj k → obj k → Prop :=
  match k return option (obj k) → obj k → obj k → Prop with
  | KDNS => λ old o o', key_of KDNS o' = key_of KDNS o ∧ dns_Status o' = dns_Status o
                        ∧ ∀ d, old = Some d → dns_Spec o' = dns_Spec d
  | KClusterOperator => λ old o o', key_of KClusterOperator o' = key_of KClusterOperator o
                                    ∧ co_Status o' = co_Status o
  | k => λ old o o', key_of k o' = key_of k o
  end.

(** One call that writes the object [o] of kind [k], between the views [v]
    before and [v'] after it: every other key keeps its object; the key of [o]
    keeps its object or holds an acceptable version of [o] (an error can be
    reported after the write); and a call that succeeds returns the stored
    object. *)
Definition write_spec (k : Kind) (o : obj k) (acc : obj k → Prop)
    (v v' : ∀ k, NamespacedName → option (obj k)) (r : APIError + obj k) : Prop :=
  (∀ k' n', (k', n') ≠ (k, key_of k o) → v' k' n' = v k' n') ∧
  (v' k (key_of k o) = v k (key_of k o) ∨ ∃ o', acc o' ∧ v' k (key_of k o) = Some o') ∧
  (∀ o', r = inr o' → acc o' ∧ v' k (key_of k o) = Some o').

(** An object that is being deleted and has no finalizer left: the server removes it
    instead of keeping it.  (Pods are kept for their grace period, and namespaces have
    finalizers of their own in their spec.) *)
Definition released (k : Kind) (o : obj k) : bool :=
  match k with
  | KNamespace | KPod => false
  | _ => bool_decide (om_DeletionTimestamp (meta_of k o) ≠ None) && bool_decide (om_Finalizers (meta_of k o) = [])
  end.

(** An update that releases the object [o]: it disappears, or the call fails and it stays. *)
Definition release_spec (k : Kind) (o : obj k) (v v' : ∀ k, NamespacedName → option (obj k))
    (r : APIError + obj k) : Prop :=
  (∀ k' n', (k', n') ≠ (k, key_of k o) → v' k' n' = v k' n') ∧
  (v' k (key_of k o) = v k (key_of k o) ∨ v' k (key_of k o) = None) ∧
  (∀ o', r = inr o' → accepted k o o' ∧ v' k (key_of k o) = None).

(** What the server keeps of the metadata sent to it. *)
Definition kept_meta (k : Kind) (o o' : obj k) : Prop :=
  om_OwnerReferences (meta_of k o') = om_OwnerReferences (meta_of k o) ∧
  om_Labels (meta_of k o) ⊆ om_Labels (meta_of k o').

Class ClientLaws (W : Type) `{Client W} := {
  view : W → ∀ k, NamespacedName → option (obj k);
  view_key : ∀ w k n o, view w k n = Some o → key_of k o = n;
  view_live : ∀ w k n o, view w k n = Some o → released k o = false;
  get_frame : ∀ k n w k' n', view (client_Get k n w).2 k' n' = view w k' n';
  get_found : ∀ k n w o, (client_Get k n w).1 = inr o → view w k n = Some o;
  get_key : ∀ k n w o, (client_Get k n w).1 = inr o → key_of k o = n;
  cache_get_key : ∀ k n w o, (cache_Get k n w).1 = inr o → key_of k o = n;
  get_missing : ∀ k n w m, (client_Get k n w).1 = inl (NotFound m) → view w k n = None;
  create_law : ∀ k o w,
    write_spec k o (accepted k o) (view w) (view (client_Create k o w).2) (client_Create k o w).1;
  release_law : ∀ k o w, released k o = true →
    release_spec k o (view w) (view (client_Update k o w).2) (client_Update k o w).1;
  update_law : ∀ k o w, released k o = false →
    write_spec k o (accepted k o) (view w) (view (client_Update k o w).2) (client_Update k o w).1;
  status_law : ∀ k o w,
    write_spec k o (accepted_status k (view w k (key_of k o)) o)
      (view w) (view (client_StatusUpdate k o w).2) (client_StatusUpdate k o w).1;
  create_meta : ∀ k o w o', view (client_Create k o w).2 k (key_of k o) = Some o' →
    view w k (key_of k o) = Some o' ∨ kept_meta k o o';
  update_meta : ∀ k o w o', view (client_Update k o w).2 k (key_of k o) = Some o' →
    view w k (key_of k o) = Some o' ∨ kept_meta k o o';
  (* The status of a DNS or a ClusterOperator is a subresource: only StatusUpdate writes it. *)
  create_status : ∀ o w o', view (client_Create KDNS o w).2 KDNS (key_of KDNS o) = Some o' →
    view w KDNS (key_of KDNS o) = Some o' ∨ st_Conditions (dns_Status o') = [];
  create_operator_status : ∀ o w o',
    view (client_Create KClusterOperator o w).2 KClusterOperator (key_of KClusterOperator o) = Some o' →
    view w KClusterOperator (key_of KClusterOperator o) = Some o' ∨ cos_Conditions (co_Status o') = [];
  update_status : ∀ o w o', view (client_Update KDNS o w).2 KDNS (key_of KDNS o) = Some o' →
    ∃ d, view w KDNS (key_of KDNS o) = Some d ∧ dns_Status o' = dns_Status d;
  (* An update that names the object by its UID is of that object. *)
  update_uid : ∀ k o w o', (client_Update k o w).1 = inr o' → om_UID (meta_of k o) ≠ "" →
    om_UID (meta_of k o') = om_UID (meta_of k o);
  delete_meta : ∀ k n w o', view (client_Delete k n w).2 k n = Some o' →
    ∃ o, view w k n = Some o ∧ kept_meta k o o';
  delete_frame : ∀ (k : Kind) n w k' n', (k', n') ≠ (k, n) →
    view (client_Delete k n w).2 k' n' = view w k' n';
  cache_get_frame : ∀ k n w k' n', view (cache_Get k n w).2 k' n' = view w k' n';
  cache_list_frame : ∀ k l w k' n', view (cache_List k l w).2 k' n' = view w k' n';
  cache_list_match : ∀ k l w os o, (cache_List k l w).1 = inr os → o ∈ os →
    list_matches l (meta_of k o) = true;
  now_frame : ∀ w k' n', view (time_Now w).2 k' n' = view w k' n';
}.

(** What a successful write stores of the object that was sent. *)
Class Stores (W : Type) `{ClientLaws W} (acc : ∀ k, obj k → obj k → Prop) := {
  stores_create : ∀ k o w,
    write_spec k o (acc k o) (view w) (view (client_Create k o w).2) (client_Create k o w).1;
  stores_update : ∀ k o w, released k o = false →
    write_spec k o (acc k o) (view w) (view (client_Update k o w).2) (client_Update k o w).1 }.

#[export] Instance Stores_accepted W `{ClientLaws W} : Stores W accepted.
Proof. split; [apply create_law|apply update_law]. Qed.

(** The cache is up to date: it lists what is in the cluster. *)
Class Informed (W : Type) `{ClientLaws W} := {
  listed : ∀ k l w os, (cache_List k l w).1 = inr os →
    ∀ o, o ∈ os ↔ (∃ n, view w k n = Some o) ∧ list_matches l (meta_of k o) = true }.

(** ** Footprints *)

Section footprint.
Context {W : Type} `{ClientLaws W}.

(** [touches S m]: running [m] leaves every object whose key is outside [S] as
    it was, whether or not it panics. *)
Definition touches {A} (S : propset (Kind * NamespacedName)) (m : M W A) : Prop :=
  ∀ w k n, (k, n) ∉ S → view (m w).2 k n = view w k n.

Lemma touches_ret {A} S (a : A) : touches S (mret a : M W A).
Proof. done. Qed.

Lemma touches_panic {A} S : touches S (panic : M W A).
Proof. done. Qed.

Lemma touches_lift {A} S (o : option A) : touches S (lift_option o : M W A).
Proof. done. Qed.

Lemma touches_gets {A} S (f : W → A) : touches S (gets f : M W A).
Proof. done. Qed.

Lemma touches_bind {A B} S (m : M W A) (f : A → M W B) :
  touches S m → (∀ a, touches S (f a)) → touches S (m ≫= f).
Proof.
  intros Hm Hf w k n Hk. unfold mbind, M_bind.
  specialize (Hm w k n Hk). destruct (m w) as [[a|] w']; simpl in *; [|done].
  by rewrite (Hf a w' k n Hk).
Qed.

(** [returns P m]: every value [m] returns satisfies [P]. *)
Definition returns {A} (P : A → Prop) (m : M W A) : Prop :=
  ∀ w a w', m w = (Some a, w') → P a.

Lemma touches_bind_returns {A B} S (P : A → Prop) (m : M W A) (f : A → M W B) :
  touches S m → returns P m → (∀ a, P a → touches S (f a)) → touches S (m ≫= f).
Proof.
  intros Hm HP Hf w k n Hk. unfold mbind, M_bind.
  specialize (Hm w k n Hk). specialize (HP w). destruct (m w) as [[a|] w']; simpl in *; [|done].
  rewrite (Hf a (HP a w' eq_refl) w' k n Hk). done.
Qed.

Lemma returns_ret {A} (P : A → Prop) (a : A) : P a → returns P (mret a : M W A).
Proof. intros HP w a' w' [= <- <-]. done. Qed.

Lemma returns_bind {A B} (P : A → Prop) (Q : B → Prop) (m : M W A) (f : A → M W B) :
  returns P m → (∀ a, P a → returns Q (f a)) → returns Q (m ≫= f).
Proof.
  intros HP Hf w b w'. unfold mbind, M_bind.
  specialize (HP w). destruct (m w) as [[a|] w1]; [|done]. intros Hb.
  exact (Hf a (HP a w1 eq_refl) w1 b w' Hb).
Qed.

Lemma returns_true {A} (m : M W A) : returns (λ _, True) m.
Proof. done. Qed.

(** An object a Get returns has the key that was asked for. *)
Lemma returns_Get k n : returns (λ r, ∀ o, r = inr o → key_of k o = n) (call (client_Get k n)).
Proof.
  intros w r w'. unfold call. pose proof (get_key k n w) as Hk.
  destruct (client_Get k n w) as [r' w1]. intros [= <- <-]. exact Hk.
Qed.

(** ... and is not one the server is about to remove. *)
Lemma returns_Get_live k n : returns (λ r, ∀ o, r = inr o → released k o = false) (call (client_Get k n)).
Proof.
  intros w r w'. unfold call. pose proof (get_found k n w) as Hf.
  destruct (client_Get k n w) as [r' w1]. intros [= <- <-] o Ho. by eapply view_live, Hf.
Qed.

(** Changing an object and keeping its finalizers and deletion time does not release it. *)
Lemma released_kept k (o o' : obj k) :
  om_DeletionTimestamp (meta_of k o') = om_DeletionTimestamp (meta_of k o) →
  om_Finalizers (meta_of k o') = om_Finalizers (meta_of k o) → released k o' = released k o.
Proof. intros Hd Hf. unfold released. by rewrite Hd, Hf. Qed.

Lemma returns_cache_Get k n : returns (λ r, ∀ o, r = inr o → key_of k o = n) (call (cache_Get k n)).
Proof.
  intros w r w'. unfold call. pose proof (cache_get_key k n w) as Hk.
  destruct (cache_Get k n w) as [r' w1]. intros [= <- <-]. exact Hk.
Qed.

Lemma returns_cache_List k l :
  returns (λ r, ∀ os o, r = inr os → o ∈ os → list_matches l (meta_of k o) = true)
    (call (cache_List k l)).
Proof.
  intros w r w'. unfold call. pose proof (cache_list_match k l w) as Hk.
  destruct (cache_List k l w) as [r' w1]. intros [= <- <-]. exact Hk.
Qed.

Lemma touches_weaken {A} S S' (m : M W A) : touches S m → S ⊆ S' → touches S' m.
Proof. intros Hm Hs w k n Hk. apply Hm. set_solver. Qed.

Lemma touches_call {A} S (op : Op W A) :
  (∀ w k n, (k, n) ∉ S → view (op w).2 k n = view w k n) → touches S (call op).
Proof.
  intros Hop w k n Hk. unfold call. specialize (Hop w k n Hk). by destruct (op w).
Qed.

Lemma touches_Get S k n : touches S (call (client_Get k n)).
Proof. apply touches_call. intros w k' n' _. apply get_frame. Qed.

Lemma touches_cache_Get S k n : touches S (call (cache_Get k n)).
Proof. apply touches_call. intros w k' n' _. apply cache_get_frame. Qed.

Lemma touches_cache_List S k l : touches S (call (cache_List k l)).
Proof. apply touches_call. intros w k' n' _. apply cache_list_frame. Qed.

Lemma touches_Now S : touches S (call time_Now).
Proof. apply touches_call. intros w k' n' _. apply now_frame. Qed.

Lemma touches_Create S k o : (k, key_of k o) ∈ S → touches S (call (client_Create k o)).
Proof. intros Hin. apply touches_call. intros w k' n' Hk. apply (create_law k o w). set_solver. Qed.

Lemma touches_Update S k o : (k, key_of k o) ∈ S → touches S (call (client_Update k o)).
Proof.
  intros Hin. apply touches_call. intros w k' n' Hk.
  destruct (released k o) eqn:Er; [apply (release_law k o w Er)|apply (update_law k o w Er)]; set_solver.
Qed.

Lemma touches_StatusUpdate S k o :
  (k, key_of k o) ∈ S → touches S (call (client_StatusUpdate k o)).
Proof. intros Hin. apply touches_call. intros w k' n' Hk. apply (status_law k o w). set_solver. Qed.

Lemma touches_Delete S k n : (k, n) ∈ S → touches S (call (client_Delete k n)).
Proof. intros Hin. apply touches_call. intros w k' n' Hk. apply delete_frame. set_solver. Qed.

(** The footprint as a postcondition. *)
Lemma wlp_touches {A} S (m : M W A) w :
  touches S m → wlp m (λ _ w', ∀ k n, (k, n) ∉ S → view w' k n = view w k n) w.
Proof.
  unfold touches, wlp. intros Hm. specialize (Hm w).
  destruct (m w) as [[a|] w']; [|done]. intros k n. apply Hm.
Qed.

(** The footprint as part of a postcondition. *)
Lemma wp_touches {A} S (m : M W A) Q w :
  touches S m → wp m Q w →
  wp m (λ a w', Q a w' ∧ ∀ k n, (k, n) ∉ S → view w' k n = view w k n) w.
Proof.
  unfold touches, wp. intros Hm HQ. specialize (Hm w).
  destruct (m w) as [[a|] w']; [|done]. split; [done|]. intros k n. apply Hm.
Qed.

End footprint.

#[export] Hint Resolve touches_ret touches_gets touches_panic touches_lift touches_Get touches_cache_Get
  touches_cache_List touches_Now touches_Create touches_Update touches_StatusUpdate
  touches_Delete : dnsop.

(** Walk through a handler, one call at a time. *)
Ltac footprint :=
  repeat (intros; first
    [ solve [auto with dnsop]
    | match goal with
      | |- touches ?S (call (cache_List ?k ?l)) => exact (touches_cache_List S k l)
      | |- touches ?S (call (client_Get ?k ?n)) => exact (touches_Get S k n)
      | |- touches ?S (call (cache_Get ?k ?n)) => exact (touches_cache_Get S k n)
      end
    | apply touches_bind
    | match goal with
      | |- touches _ (match ?x with _ => _ end) => destruct x
      end ]).
