(* ===== verification/Mem.v ===== *)
(** * An in-memory API server

    A concrete instance of the interface of [Client.v]: a store of objects, a
    schedule of failures (one entry per call; a [Some] entry makes that call
    fail without effect), a clock that ticks at every reading, and the trace of
    the writes performed.  It discharges [ClientLaws], so the laws are
    satisfiable, and runs the operator's handlers on concrete clusters. *)

From S2P Require Import Prelude GoLib Types Labels Client.

(** The objects, in the order they were created. *)
Record Entry := mkEntry { en_kind : Kind; en_name : NamespacedName; en_obj : obj en_kind }.
Notation Store := (list Entry) (only parsing).

Inductive Verb := VCreate | VUpdate | VDelete | VStatusUpdate.

Record Mem := mkMem {
  mem_store : Store; mem_faults : list (option APIError); mem_clock : Z;
  mem_trace : list (Verb * Kind * NamespacedName) }.

Fixpoint store_get (s : Store) (k : Kind) (n : NamespacedName) : option (obj k) :=
  match s with
  | [] => None
  | e :: s =>
      match decide (en_kind e = k) with
      | left eq => if decide (en_name e = n) then Some (eq_rect (en_kind e) obj (en_obj e) k eq)
                   else store_get s k n
      | right _ => store_get s k n
      end
  end.

Fixpoint store_put (s : Store) (k : Kind) (n : NamespacedName) (o : obj k) : Store :=
  match s with
  | [] => [mkEntry k n o]
  | e :: s => if decide ((en_kind e, en_name e) = (k, n)) then mkEntry k n o :: s else e :: store_put s k n o
  end.

Definition store_set (s : Store) (k : Kind) (n : NamespacedName) (o : option (obj k)) : Store :=
  match o with
  | Some o => store_put s k n o
  | None => filter (λ e, (en_kind e, en_name e) ≠ (k, n)) s
  end.

#[global] Arguments store_set : simpl never.

(** What the server shows of its store: an object is under its own name, and one that is
    being deleted is gone with its last finalizer. *)
Definition live (s : Store) (k : Kind) (n : NamespacedName) : option (obj k) :=
  match store_get s k n with
  | Some o => if released k o || negb (bool_decide (key_of k o = n)) then None else Some o
  | None => None
  end.

(** Take the next entry of the failure schedule. *)
Definition mem_fault (m : Mem) : option APIError * Mem :=
  match mem_faults m with
  | [] => (None, m)
  | f :: fs => (f, mkMem (mem_store m) fs (mem_clock m) (mem_trace m))
  end.

Definition mem_write (v : Verb) (k : Kind) (n : NamespacedName) (o : option (obj k)) (m : Mem) : Mem :=
  mkMem (store_set (mem_store m) k n o) (mem_faults m) (mem_clock m) (mem_trace m ++ [(v, k, n)]).

Definition mem_Get (k : Kind) (n : NamespacedName) : Op Mem (APIError + obj k) := λ m,
  let '(f, m) := mem_fault m in
  match f with
  | Some e => (match e with NotFound t => inl (OtherError t) | e => inl e end, m)
  | None => (match live (mem_store m) k n with
             | Some o => inr o
             | None => inl (NotFound "not found")
             end, m)
  end.

(** The first object with the status of the second, for the kinds whose status is a
    subresource. *)
Definition with_status (k : Kind) : obj k → obj k → obj k :=
  match k return obj k → obj k → obj k with
  | KDNS => λ o st, mkDNS (dns_meta o) (dns_Spec o) (dns_Status st)
  | KDaemonSet => λ o st, mkDaemonSet (ds_meta o) (ds_Spec o) (ds_Status st)
  | KClusterOperator => λ o st, mkClusterOperator (co_meta o) (co_Status st)
  | _ => λ o _, o
  end.

(** The object without a status. *)
Definition clear_status (k : Kind) : obj k → obj k :=
  match k return obj k → obj k with
  | KDNS => λ o, mkDNS (dns_meta o) (dns_Spec o) (mkDNSStatus "" "" [])
  | KDaemonSet => λ o, mkDaemonSet (ds_meta o) (ds_Spec o) (mkDaemonSetStatus 0 0 0)
  | KClusterOperator => λ o, mkClusterOperator (co_meta o) (mkCOStatus [] [] [])
  | _ => λ o, o
  end.

Definition mem_Create (k : Kind) (o : obj k) : Op Mem (APIError + obj k) := λ m,
  let '(f, m) := mem_fault m in
  match f with
  | Some e => (inl e, m)
  | None => match live (mem_store m) k (key_of k o) with
            | Some _ => (inl (OtherError "already exists"), m)
            | None => if released k o then (inl (OtherError "invalid"), m)
                      else let o' := clear_status k o in
                           (inr o', mem_write VCreate k (key_of k o) (Some o') m)
            end
  end.

Definition mem_Update (k : Kind) (o : obj k) : Op Mem (APIError + obj k) := λ m,
  let '(f, m) := mem_fault m in
  match f with
  | Some e => (inl e, m)
  | None => match live (mem_store m) k (key_of k o) with
            | None => (inl (NotFound "not found"), m)
            | Some old => let o' := with_status k o old in
                          (inr o', mem_write VUpdate k (key_of k o) (Some o') m)
            end
  end.

Definition mem_Delete (k : Kind) (n : NamespacedName) : Op Mem (option APIError) := λ m,
  let '(f, m) := mem_fault m in
  match f with
  | Some e => (Some e, m)
  | None => match live (mem_store m) k n with
            | None => (Some (NotFound "not found"), m)
            | Some _ => (None, mem_write VDelete k n None m)
            end
  end.

Definition mem_StatusUpdate (k : Kind) (o : obj k) : Op Mem (APIError + obj k) := λ m,
  let '(f, m) := mem_fault m in
  match f with
  | Some e => (inl e, m)
  | None => match live (mem_store m) k (key_of k o) with
            | None => (inl (NotFound "not found"), m)
            | Some old =>
                let o' := with_status k old o in
                (inr o', mem_write VStatusUpdate k (key_of k o) (Some o') m)
            end
  end.

Definition mem_List (k : Kind) (l : ListOptions) : Op Mem (APIError + list (obj k)) := λ m,
  let '(f, m) := mem_fault m in
  match f with
  | Some e => (inl e, m)
  | None =>
      let objs := omap (λ e, if bool_decide (en_kind e = k) then live (mem_store m) k (en_name e) else None)
                       (mem_store m) in
      (inr (filter (λ o, list_matches l (meta_of k o)) objs), m)
  end.

Definition mem_Now : Op Mem Z := λ m,
  (mem_clock m,
   mkMem (mem_store m) (mem_faults m) (mem_clock m + 1)%Z (mem_trace m)).

#[export] Instance Mem_Client : Client Mem := {|
  client_Get := mem_Get; client_Create := mem_Create; client_Update := mem_Update;
  client_Delete := mem_Delete; client_StatusUpdate := mem_StatusUpdate;
  cache_Get := mem_Get; cache_List := mem_List; time_Now := mem_Now |}.

(** The empty cluster, and adding objects to a cluster. *)
Definition mem0 : Mem := mkMem [] [] 1000000000000 [].

Definition mem_add (k : Kind) (o : obj k) (m : Mem) : Mem :=
  mkMem (store_set (mem_store m) k (key_of k o) (Some o)) (mem_faults m) (mem_clock m) (mem_trace m).

(** ** The laws *)

Lemma store_get_hit k n o s : store_get (mkEntry k n o :: s) k n = Some o.
Proof.
  simpl. destruct (decide (k = k)) as [e|]; [|done]. rewrite decide_True by done. by rewrite (proof_irrel e eq_refl).
Qed.

Lemma store_get_miss e s k n : (en_kind e, en_name e) ≠ (k, n) → store_get (e :: s) k n = store_get s k n.
Proof. intros Hne. simpl. destruct (decide _); [destruct (decide _)|]; naive_solver. Qed.

Lemma store_set_eq s k n o : store_get (store_set s k n o) k n = o.
Proof.
  destruct o as [o|]; unfold store_set.
  - induction s as [|e s IH]; cbn [store_put]; [apply store_get_hit|].
    destruct (decide _); [apply store_get_hit|by rewrite store_get_miss].
  - induction s as [|e s IH]; [done|]. rewrite filter_cons. destruct (decide _); [by rewrite store_get_miss|done].
Qed.

Lemma store_set_ne s k n o k' n' : (k', n') ≠ (k, n) → store_get (store_set s k n o) k' n' = store_get s k' n'.
Proof.
  intros Hne. destruct o as [o|]; unfold store_set.
  - induction s as [|e s IH]; cbn [store_put]; [by rewrite store_get_miss by (simpl; congruence)|].
    destruct (decide _) as [He|]; [by rewrite !store_get_miss by (simpl; congruence)|].
    cbn [store_get]. by rewrite IH.
  - induction s as [|e s IH]; [done|]. rewrite filter_cons. destruct (decide _) as [|He]; [cbn [store_get]; by rewrite IH|].
    rewrite store_get_miss; [done|]. intros Heq. apply He. congruence.
Qed.

Lemma mem_fault_store m : mem_store (mem_fault m).2 = mem_store m.
Proof. unfold mem_fault. by destruct (mem_faults m). Qed.

Lemma clear_status_accepted k o : accepted k o (clear_status k o).
Proof. destruct k; simpl; auto. Qed.

Lemma with_status_updated k old o : accepted k o (with_status k o old).
Proof. destruct k; simpl; auto. Qed.

Lemma with_status_accepted k old o :
  key_of k old = key_of k o → accepted_status k (Some old) o (with_status k old o).
Proof.
  intros Hk. destruct k; try exact Hk; (split; [exact Hk|]); [|done].
  split; [done|]. intros d [= <-]. done.
Qed.

Lemma live_set_eq s k n o o' : key_of k o' = n → o = Some o' →
  live (store_set s k n o) k n = if released k o' then None else Some o'.
Proof. intros Hk ->. unfold live. rewrite store_set_eq, bool_decide_true by done. by rewrite orb_false_r. Qed.

Lemma live_set_None s k n : live (store_set s k n None) k n = None.
Proof. unfold live. by rewrite store_set_eq. Qed.

Lemma live_set_ne s k n o k' n' : (k', n') ≠ (k, n) → live (store_set s k n o) k' n' = live s k' n'.
Proof. intros Hne. unfold live. by rewrite store_set_ne. Qed.

Lemma live_Some s k n o : live s k n = Some o → released k o = false ∧ key_of k o = n.
Proof.
  unfold live. destruct (store_get s k n) as [x|]; [|done].
  destruct (released k x) eqn:Er; simpl; [done|]. case_bool_decide; simpl; [|done]. by intros [= <-].
Qed.

Lemma key_with_status k old o : key_of k (with_status k old o) = key_of k old.
Proof. by destruct k. Qed.

Lemma key_clear_status k o : key_of k (clear_status k o) = key_of k o.
Proof. by destruct k. Qed.

Lemma released_with_status k old o : released k (with_status k old o) = released k old.
Proof. by destruct k. Qed.

Lemma released_clear_status k o : released k (clear_status k o) = released k o.
Proof. by destruct k. Qed.

Lemma kept_with_status k old o : kept_meta k old (with_status k old o).
Proof. by destruct k. Qed.

Lemma kept_clear_status k o : kept_meta k o (clear_status k o).
Proof. by destruct k. Qed.

Lemma write_spec_fail k o acc (s s' : ∀ k, NamespacedName → option (obj k)) e :
  s' = s → write_spec k o acc s s' (inl e).
Proof. intros ->. split; [done|]. split; [by left|]. naive_solver. Qed.

Lemma write_spec_ok k o acc (s : Store) o' :
  acc o' → released k o' = false → key_of k o' = key_of k o →
  write_spec k o acc (live s) (live (store_set s k (key_of k o) (Some o'))) (inr o').
Proof.
  intros Ha Hr Hk. split; [intros; by apply live_set_ne|].
  rewrite (live_set_eq _ _ _ _ o'), Hr by done. split; [eauto|]. naive_solver.
Qed.

Lemma release_spec_fail k o (s s' : ∀ k, NamespacedName → option (obj k)) e : s' = s → release_spec k o s s' (inl e).
Proof. intros ->. split; [done|]. split; [by left|]. naive_solver. Qed.

Lemma release_spec_ok k o old (s : Store) : released k o = true →
  release_spec k o (live s) (live (store_set s k (key_of k o) (Some (with_status k o old)))) (inr (with_status k o old)).
Proof.
  intros Hr. split; [intros; by apply live_set_ne|].
  rewrite (live_set_eq _ _ _ _ (with_status k o old)), released_with_status, Hr
    by (done || apply key_with_status).
  split; [by right|].
  intros o' [= <-]. split; [apply with_status_updated|done].
Qed.

Ltac mem_law :=
  intros; simpl in *; unfold mem_Get, mem_Create, mem_Update, mem_Delete, mem_StatusUpdate, mem_List in *;
  match goal with
  | |- context [mem_fault ?m] =>
      pose proof (mem_fault_store m); destruct (mem_fault m) as [f ?m']; simpl in *
  | H : context [mem_fault ?m] |- _ =>
      pose proof (mem_fault_store m); destruct (mem_fault m) as [f ?m']; simpl in *
  end;
  repeat case_match; simplify_eq/=; try congruence;
  try (apply write_spec_fail; congruence); try (apply release_spec_fail; congruence); eauto.

(** What is stored after a write, when the object shows. *)
Lemma live_written s k n o o' : live (store_set s k n (Some o)) k n = Some o' → o' = o.
Proof. unfold live. rewrite store_set_eq. case_match; congruence. Qed.

#[export] Program Instance Mem_Laws : ClientLaws Mem := {| view m := live (mem_store m) |}.
Next Obligation. intros w k n o Ho. by apply live_Some in Ho as []. Qed.
Next Obligation. intros w k n o Ho. by apply live_Some in Ho as []. Qed.
Next Obligation. mem_law. Qed.
Next Obligation. mem_law. Qed.
Next Obligation. mem_law. by eapply live_Some. Qed.
Next Obligation. mem_law. by eapply live_Some. Qed.
Next Obligation. mem_law. Qed.
Next Obligation.
  mem_law. rewrite <- H. apply write_spec_ok; [apply clear_status_accepted|by rewrite released_clear_status|apply key_clear_status].
Qed.
Next Obligation. mem_law. rewrite <- H0. by apply release_spec_ok. Qed.
Next Obligation.
  mem_law. rewrite <- H0. apply write_spec_ok; [apply with_status_updated|by rewrite released_with_status|apply key_with_status].
Qed.
Next Obligation.
  mem_law. rewrite <- H, H1. apply live_Some in H1 as [Hr Hk].
  apply write_spec_ok; [by apply with_status_accepted|by rewrite released_with_status|by rewrite key_with_status].
Qed.
Next Obligation.
  mem_law; try (left; congruence). right.
  match goal with H : live _ _ _ = Some o' |- _ => apply live_written in H as -> end. apply kept_clear_status.
Qed.
Next Obligation.
  mem_law; try (left; congruence). right.
  match goal with H : live _ _ _ = Some o' |- _ => apply live_written in H as -> end. apply kept_with_status.
Qed.
Next Obligation.
  mem_law; try (left; congruence). right.
  apply (live_written _ KDNS) in H as ->. done.
Qed.
Next Obligation.
  mem_law; try (left; congruence). right.
  apply (live_written _ KClusterOperator) in H as ->. done.
Qed.
Next Obligation.
  mem_law; [by exists o'; rewrite <- H0 ..|]. apply (live_written _ KDNS) in H as ->. exists o0. by rewrite <- H0.
Qed.
Next Obligation. mem_law. by destruct k. Qed.
Next Obligation.
  mem_law; try (exists o'; split; [congruence|by split]). by rewrite live_set_None in *.
Qed.
Next Obligation. mem_law. rewrite <- H0. by apply live_set_ne. Qed.
Next Obligation. mem_law. Qed.
Next Obligation. mem_law. Qed.
Next Obligation. 
  mem_law. match goal with H : _ ∈ filter _ _ |- _ => apply list_elem_of_filter in H as [? _] end.
  by apply Is_true_true.
Qed.
Next Obligation. done. Qed.

(** ** A cache that is up to date *)

Lemma store_get_elem s k n o : store_get s k n = Some o → ∃ e, e ∈ s ∧ en_kind e = k ∧ en_name e = n.
Proof.
  induction s as [|e s IH]; simpl; [done|]. intros Hg. destruct (decide (en_kind e = k)) as [He|He].
  - destruct (decide (en_name e = n)); [exists e; set_solver|]. destruct (IH Hg) as (e' & ? & ?). exists e'. set_solver.
  - destruct (IH Hg) as (e' & ? & ?). exists e'. set_solver.
Qed.

#[export] Instance Mem_informed : Informed Mem.
Proof.
  split. intros k l m os. simpl. unfold mem_List. pose proof (mem_fault_store m) as Hst.
  destruct (mem_fault m) as [[e|] m']; simpl in *; [done|]. intros [= <-] o. rewrite list_elem_of_filter, Hst.
  rewrite Is_true_true, (comm (∧)). apply and_iff_compat_r. rewrite list_elem_of_omap. split.
  - intros (e & _ & He). case_bool_decide; [by eexists|done].
  - intros [n Ho]. destruct (store_get (mem_store m) k n) as [o'|] eqn:Eg; [|unfold live in Ho; by rewrite Eg in Ho].
    apply store_get_elem in Eg as (e & He & Hk & Hn). exists e. split; [done|].
    rewrite bool_decide_true by done. by rewrite Hn.
Qed.
