(* ===== verification/Names.v ===== *)
(** * Names and constants: pkg/operator/controller/names.go, constants of
    controller.go, and pkg/operator/config *)

From S2P Require Import Prelude GoLib Types.

Definition controllerDaemonSetLabel : string := "dns.operator.openshift.io/daemonset-dns".
Definition nodeResolverDaemonSetLabelName : string := "dns.operator.openshift.io/daemonset-node-resolver".
Definition MetricsServingCertAnnotation : string := "service.beta.openshift.io/serving-cert-secret-name".
Definition DefaultOperandNamespace : string := "openshift-dns".
Definition DefaultOperatorName : string := "dns".
Definition DefaultDNSName : string := "default".
Definition DefaultOperatorNamespace : string := "openshift-dns-operator".
Definition DeploymentNameOfDNSOperator : string := "dns-operator".
Definition GlobalUserSpecifiedConfigNamespace : string := "openshift-config".
Definition caBundleFileName : string := "ca-bundle.crt".
Definition DefaultDNSNameResolverNamespace : string := "openshift-ovn-kubernetes".
Definition DefaultFeatureGate : string := "cluster".

(** Constants of controller.go. *)
Definition DefaultDNSController : string := "default".
Definition DNSControllerFinalizer : string := "dns.operator.openshift.io/dns-controller".

Definition DNSClusterOperatorName : NamespacedName := mkNN "" DefaultOperatorName.

Definition DefaultDNSOperatorDeploymentName : NamespacedName :=
  mkNN DefaultOperatorNamespace DeploymentNameOfDNSOperator.

Definition DefaultDNSNamespaceName : NamespacedName := mkNN "" DefaultDNSName.

Definition DefaultDNSOperandNamespaceName : NamespacedName := mkNN "" DefaultOperandNamespace.

Definition DNSDaemonSetName (dns : DNS) : NamespacedName :=
  mkNN DefaultOperandNamespace ("dns-" +:+ dns_Name dns).

Definition DNSDaemonSetLabel (dns : DNS) : string := dns_Name dns.

Definition DNSDaemonSetPodSelector (dns : DNS) : LabelSelector :=
  mkLabelSelector {[ controllerDaemonSetLabel := DNSDaemonSetLabel dns ]} [].

Definition DNSServiceName (dns : DNS) : NamespacedName :=
  mkNN "openshift-dns" ("dns-" +:+ dns_Name dns).

Definition DNSNetworkPolicyName (dns : DNS) : NamespacedName :=
  mkNN "openshift-dns" ("dns-" +:+ dns_Name dns).

Definition DNSConfigMapName (dns : DNS) : NamespacedName :=
  mkNN "openshift-dns" ("dns-" +:+ dns_Name dns).

Definition CABundleConfigMapName (sourceName : string) : NamespacedName :=
  mkNN "openshift-dns" ("ca-" +:+ sourceName).

Definition DNSServiceMonitorName (dns : DNS) : NamespacedName :=
  mkNN "openshift-dns" ("dns-" +:+ dns_Name dns).

Definition DNSMetricsSecretName (dns : DNS) : string :=
  "dns-" +:+ dns_Name dns +:+ "-metrics-tls".

Definition NodeResolverDaemonSetName : NamespacedName :=
  mkNN DefaultOperandNamespace "node-resolver".

Definition NodeResolverDaemonSetPodSelector : LabelSelector :=
  mkLabelSelector {[ nodeResolverDaemonSetLabelName := "" ]} [].

Definition FeatureGateClusterConfigName : NamespacedName := mkNN "" DefaultFeatureGate.

(** dnsOwnerRef of controller.go. *)
Definition dnsOwnerRef (dns : DNS) : OwnerReference :=
  mkOwnerReference "operator.openshift.io/v1" "DNS" (dns_Name dns) (om_UID (dns_meta dns))
                   (Some true).

(** The %s / %v text of a NamespacedName. *)
Definition nn_String (n : NamespacedName) : string := nn_Namespace n +:+ "/" +:+ nn_Name n.

(** operatorconfig.Config: the fields the controllers read. *)
Record Config := mkConfig {
  cfg_OperatorReleaseVersion : string; cfg_OperatorNamespace : string;
  cfg_CoreDNSImage : string; cfg_OpenshiftCLIImage : string;
  cfg_KubeRBACProxyImage : string }.

(** The reconciler struct of controller.go; its client and cache are the
    [Client] instance. *)
Record reconciler := mkReconciler {
  r_Config : Config; r_dnsNameResolverEnabled : bool;
  r_dnsNameResolverNamespaces : list string }.

(** A reconcile.Result; [RequeueAfter] is a Duration. *)
Record Result := mkResult { res_Requeue : bool; res_RequeueAfter : Z }.

Definition result0 : Result := mkResult false 0.
