(* ===== verification/Manifests.v ===== *)
(** * The embedded manifests: pkg/manifests

    Each function of manifests.go returns the object decoded from one YAML file
    under pkg/manifests/assets; here it is that object.  The assets are part of
    the binary, so the decoding succeeds or the program panics at its first
    use. *)

From S2P Require Import Prelude GoLib Types Names.

Definition OwningDNSLabel : string := "dns.operator.openshift.io/owning-dns".

Definition named (ns name : string) : ObjectMeta :=
  mkObjectMeta name ns "" "" ∅ ∅ [] [] None.

(** assets/networkpolicy-deny-all.yaml *)
Definition NetworkPolicyDenyAll : NetworkPolicy :=
  mkNetworkPolicy
    (mkObjectMeta "openshift-dns-deny-all" "openshift-dns" "" ""
       {[ OwningDNSLabel := "default" ]} ∅ [] [] None)
    (mkNetworkPolicySpec (mkLabelSelector ∅ []) [] [] ["Ingress"; "Egress"]).

(** assets/dns/namespace.yaml *)
Definition DNSNamespace : Namespace :=
  mkNamespace
    (mkObjectMeta "openshift-dns" "" "" ""
       (list_to_map [
          ("openshift.io/run-level", "0");
          ("openshift.io/cluster-monitoring", "true");
          ("pod-security.kubernetes.io/enforce", "privileged");
          ("pod-security.kubernetes.io/audit", "privileged");
          ("pod-security.kubernetes.io/warn", "privileged")])
       (list_to_map [
          ("openshift.io/node-selector", "");
          ("workload.openshift.io/allowed", "management")])
       [] [] None).

(** assets/dns/service-account.yaml *)
Definition DNSServiceAccount : ServiceAccount := mkServiceAccount (named "openshift-dns" "dns").

(** assets/dns/cluster-role.yaml *)
Definition DNSClusterRole : ClusterRole :=
  mkClusterRole (named "" "openshift-dns") [
    mkPolicyRule [""] ["endpoints"; "services"; "pods"; "namespaces"] ["list"; "watch"] ∅;
    mkPolicyRule ["discovery.k8s.io"] ["endpointslices"] ["list"; "watch"] ∅;
    mkPolicyRule ["authentication.k8s.io"] ["tokenreviews"] ["create"] ∅;
    mkPolicyRule ["authorization.k8s.io"] ["subjectaccessreviews"] ["create"] ∅ ].

(** assets/dns/cluster-role-binding.yaml *)
Definition DNSClusterRoleBinding : ClusterRoleBinding :=
  mkClusterRoleBinding (named "" "openshift-dns")
    [mkSubject "ServiceAccount" "dns" "openshift-dns"]
    (mkRoleRef "" "ClusterRole" "openshift-dns").

(** assets/dns/daemonset.yaml *)
Definition dns_container_manifest : Container :=
  mkContainer "dns" "" ["coredns"] ["-conf"; "/etc/coredns/Corefile"] []
    [ mkVolumeMount "config-volume" "/etc/coredns" true ∅;
      mkVolumeMount "tmp-dir" "/tmp" false ∅ ]
    (Some (mkProbe "/ready" 8181 "HTTP" 10 3 3 1 3 ∅))
    (Some (mkProbe "/health" 8080 "HTTP" 60 0 5 1 5 ∅))
    [ mkContainerPort "dns" 5353 "UDP"; mkContainerPort "dns-tcp" 5353 "TCP" ]
    (list_to_map [
       ("imagePullPolicy", "IfNotPresent");
       ("terminationMessagePolicy", "FallbackToLogsOnError");
       ("resources", "{requests: {cpu: 50m, memory: 70Mi}}");
       ("securityContext", "{readOnlyRootFilesystem: true}")]).

Definition kube_rbac_proxy_container_manifest : Container :=
  mkContainer "kube-rbac-proxy" "" [] [] []
    [ mkVolumeMount "metrics-tls" "/etc/tls/private" true ∅;
      mkVolumeMount "tmp-dir" "/tmp" false ∅ ]
    None None
    [ mkContainerPort "metrics" 9154 "" ]
    (list_to_map [
       ("terminationMessagePolicy", "FallbackToLogsOnError");
       ("resources", "{requests: {cpu: 10m, memory: 40Mi}}");
       ("securityContext", "{readOnlyRootFilesystem: true}")]).

Definition DNSDaemonSet : DaemonSet :=
  mkDaemonSet meta0
    (mkDaemonSetSpec None
       (mkPodTemplateSpec ∅
          {[ "target.workload.openshift.io/management" :=
               "{" +:+ dquote +:+ "effect" +:+ dquote +:+ ": "
               +:+ dquote +:+ "PreferredDuringScheduling" +:+ dquote +:+ "}" ]}
          (mkPodSpec
             [dns_container_manifest; kube_rbac_proxy_container_manifest]
             ∅ []
             [ mkVolume "config-volume"
                 (Some (mkConfigMapVolumeSource "" [mkKeyToPath "Corefile" "Corefile" None] None None))
                 None None None None;
               mkVolume "metrics-tls" None None None None None;
               mkVolume "tmp-dir" None None None (Some "{}") None ]
             None
             (list_to_map [
                ("serviceAccountName", "dns");
                ("priorityClassName", "system-node-critical");
                ("dnsPolicy", "Default")])))
       (mkDaemonSetUpdateStrategy "RollingUpdate"
          (Some (mkRollingUpdateDaemonSet (Some (IntVal 0)) (Some (StrVal "10%")))))
       9)
    (mkDaemonSetStatus 0 0 0).

(** assets/dns/service.yaml *)
Definition DNSService : Service :=
  mkService meta0
    (mkServiceSpec
       [ mkServicePort "dns" 53 "dns" "UDP" ∅;
         mkServicePort "dns-tcp" 53 "dns-tcp" "TCP" ∅;
         mkServicePort "metrics" 9154 "metrics" "TCP" ∅ ]
       ∅ "" [] [] None "" "" None (Some "PreferSameNode") "" ∅).

(** assets/dns/networkpolicy-allow.yaml *)
Definition DNSNetworkPolicy : NetworkPolicy :=
  mkNetworkPolicy meta0
    (mkNetworkPolicySpec (mkLabelSelector ∅ [])
       [ mkNetworkPolicyRule
           [mkNetworkPolicyPort "UDP" 5353; mkNetworkPolicyPort "TCP" 5353] [];
         mkNetworkPolicyRule [mkNetworkPolicyPort "TCP" 9154]
           [PeerNamespaceSelector
              (mkLabelSelector {[ "kubernetes.io/metadata.name" := "openshift-monitoring" ]} [])] ]
       [ mkNetworkPolicyRule [] [PeerIPBlock "0.0.0.0/0"; PeerIPBlock "::/0"] ]
       ["Ingress"; "Egress"]).

(** assets/dns/metrics/*.yaml *)
Definition MetricsClusterRole : ClusterRole :=
  mkClusterRole (named "" "dns-monitoring")
    [mkPolicyRule ["operator.openshift.io"] ["dnses"] ["get"] ∅].

Definition MetricsClusterRoleBinding : ClusterRoleBinding :=
  mkClusterRoleBinding (named "" "dns-monitoring")
    [mkSubject "ServiceAccount" "prometheus-k8s" "openshift-monitoring"]
    (mkRoleRef "rbac.authorization.k8s.io" "ClusterRole" "dns-monitoring").

Definition MetricsRole : Role :=
  mkRole (named "openshift-dns" "prometheus-k8s")
    [mkPolicyRule [""] ["services"; "endpoints"; "pods"] ["get"; "list"; "watch"] ∅].

Definition MetricsRoleBinding : RoleBinding :=
  mkRoleBinding (named "openshift-dns" "prometheus-k8s")
    [mkSubject "ServiceAccount" "prometheus-k8s" "openshift-monitoring"]
    (mkRoleRef "rbac.authorization.k8s.io" "Role" "prometheus-k8s").

(** assets/node-resolver/service-account.yaml *)
Definition NodeResolverServiceAccount : ServiceAccount :=
  mkServiceAccount (named "openshift-dns" "node-resolver").
