(* ===== verification/Yaml.v ===== *)
(** * A reader for the YAML of the assets

    The part of YAML the files under pkg/manifests/assets are written in: block mappings
    and sequences, plain and quoted scalars on one line, sequences and empty mappings in
    brackets, comments.  A text outside that part is refused, so that what the reader
    returns is what any YAML decoder returns. *)

From S2P Require Import Prelude GoLib Types Labels Numbers.

(** A decoded document, with the scalars resolved. *)
Inductive yaml : Type :=
| YNull
| YBool (b : bool)
| YInt (z : Z)
| YString (s : string)
| YSeq (l : list yaml)
| YMap (m : list (string * yaml)).

Module yaml_text.

Definition char_is (n : nat) (c : Ascii.ascii) : bool := (Ascii.nat_of_ascii c =? n)%nat.
Definition is_space : Ascii.ascii → bool := char_is 32.
Definition is_quote (c : Ascii.ascii) : bool := char_is 34 c || char_is 39 c.

Fixpoint split_on (sep : Ascii.ascii → bool) (s : string) : list string :=
  match s with
  | EmptyString => [EmptyString]
  | String c s =>
      if sep c then EmptyString :: split_on sep s
      else match split_on sep s with
           | w :: ws => String c w :: ws
           | [] => [String c EmptyString]
           end
  end.

Fixpoint leading_spaces (s : string) : nat :=
  match s with
  | String c s => if is_space c then S (leading_spaces s) else 0
  | EmptyString => 0
  end.

Fixpoint trim_left (s : string) : string :=
  match s with
  | String c s' => if is_space c then trim_left s' else s
  | EmptyString => s
  end.

Fixpoint trim_right (s : string) : string :=
  match s with
  | EmptyString => EmptyString
  | String c s => match trim_right s with
                  | EmptyString => if is_space c then EmptyString else String c EmptyString
                  | t => String c t
                  end
  end.

(** Cut a comment: a number sign at the start of the line or after a space, outside
    quotes; a quote opens where a word begins. *)
Fixpoint uncomment (quote : option Ascii.ascii) (blank : bool) (s : string) : string :=
  match s with
  | EmptyString => EmptyString
  | String c s =>
      match quote with
      | Some q => String c (uncomment (if Ascii.eqb c q then None else quote) false s)
      | None =>
          if blank && char_is 35 c then EmptyString
          else String c (uncomment (if blank && is_quote c then Some c else None) (is_space c) s)
      end
  end.

(** The lines that say something: their indentation and their text. *)
Definition lines (text : string) : list (nat * string) :=
  omap (λ l, let l := trim_right (uncomment None true l) in
             match trim_left l with
             | EmptyString => None
             | t => Some (leading_spaces l, t)
             end) (split_on (char_is 10) text).

(** "key: value" or "key:"; a quoted scalar is not a key here. *)
Fixpoint split_colon (s : string) : option (string * string) :=
  match s with
  | EmptyString => None
  | String c rest =>
      let next := '(k, v) ← split_colon rest; Some (String c k, v) in
      if char_is 58 c then
        match rest with
        | EmptyString => Some (EmptyString, EmptyString)
        | String d _ => if is_space d then Some (EmptyString, trim_left rest) else next
        end
      else next
  end.

Definition split_key (s : string) : option (string * string) :=
  match s with
  | String c _ => if is_quote c then None else split_colon s
  | EmptyString => None
  end.

(** "- item": the text of the item and its offset. *)
Definition item (s : string) : option (nat * string) :=
  match s with
  | String c rest =>
      if char_is 45 c then
        match rest with
        | EmptyString => Some (1, EmptyString)
        | String d _ => if is_space d then Some (S (leading_spaces rest), trim_left rest) else None
        end
      else None
  | EmptyString => None
  end.

(** ** Scalars *)

(** The text up to the closing quote, which ends the scalar. *)
Fixpoint quoted (q : Ascii.ascii) (s : string) : option string :=
  match s with
  | EmptyString => None
  | String c rest =>
      if Ascii.eqb c q then match rest with EmptyString => Some EmptyString | _ => None end
      else if char_is 92 c then None
      else String c <$> quoted q rest
  end.

(** Characters that give, or may give, a plain scalar another meaning at its start. *)
Definition indicator (c : Ascii.ascii) : bool :=
  existsb (λ n, char_is n c) [33; 34; 35; 37; 38; 39; 42; 43; 44; 45; 46; 60; 61; 62; 63; 64; 91; 93; 96; 123; 124; 125]%nat.

(** Characters of the other ways to write numbers and dates: digits, letters of
    hexadecimal numbers and exponents, signs, points, colons, underscores. *)
Definition number_like (c : Ascii.ascii) : bool :=
  let n := Ascii.nat_of_ascii c in
  is_digit c || (65 <=? n)%nat && (n <=? 70)%nat || (97 <=? n)%nat && (n <=? 102)%nat ||
  existsb (λ n, char_is n c) [43; 45; 46; 58; 84; 88; 90; 95; 111; 120]%nat.

(** A plain scalar is a string unless it reads as something else; numbers other than
    plain decimal ones, and the words YAML 1.1 takes for booleans, are refused. *)
Definition plain (s : string) : option yaml :=
  match s with
  | EmptyString => None
  | String c _ =>
      if indicator c then None
      else if bool_decide (s ∈ ["null"; "Null"; "NULL"; "~"]) then Some YNull
      else if s =s "true" then Some (YBool true)
      else if s =s "false" then Some (YBool false)
      else if bool_decide (s ∈ ["y"; "Y"; "yes"; "Yes"; "YES"; "n"; "N"; "no"; "No"; "NO"; "True"; "TRUE"; "False";
                                "FALSE"; "on"; "On"; "ON"; "off"; "Off"; "OFF"]) then None
      else if s =s "0" then Some (YInt 0)
      else if is_digit c && negb (char_is 48 c) && is_decimal s then Some (YInt (decimal_value 0 s))
      else if is_digit c && string_all number_like s then None
      else Some (YString s)
  end.

Definition atom (s : string) : option yaml :=
  match s with
  | String c rest => if is_quote c then YString <$> quoted c rest else plain s
  | EmptyString => None
  end.

(** What a line says after a key or a dash. *)
Definition scalar (s : string) : option yaml :=
  match s with
  | String c rest =>
      if char_is 91 c then
        match rev (split_on (char_is 93) rest) with
        | EmptyString :: [inner] =>
            if trim_left inner =s "" then Some (YSeq [])
            else YSeq <$> mapM (λ w, atom (trim_right (trim_left w))) (split_on (char_is 44) inner)
        | _ => None
        end
      else if s =s "{}" then Some (YMap [])
      else atom s
  | EmptyString => None
  end.

(** ** Blocks *)

Fixpoint span {A} (p : A → bool) (l : list A) : list A * list A :=
  match l with
  | x :: l' => if p x then let '(a, b) := span p l' in (x :: a, b) else ([], l)
  | [] => ([], [])
  end.

(** A node written in the given lines; a sequence and a mapping from their
    indentation.  The fuel bounds the number of nodes, dashes and keys. *)
Fixpoint node (fuel : nat) (ls : list (nat * string)) : option yaml :=
  match fuel with
  | 0 => None
  | S fuel =>
      match ls with
      | [] => Some YNull
      | (i, s) :: rest =>
          if item s then YSeq <$> items fuel i ls
          else if split_key s then YMap <$> entries fuel i ls
          else match rest with [] => scalar s | _ => None end
      end
  end
with items (fuel : nat) (i : nat) (ls : list (nat * string)) : option (list yaml) :=
  match fuel with
  | 0 => None
  | S fuel =>
      match ls with
      | [] => Some []
      | (j, s) :: rest =>
          if (i =? j)%nat then
            '(offset, text) ← item s;
            let '(body, rest) := span (λ l : nat * string, (i <? l.1)%nat) rest in
            y ← node fuel (if text =s "" then body else (i + offset, text) :: body);
            ys ← items fuel i rest;
            Some (y :: ys)
          else None
      end
  end
with entries (fuel : nat) (i : nat) (ls : list (nat * string)) : option (list (string * yaml)) :=
  match fuel with
  | 0 => None
  | S fuel =>
      match ls with
      | [] => Some []
      | (j, s) :: rest =>
          if (i =? j)%nat then
            '(k, v) ← split_key s;
            let '(body, rest) :=
              if v =s "" then
                span (λ l : nat * string, (i <? l.1)%nat || ((i =? l.1)%nat && if item l.2 then true else false)) rest
              else ([], rest) in
            y ← (if v =s "" then node fuel body else scalar v);
            kys ← entries fuel i rest;
            if bool_decide (k ∈ kys.*1) then None else Some ((k, y) :: kys)
          else None
      end
  end.

End yaml_text.

(** The document a text is. *)
Definition read_yaml (text : string) : option yaml :=
  let ls := yaml_text.lines text in yaml_text.node (4 * length ls + 4) ls.
