(* ===== verification/Embedded.v ===== *)
(** * The files embedded in the operator: pkg/manifests/assets

    The texts of the files, as they are.  A double quote is written as a grave accent,
    which does not occur in them. *)

From S2P Require Import Prelude GoLib.

Definition with_quotes : string → string :=
  string_map (λ c, if (Ascii.nat_of_ascii c =? 96)%nat then Ascii.ascii_of_nat 34 else c).

(** assets/networkpolicy-deny-all.yaml *)
Definition networkpolicy_deny_all_text : string := with_quotes
"# Default deny all policy for all pods in the namespace
apiVersion: networking.k8s.io/v1
kind: NetworkPolicy
metadata:
  name: openshift-dns-deny-all
  namespace: openshift-dns
  labels:
    dns.operator.openshift.io/owning-dns: default

spec:
  podSelector: {}
  policyTypes:
  - Ingress
  - Egress
".

(** assets/dns/namespace.yaml *)
Definition dns_namespace_text : string := with_quotes
"kind: Namespace
apiVersion: v1
metadata:
  annotations:
    openshift.io/node-selector: ``
    workload.openshift.io/allowed: `management`
  name: openshift-dns
  labels:
    # set value to avoid depending on kube admission that depends on openshift apis
    openshift.io/run-level: `0`
    # allow openshift-monitoring to look for ServiceMonitor objects in this namespace
    openshift.io/cluster-monitoring: `true`
    # allow node-resolver daemonset to pass baseline pod security admission.
    # It uses host networking, host path volumes, and is a privileged.
    pod-security.kubernetes.io/enforce: privileged
    pod-security.kubernetes.io/audit: privileged
    pod-security.kubernetes.io/warn: privileged
".

(** assets/dns/service-account.yaml *)
Definition dns_service_account_text : string := with_quotes
"kind: ServiceAccount
apiVersion: v1
metadata:
  name: dns
  namespace: openshift-dns
".

(** assets/dns/cluster-role.yaml *)
Definition dns_cluster_role_text : string := with_quotes
"kind: ClusterRole
apiVersion: rbac.authorization.k8s.io/v1
metadata:
  name: openshift-dns
rules:
- apiGroups:
  - ``
  resources:
  - endpoints
  - services
  - pods
  - namespaces
  verbs:
  - list
  - watch

- apiGroups:
  - discovery.k8s.io
  resources:
  - endpointslices
  verbs:
  - list
  - watch

- apiGroups:
  - authentication.k8s.io
  resources:
  - tokenreviews
  verbs:
  - create

- apiGroups:
  - authorization.k8s.io
  resources:
  - subjectaccessreviews
  verbs:
  - create
".

(** assets/dns/cluster-role-binding.yaml *)
Definition dns_cluster_role_binding_text : string := with_quotes
"kind: ClusterRoleBinding
apiVersion: rbac.authorization.k8s.io/v1
metadata:
    name: openshift-dns
subjects:
- kind: ServiceAccount
  name: dns
  namespace: openshift-dns
roleRef:
  kind: ClusterRole
  name: openshift-dns
".

(** assets/dns/daemonset.yaml *)
Definition dns_daemonset_text : string := with_quotes
"kind: DaemonSet
apiVersion: apps/v1
# name, namespace and labels are set at runtime
spec:
  # minReadySeconds should be 3x the readiness probe's polling interval (i.e. periodSeconds).
  minReadySeconds: 9
  template:
    metadata:
      annotations:
        target.workload.openshift.io/management: '{`effect`: `PreferredDuringScheduling`}'
    spec:
      serviceAccountName: dns
      priorityClassName: system-node-critical
      containers:
      - name: dns
        # image is set at runtime
        imagePullPolicy: IfNotPresent
        terminationMessagePolicy: FallbackToLogsOnError
        command: [ `coredns` ]
        args: [ `-conf`, `/etc/coredns/Corefile` ]
        volumeMounts:
        - name: config-volume
          mountPath: /etc/coredns
          readOnly: true
        - mountPath: /tmp
          name: tmp-dir
        ports:
        - containerPort: 5353
          name: dns
          protocol: UDP
        - containerPort: 5353
          name: dns-tcp
          protocol: TCP
        readinessProbe:
          httpGet:
            path: /ready
            port: 8181
            scheme: HTTP
          initialDelaySeconds: 10
          periodSeconds: 3 # Update the daemonset's spec.minReadySeconds above if you change this value!
          successThreshold: 1
          failureThreshold: 3
          timeoutSeconds: 3
        livenessProbe:
          httpGet:
            path: /health
            port: 8080
            scheme: HTTP
          initialDelaySeconds: 60
          timeoutSeconds: 5
          successThreshold: 1
          failureThreshold: 5
        resources:
          requests:
            cpu: 50m
            memory: 70Mi
        securityContext:
          readOnlyRootFilesystem: true
      - name: kube-rbac-proxy
        # image and args are set at runtime by the operator based on the
        # centralized TLS security profile from apiservers.config.openshift.io/cluster
        ports:
        - containerPort: 9154
          name: metrics
        resources:
          requests:
            cpu: 10m
            memory: 40Mi
        terminationMessagePolicy: FallbackToLogsOnError
        volumeMounts:
        - mountPath: /etc/tls/private
          name: metrics-tls
          readOnly: true
        - mountPath: /tmp
          name: tmp-dir
        securityContext:
          readOnlyRootFilesystem: true
      dnsPolicy: Default
      # nodeSelector is set at runtime.
      volumes:
      - name: config-volume
        configMap:
        # Name is set at runtime
          items:
          - key: Corefile
            path: Corefile
      - name: metrics-tls
        # secretName is set at runtime
      - name: tmp-dir
        emptyDir: {}
      # tolerations is set at runtime.
  updateStrategy:
    type: RollingUpdate
    rollingUpdate:
      # Set maxSurge to a positive value so that each node that has a pod
      # continues to have a local ready pod during a rolling update.  This is
      # important for topology-aware hints as well as for similar logic in
      # openshift-sdn and ovn-kubernetes that prefers to use a local ready DNS
      # pod whenever one exists.
      maxSurge: 10%
      # maxUnavailable must be zero when maxSurge is nonzero.
      maxUnavailable: 0
".

(** assets/dns/service.yaml *)
Definition dns_service_text : string := with_quotes
"kind: Service
apiVersion: v1
# name, namespace,labels and annotations are set at runtime
spec:
  # clusterIP will be automatically managed.
  # selector is set at runtime
  trafficDistribution: PreferSameNode
  ports:
  - name: dns
    port: 53
    targetPort: dns
    protocol: UDP
  - name: dns-tcp
    port: 53
    targetPort: dns-tcp
    protocol: TCP
  - name: metrics
    port: 9154
    targetPort: metrics
    protocol: TCP
".

(** assets/dns/networkpolicy-allow.yaml *)
Definition dns_networkpolicy_allow_text : string := with_quotes
"# DNS Pods
#  Egress to api server and upstream dns (can be wildcarded, so allow any egress)
#  Ingress to dns on port 5353 (TCP and UDP) and to metrics (9154)
apiVersion: networking.k8s.io/v1
kind: NetworkPolicy
# name, namespace,labels and annotations are set at runtime
spec:
  podSelector:
    # matchLabels are set at runtime
    matchLabels: {}
  ingress:
  # Everyone needs to be able to access the dns ports
  - ports:
    - protocol: UDP
      port: 5353
    - protocol: TCP
      port: 5353
  # Allow monitoring to hit the metrics port
  - ports:
    - protocol: TCP
      port: 9154
    from:
    - namespaceSelector:
        matchLabels:
          kubernetes.io/metadata.name: openshift-monitoring
  egress:
  # This rule is required so the DNS instances can reach any upstream resolver
  - to:
    - ipBlock:
        cidr: 0.0.0.0/0
    - ipBlock:
        cidr: ::/0
  policyTypes:
  - Ingress
  - Egress
".

(** assets/dns/metrics/cluster-role.yaml *)
Definition dns_metrics_cluster_role_text : string := with_quotes
"# Cluster roles needed by prometheus to scrape DNS metrics endpoint
apiVersion: rbac.authorization.k8s.io/v1
kind: ClusterRole
metadata:
  name: dns-monitoring
rules:
- apiGroups:
  - operator.openshift.io
  resources:
  - dnses
  verbs:
  - get
".

(** assets/dns/metrics/cluster-role-binding.yaml *)
Definition dns_metrics_cluster_role_binding_text : string := with_quotes
"kind: ClusterRoleBinding
apiVersion: rbac.authorization.k8s.io/v1
metadata:
  name: dns-monitoring
subjects:
- kind: ServiceAccount
  name: prometheus-k8s
  namespace: openshift-monitoring
roleRef:
  kind: ClusterRole
  name: dns-monitoring
  apiGroup: rbac.authorization.k8s.io
".

(** assets/dns/metrics/role.yaml *)
Definition dns_metrics_role_text : string := with_quotes
"# Roles needed by prometheus to scrape DNS metrics endpoint
apiVersion: rbac.authorization.k8s.io/v1
kind: Role
metadata:
  name: prometheus-k8s
  namespace: openshift-dns
rules:
- apiGroups:
  - ``
  resources:
  - services
  - endpoints
  - pods
  verbs:
  - get
  - list
  - watch
".

(** assets/dns/metrics/role-binding.yaml *)
Definition dns_metrics_role_binding_text : string := with_quotes
"apiVersion: rbac.authorization.k8s.io/v1
kind: RoleBinding
metadata:
  name: prometheus-k8s
  namespace: openshift-dns
roleRef:
  apiGroup: rbac.authorization.k8s.io
  kind: Role
  name: prometheus-k8s
subjects:
- kind: ServiceAccount
  name: prometheus-k8s
  namespace: openshift-monitoring 
".

(** assets/node-resolver/update-node-resolver.sh *)
Definition node_resolver_update_node_resolver_text : string := with_quotes
"#!/bin/bash
set -uo pipefail

trap 'jobs -p | xargs kill || true; wait; exit 0' TERM

OPENSHIFT_MARKER=`openshift-generated-node-resolver`
HOSTS_FILE=`/etc/hosts`
TEMP_FILE=`/tmp/hosts.tmp`

IFS=', ' read -r -a services <<< `${SERVICES}`

# Make a temporary file with the old hosts file's attributes.
if ! cp -f --attributes-only `${HOSTS_FILE}` `${TEMP_FILE}`; then
  echo `Failed to preserve hosts file. Exiting.`
  exit 1
fi

while true; do
  declare -A svc_ips
  for svc in `${services[@]}`; do
    # Fetch service IP from cluster dns if present. We make several tries
    # to do it: IPv4, IPv6, IPv4 over TCP and IPv6 over TCP. The two last ones
    # are for deployments with Kuryr on older OpenStack (OSP13) - those do not
    # support UDP loadbalancers and require reaching DNS through TCP.
    cmds=('dig -t A @`${NAMESERVER}` +short `${svc}.${CLUSTER_DOMAIN}`|grep -v `^;`'
          'dig -t AAAA @`${NAMESERVER}` +short `${svc}.${CLUSTER_DOMAIN}`|grep -v `^;`'
          'dig -t A +tcp +retry=0 @`${NAMESERVER}` +short `${svc}.${CLUSTER_DOMAIN}`|grep -v `^;`'
          'dig -t AAAA +tcp +retry=0 @`${NAMESERVER}` +short `${svc}.${CLUSTER_DOMAIN}`|grep -v `^;`')
    for i in ${!cmds[*]}
    do
      ips=($(eval `${cmds[i]}`))
      if [[ `$?` -eq 0 && `${#ips[@]}` -ne 0 ]]; then
        svc_ips[`${svc}`]=`${ips[@]}`
        break
      fi
    done
  done

  # Update /etc/hosts only if we get valid service IPs
  # We will not update /etc/hosts when there is coredns service outage or api unavailability
  # Stale entries could exist in /etc/hosts if the service is deleted
  if [[ -n `${svc_ips[*]-}` ]]; then
    # Build a new hosts file from /etc/hosts with our custom entries filtered out
    if ! sed --silent `/# ${OPENSHIFT_MARKER}/d; w ${TEMP_FILE}` `${HOSTS_FILE}`; then
      # Only continue rebuilding the hosts entries if its original content is preserved
      sleep 60 & wait
      continue
    fi

    # Append resolver entries for services
    rc=0
    for svc in `${!svc_ips[@]}`; do
      for ip in ${svc_ips[${svc}]}; do
        echo `${ip} ${svc} ${svc}.${CLUSTER_DOMAIN} # ${OPENSHIFT_MARKER}` >> `${TEMP_FILE}` || rc=$?
      done
    done
    if [[ $rc -ne 0 ]]; then
      sleep 60 & wait
      continue
    fi


    # TODO: Update /etc/hosts atomically to avoid any inconsistent behavior
    # Replace /etc/hosts with our modified version if needed
    cmp `${TEMP_FILE}` `${HOSTS_FILE}` || cp -f `${TEMP_FILE}` `${HOSTS_FILE}`
    # TEMP_FILE is not removed to avoid file create/delete and attributes copy churn
  fi
  sleep 60 & wait
  unset svc_ips
done
".

(** assets/node-resolver/service-account.yaml *)
Definition node_resolver_service_account_text : string := with_quotes
"kind: ServiceAccount
apiVersion: v1
metadata:
  name: node-resolver
  namespace: openshift-dns
".

(** content, an embed.FS: the embedded files by their paths. *)
Definition content : list (string * string) := [
  ("assets/networkpolicy-deny-all.yaml", networkpolicy_deny_all_text);
  ("assets/dns/namespace.yaml", dns_namespace_text);
  ("assets/dns/service-account.yaml", dns_service_account_text);
  ("assets/dns/cluster-role.yaml", dns_cluster_role_text);
  ("assets/dns/cluster-role-binding.yaml", dns_cluster_role_binding_text);
  ("assets/dns/daemonset.yaml", dns_daemonset_text);
  ("assets/dns/service.yaml", dns_service_text);
  ("assets/dns/networkpolicy-allow.yaml", dns_networkpolicy_allow_text);
  ("assets/dns/metrics/cluster-role.yaml", dns_metrics_cluster_role_text);
  ("assets/dns/metrics/cluster-role-binding.yaml", dns_metrics_cluster_role_binding_text);
  ("assets/dns/metrics/role.yaml", dns_metrics_role_text);
  ("assets/dns/metrics/role-binding.yaml", dns_metrics_role_binding_text);
  ("assets/node-resolver/update-node-resolver.sh", node_resolver_update_node_resolver_text);
  ("assets/node-resolver/service-account.yaml", node_resolver_service_account_text)].
