(* ===== verification/Decode.v ===== *)
(** * Reading the manifests: pkg/manifests/manifests.go

    The functions that read an embedded file and decode it into an API object, down to
    the fields of the structs of [Types], and that what they return are the objects of
    [Manifests]: the texts of the assets decode to them. *)

From S2P Require Import Prelude GoLib Types Labels Numbers Names Manifests Yaml Embedded.

(** ** The decoder

    yaml.NewYAMLOrJSONDecoder(manifest, 100).Decode turns the text into a document and
    the document into a struct.  The first half is the library's: it reads what
    [read_yaml] reads. *)
Class Decoder := {
  decode_document : string → error + yaml;
  type_error : error;  (* a value does not have the type of its field *)
  decode_reads : ∀ text y, read_yaml text = Some y → decode_document text = inr y }.

(** The second half, field by field: a field that is missing or null keeps its zero
    value, a field the struct does not have is passed over, and a value of another type
    is an error ([None]). *)
Definition fields : Type := list (string * yaml).

Definition field (m : fields) (k : string) : yaml :=
  match list_find (λ kv, kv.1 = k) m with
  | Some (_, (_, y)) => y
  | None => YNull
  end.

Definition as_struct {A} (d : fields → option A) (y : yaml) : option A :=
  match y with
  | YNull => d []
  | YMap m => d m
  | _ => None
  end.

Definition as_string (y : yaml) : option string :=
  match y with YNull => Some "" | YString s => Some s | _ => None end.

Definition as_int (width : Z) (y : yaml) : option Z :=
  match y with
  | YNull => Some 0%Z
  | YInt z => if bool_decide (in_s width z) then Some z else None
  | _ => None
  end.
Definition as_int32 : yaml → option Z := as_int 32.
Definition as_int64 : yaml → option Z := as_int 64.

Definition as_bool (y : yaml) : option bool :=
  match y with YNull => Some false | YBool b => Some b | _ => None end.

Definition as_pointer {A} (d : yaml → option A) (y : yaml) : option (option A) :=
  match y with YNull => Some None | _ => Some <$> d y end.

Definition as_slice {A} (d : yaml → option A) (y : yaml) : option (list A) :=
  match y with YNull => Some [] | YSeq l => mapM d l | _ => None end.

Definition as_labels (y : yaml) : option (gmap string string) :=
  as_struct (λ m, list_to_map <$> mapM (λ kv, s ← as_string kv.2; Some (kv.1, s)) m) y.

Definition as_IntOrString (y : yaml) : option IntOrString :=
  match y with
  | YNull => Some (IntVal 0)
  | YInt z => if bool_decide (in_s 32 z) then Some (IntVal z) else None
  | YString s => Some (StrVal s)
  | _ => None
  end.

(** A port that is a number, and one that is printed. *)
Definition as_port (y : yaml) : option Z :=
  i ← as_IntOrString y; match i with IntVal z => Some z | StrVal _ => None end.
Definition as_port_text (y : yaml) : option string :=
  i ← as_IntOrString y; Some match i with IntVal z => fmt_d z | StrVal s => s end.

(** The fields [Types] keeps as text. *)
Fixpoint flow (y : yaml) : string :=
  match y with
  | YNull => "null"
  | YBool b => if b then "true" else "false"
  | YInt z => fmt_d z
  | YString s => s
  | YSeq l => "[" +:+ strings_Join (flow <$> l) ", " +:+ "]"
  | YMap m => "{" +:+ strings_Join ((λ kv, kv.1 +:+ ": " +:+ flow kv.2) <$> m) ", " +:+ "}"
  end.

Definition others (known : list string) (m : fields) : gmap string string :=
  list_to_map (prod_map id flow <$> filter (λ kv, kv.1 ∉ known) m).

(** ** The structs *)

Definition as_OwnerReference : yaml → option OwnerReference := as_struct (λ m,
  version ← as_string (field m "apiVersion"); kind ← as_string (field m "kind"); name ← as_string (field m "name");
  uid ← as_string (field m "uid"); controller ← as_pointer as_bool (field m "controller");
  Some (mkOwnerReference version kind name uid controller)).

(** The deletion timestamp, which only a server sets, is left out. *)
Definition as_ObjectMeta : yaml → option ObjectMeta := as_struct (λ m,
  name ← as_string (field m "name"); namespace ← as_string (field m "namespace");
  uid ← as_string (field m "uid"); version ← as_string (field m "resourceVersion");
  labels ← as_labels (field m "labels"); annotations ← as_labels (field m "annotations");
  owners ← as_slice as_OwnerReference (field m "ownerReferences");
  finalizers ← as_slice as_string (field m "finalizers");
  Some (mkObjectMeta name namespace uid version labels annotations owners finalizers None)).

Definition as_LabelSelectorRequirement : yaml → option LabelSelectorRequirement := as_struct (λ m,
  key ← as_string (field m "key"); operator ← as_string (field m "operator");
  values ← as_slice as_string (field m "values");
  Some (mkLabelSelectorRequirement key operator values)).

Definition as_LabelSelector : yaml → option LabelSelector := as_struct (λ m,
  labels ← as_labels (field m "matchLabels");
  exprs ← as_slice as_LabelSelectorRequirement (field m "matchExpressions");
  Some (mkLabelSelector labels exprs)).

Definition as_PolicyRule : yaml → option PolicyRule := as_struct (λ m,
  groups ← as_slice as_string (field m "apiGroups"); resources ← as_slice as_string (field m "resources");
  verbs ← as_slice as_string (field m "verbs");
  Some (mkPolicyRule groups resources verbs (others ["apiGroups"; "resources"; "verbs"] m))).

Definition as_Subject : yaml → option Subject := as_struct (λ m,
  kind ← as_string (field m "kind"); name ← as_string (field m "name");
  namespace ← as_string (field m "namespace"); Some (mkSubject kind name namespace)).

Definition as_RoleRef : yaml → option RoleRef := as_struct (λ m,
  group ← as_string (field m "apiGroup"); kind ← as_string (field m "kind"); name ← as_string (field m "name");
  Some (mkRoleRef group kind name)).

(** The handler of a probe is its httpGet. *)
Definition as_Probe : yaml → option Probe := as_struct (λ m,
  '(path, port, scheme) ← as_struct (λ g,
    path ← as_string (field g "path"); port ← as_port (field g "port"); scheme ← as_string (field g "scheme");
    Some (path, port, scheme)) (field m "httpGet");
  initial ← as_int32 (field m "initialDelaySeconds"); period ← as_int32 (field m "periodSeconds");
  timeout ← as_int32 (field m "timeoutSeconds"); success ← as_int32 (field m "successThreshold");
  failure ← as_int32 (field m "failureThreshold");
  Some (mkProbe path port scheme initial period timeout success failure
    (others ["httpGet"; "initialDelaySeconds"; "periodSeconds"; "timeoutSeconds"; "successThreshold"; "failureThreshold"] m))).

Definition as_EnvVar : yaml → option EnvVar := as_struct (λ m,
  name ← as_string (field m "name"); value ← as_string (field m "value");
  from ← as_pointer (λ y, Some (flow y)) (field m "valueFrom"); Some (mkEnvVar name value from)).

Definition as_VolumeMount : yaml → option VolumeMount := as_struct (λ m,
  name ← as_string (field m "name"); path ← as_string (field m "mountPath"); ro ← as_bool (field m "readOnly");
  Some (mkVolumeMount name path ro (others ["name"; "mountPath"; "readOnly"] m))).

Definition as_ContainerPort : yaml → option ContainerPort := as_struct (λ m,
  name ← as_string (field m "name"); port ← as_int32 (field m "containerPort");
  protocol ← as_string (field m "protocol"); Some (mkContainerPort name port protocol)).

Definition as_Container : yaml → option Container := as_struct (λ m,
  name ← as_string (field m "name"); image ← as_string (field m "image");
  command ← as_slice as_string (field m "command"); args ← as_slice as_string (field m "args");
  env ← as_slice as_EnvVar (field m "env"); mounts ← as_slice as_VolumeMount (field m "volumeMounts");
  readiness ← as_pointer as_Probe (field m "readinessProbe"); liveness ← as_pointer as_Probe (field m "livenessProbe");
  ports ← as_slice as_ContainerPort (field m "ports");
  Some (mkContainer name image command args env mounts readiness liveness ports
    (others ["name"; "image"; "command"; "args"; "env"; "volumeMounts"; "readinessProbe"; "livenessProbe"; "ports"] m))).

Definition as_KeyToPath : yaml → option KeyToPath := as_struct (λ m,
  key ← as_string (field m "key"); path ← as_string (field m "path"); mode ← as_pointer as_int32 (field m "mode");
  Some (mkKeyToPath key path mode)).

Definition as_ConfigMapVolumeSource : yaml → option ConfigMapVolumeSource := as_struct (λ m,
  name ← as_string (field m "name"); items ← as_slice as_KeyToPath (field m "items");
  mode ← as_pointer as_int32 (field m "defaultMode"); optional ← as_pointer as_bool (field m "optional");
  Some (mkConfigMapVolumeSource name items mode optional)).

Definition as_SecretVolumeSource : yaml → option SecretVolumeSource := as_struct (λ m,
  name ← as_string (field m "secretName"); items ← as_slice as_KeyToPath (field m "items");
  mode ← as_pointer as_int32 (field m "defaultMode"); optional ← as_pointer as_bool (field m "optional");
  Some (mkSecretVolumeSource name items mode optional)).

Definition as_HostPathVolumeSource : yaml → option HostPathVolumeSource := as_struct (λ m,
  path ← as_string (field m "path"); type ← as_pointer as_string (field m "type");
  Some (mkHostPathVolumeSource path type)).

Definition as_Volume : yaml → option Volume := as_struct (λ m,
  name ← as_string (field m "name"); configMap ← as_pointer as_ConfigMapVolumeSource (field m "configMap");
  secret ← as_pointer as_SecretVolumeSource (field m "secret");
  hostPath ← as_pointer as_HostPathVolumeSource (field m "hostPath");
  emptyDir ← as_pointer (λ y, Some (flow y)) (field m "emptyDir");
  let other := filter (λ kv : string * yaml, kv.1 ∉ ["name"; "configMap"; "secret"; "hostPath"; "emptyDir"]) m in
  Some (mkVolume name configMap secret hostPath emptyDir (match other with [] => None | _ => Some (flow (YMap other)) end))).

Definition as_Toleration : yaml → option Toleration := as_struct (λ m,
  key ← as_string (field m "key"); operator ← as_string (field m "operator"); value ← as_string (field m "value");
  effect ← as_string (field m "effect"); seconds ← as_pointer as_int64 (field m "tolerationSeconds");
  Some (mkToleration key operator value effect seconds)).

Definition as_PodSpec : yaml → option PodSpec := as_struct (λ m,
  containers ← as_slice as_Container (field m "containers"); nodeSelector ← as_labels (field m "nodeSelector");
  tolerations ← as_slice as_Toleration (field m "tolerations"); volumes ← as_slice as_Volume (field m "volumes");
  grace ← as_pointer as_int64 (field m "terminationGracePeriodSeconds");
  Some (mkPodSpec containers nodeSelector tolerations volumes grace
    (others ["containers"; "nodeSelector"; "tolerations"; "volumes"; "terminationGracePeriodSeconds"] m))).

Definition as_PodTemplateSpec : yaml → option PodTemplateSpec := as_struct (λ m,
  meta ← as_ObjectMeta (field m "metadata"); spec ← as_PodSpec (field m "spec");
  Some (mkPodTemplateSpec (om_Labels meta) (om_Annotations meta) spec)).

Definition as_DaemonSetUpdateStrategy : yaml → option DaemonSetUpdateStrategy := as_struct (λ m,
  type ← as_string (field m "type");
  rolling ← as_pointer (as_struct (λ r,
    unavailable ← as_pointer as_IntOrString (field r "maxUnavailable");
    surge ← as_pointer as_IntOrString (field r "maxSurge");
    Some (mkRollingUpdateDaemonSet unavailable surge))) (field m "rollingUpdate");
  Some (mkDaemonSetUpdateStrategy type rolling)).

Definition as_DaemonSetSpec : yaml → option DaemonSetSpec := as_struct (λ m,
  selector ← as_pointer as_LabelSelector (field m "selector"); template ← as_PodTemplateSpec (field m "template");
  strategy ← as_DaemonSetUpdateStrategy (field m "updateStrategy");
  minReady ← as_int32 (field m "minReadySeconds");
  Some (mkDaemonSetSpec selector template strategy minReady)).

Definition as_DaemonSetStatus : yaml → option DaemonSetStatus := as_struct (λ m,
  desired ← as_int32 (field m "desiredNumberScheduled"); available ← as_int32 (field m "numberAvailable");
  updated ← as_int32 (field m "updatedNumberScheduled"); Some (mkDaemonSetStatus desired available updated)).

Definition as_ServicePort : yaml → option ServicePort := as_struct (λ m,
  name ← as_string (field m "name"); port ← as_int32 (field m "port"); target ← as_port_text (field m "targetPort");
  protocol ← as_string (field m "protocol");
  Some (mkServicePort name port target protocol (others ["name"; "port"; "targetPort"; "protocol"] m))).

Definition as_ServiceSpec : yaml → option ServiceSpec := as_struct (λ m,
  ports ← as_slice as_ServicePort (field m "ports"); selector ← as_labels (field m "selector");
  clusterIP ← as_string (field m "clusterIP"); clusterIPs ← as_slice as_string (field m "clusterIPs");
  families ← as_slice as_string (field m "ipFamilies"); policy ← as_pointer as_string (field m "ipFamilyPolicy");
  type ← as_string (field m "type"); affinity ← as_string (field m "sessionAffinity");
  internal ← as_pointer as_string (field m "internalTrafficPolicy");
  distribution ← as_pointer as_string (field m "trafficDistribution");
  external ← as_string (field m "externalName");
  Some (mkServiceSpec ports selector clusterIP clusterIPs families policy type affinity internal distribution external
    (others ["ports"; "selector"; "clusterIP"; "clusterIPs"; "ipFamilies"; "ipFamilyPolicy"; "type"; "sessionAffinity";
             "internalTrafficPolicy"; "trafficDistribution"; "externalName"] m))).

(** Peers of the two kinds the operator uses. *)
Definition as_NetworkPolicyPeer : yaml → option NetworkPolicyPeer := as_struct (λ m,
  match field m "ipBlock", field m "namespaceSelector" with
  | YNull, YNull => None
  | YNull, y => PeerNamespaceSelector <$> as_LabelSelector y
  | y, YNull => as_struct (λ b, PeerIPBlock <$> as_string (field b "cidr")) y
  | _, _ => None
  end).

Definition as_NetworkPolicyPort : yaml → option NetworkPolicyPort := as_struct (λ m,
  protocol ← as_string (field m "protocol"); port ← as_port (field m "port"); Some (mkNetworkPolicyPort protocol port)).

(** The peers of a rule are in the field [peers]: from or to. *)
Definition as_NetworkPolicyRule (peers : string) : yaml → option NetworkPolicyRule := as_struct (λ m,
  ports ← as_slice as_NetworkPolicyPort (field m "ports"); from ← as_slice as_NetworkPolicyPeer (field m peers);
  Some (mkNetworkPolicyRule ports from)).

Definition as_NetworkPolicySpec : yaml → option NetworkPolicySpec := as_struct (λ m,
  selector ← as_LabelSelector (field m "podSelector");
  ingress ← as_slice (as_NetworkPolicyRule "from") (field m "ingress");
  egress ← as_slice (as_NetworkPolicyRule "to") (field m "egress");
  types ← as_slice as_string (field m "policyTypes"); Some (mkNetworkPolicySpec selector ingress egress types)).

(** ** manifests.go *)

Definition NetworkPolicyDenyAllAsset : string := "assets/networkpolicy-deny-all.yaml".
Definition DNSNamespaceAsset : string := "assets/dns/namespace.yaml".
Definition DNSServiceAccountAsset : string := "assets/dns/service-account.yaml".
Definition DNSClusterRoleAsset : string := "assets/dns/cluster-role.yaml".
Definition DNSClusterRoleBindingAsset : string := "assets/dns/cluster-role-binding.yaml".
Definition DNSDaemonSetAsset : string := "assets/dns/daemonset.yaml".
Definition DNSServiceAsset : string := "assets/dns/service.yaml".
Definition DNSNetworkPolicyAsset : string := "assets/dns/networkpolicy-allow.yaml".
Definition MetricsClusterRoleAsset : string := "assets/dns/metrics/cluster-role.yaml".
Definition MetricsClusterRoleBindingAsset : string := "assets/dns/metrics/cluster-role-binding.yaml".
Definition MetricsRoleAsset : string := "assets/dns/metrics/role.yaml".
Definition MetricsRoleBindingAsset : string := "assets/dns/metrics/role-binding.yaml".
Definition nodeResolverScriptAsset : string := "assets/node-resolver/update-node-resolver.sh".
Definition nodeResolverServiceAccountAsset : string := "assets/node-resolver/service-account.yaml".

(** A panic is [None]. *)
Definition MustAsset (asset : string) : option string :=
  match list_find (λ f, f.1 = asset) content with
  | Some (_, (_, b)) => Some b
  | None => None
  end.

Definition MustAssetString (asset : string) : option string := MustAsset asset.
Definition MustAssetReader (asset : string) : option string := MustAsset asset.

Section manifests.
Context `{Decoder}.

(** Decode into a variable of the type that [d] reads. *)
Definition decode_into {A} (d : yaml → option A) (manifest : string) : error + A :=
  match decode_document manifest with
  | inl err => inl err
  | inr y => match d y with
             | Some a => inr a
             | None => inl type_error
             end
  end.

Definition NewServiceAccount : string → error + ServiceAccount :=
  decode_into (as_struct (λ m, mkServiceAccount <$> as_ObjectMeta (field m "metadata"))).

Definition NewClusterRole : string → error + ClusterRole := decode_into (as_struct (λ m,
  meta ← as_ObjectMeta (field m "metadata"); rules ← as_slice as_PolicyRule (field m "rules");
  Some (mkClusterRole meta rules))).

Definition NewClusterRoleBinding : string → error + ClusterRoleBinding := decode_into (as_struct (λ m,
  meta ← as_ObjectMeta (field m "metadata"); subjects ← as_slice as_Subject (field m "subjects");
  ref ← as_RoleRef (field m "roleRef"); Some (mkClusterRoleBinding meta subjects ref))).

Definition NewRole : string → error + Role := decode_into (as_struct (λ m,
  meta ← as_ObjectMeta (field m "metadata"); rules ← as_slice as_PolicyRule (field m "rules");
  Some (mkRole meta rules))).

Definition NewRoleBinding : string → error + RoleBinding := decode_into (as_struct (λ m,
  meta ← as_ObjectMeta (field m "metadata"); subjects ← as_slice as_Subject (field m "subjects");
  ref ← as_RoleRef (field m "roleRef"); Some (mkRoleBinding meta subjects ref))).

Definition NewConfigMap : string → error + ConfigMap := decode_into (as_struct (λ m,
  meta ← as_ObjectMeta (field m "metadata"); data ← as_pointer as_labels (field m "data");
  Some (mkConfigMap meta data))).

Definition NewDaemonSet : string → error + DaemonSet := decode_into (as_struct (λ m,
  meta ← as_ObjectMeta (field m "metadata"); spec ← as_DaemonSetSpec (field m "spec");
  status ← as_DaemonSetStatus (field m "status"); Some (mkDaemonSet meta spec status))).

Definition NewService : string → error + Service := decode_into (as_struct (λ m,
  meta ← as_ObjectMeta (field m "metadata"); spec ← as_ServiceSpec (field m "spec"); Some (mkService meta spec))).

Definition NewNamespace : string → error + Namespace :=
  decode_into (as_struct (λ m, mkNamespace <$> as_ObjectMeta (field m "metadata"))).

Definition NewNetworkPolicy : string → error + NetworkPolicy := decode_into (as_struct (λ m,
  meta ← as_ObjectMeta (field m "metadata"); spec ← as_NetworkPolicySpec (field m "spec");
  Some (mkNetworkPolicy meta spec))).

(** A function that returns the object of an asset: an error of decoding is a panic. *)
Definition must_decode {A} (New : string → error + A) (asset : string) : option A :=
  manifest ← MustAssetReader asset;
  match New manifest with
  | inl err => None
  | inr a => Some a
  end.

Definition read_NetworkPolicyDenyAll : option NetworkPolicy := must_decode NewNetworkPolicy NetworkPolicyDenyAllAsset.
Definition read_DNSNamespace : option Namespace := must_decode NewNamespace DNSNamespaceAsset.
Definition read_DNSServiceAccount : option ServiceAccount := must_decode NewServiceAccount DNSServiceAccountAsset.
Definition read_DNSClusterRole : option ClusterRole := must_decode NewClusterRole DNSClusterRoleAsset.
Definition read_DNSClusterRoleBinding : option ClusterRoleBinding :=
  must_decode NewClusterRoleBinding DNSClusterRoleBindingAsset.
Definition read_DNSDaemonSet : option DaemonSet := must_decode NewDaemonSet DNSDaemonSetAsset.
Definition read_DNSService : option Service := must_decode NewService DNSServiceAsset.
Definition read_DNSNetworkPolicy : option NetworkPolicy := must_decode NewNetworkPolicy DNSNetworkPolicyAsset.
Definition read_MetricsClusterRole : option ClusterRole := must_decode NewClusterRole MetricsClusterRoleAsset.
Definition read_MetricsClusterRoleBinding : option ClusterRoleBinding :=
  must_decode NewClusterRoleBinding MetricsClusterRoleBindingAsset.
Definition read_MetricsRole : option Role := must_decode NewRole MetricsRoleAsset.
Definition read_MetricsRoleBinding : option RoleBinding := must_decode NewRoleBinding MetricsRoleBindingAsset.
Definition NodeResolverScript : option string := MustAssetString nodeResolverScriptAsset.
Definition read_NodeResolverServiceAccount : option ServiceAccount :=
  must_decode NewServiceAccount nodeResolverServiceAccountAsset.

(** ** What the assets decode to *)

Lemma must_decode_reads {A} (d : yaml → option A) asset a :
  (text ← MustAssetReader asset; y ← read_yaml text; d y) = Some a → must_decode (decode_into d) asset = Some a.
Proof.
  intros (text & Ht & (y & Hy & Ha)%bind_Some)%bind_Some. unfold must_decode, decode_into.
  rewrite Ht. simpl. by rewrite (decode_reads _ _ Hy), Ha.
Qed.

Ltac decoded := refine (must_decode_reads _ _ _ _); vm_compute; reflexivity.

End manifests.

(** A decoder that reads nothing else. *)
Definition subset_decoder : Decoder.
Proof.
  refine {| decode_document text := match read_yaml text with
                                    | Some y => inr y
                                    | None => inl (ErrNew "error converting YAML to JSON")
                                    end;
            type_error := ErrNew "json: cannot unmarshal" |}.
  intros text y Hy. rewrite Hy. reflexivity.
Defined.

