(* ===== verification/Samples.v ===== *)
(** * Sample objects

    A concrete DNS, daemonset and configuration on which the hypotheses of the
    theorems are discharged and the handlers are run. *)

From S2P Require Import Prelude GoLib Types Labels Client Mem Names Manifests.

Definition sample_spec : DNSSpec :=
  mkDNSSpec [] (mkUpstreamResolvers [] "" (mkDNSTransportConfig "" None) "")
    (mkDNSNodePlacement ∅ []) "" "" "" (mkDNSCache 0 0).

Definition sample_dns : DNS :=
  mkDNS (mkObjectMeta "default" "" "uid-1" "" ∅ ∅ [] [] None) sample_spec (mkDNSStatus "" "" []).

Definition sample_config : Config :=
  mkConfig "v1" "openshift-dns-operator" "coredns:v1" "cli:v1" "kube-rbac-proxy:v1".

Definition sample_reconciler : reconciler := mkReconciler sample_config false [].

(** A daemonset in the default placement with the given status counters. *)
Definition sample_daemonset (want available updated : Z) : DaemonSet :=
  mkDaemonSet (named "openshift-dns" "dns-default")
    (mkDaemonSetSpec None
       (mkPodTemplateSpec ∅ ∅
          (mkPodSpec [] {[ "kubernetes.io/os" := "linux" ]}
             [mkToleration "node-role.kubernetes.io/master" "Exists" "" "" None] [] None ∅))
       (mkDaemonSetUpdateStrategy "RollingUpdate" None) 0)
    (mkDaemonSetStatus want available updated).
