(* ===== verification/Tls.v ===== *)
(** * TLS profiles: pkg/operator/controller/tls.go and kubeRBACProxyArgs

    With the tables of the vendored github.com/openshift/api (TLSProfiles) and
    github.com/openshift/library-go (package crypto) that they read. *)

From S2P Require Import Prelude GoLib Types.

Definition TLSProfileOldType : string := "Old".
Definition TLSProfileIntermediateType : string := "Intermediate".
Definition TLSProfileModernType : string := "Modern".
Definition TLSProfileCustomType : string := "Custom".

(** configv1.TLSProfiles, one definition per entry. *)
Definition profile_groups : list string := ["X25519MLKEM768"; "X25519"; "secp256r1"; "secp384r1"].

Definition modern_ciphers : list string :=
  ["TLS_AES_128_GCM_SHA256"; "TLS_AES_256_GCM_SHA384"; "TLS_CHACHA20_POLY1305_SHA256"].

Definition intermediate_ciphers : list string :=
  modern_ciphers ++
  ["ECDHE-ECDSA-AES128-GCM-SHA256"; "ECDHE-RSA-AES128-GCM-SHA256";
   "ECDHE-ECDSA-AES256-GCM-SHA384"; "ECDHE-RSA-AES256-GCM-SHA384";
   "ECDHE-ECDSA-CHACHA20-POLY1305"; "ECDHE-RSA-CHACHA20-POLY1305"].

Definition old_ciphers : list string :=
  intermediate_ciphers ++
  ["ECDHE-ECDSA-AES128-SHA256"; "ECDHE-RSA-AES128-SHA256"; "ECDHE-ECDSA-AES128-SHA";
   "ECDHE-RSA-AES128-SHA"; "ECDHE-ECDSA-AES256-SHA384"; "ECDHE-RSA-AES256-SHA384";
   "ECDHE-ECDSA-AES256-SHA"; "ECDHE-RSA-AES256-SHA"; "AES128-GCM-SHA256";
   "AES256-GCM-SHA384"; "AES128-SHA256"; "AES256-SHA256"; "AES128-SHA"; "AES256-SHA";
   "DES-CBC3-SHA"].

Definition TLSProfiles : gmap string TLSProfileSpec := list_to_map [
  (TLSProfileOldType, mkTLSProfileSpec old_ciphers profile_groups "VersionTLS10");
  (TLSProfileIntermediateType,
    mkTLSProfileSpec intermediate_ciphers profile_groups "VersionTLS12");
  (TLSProfileModernType, mkTLSProfileSpec modern_ciphers profile_groups "VersionTLS13")].

(** goTLSVersions *)
Definition goTLSVersions : gmap string Z := list_to_map [
  ("VersionTLS10", 769%Z); ("VersionTLS11", 770%Z);
  ("VersionTLS12", 771%Z); ("VersionTLS13", 772%Z)].

Definition DefaultTLSVersion : Z := 771.

(** crypto.TLSVersion *)
Definition TLSVersion (versionName : string) : error + Z :=
  if (String.length versionName =? 0)%nat then inr DefaultTLSVersion
  else match goTLSVersions !! versionName with
       | Some version => inr version
       | None => inl (ErrNew ("unknown tls version " +:+ Quote versionName))
       end.

(** goCipherSuites *)
Definition goCipherSuites : gmap string Z := list_to_map [
  ("TLS_RSA_WITH_RC4_128_SHA", 5%Z);
  ("TLS_RSA_WITH_3DES_EDE_CBC_SHA", 10%Z);
  ("TLS_RSA_WITH_AES_128_CBC_SHA", 47%Z);
  ("TLS_RSA_WITH_AES_256_CBC_SHA", 53%Z);
  ("TLS_RSA_WITH_AES_128_CBC_SHA256", 60%Z);
  ("TLS_RSA_WITH_AES_128_GCM_SHA256", 156%Z);
  ("TLS_RSA_WITH_AES_256_GCM_SHA384", 157%Z);
  ("TLS_ECDHE_ECDSA_WITH_RC4_128_SHA", 49159%Z);
  ("TLS_ECDHE_ECDSA_WITH_AES_128_CBC_SHA", 49161%Z);
  ("TLS_ECDHE_ECDSA_WITH_AES_256_CBC_SHA", 49162%Z);
  ("TLS_ECDHE_RSA_WITH_RC4_128_SHA", 49169%Z);
  ("TLS_ECDHE_RSA_WITH_3DES_EDE_CBC_SHA", 49170%Z);
  ("TLS_ECDHE_RSA_WITH_AES_128_CBC_SHA", 49171%Z);
  ("TLS_ECDHE_RSA_WITH_AES_256_CBC_SHA", 49172%Z);
  ("TLS_ECDHE_ECDSA_WITH_AES_128_CBC_SHA256", 49187%Z);
  ("TLS_ECDHE_RSA_WITH_AES_128_CBC_SHA256", 49191%Z);
  ("TLS_ECDHE_RSA_WITH_AES_128_GCM_SHA256", 49199%Z);
  ("TLS_ECDHE_ECDSA_WITH_AES_128_GCM_SHA256", 49195%Z);
  ("TLS_ECDHE_RSA_WITH_AES_256_GCM_SHA384", 49200%Z);
  ("TLS_ECDHE_ECDSA_WITH_AES_256_GCM_SHA384", 49196%Z);
  ("TLS_ECDHE_RSA_WITH_CHACHA20_POLY1305", 52392%Z);
  ("TLS_ECDHE_ECDSA_WITH_CHACHA20_POLY1305", 52393%Z);
  ("TLS_ECDHE_RSA_WITH_CHACHA20_POLY1305_SHA256", 52392%Z);
  ("TLS_ECDHE_ECDSA_WITH_CHACHA20_POLY1305_SHA256", 52393%Z);
  ("TLS_AES_128_GCM_SHA256", 4865%Z);
  ("TLS_AES_256_GCM_SHA384", 4866%Z);
  ("TLS_CHACHA20_POLY1305_SHA256", 4867%Z)].

(** crypto.CipherSuite *)
Definition CipherSuite (cipherName : string) : error + Z :=
  match goCipherSuites !! cipherName with
  | Some cipher => inr cipher
  | None => inl (ErrNew ("unknown cipher name " +:+ Quote cipherName))
  end.

(** openSSLToIANACiphers *)
Definition openSSLToIANACiphers_entries : list (string * string) := [
  ("TLS_AES_128_GCM_SHA256", "TLS_AES_128_GCM_SHA256");
  ("TLS_AES_256_GCM_SHA384", "TLS_AES_256_GCM_SHA384");
  ("TLS_CHACHA20_POLY1305_SHA256", "TLS_CHACHA20_POLY1305_SHA256");
  ("ECDHE-ECDSA-AES128-GCM-SHA256", "TLS_ECDHE_ECDSA_WITH_AES_128_GCM_SHA256");
  ("ECDHE-RSA-AES128-GCM-SHA256", "TLS_ECDHE_RSA_WITH_AES_128_GCM_SHA256");
  ("ECDHE-ECDSA-AES256-GCM-SHA384", "TLS_ECDHE_ECDSA_WITH_AES_256_GCM_SHA384");
  ("ECDHE-RSA-AES256-GCM-SHA384", "TLS_ECDHE_RSA_WITH_AES_256_GCM_SHA384");
  ("ECDHE-ECDSA-CHACHA20-POLY1305", "TLS_ECDHE_ECDSA_WITH_CHACHA20_POLY1305_SHA256");
  ("ECDHE-RSA-CHACHA20-POLY1305", "TLS_ECDHE_RSA_WITH_CHACHA20_POLY1305_SHA256");
  ("ECDHE-ECDSA-AES128-SHA256", "TLS_ECDHE_ECDSA_WITH_AES_128_CBC_SHA256");
  ("ECDHE-RSA-AES128-SHA256", "TLS_ECDHE_RSA_WITH_AES_128_CBC_SHA256");
  ("AES128-GCM-SHA256", "TLS_RSA_WITH_AES_128_GCM_SHA256");
  ("AES256-GCM-SHA384", "TLS_RSA_WITH_AES_256_GCM_SHA384");
  ("AES128-SHA256", "TLS_RSA_WITH_AES_128_CBC_SHA256");
  ("ECDHE-ECDSA-AES128-SHA", "TLS_ECDHE_ECDSA_WITH_AES_128_CBC_SHA");
  ("ECDHE-RSA-AES128-SHA", "TLS_ECDHE_RSA_WITH_AES_128_CBC_SHA");
  ("ECDHE-ECDSA-AES256-SHA", "TLS_ECDHE_ECDSA_WITH_AES_256_CBC_SHA");
  ("ECDHE-RSA-AES256-SHA", "TLS_ECDHE_RSA_WITH_AES_256_CBC_SHA");
  ("AES128-SHA", "TLS_RSA_WITH_AES_128_CBC_SHA");
  ("AES256-SHA", "TLS_RSA_WITH_AES_256_CBC_SHA");
  ("DES-CBC3-SHA", "TLS_RSA_WITH_3DES_EDE_CBC_SHA");
  ("ECDHE-RSA-DES-CBC3-SHA", "TLS_ECDHE_RSA_WITH_3DES_EDE_CBC_SHA")].

Definition openSSLToIANACiphers : gmap string string := list_to_map openSSLToIANACiphers_entries.

(** crypto.OpenSSLToIANACipherSuites *)
Fixpoint OpenSSLToIANACipherSuites (ciphers : list string) : list string :=
  match ciphers with
  | [] => []
  | c :: rest =>
      match openSSLToIANACiphers !! c with
      | Some ianaCipher => ianaCipher :: OpenSSLToIANACipherSuites rest
      | None => OpenSSLToIANACipherSuites rest
      end
  end.

(** crypto.DefaultCiphers *)
Definition DefaultCiphers : list Z :=
  [52393; 52392; 49195; 49199; 49196; 49200; 4865; 4866; 4867]%Z.

(** The fields of tls.Config the operator sets. *)
Record TLSConfig := mkTLSConfig {
  tlsc_CipherSuites : list Z; tlsc_MinVersion : Z; tlsc_CurvePreferences : list Z;
  tlsc_PreferServerCipherSuites : bool }.

(** crypto.SecureTLSConfig *)
Definition SecureTLSConfig (config : TLSConfig) : TLSConfig :=
  mkTLSConfig
    (if (length (tlsc_CipherSuites config) =? 0)%nat then DefaultCiphers
     else tlsc_CipherSuites config)
    (if (tlsc_MinVersion config =? 0)%Z then DefaultTLSVersion else tlsc_MinVersion config)
    (tlsc_CurvePreferences config) true.

(** tlsGroupToCurveID and TLSGroupToCurveID *)
Definition tlsGroupToCurveID : gmap string Z := list_to_map [
  ("X25519", 29%Z); ("secp256r1", 23%Z); ("secp384r1", 24%Z); ("secp521r1", 25%Z);
  ("X25519MLKEM768", 4588%Z)].

Definition TLSGroupToCurveID (group : string) : option Z := tlsGroupToCurveID !! group.

(** The loop of TLSConfigFromProfile over the IANA names: unsupported ones are
    logged and skipped. *)
Fixpoint cipher_suite_ids (ianaNames : list string) : list Z :=
  match ianaNames with
  | [] => []
  | name :: rest =>
      match CipherSuite name with
      | inl _ => cipher_suite_ids rest
      | inr id => id :: cipher_suite_ids rest
      end
  end.

Definition TLSConfigFromProfile (spec : option TLSProfileSpec) : error + TLSConfig :=
  match spec with
  | None => inr (SecureTLSConfig (mkTLSConfig [] 0 [] false))
  | Some spec =>
      let suites := if (0 <? length (tps_Ciphers spec))%nat
                    then cipher_suite_ids (OpenSSLToIANACipherSuites (tps_Ciphers spec))
                    else [] in
      let curves := omap TLSGroupToCurveID (tps_Groups spec) in
      if (0 <? String.length (tps_MinTLSVersion spec))%nat then
        match TLSVersion (tps_MinTLSVersion spec) with
        | inl err => inl (ErrWrap ("invalid TLS version " +:+ Quote (tps_MinTLSVersion spec) +:+ ": ") err)
        | inr v => inr (SecureTLSConfig (mkTLSConfig suites v curves false))
        end
      else inr (SecureTLSConfig (mkTLSConfig suites 0 curves false))
  end.

(** TLSProfileSpecForSecurityProfile; a map access that misses is nil. *)
Definition TLSProfileSpecForSecurityProfile (profile : option TLSSecurityProfile)
    : option TLSProfileSpec :=
  match profile with
  | Some p =>
      if (tsp_Type p =s TLSProfileOldType) || (tsp_Type p =s TLSProfileModernType)
      then TLSProfiles !! tsp_Type p
      else if tsp_Type p =s TLSProfileIntermediateType
      then TLSProfiles !! TLSProfileIntermediateType
      else if tsp_Type p =s TLSProfileCustomType
      then match tsp_Custom p with
           | Some spec => Some spec
           | None => TLSProfiles !! TLSProfileIntermediateType
           end
      else TLSProfiles !! TLSProfileIntermediateType
  | None => TLSProfiles !! TLSProfileIntermediateType
  end.

(** The profile kubeRBACProxyArgs settles on, with its IANA ciphers: the
    fallback to Intermediate when every cipher was dropped. *)
Definition effective_profile (profileSpec : TLSProfileSpec) : option (TLSProfileSpec * list string) :=
  let ianaCiphers := OpenSSLToIANACipherSuites (tps_Ciphers profileSpec) in
  if (length ianaCiphers =? 0)%nat && (0 <? length (tps_Ciphers profileSpec))%nat then
    spec ← TLSProfiles !! TLSProfileIntermediateType;
    Some (spec, OpenSSLToIANACipherSuites (tps_Ciphers spec))
  else Some (profileSpec, ianaCiphers).

(** kubeRBACProxyArgs; [None] would be a nil-pointer panic. *)
Definition kubeRBACProxyArgs (tlsSecurityProfile : option TLSSecurityProfile) : option (list string) :=
  profileSpec ← TLSProfileSpecForSecurityProfile tlsSecurityProfile;
  '(profileSpec, ianaCiphers) ← effective_profile profileSpec;
  Some [
    "--logtostderr";
    "--secure-listen-address=:9154";
    "--upstream=http://127.0.0.1:9153/";
    "--tls-cert-file=/etc/tls/private/tls.crt";
    "--tls-private-key-file=/etc/tls/private/tls.key";
    "--tls-cipher-suites=" +:+ strings_Join ianaCiphers ",";
    "--tls-min-version=" +:+ tps_MinTLSVersion profileSpec ].

(** openSSLNamesFromIANA *)
Definition openSSLNamesFromIANA (ianaCiphers openSSLCiphers : list string) : list string :=
  List.filter (λ c, match OpenSSLToIANACipherSuites [c] with
                    | converted :: _ => bool_decide (converted ∈ ianaCiphers)
                    | [] => false
                    end) openSSLCiphers.

(** ** Properties *)

#[local] Opaque openSSLToIANACiphers goCipherSuites TLSProfiles goTLSVersions.

(** The names the warning leaves out are those the table converts. *)
Lemma openSSLNamesFromIANA_known ciphers :
  openSSLNamesFromIANA (OpenSSLToIANACipherSuites ciphers) ciphers
  = List.filter (λ c, bool_decide (is_Some (openSSLToIANACiphers !! c))) ciphers.
Proof.
  unfold openSSLNamesFromIANA. apply filter_ext_in. intros c Hc. simpl.
  destruct (openSSLToIANACiphers !! c) as [i|] eqn:E; [|by rewrite bool_decide_false by (intros [? ?]; done)].
  rewrite !bool_decide_true; [done|by eexists|].
  induction ciphers as [|d ds IH]; [destruct Hc|]. simpl. destruct Hc as [->|Hc].
  - rewrite E. apply elem_of_cons. by left.
  - specialize (IH Hc). destruct (openSSLToIANACiphers !! d); [apply elem_of_cons; by right|done].
Qed.

(** Every cipher name the OpenSSL-to-IANA table produces is one Go knows. *)
Lemma iana_known c i : openSSLToIANACiphers !! c = Some i → is_Some (goCipherSuites !! i).
Proof.
  intros Hin. change openSSLToIANACiphers
    with (list_to_map openSSLToIANACiphers_entries : gmap string string) in Hin.
  apply elem_of_list_to_map_2 in Hin.
  assert (forallb (λ ci : string * string,
            match goCipherSuites !! ci.2 with Some _ => true | None => false end)
            openSSLToIANACiphers_entries = true) as Hall by (vm_compute; reflexivity).
  rewrite forallb_elem in Hall. specialize (Hall _ Hin). cbn [snd] in Hall.
  destruct (goCipherSuites !! i); [eauto|done].
Qed.

Lemma cipher_suite_ids_length cs :
  length (cipher_suite_ids (OpenSSLToIANACipherSuites cs))
  = length (OpenSSLToIANACipherSuites cs).
Proof.
  induction cs as [|c cs IH]; [done|]. simpl.
  destruct (openSSLToIANACiphers !! c) as [i|] eqn:E; [|done]. simpl.
  unfold CipherSuite. destruct (iana_known c i E) as [id ->]. simpl. by rewrite IH.
Qed.

Lemma OpenSSLToIANA_known cs :
  Forall (λ c, is_Some (goCipherSuites !! c)) (OpenSSLToIANACipherSuites cs).
Proof.
  induction cs as [|c cs IH]; simpl; [constructor|].
  destruct (openSSLToIANACiphers !! c) eqn:E; [|done].
  constructor; eauto using iana_known.
Qed.

Lemma goTLSVersions_range v n : goTLSVersions !! v = Some n → (769 <= n <= 772)%Z.
Proof.
  intros Hin. change goTLSVersions with
    (list_to_map [("VersionTLS10", 769%Z); ("VersionTLS11", 770%Z);
       ("VersionTLS12", 771%Z); ("VersionTLS13", 772%Z)] : gmap string Z) in Hin.
  apply elem_of_list_to_map_2 in Hin. set_unfold. naive_solver lia.
Qed.

Lemma omap_length_le {A B} (f : A → option B) (l : list A) : length (omap f l) <= length l.
Proof. induction l as [|x l IH]; csimpl; [done|]. case_match; simpl; lia. Qed.

Lemma SecureTLSConfig_ciphers cfg : tlsc_CipherSuites (SecureTLSConfig cfg) ≠ [].
Proof.
  unfold SecureTLSConfig. simpl. case_match eqn:E; [done|].
  apply Nat.eqb_neq in E. intros Hn. by rewrite Hn in E.
Qed.

(** The Intermediate profile. *)
Definition intermediate_spec : TLSProfileSpec :=
  mkTLSProfileSpec intermediate_ciphers profile_groups "VersionTLS12".

Lemma intermediate_found : TLSProfiles !! TLSProfileIntermediateType = Some intermediate_spec.
Proof. vm_compute. reflexivity. Qed.

Lemma TLSProfileSpecForSecurityProfile_total p :
  is_Some (TLSProfileSpecForSecurityProfile p).
Proof.
  unfold TLSProfileSpecForSecurityProfile. rewrite intermediate_found.
  destruct p as [[ty cu]|]; [|done]. simpl.
  destruct (bool_decide_reflect (ty = TLSProfileOldType)) as [->|]; [by vm_compute; eauto|].
  destruct (bool_decide_reflect (ty = TLSProfileModernType)) as [->|]; [by vm_compute; eauto|].
  simpl. repeat case_match; eauto.
Qed.

Lemma effective_profile_cases ps :
  ∃ ps' ciphers, effective_profile ps = Some (ps', ciphers) ∧
    ciphers = OpenSSLToIANACipherSuites (tps_Ciphers ps') ∧
    (tps_Ciphers ps ≠ [] → ciphers ≠ []) ∧
    (ps' = ps ∨ ps' = intermediate_spec ∧ OpenSSLToIANACipherSuites (tps_Ciphers ps) = []).
Proof.
  unfold effective_profile. case_match eqn:E.
  - rewrite intermediate_found. simpl. eexists _, _.
    split; [reflexivity|]. split; [done|]. split; [intros _; vm_compute; discriminate|].
    right. split; [done|]. apply andb_true_iff in E as [E _]. apply Nat.eqb_eq in E.
    by apply nil_length_inv.
  - eexists _, _. split; [reflexivity|]. split; [done|]. split; [|by left]. intros Hne Hnil. rewrite Hnil in E. simpl in E.
    destruct (tps_Ciphers ps); [done|]. simpl in E. done.
Qed.

(** C34: the kube-rbac-proxy arguments are always built (no nil profile is
    dereferenced), and they name at least one cipher suite Go knows whenever the
    resolved TLS profile lists any cipher: if all of them are unknown the
    Intermediate profile's are used, with its minimum version. *)
Theorem kubeRBACProxyArgs_ciphers (p : option TLSSecurityProfile) :
  ∃ (ps ps' : TLSProfileSpec) (ciphers : list string),
    TLSProfileSpecForSecurityProfile p = Some ps ∧
    kubeRBACProxyArgs p = Some [
      "--logtostderr"; "--secure-listen-address=:9154"; "--upstream=http://127.0.0.1:9153/";
      "--tls-cert-file=/etc/tls/private/tls.crt";
      "--tls-private-key-file=/etc/tls/private/tls.key";
      "--tls-cipher-suites=" +:+ strings_Join ciphers ",";
      "--tls-min-version=" +:+ tps_MinTLSVersion ps' ] ∧
    (tps_Ciphers ps ≠ [] → ciphers ≠ []) ∧
    Forall (λ c, is_Some (goCipherSuites !! c)) ciphers ∧
    (ps' = ps ∨ ps' = intermediate_spec ∧ OpenSSLToIANACipherSuites (tps_Ciphers ps) = []).
Proof.
  destruct (TLSProfileSpecForSecurityProfile_total p) as [ps Hps].
  destruct (effective_profile_cases ps) as (ps' & cs & He & -> & Hne & Hor).
  exists ps, ps', (OpenSSLToIANACipherSuites (tps_Ciphers ps')).
  unfold kubeRBACProxyArgs. rewrite Hps. simpl. rewrite He. simpl.
  repeat split; auto using OpenSSLToIANA_known.
Qed.

Lemma TLSVersion_pos v n : TLSVersion v = inr n → (769 <= n <= 772)%Z.
Proof.
  unfold TLSVersion, DefaultTLSVersion. case_match; [intros [= <-]; lia|].
  destruct (goTLSVersions !! v) as [x|] eqn:E; [|done]. intros [= <-].
  apply goTLSVersions_range in E. done.
Qed.

(** TLSConfigFromProfile fails exactly on an unknown minimum version, and a
    configuration it returns always has a cipher suite and a minimum version
    between TLS 1.0 and TLS 1.3, which is the profile's when it names one and
    TLS 1.2 otherwise. *)
Lemma TLSConfigFromProfile_spec (spec : TLSProfileSpec) :
  match TLSConfigFromProfile (Some spec) with
  | inl _ => tps_MinTLSVersion spec ≠ "" ∧ goTLSVersions !! tps_MinTLSVersion spec = None
  | inr cfg =>
      tlsc_CipherSuites cfg ≠ [] ∧ (769 <= tlsc_MinVersion cfg <= 772)%Z ∧
      (tps_MinTLSVersion spec = "" ∧ tlsc_MinVersion cfg = DefaultTLSVersion ∨
       goTLSVersions !! tps_MinTLSVersion spec = Some (tlsc_MinVersion cfg)) ∧
      length (tlsc_CurvePreferences cfg) <= length (tps_Groups spec)
  end.
Proof.
  unfold TLSConfigFromProfile.
  destruct (Nat.ltb_spec 0 (String.length (tps_MinTLSVersion spec))) as [Hl|Hl].
  - destruct (TLSVersion (tps_MinTLSVersion spec)) as [e|v] eqn:Ev.
    + unfold TLSVersion in Ev. rewrite (proj2 (Nat.eqb_neq _ _)) in Ev by lia.
      destruct (goTLSVersions !! tps_MinTLSVersion spec) eqn:E; [done|].
      split; [|done]. intros Hs. rewrite Hs in Hl. simpl in Hl. lia.
    + pose proof (TLSVersion_pos _ _ Ev) as Hv.
      split; [apply SecureTLSConfig_ciphers|]. cbn [SecureTLSConfig tlsc_MinVersion
        tlsc_CurvePreferences]. rewrite (proj2 (Z.eqb_neq _ _)) by lia.
      split; [done|]. split; [|apply omap_length_le]. right.
      unfold TLSVersion in Ev. rewrite (proj2 (Nat.eqb_neq _ _)) in Ev by lia.
      destruct (goTLSVersions !! tps_MinTLSVersion spec) eqn:E; congruence.
  - split; [apply SecureTLSConfig_ciphers|]. split; [by vm_compute|].
    split; [|apply omap_length_le]. left. split; [|done]. apply string_length_zero. lia.
Qed.
