(* ===== verification/DaemonSet.v ===== *)
(** * The DNS daemonset: pkg/operator/controller/controller_dns_daemonset.go

    The desired daemonset, the comparison of the current one with it, the safety
    check of a node-placement update, and the handlers that create, update and
    delete it. *)

From S2P Require Import Prelude GoLib Types Labels Client Mem Names Manifests Samples Tls.

(** ** Building the desired daemonset *)

Definition enableDaemonSetEvictionAnnotationKey : string :=
  "cluster-autoscaler.kubernetes.io/enable-ds-eviction".
Definition targetWorkloadManagementAnnotationKey : string :=
  "target.workload.openshift.io/management".

(** managedDNSDaemonSetAnnotations *)
Definition managedDNSDaemonSetAnnotations : list string :=
  [enableDaemonSetEvictionAnnotationKey; targetWorkloadManagementAnnotationKey].

(** caBundleCMVolAndVolMount *)
Definition caBundleCMVolAndVolMount (caBundleName serverName : string)
    (caBundleRevisionMap : gmap string string) : option (Volume * VolumeMount) :=
  match caBundleRevisionMap !! caBundleName with
  | None => None
  | Some revision =>
      let caBundleVolumeName := nn_Name (CABundleConfigMapName caBundleName) in
      Some (mkVolume caBundleVolumeName
              (Some (mkConfigMapVolumeSource caBundleVolumeName
                       [mkKeyToPath caBundleFileName caBundleFileName None] None None))
              None None None None,
            mkVolumeMount caBundleVolumeName
              ("/etc/pki/" +:+ serverName +:+ "-" +:+ revision) true ∅)
  end.

(** nodeSelectorForDNS *)
Definition nodeSelectorForDNS (dns : DNS) : gmap string string :=
  if negb (size (np_NodeSelector (spec_NodePlacement (dns_Spec dns))) =? 0)%nat
  then np_NodeSelector (spec_NodePlacement (dns_Spec dns))
  else {[ "kubernetes.io/os" := "linux" ]}.

(** tolerationsForDNS *)
Definition tolerationsForDNS (dns : DNS) : list Toleration :=
  if negb (length (np_Tolerations (spec_NodePlacement (dns_Spec dns))) =? 0)%nat
  then np_Tolerations (spec_NodePlacement (dns_Spec dns))
  else [mkToleration "node-role.kubernetes.io/master" "Exists" "" "" None].

(** Field updates of a daemonset. *)
Definition ds_set_meta (ds : DaemonSet) (m : ObjectMeta) : DaemonSet :=
  mkDaemonSet m (ds_Spec ds) (ds_Status ds).
Definition ds_set_spec (ds : DaemonSet) (s : DaemonSetSpec) : DaemonSet :=
  mkDaemonSet (ds_meta ds) s (ds_Status ds).
Definition ds_template (ds : DaemonSet) : PodTemplateSpec := dss_Template (ds_Spec ds).
Definition ds_podspec (ds : DaemonSet) : PodSpec := pt_Spec (ds_template ds).
Definition ds_set_template (ds : DaemonSet) (t : PodTemplateSpec) : DaemonSet :=
  ds_set_spec ds (mkDaemonSetSpec (dss_Selector (ds_Spec ds)) t
                    (dss_UpdateStrategy (ds_Spec ds)) (dss_MinReadySeconds (ds_Spec ds))).
Definition ds_set_podspec (ds : DaemonSet) (p : PodSpec) : DaemonSet :=
  ds_set_template ds (mkPodTemplateSpec (pt_Labels (ds_template ds))
                        (pt_Annotations (ds_template ds)) p).
Definition ds_set_annotations (ds : DaemonSet) (a : gmap string string) : DaemonSet :=
  ds_set_template ds (mkPodTemplateSpec (pt_Labels (ds_template ds)) a (ds_podspec ds)).
Definition ds_set_containers (ds : DaemonSet) (cs : list Container) : DaemonSet :=
  let p := ds_podspec ds in
  ds_set_podspec ds (mkPodSpec cs (ps_NodeSelector p) (ps_Tolerations p) (ps_Volumes p)
                       (ps_TerminationGracePeriodSeconds p) (ps_Other p)).
Definition ds_set_nodeSelector (ds : DaemonSet) (s : gmap string string) : DaemonSet :=
  let p := ds_podspec ds in
  ds_set_podspec ds (mkPodSpec (ps_Containers p) s (ps_Tolerations p) (ps_Volumes p)
                       (ps_TerminationGracePeriodSeconds p) (ps_Other p)).
Definition ds_set_tolerations (ds : DaemonSet) (t : list Toleration) : DaemonSet :=
  let p := ds_podspec ds in
  ds_set_podspec ds (mkPodSpec (ps_Containers p) (ps_NodeSelector p) t (ps_Volumes p)
                       (ps_TerminationGracePeriodSeconds p) (ps_Other p)).
Definition ds_set_volumes (ds : DaemonSet) (v : list Volume) : DaemonSet :=
  let p := ds_podspec ds in
  ds_set_podspec ds (mkPodSpec (ps_Containers p) (ps_NodeSelector p) (ps_Tolerations p) v
                       (ps_TerminationGracePeriodSeconds p) (ps_Other p)).
Definition ds_set_grace (ds : DaemonSet) (g : option Z) : DaemonSet :=
  let p := ds_podspec ds in
  ds_set_podspec ds (mkPodSpec (ps_Containers p) (ps_NodeSelector p) (ps_Tolerations p)
                       (ps_Volumes p) g (ps_Other p)).
Definition ds_set_strategy (ds : DaemonSet) (u : DaemonSetUpdateStrategy) : DaemonSet :=
  ds_set_spec ds (mkDaemonSetSpec (dss_Selector (ds_Spec ds)) (ds_template ds) u
                    (dss_MinReadySeconds (ds_Spec ds))).
Definition ds_set_minReadySeconds (ds : DaemonSet) (n : Z) : DaemonSet :=
  ds_set_spec ds (mkDaemonSetSpec (dss_Selector (ds_Spec ds)) (ds_template ds)
                    (dss_UpdateStrategy (ds_Spec ds)) n).

(** Field updates of a container. *)
Definition c_set_image (c : Container) (image : string) : Container :=
  mkContainer (c_Name c) image (c_Command c) (c_Args c) (c_Env c) (c_VolumeMounts c)
    (c_ReadinessProbe c) (c_LivenessProbe c) (c_Ports c) (c_Other c).
Definition c_set_args (c : Container) (args : list string) : Container :=
  mkContainer (c_Name c) (c_Image c) (c_Command c) args (c_Env c) (c_VolumeMounts c)
    (c_ReadinessProbe c) (c_LivenessProbe c) (c_Ports c) (c_Other c).
Definition c_set_mounts (c : Container) (vms : list VolumeMount) : Container :=
  mkContainer (c_Name c) (c_Image c) (c_Command c) (c_Args c) (c_Env c) vms
    (c_ReadinessProbe c) (c_LivenessProbe c) (c_Ports c) (c_Other c).
Definition c_set_readiness (c : Container) (p : option Probe) : Container :=
  mkContainer (c_Name c) (c_Image c) (c_Command c) (c_Args c) (c_Env c) (c_VolumeMounts c)
    p (c_LivenessProbe c) (c_Ports c) (c_Other c).

(** The loop over the manifest's volumes: each one with the name of the
    configmap or secret filled in, and whether config-volume was met. *)
Fixpoint fill_volumes (dns : DNS) (vs : list Volume) : list Volume * bool :=
  match vs with
  | [] => ([], false)
  | v :: rest =>
      let '(rest', found) := fill_volumes dns rest in
      if v_Name v =s "config-volume" then
        (mkVolume (v_Name v)
           ((λ c, mkConfigMapVolumeSource (nn_Name (DNSConfigMapName dns)) (cmv_Items c)
                    (cmv_DefaultMode c) (cmv_Optional c)) <$> v_ConfigMap v)
           (v_Secret v) (v_HostPath v) (v_EmptyDir v) (v_Other v) :: rest', true)
      else if v_Name v =s "metrics-tls" then
        (mkVolume (v_Name v) (v_ConfigMap v)
           (Some (mkSecretVolumeSource (DNSMetricsSecretName dns) [] None None))
           (v_HostPath v) (v_EmptyDir v) (v_Other v) :: rest', found)
      else (v :: rest', found)
  end.

(** The CA bundle volumes and mounts of the "dns" container: the one of the
    upstream resolvers, then the ones of the servers, in order. *)
Definition ca_bundle_volumes (dns : DNS) (caBundleRevisionMap : gmap string string)
    : list (Volume * VolumeMount) :=
  omap (λ tls : option DNSOverTLSConfig,
          match tls with
          | Some tls =>
              if negb (tls_CABundle_Name tls =s "")
              then caBundleCMVolAndVolMount (tls_CABundle_Name tls) (tls_ServerName tls)
                     caBundleRevisionMap
              else None
          | None => None
          end)
    (tc_TLS (ur_TransportConfig (spec_UpstreamResolvers (dns_Spec dns)))
     :: map (λ s, tc_TLS (fp_TransportConfig (srv_ForwardPlugin s))) (spec_Servers (dns_Spec dns))).

(** The loop over the containers, accumulating the volumes it appends. *)
Fixpoint fill_containers (dns : DNS) (coreDNSImage kubeRBACProxyImage : string)
    (caBundleRevisionMap : gmap string string) (args : list string)
    (cs : list Container) (volumes : list Volume) : list Container * list Volume :=
  match cs with
  | [] => ([], volumes)
  | c :: rest =>
      if c_Name c =s "dns" then
        let extra := ca_bundle_volumes dns caBundleRevisionMap in
        let c' := c_set_mounts (c_set_image c coreDNSImage) (c_VolumeMounts c ++ map snd extra) in
        let '(rest', volumes') :=
          fill_containers dns coreDNSImage kubeRBACProxyImage caBundleRevisionMap args rest
            (volumes ++ map fst extra) in
        (c' :: rest', volumes')
      else
        let c' := if c_Name c =s "kube-rbac-proxy"
                  then c_set_args (c_set_image c kubeRBACProxyImage) args else c in
        let '(rest', volumes') :=
          fill_containers dns coreDNSImage kubeRBACProxyImage caBundleRevisionMap args rest volumes in
        (c' :: rest', volumes')
  end.

(** desiredDNSDaemonSet, from the manifest [daemonset]; the outer [None] is a
    panic (of kubeRBACProxyArgs). *)
Definition desiredDNSDaemonSet_from (daemonset : DaemonSet) (dns : DNS)
    (coreDNSImage kubeRBACProxyImage : string) (caBundleRevisionMap : gmap string string)
    (tlsSecurityProfile : option TLSSecurityProfile) : option (error + DaemonSet) :=
  let name := DNSDaemonSetName dns in
  let selector := DNSDaemonSetPodSelector dns in
  let p := ds_podspec daemonset in
  let '(volumes, coreFileVolumeFound) := fill_volumes dns (ps_Volumes p) in
  if negb coreFileVolumeFound
  then Some (inl (ErrNew "volume 'config-volume' is not found"))
  else
    args ← kubeRBACProxyArgs tlsSecurityProfile;
    let '(containers, volumes) :=
      fill_containers dns coreDNSImage kubeRBACProxyImage caBundleRevisionMap args
        (ps_Containers p) volumes in
    let m := ds_meta daemonset in
    Some (inr (mkDaemonSet
      (mkObjectMeta (nn_Name name) (nn_Namespace name) (om_UID m) (om_ResourceVersion m)
         {[ OwningDNSLabel := DNSDaemonSetLabel dns ]} (om_Annotations m)
         [dnsOwnerRef dns] (om_Finalizers m) (om_DeletionTimestamp m))
      (mkDaemonSetSpec (Some selector)
         (mkPodTemplateSpec (ls_MatchLabels selector)
            (<[ enableDaemonSetEvictionAnnotationKey := "true" ]>
               (pt_Annotations (ds_template daemonset)))
            (mkPodSpec containers (nodeSelectorForDNS dns) (tolerationsForDNS dns) volumes
               (ps_TerminationGracePeriodSeconds p) (ps_Other p)))
         (dss_UpdateStrategy (ds_Spec daemonset)) (dss_MinReadySeconds (ds_Spec daemonset)))
      (ds_Status daemonset))).

Definition desiredDNSDaemonSet : DNS → string → string → gmap string string →
    option TLSSecurityProfile → option (error + DaemonSet) :=
  desiredDNSDaemonSet_from DNSDaemonSet.

(** ** Comparing daemonsets *)

(** cmp.Equal on two pointers, with a comparer for what they point to. *)
Definition option_eqb {A} (eqb : A → A → bool) (x y : option A) : bool :=
  match x, y with
  | None, None => true
  | Some a, Some b => eqb a b
  | _, _ => false
  end.

Definition ConfigMapVolumeSourceDefaultMode : Z := 420.
Definition SecretVolumeSourceDefaultMode : Z := 420.
Definition DefaultTerminationGracePeriodSeconds : Z := 30.

Definition cmpConfigMapVolumeSource (a b : ConfigMapVolumeSource) : bool :=
  if negb (cmv_Name a =s cmv_Name b) then false
  else if negb (bool_decide (cmv_Items a = cmv_Items b)) then false
  else if negb (default ConfigMapVolumeSourceDefaultMode (cmv_DefaultMode a)
                =? default ConfigMapVolumeSourceDefaultMode (cmv_DefaultMode b))%Z then false
  else if negb (bool_decide (cmv_Optional a = cmv_Optional b)) then false
  else true.

Definition cmpSecretVolumeSource (a b : SecretVolumeSource) : bool :=
  if negb (sv_SecretName a =s sv_SecretName b) then false
  else if negb (bool_decide (sv_Items a = sv_Items b)) then false
  else if negb (default SecretVolumeSourceDefaultMode (sv_DefaultMode a)
                =? default SecretVolumeSourceDefaultMode (sv_DefaultMode b))%Z then false
  else if negb (bool_decide (sv_Optional a = sv_Optional b)) then false
  else true.

Definition TaintEffectNoExecute : string := "NoExecute".

Definition cmpTolerations (a b : Toleration) : bool :=
  if negb (tol_Key a =s tol_Key b) then false
  else if negb (tol_Value a =s tol_Value b) then false
  else if negb (tol_Operator a =s tol_Operator b) then false
  else if negb (tol_Effect a =s tol_Effect b) then false
  else if tol_Effect a =s TaintEffectNoExecute then
    match tol_TolerationSeconds a, tol_TolerationSeconds b with
    | Some x, Some y => (x =? y)%Z
    | None, None => true
    | _, _ => false
    end
  else true.

Definition cmpTerminationGracePeriodSeconds (a b : option Z) : bool :=
  (default DefaultTerminationGracePeriodSeconds a
   =? default DefaultTerminationGracePeriodSeconds b)%Z.

(** cmp.Equal on Volumes, with the two comparers. *)
Definition volume_eqb (a b : Volume) : bool :=
  (v_Name a =s v_Name b)
  && option_eqb cmpConfigMapVolumeSource (v_ConfigMap a) (v_ConfigMap b)
  && option_eqb cmpSecretVolumeSource (v_Secret a) (v_Secret b)
  && bool_decide (v_HostPath a = v_HostPath b)
  && bool_decide (v_EmptyDir a = v_EmptyDir b)
  && bool_decide (v_Other a = v_Other b).

Definition volumes_eqb : list Volume → list Volume → bool := list_eqb volume_eqb.

(** cmp.Equal on Tolerations, with SortSlices(cmpTolerations). *)
Definition tolerations_eqb (a b : list Toleration) : option bool :=
  cmp_Equal_SortSlices cmpTolerations (λ x y, bool_decide (x = y)) a b.

(** The first container with the given name, with its index. *)
Fixpoint find_container (name : string) (cs : list Container) : option (nat * Container) :=
  match cs with
  | [] => None
  | c :: rest => if name =s c_Name c then Some (0, c)
                 else (λ ic : nat * Container, (S ic.1, ic.2)) <$> find_container name rest
  end.

(** *c.ReadinessProbe, or the zero Probe. *)
Definition readiness (oc : option (nat * Container)) : Probe :=
  match oc with
  | Some (_, c) => default probe0 (c_ReadinessProbe c)
  | None => probe0
  end.

(** One turn of the loop over {"dns", "kube-rbac-proxy"}; the last component says
    whether the loop goes on; [None] is an index out of range. *)
Definition compare_container (name : string) (current expected : list Container)
    (updated : list Container) (changed : bool) : option (list Container * bool * bool) :=
  let cur := find_container name current in
  let exp := find_container name expected in
  let curIndex := match cur with Some (i, _) => i | None => 0 end in
  let curImage := match cur with Some (_, c) => c_Image c | None => "" end in
  let expImage := match exp with Some (_, c) => c_Image c | None => "" end in
  if (String.length curImage =? 0)%nat then Some (expected, true, false)
  else
    let '(updated, changed) :=
      if negb (curImage =s expImage)
      then (alter (λ c, c_set_image c expImage) curIndex updated, true)
      else (updated, changed) in
    if negb (bool_decide (readiness cur = readiness exp)) then
      e ← expected !! curIndex;
      Some (alter (λ c, c_set_readiness c (c_ReadinessProbe e)) curIndex updated, true, true)
    else Some (updated, changed, true).

Definition compare_containers (current expected : list Container)
    : option (list Container * bool) :=
  '(updated, changed, continue) ← compare_container "dns" current expected current false;
  if continue : bool then
    '(updated, changed, _) ← compare_container "kube-rbac-proxy" current expected updated changed;
    Some (updated, changed)
  else Some (updated, changed).

(** One turn of the loop over the managed annotations. *)
Definition merge_annotation (current expected : gmap string string)
    (st : gmap string string * bool) (k : string) : gmap string string * bool :=
  match current !! k, expected !! k with
  | Some currentVal, Some expectedVal =>
      if negb (currentVal =s expectedVal) then (<[ k := expectedVal ]> st.1, true) else st
  | None, Some expectedVal => (<[ k := expectedVal ]> st.1, true)
  | Some _, None => (delete k st.1, true)
  | None, None => st
  end.

(** The last loop: whether two containers at the same position differ in
    command, arguments or volume mounts. *)
Definition container_differs (a b : Container) : bool :=
  negb (bool_decide (c_Command a = c_Command b))
  || negb (bool_decide (c_Args a = c_Args b))
  || negb (bool_decide (c_VolumeMounts a = c_VolumeMounts b)).

Definition containers_differ (current expected : list Container) : bool :=
  negb (length current =? length expected)%nat
  || existsb (λ ab : Container * Container, container_differs ab.1 ab.2) (zip current expected).

(** daemonsetConfigChanged: [None] is a panic; [Some None] is "not changed";
    [Some (Some updated)] the daemonset to write. *)
Definition daemonsetConfigChanged (current expected : DaemonSet) : option (option DaemonSet) :=
  let cur := ds_podspec current in
  let exp := ds_podspec expected in
  let updated := current in
  let '(updated, changed) :=
    if negb (dss_MinReadySeconds (ds_Spec current) =? dss_MinReadySeconds (ds_Spec expected))%Z
    then (ds_set_minReadySeconds updated (dss_MinReadySeconds (ds_Spec expected)), true)
    else (updated, false) in
  let '(updated, changed) :=
    if negb (bool_decide (dss_UpdateStrategy (ds_Spec current) = dss_UpdateStrategy (ds_Spec expected)))
    then (ds_set_strategy updated (dss_UpdateStrategy (ds_Spec expected)), true)
    else (updated, changed) in
  '(containers, containersChanged) ← compare_containers (ps_Containers cur) (ps_Containers exp);
  let updated := ds_set_containers updated containers in
  let changed := changed || containersChanged in
  let '(annotations, annotationsChanged) :=
    foldl (merge_annotation (pt_Annotations (ds_template current)) (pt_Annotations (ds_template expected)))
          (pt_Annotations (ds_template current), false) managedDNSDaemonSetAnnotations in
  let updated := ds_set_annotations updated annotations in
  let changed := changed || annotationsChanged in
  let '(updated, changed) :=
    if negb (bool_decide (ps_NodeSelector cur = ps_NodeSelector exp))
    then (ds_set_nodeSelector updated (ps_NodeSelector exp), true) else (updated, changed) in
  let '(updated, changed) :=
    if negb (cmpTerminationGracePeriodSeconds (ps_TerminationGracePeriodSeconds cur)
                                              (ps_TerminationGracePeriodSeconds exp))
    then (ds_set_grace updated (ps_TerminationGracePeriodSeconds exp), true)
    else (updated, changed) in
  tolerationsEqual ← tolerations_eqb (ps_Tolerations cur) (ps_Tolerations exp);
  let '(updated, changed) :=
    if negb tolerationsEqual
    then (ds_set_tolerations updated (ps_Tolerations exp), true) else (updated, changed) in
  let '(updated, changed) :=
    if negb (volumes_eqb (ps_Volumes cur) (ps_Volumes exp))
    then (ds_set_volumes updated (ps_Volumes exp), true) else (updated, changed) in
  let '(updated, changed) :=
    if containers_differ (ps_Containers cur) (ps_Containers exp)
    then (ds_set_containers updated (ps_Containers exp), true) else (updated, changed) in
  Some (if changed then Some updated else None).

(** ** Is an update safe? *)

(** Toleration.ToleratesTaint with enableComparisonOperators = false. *)
Definition ToleratesTaint (t : Toleration) (taint : Taint) : bool :=
  if negb (tol_Effect t =s "") && negb (tol_Effect t =s tn_Effect taint) then false
  else if negb (tol_Key t =s "") && negb (tol_Key t =s tn_Key taint) then false
  else if (tol_Operator t =s "") || (tol_Operator t =s "Equal")
  then tol_Value t =s tn_Value taint
  else if tol_Operator t =s "Exists" then true
  else false.

Definition tolerationsTolerateTaints (tolerations : list Toleration) (taints : list Taint) : bool :=
  forallb (λ taint, existsb (λ t, ToleratesTaint t taint) tolerations) taints.

(** The loop of daemonsetUpdateIsSafe over the selected nodes. *)
Definition schedulable (tolerations : list Toleration) (node : Node) : bool :=
  negb (node_Unschedulable node) && tolerationsTolerateTaints tolerations (node_Taints node).

(** ** Handlers *)

Section handlers.
Context {W : Type} `{Client W} (r : reconciler).

(** A (bool, *DaemonSet, error) result: the daemonset if there is one, and the
    error if there is one. *)
Definition DSResult : Type := option DaemonSet * option error.

(** currentDNSDaemonSet *)
Definition currentDNSDaemonSet (dns : DNS) : M W DSResult :=
  res ← call (client_Get KDaemonSet (DNSDaemonSetName dns));
  match res with
  | inr daemonset => mret (Some daemonset, None)
  | inl err => if IsNotFound err then mret (None, None) else mret (None, Some (api_error err))
  end.

(** createDNSDaemonSet *)
Definition createDNSDaemonSet (daemonset : DaemonSet) : M W (option error) :=
  res ← call (client_Create KDaemonSet daemonset);
  match res with
  | inr _ => mret None
  | inl err => mret (Some (Errorf_v ("failed to create dns daemonset "
      +:+ nn_String (key_of KDaemonSet daemonset) +:+ ": ") (api_error err)))
  end.

(** daemonsetUpdateIsSafe: whether it is safe, or an error. *)
Definition daemonsetUpdateIsSafe (current updated : DaemonSet) : M W (error + bool) :=
  match LabelSelectorAsSelector (dss_Selector (ds_Spec current)) with
  | inl _ => mret (inr true)
  | inr selector =>
      pods ← call (cache_List KPod
        (mkListOptions (Some (om_Namespace (ds_meta current))) (Some selector)));
      match pods with
      | inl err => mret (inl (ErrWrap "failed to list the daemonset's pods: " (api_error err)))
      | inr podList =>
          if (length podList =? 0)%nat then mret (inr true)
          else
            match LabelSelectorAsSelector
                    (Some (mkLabelSelector (ps_NodeSelector (ds_podspec updated)) [])) with
            | inl _ => mret (inr false)
            | inr nodeSelector =>
                nodes ← call (cache_List KNode (mkListOptions None (Some nodeSelector)));
                match nodes with
                | inl err => mret (inl (ErrWrap "failed to list nodes: " (api_error err)))
                | inr nodeList =>
                    mret (inr (existsb (schedulable (ps_Tolerations (ds_podspec updated))) nodeList))
                end
            end
      end
  end.

(** updateDNSDaemonSet *)
Definition updateDNSDaemonSet (current desired : DaemonSet) : M W (error + bool) :=
  change ← lift_option (daemonsetConfigChanged current desired);
  match change with
  | None => mret (inr false)
  | Some updated =>
      let write (updated : DaemonSet) : M W (error + bool) :=
        res ← call (client_Update KDaemonSet updated);
        match res with
        | inr _ => mret (inr true)
        | inl err => mret (inl (Errorf_v ("failed to update dns daemonset "
            +:+ nn_String (key_of KDaemonSet updated) +:+ ": ") (api_error err)))
        end in
      safe ← daemonsetUpdateIsSafe current updated;
      match safe with
      | inl err => mret (inl err)
      | inr true => write updated
      | inr false =>
          let updated := ds_set_nodeSelector
            (ds_set_tolerations updated (ps_Tolerations (ds_podspec current)))
            (ps_NodeSelector (ds_podspec current)) in
          change ← lift_option (daemonsetConfigChanged current updated);
          match change with
          | None => mret (inr false)
          | Some _ => write updated
          end
      end
  end.

(** ensureDNSDaemonSet *)
Definition ensureDNSDaemonSet (dns : DNS) (caBundleRevisionMap : gmap string string)
    (tlsSecurityProfile : option TLSSecurityProfile) : M W DSResult :=
  cur ← currentDNSDaemonSet dns;
  match cur with
  | (_, Some err) => mret (None, Some err)
  | (current, None) =>
      desired ← lift_option (desiredDNSDaemonSet dns (cfg_CoreDNSImage (r_Config r))
        (cfg_KubeRBACProxyImage (r_Config r)) caBundleRevisionMap tlsSecurityProfile);
      match desired with
      | inl err => mret (current, Some (Errorf_v "failed to build dns daemonset: " err))
      | inr desired =>
          match current with
          | None =>
              err ← createDNSDaemonSet desired;
              match err with
              | Some err => mret (None, Some err)
              | None => currentDNSDaemonSet dns
              end
          | Some current =>
              updated ← updateDNSDaemonSet current desired;
              match updated with
              | inl err => mret (Some current, Some err)
              | inr true => currentDNSDaemonSet dns
              | inr false => mret (Some current, None)
              end
          end
      end
  end.

(** ensureDNSDaemonSetDeleted *)
Definition ensureDNSDaemonSetDeleted (dns : DNS) : M W (option error) :=
  err ← call (client_Delete KDaemonSet (DNSDaemonSetName dns));
  match err with
  | Some err => if IsNotFound err then mret None else mret (Some (api_error err))
  | None => mret None
  end.

End handlers.

(** ** When is a daemonset in sync? *)

(** The image and the readiness probe of the container with a given name. *)
Definition container_image (name : string) (cs : list Container) : string :=
  match find_container name cs with Some (_, c) => c_Image c | None => "" end.
Definition container_probe (name : string) (cs : list Container) : Probe :=
  readiness (find_container name cs).

(** The containers agree on what the operator manages. *)
Definition containers_in_sync (current expected : list Container) : Prop :=
  Forall2 (λ a b, c_Command a = c_Command b ∧ c_Args a = c_Args b ∧
                  c_VolumeMounts a = c_VolumeMounts b) current expected ∧
  ∀ name, name ∈ ["dns"; "kube-rbac-proxy"] →
    container_image name current ≠ "" ∧
    container_image name current = container_image name expected ∧
    container_probe name current = container_probe name expected.

(** The daemonsets agree on every field the operator manages. *)
Definition in_sync (current expected : DaemonSet) : Prop :=
  let cur := ds_podspec current in
  let exp := ds_podspec expected in
  dss_MinReadySeconds (ds_Spec current) = dss_MinReadySeconds (ds_Spec expected) ∧
  dss_UpdateStrategy (ds_Spec current) = dss_UpdateStrategy (ds_Spec expected) ∧
  (∀ k, k ∈ managedDNSDaemonSetAnnotations →
     pt_Annotations (ds_template current) !! k = pt_Annotations (ds_template expected) !! k) ∧
  ps_NodeSelector cur = ps_NodeSelector exp ∧
  cmpTerminationGracePeriodSeconds (ps_TerminationGracePeriodSeconds cur)
    (ps_TerminationGracePeriodSeconds exp) = true ∧
  tolerations_eqb (ps_Tolerations cur) (ps_Tolerations exp) = Some true ∧
  volumes_eqb (ps_Volumes cur) (ps_Volumes exp) = true ∧
  containers_in_sync (ps_Containers cur) (ps_Containers exp).

Lemma containers_differ_false current expected :
  containers_differ current expected = false ↔
  Forall2 (λ a b, c_Command a = c_Command b ∧ c_Args a = c_Args b ∧
                  c_VolumeMounts a = c_VolumeMounts b) current expected.
Proof.
  unfold containers_differ. rewrite orb_false_iff, negb_false_iff, Nat.eqb_eq.
  revert expected. induction current as [|a cur IH]; intros [|b exp]; simpl; try (split; [naive_solver|]);
    try (inversion 1); try done.
  rewrite Forall2_cons, <- IH, orb_false_iff. unfold container_differs.
  rewrite !orb_false_iff, !negb_false_iff, !bool_decide_eq_true. naive_solver.
Qed.

(** A turn of the container loop that changes nothing. *)
Lemma compare_container_same name current expected upd :
  container_image name current ≠ "" →
  container_image name current = container_image name expected →
  container_probe name current = container_probe name expected →
  compare_container name current expected upd false = Some (upd, false, true).
Proof.
  unfold compare_container, container_image, container_probe.
  intros Hne Him Hpr. rewrite <- Him.
  destruct (find_container name current) as [[i c]|]; [|done].
  destruct (c_Image c) eqn:E; [done|]. simpl.
  rewrite bool_decide_true by done. simpl. by rewrite bool_decide_true.
Qed.

(** A turn after which no change is recorded found nothing to change. *)
Lemma compare_container_unchanged name current expected upd b upd' cont :
  compare_container name current expected upd b = Some (upd', false, cont) →
  b = false ∧ cont = true ∧ upd' = upd ∧
  container_image name current ≠ "" ∧
  container_image name current = container_image name expected ∧
  container_probe name current = container_probe name expected.
Proof.
  unfold compare_container, container_image, container_probe.
  set (cur := find_container name current). set (exp := find_container name expected).
  intros Hc.
  destruct (match cur with Some (_, c) => c_Image c | None => "" end) as [|x s] eqn:E; [done|].
  simpl String.length in Hc. cbv iota beta zeta in Hc. cbn [Nat.eqb] in Hc.
  destruct (bool_decide (String x s = _)) eqn:E2 in Hc; simpl in Hc;
    (destruct (bool_decide (readiness cur = readiness exp)) eqn:E3; simpl in Hc;
     [|by destruct (expected !! _)]); [|done].
  to_prop. by simplify_eq.
Qed.

Lemma compare_container_true name current expected upd upd' b cont :
  compare_container name current expected upd true = Some (upd', b, cont) → b = true.
Proof.
  intros Hc. destruct b; [done|]. by apply compare_container_unchanged in Hc as [? _].
Qed.

Lemma compare_containers_unchanged current expected upd :
  compare_containers current expected = Some (upd, false) ↔
  upd = current ∧
  ∀ name, name ∈ ["dns"; "kube-rbac-proxy"] →
    container_image name current ≠ "" ∧
    container_image name current = container_image name expected ∧
    container_probe name current = container_probe name expected.
Proof.
  unfold compare_containers. split.
  - destruct (compare_container "dns" current expected current false) as [[[u1 b1] c1]|] eqn:E1; [|done].
    simpl. destruct c1; simpl.
    + destruct (compare_container "kube-rbac-proxy" current expected u1 b1) as [[[u2 b2] c2]|] eqn:E2;
        [|done]. simpl. intros [= -> ->].
      apply compare_container_unchanged in E2 as (-> & _ & -> & ? & ? & ?).
      apply compare_container_unchanged in E1 as (_ & _ & -> & ? & ? & ?).
      split; [done|]. intros name Hn. set_unfold in Hn. destruct Hn as [->|[->|[]]]; done.
    + intros [= -> ->]. by apply compare_container_unchanged in E1 as (_ & ? & _).
  - intros [-> Hn]. destruct (Hn "dns") as (? & ? & ?); [set_solver|].
    destruct (Hn "kube-rbac-proxy") as (? & ? & ?); [set_solver|].
    rewrite (compare_container_same "dns") by done. simpl.
    by rewrite (compare_container_same "kube-rbac-proxy") by done.
Qed.

Lemma merge_annotation_true current expected m k :
  (merge_annotation current expected (m, true) k).2 = true.
Proof. unfold merge_annotation. repeat case_match; done. Qed.

(** A turn of the annotation loop, one managed key. *)
Lemma merge_annotation_unchanged current expected m b k :
  (merge_annotation current expected (m, b) k).2 = false ↔
  b = false ∧ current !! k = expected !! k.
Proof.
  unfold merge_annotation.
  destruct (current !! k) as [x|], (expected !! k) as [y|]; simpl; [|naive_solver..].
  case_bool_decide; naive_solver.
Qed.

Lemma annotations_unchanged current expected ks m b :
  (foldl (merge_annotation current expected) (m, b) ks).2 = false ↔
  b = false ∧ ∀ k, k ∈ ks → current !! k = expected !! k.
Proof.
  revert m b. induction ks as [|k ks IH]; intros m b; simpl; [set_solver|].
  destruct (merge_annotation current expected (m, b) k) as [m' b'] eqn:E.
  rewrite IH. pose proof (merge_annotation_unchanged current expected m b k) as Hu.
  rewrite E in Hu. simpl in Hu. rewrite Hu. set_solver.
Qed.

(** The tests of daemonsetConfigChanged, and the daemonset it builds, field by
    field. *)
Definition annotations_merged (current expected : DaemonSet) : gmap string string * bool :=
  foldl (merge_annotation (pt_Annotations (ds_template current)) (pt_Annotations (ds_template expected)))
        (pt_Annotations (ds_template current), false) managedDNSDaemonSetAnnotations.

Definition fields_changed (current expected : DaemonSet) (containersChanged tolerationsEqual : bool) : bool :=
  let cur := ds_podspec current in
  let exp := ds_podspec expected in
  containers_differ (ps_Containers cur) (ps_Containers exp)
  || (negb (volumes_eqb (ps_Volumes cur) (ps_Volumes exp))
  || (negb tolerationsEqual
  || (negb (cmpTerminationGracePeriodSeconds (ps_TerminationGracePeriodSeconds cur)
                                             (ps_TerminationGracePeriodSeconds exp))
  || (negb (bool_decide (ps_NodeSelector cur = ps_NodeSelector exp))
  || (negb (bool_decide (dss_UpdateStrategy (ds_Spec current) = dss_UpdateStrategy (ds_Spec expected)))
      || (negb (dss_MinReadySeconds (ds_Spec current) =? dss_MinReadySeconds (ds_Spec expected))%Z
          || false)
      || containersChanged || (annotations_merged current expected).2))))).

Definition fields_updated (current expected : DaemonSet) (containers : list Container)
    (tolerationsEqual : bool) : DaemonSet :=
  let cur := ds_podspec current in
  let exp := ds_podspec expected in
  mkDaemonSet (ds_meta current)
    (mkDaemonSetSpec (dss_Selector (ds_Spec current))
       (mkPodTemplateSpec (pt_Labels (ds_template current)) (annotations_merged current expected).1
          (mkPodSpec
             (if containers_differ (ps_Containers cur) (ps_Containers exp)
              then ps_Containers exp else containers)
             (if negb (bool_decide (ps_NodeSelector cur = ps_NodeSelector exp))
              then ps_NodeSelector exp else ps_NodeSelector cur)
             (if negb tolerationsEqual then ps_Tolerations exp else ps_Tolerations cur)
             (if negb (volumes_eqb (ps_Volumes cur) (ps_Volumes exp))
              then ps_Volumes exp else ps_Volumes cur)
             (if negb (cmpTerminationGracePeriodSeconds (ps_TerminationGracePeriodSeconds cur)
                                                        (ps_TerminationGracePeriodSeconds exp))
              then ps_TerminationGracePeriodSeconds exp else ps_TerminationGracePeriodSeconds cur)
             (ps_Other cur)))
       (if negb (bool_decide (dss_UpdateStrategy (ds_Spec current) = dss_UpdateStrategy (ds_Spec expected)))
        then dss_UpdateStrategy (ds_Spec expected) else dss_UpdateStrategy (ds_Spec current))
       (if negb (dss_MinReadySeconds (ds_Spec current) =? dss_MinReadySeconds (ds_Spec expected))%Z
        then dss_MinReadySeconds (ds_Spec expected) else dss_MinReadySeconds (ds_Spec current)))
    (ds_Status current).

Lemma if_changed {A} (b ch : bool) (x y : A) :
  (if b then (x, true) else (y, ch)) = (if b then x else y, b || ch).
Proof. by destruct b. Qed.

(** A conditional update of one field is an update with a conditional value. *)
Lemma if_ds_set (b : bool) (u : DaemonSet) :
  (∀ v, (if b then ds_set_minReadySeconds u v else u)
        = ds_set_minReadySeconds u (if b then v else dss_MinReadySeconds (ds_Spec u))) ∧
  (∀ v, (if b then ds_set_strategy u v else u)
        = ds_set_strategy u (if b then v else dss_UpdateStrategy (ds_Spec u))) ∧
  (∀ v, (if b then ds_set_nodeSelector u v else u)
        = ds_set_nodeSelector u (if b then v else ps_NodeSelector (ds_podspec u))) ∧
  (∀ v, (if b then ds_set_grace u v else u)
        = ds_set_grace u (if b then v else ps_TerminationGracePeriodSeconds (ds_podspec u))) ∧
  (∀ v, (if b then ds_set_tolerations u v else u)
        = ds_set_tolerations u (if b then v else ps_Tolerations (ds_podspec u))) ∧
  (∀ v, (if b then ds_set_volumes u v else u)
        = ds_set_volumes u (if b then v else ps_Volumes (ds_podspec u))) ∧
  (∀ v, (if b then ds_set_containers u v else u)
        = ds_set_containers u (if b then v else ps_Containers (ds_podspec u))).
Proof. destruct u as [m [s [l a []] us n] st], b; done. Qed.

(** daemonsetConfigChanged in straight-line form. *)
Lemma daemonsetConfigChanged_fields current expected :
  daemonsetConfigChanged current expected =
  ('(containers, containersChanged) ←
     compare_containers (ps_Containers (ds_podspec current)) (ps_Containers (ds_podspec expected));
   tolerationsEqual ←
     tolerations_eqb (ps_Tolerations (ds_podspec current)) (ps_Tolerations (ds_podspec expected));
   Some (if fields_changed current expected containersChanged tolerationsEqual
         then Some (fields_updated current expected containers tolerationsEqual) else None)).
Proof.
  unfold daemonsetConfigChanged, fields_changed, fields_updated.
  fold (annotations_merged current expected).
  destruct (compare_containers _ _) as [[cs cc]|];
    [|by repeat case_match].
  destruct (tolerations_eqb _ _) as [te|]; [|by simpl; repeat case_match].
  destruct (annotations_merged current expected) as [anns ac]. simpl.
  repeat (rewrite if_changed; cbv beta iota).
  repeat match goal with
  | |- context [if ?b then ?f ?u ?v else ?u] =>
      first [ rewrite (proj1 (if_ds_set b u))
            | rewrite (proj1 (proj2 (if_ds_set b u)))
            | rewrite (proj1 (proj2 (proj2 (if_ds_set b u))))
            | rewrite (proj1 (proj2 (proj2 (proj2 (if_ds_set b u)))))
            | rewrite (proj1 (proj2 (proj2 (proj2 (proj2 (if_ds_set b u))))))
            | rewrite (proj1 (proj2 (proj2 (proj2 (proj2 (proj2 (if_ds_set b u)))))))
            | rewrite (proj2 (proj2 (proj2 (proj2 (proj2 (proj2 (if_ds_set b u))))))) ]
  end.
  reflexivity.
Qed.

Lemma fields_changed_false current expected cc te :
  fields_changed current expected cc te = false ↔
  cc = false ∧ te = true ∧
  dss_MinReadySeconds (ds_Spec current) = dss_MinReadySeconds (ds_Spec expected) ∧
  dss_UpdateStrategy (ds_Spec current) = dss_UpdateStrategy (ds_Spec expected) ∧
  (∀ k, k ∈ managedDNSDaemonSetAnnotations →
     pt_Annotations (ds_template current) !! k = pt_Annotations (ds_template expected) !! k) ∧
  ps_NodeSelector (ds_podspec current) = ps_NodeSelector (ds_podspec expected) ∧
  cmpTerminationGracePeriodSeconds (ps_TerminationGracePeriodSeconds (ds_podspec current))
    (ps_TerminationGracePeriodSeconds (ds_podspec expected)) = true ∧
  volumes_eqb (ps_Volumes (ds_podspec current)) (ps_Volumes (ds_podspec expected)) = true ∧
  containers_differ (ps_Containers (ds_podspec current)) (ps_Containers (ds_podspec expected)) = false.
Proof.
  unfold fields_changed, annotations_merged.
  rewrite !orb_false_iff, !negb_false_iff, !bool_decide_eq_true, Z.eqb_eq, annotations_unchanged.
  naive_solver.
Qed.

Lemma daemonsetConfigChanged_unchanged current expected :
  daemonsetConfigChanged current expected = Some None ↔ in_sync current expected.
Proof.
  rewrite daemonsetConfigChanged_fields. unfold in_sync, containers_in_sync. split.
  - destruct (compare_containers _ _) as [[cs cc]|] eqn:Ec; [|done].
    destruct (tolerations_eqb _ _) as [te|] eqn:Et; [|done]. simpl.
    destruct (fields_changed current expected cc te) eqn:Ef; [done|]. intros _.
    apply fields_changed_false in Ef as (-> & -> & ? & ? & ? & ? & ? & ? & Hd).
    apply compare_containers_unchanged in Ec as [-> Ec]. apply containers_differ_false in Hd.
    tauto.
  - intros (? & ? & ? & ? & ? & Ht & ? & Hc & Hn).
    assert (compare_containers (ps_Containers (ds_podspec current))
      (ps_Containers (ds_podspec expected)) = Some (ps_Containers (ds_podspec current), false)) as ->
      by (by apply compare_containers_unchanged).
    rewrite Ht. simpl. apply containers_differ_false in Hc.
    by rewrite (proj2 (fields_changed_false current expected false true)).
Qed.


(** ** Convergence *)

(** A comparison that does not panic equates the expected side with itself. *)
Lemma cmp_Equal_SortSlices_self {A} less (eqb : A → A → bool) (x y : list A) b :
  (∀ a, eqb a a = true) →
  cmp_Equal_SortSlices less eqb x y = Some b → cmp_Equal_SortSlices less eqb y y = Some true.
Proof.
  intros Heq. assert (∀ l, list_eqb eqb l l = true) as Hl.
  { induction l; simpl; [done|]. by rewrite Heq. }
  unfold cmp_Equal_SortSlices.
  destruct (length y <=? 1)%nat eqn:Ey; simpl; [by rewrite Hl|]. rewrite andb_false_r. simpl.
  destruct (SliceIsSorted less y) eqn:Es; simpl; [by rewrite Hl|]. rewrite andb_false_r. simpl.
  case_match eqn:Ec; [|done]. intros _. to_prop. destruct Ec as [_ ->]. simpl. by rewrite Hl.
Qed.

Lemma volume_eqb_refl v : volume_eqb v v = true.
Proof.
  unfold volume_eqb. rewrite !bool_decide_true by done.
  assert (∀ c, option_eqb cmpConfigMapVolumeSource c c = true) as ->.
  { intros [c|]; [|done]. simpl. unfold cmpConfigMapVolumeSource.
    rewrite !bool_decide_true by done. by rewrite Z.eqb_refl. }
  assert (∀ c, option_eqb cmpSecretVolumeSource c c = true) as ->.
  { intros [c|]; [|done]. simpl. unfold cmpSecretVolumeSource.
    rewrite !bool_decide_true by done. by rewrite Z.eqb_refl. }
  done.
Qed.

Lemma volumes_eqb_refl vs : volumes_eqb vs vs = true.
Proof. unfold volumes_eqb. induction vs as [|v vs IH]; simpl; [done|]. by rewrite volume_eqb_refl. Qed.

(** After the annotation loop the managed keys have the expected values. *)
Lemma merge_annotation_lookup current expected m b k j :
  (merge_annotation current expected (m, b) k).1 !! j =
  if decide (j = k) then
    (if decide (current !! k = expected !! k) then m !! k else expected !! k) else m !! j.
Proof.
  unfold merge_annotation.
  destruct (current !! k) as [x|] eqn:Ex, (expected !! k) as [y|] eqn:Ey; simpl.
  - case_bool_decide; simpl; repeat case_decide; simplify_eq; try done;
      by rewrite ?lookup_insert_eq, ?lookup_insert_ne.
  - repeat case_decide; simplify_eq; by rewrite ?lookup_delete_eq, ?lookup_delete_ne.
  - repeat case_decide; simplify_eq; by rewrite ?lookup_insert_eq, ?lookup_insert_ne.
  - by repeat case_decide; simplify_eq.
Qed.

Lemma annotations_merged_lookup current expected k :
  k ∈ managedDNSDaemonSetAnnotations →
  (annotations_merged current expected).1 !! k = pt_Annotations (ds_template expected) !! k.
Proof.
  unfold annotations_merged, managedDNSDaemonSetAnnotations. cbn [foldl].
  set (cur := pt_Annotations (ds_template current)). set (exp := pt_Annotations (ds_template expected)).
  destruct (merge_annotation cur exp (cur, false) enableDaemonSetEvictionAnnotationKey) as [m b] eqn:E.
  pose proof (λ j, merge_annotation_lookup cur exp cur false enableDaemonSetEvictionAnnotationKey j) as H1.
  rewrite E in H1. cbn [fst] in H1. intros Hk. set_unfold in Hk.
  assert (enableDaemonSetEvictionAnnotationKey ≠ targetWorkloadManagementAnnotationKey) by done.
  destruct Hk as [->|[->|[]]]; rewrite merge_annotation_lookup.
  - rewrite ?H1. repeat case_decide; congruence.
  - rewrite ?H1. repeat case_decide; congruence.
Qed.

(** The two containers of the operator's daemonsets, in their order, with images. *)
Definition two_containers (ds : DaemonSet) : Prop :=
  c_Name <$> ps_Containers (ds_podspec ds) = ["dns"; "kube-rbac-proxy"].

(** Comparing the containers never panics on two such daemonsets, and the result
    agrees with the expected ones on images and probes, whatever was replaced. *)
Lemma compare_two_containers c1 c2 e1 e2 :
  c_Name c1 = "dns" → c_Name c2 = "kube-rbac-proxy" →
  c_Name e1 = "dns" → c_Name e2 = "kube-rbac-proxy" →
  c_Image e1 ≠ "" → c_Image e2 ≠ "" →
  ∃ cs b, compare_containers [c1; c2] [e1; e2] = Some (cs, b) ∧
    (cs = [e1; e2] ∨
     ∃ u1 u2, cs = [u1; u2] ∧
       c_Name u1 = "dns" ∧ c_Name u2 = "kube-rbac-proxy" ∧
       (c_Image u1 = c_Image e1 ∧ default probe0 (c_ReadinessProbe u1) = default probe0 (c_ReadinessProbe e1) ∧
        c_Command u1 = c_Command c1 ∧ c_Args u1 = c_Args c1 ∧ c_VolumeMounts u1 = c_VolumeMounts c1) ∧
       (c_Image u2 = c_Image e2 ∧ default probe0 (c_ReadinessProbe u2) = default probe0 (c_ReadinessProbe e2) ∧
        c_Command u2 = c_Command c2 ∧ c_Args u2 = c_Args c2 ∧ c_VolumeMounts u2 = c_VolumeMounts c2)).
Proof.
  intros Hc1 Hc2 He1 He2 Hi1 Hi2.
  unfold compare_containers, compare_container. cbn [find_container].
  rewrite Hc1, Hc2, He1, He2.
  rewrite !(bool_decide_true ("dns" = "dns")), !(bool_decide_true ("kube-rbac-proxy" = "kube-rbac-proxy")),
    !(bool_decide_false ("kube-rbac-proxy" = "dns")) by done.
  cbn [fmap option_fmap option_map fst snd readiness lookup list_lookup].
  destruct (c_Image c1) as [|x1 s1] eqn:E1; [simpl; eauto|].
  destruct (c_Image c2) as [|x2 s2] eqn:E2.
  { simpl. repeat case_match; simpl in *; simplify_eq; eauto 10. }
  cbn [String.length Nat.eqb].
  destruct (bool_decide (String x1 s1 = c_Image e1)) eqn:B1;
  destruct (bool_decide (default probe0 (c_ReadinessProbe c1) = default probe0 (c_ReadinessProbe e1))) eqn:B2;
  destruct (bool_decide (String x2 s2 = c_Image e2)) eqn:B3;
  destruct (bool_decide (default probe0 (c_ReadinessProbe c2) = default probe0 (c_ReadinessProbe e2))) eqn:B4;
  simpl; to_prop; (eexists _, _; split; [done|]); right; (eexists _, _; split; [done|]); simpl;
  rewrite ?E1, ?E2; naive_solver.
Qed.

Lemma containers_shape ds :
  two_containers ds →
  ∃ c1 c2, ps_Containers (ds_podspec ds) = [c1; c2] ∧ c_Name c1 = "dns" ∧ c_Name c2 = "kube-rbac-proxy".
Proof.
  unfold two_containers. destruct (ps_Containers (ds_podspec ds)) as [|c1 [|c2 [|]]]; intros; simplify_eq/=.
  eauto.
Qed.

(** Two containers in sync, given each in sync. *)
Lemma two_containers_in_sync u1 u2 e1 e2 :
  c_Name u1 = "dns" → c_Name u2 = "kube-rbac-proxy" →
  c_Name e1 = "dns" → c_Name e2 = "kube-rbac-proxy" → c_Image e1 ≠ "" → c_Image e2 ≠ "" →
  (∀ u e, (u, e) ∈ [(u1, e1); (u2, e2)] →
     c_Image u = c_Image e ∧ default probe0 (c_ReadinessProbe u) = default probe0 (c_ReadinessProbe e) ∧
     c_Command u = c_Command e ∧ c_Args u = c_Args e ∧ c_VolumeMounts u = c_VolumeMounts e) →
  containers_in_sync [u1; u2] [e1; e2].
Proof.
  intros Hu1 Hu2 He1 He2 Hi1 Hi2 Hall.
  destruct (Hall u1 e1) as (?&?&?&?&?); [set_solver|].
  destruct (Hall u2 e2) as (?&?&?&?&?); [set_solver|].
  split; [by repeat constructor|]. intros name Hn.
  unfold container_image, container_probe. cbn [find_container].
  rewrite Hu1, Hu2, He1, He2. set_unfold in Hn.
  destruct Hn as [->|[->|[]]]; simpl; repeat split; congruence.
Qed.

(** What the comparison asked for, compared again. *)
Lemma daemonsetConfigChanged_stable current expected :
  two_containers current → two_containers expected →
  (∀ c, c ∈ ps_Containers (ds_podspec expected) → c_Image c ≠ "") →
  is_Some (tolerations_eqb (ps_Tolerations (ds_podspec current)) (ps_Tolerations (ds_podspec expected))) →
  ∃ change, daemonsetConfigChanged current expected = Some change ∧
    ∀ updated, change = Some updated →
      in_sync updated expected ∧ daemonsetConfigChanged updated expected = Some None.
Proof.
  intros Hcur Hexp Himg [te Hte].
  destruct (containers_shape _ Hcur) as (c1 & c2 & Hc & Hc1 & Hc2).
  destruct (containers_shape _ Hexp) as (e1 & e2 & He & He1 & He2).
  rewrite He in Himg.
  assert (c_Image e1 ≠ "" ∧ c_Image e2 ≠ "") as [Hi1 Hi2] by (split; apply Himg; set_solver).
  destruct (compare_two_containers c1 c2 e1 e2) as (cs & b & Hcmp & Hcs); [done..|].
  rewrite daemonsetConfigChanged_fields, Hte, Hc, He, Hcmp. simpl. eexists. split; [done|].
  intros updated Hupd.
  assert (in_sync updated expected) as Hsync;
    [|by split; [|apply daemonsetConfigChanged_unchanged]].
  case_match; [|done]. simplify_eq. unfold in_sync, fields_updated.
  cbn [ds_podspec ds_template ds_Spec dss_Template pt_Spec pt_Annotations dss_MinReadySeconds
       dss_UpdateStrategy ps_NodeSelector ps_TerminationGracePeriodSeconds ps_Tolerations ps_Volumes
       ps_Containers].
  split; [destruct (Z.eqb_spec (dss_MinReadySeconds (ds_Spec current))
            (dss_MinReadySeconds (ds_Spec expected))); done|].
  split; [by case_bool_decide|].
  split; [by intros k Hk; apply annotations_merged_lookup|].
  split; [by case_bool_decide|].
  split; [destruct (cmpTerminationGracePeriodSeconds
            (ps_TerminationGracePeriodSeconds (ds_podspec current)) _) eqn:E;
          [done|apply Z.eqb_refl]|].
  split.
  { destruct te; [done|]. simpl. eapply cmp_Equal_SortSlices_self; [|exact Hte].
    intros a. by apply bool_decide_true. }
  split; [destruct (volumes_eqb (ps_Volumes (ds_podspec current)) _) eqn:E;
          [done|apply volumes_eqb_refl]|].
  rewrite Hc, He. destruct (containers_differ [c1; c2] [e1; e2]) eqn:Ed.
  - apply two_containers_in_sync; try done. intros u e Hin. set_unfold in Hin. naive_solver.
  - destruct Hcs as [->|(u1 & u2 & -> & Hu1 & Hu2 & Hx1 & Hx2)].
    + apply two_containers_in_sync; try done. intros u e Hin. set_unfold in Hin. naive_solver.
    + apply containers_differ_false in Ed.
      apply Forall2_cons in Ed as [Ed1 Ed]. apply Forall2_cons in Ed as [Ed2 _].
      apply two_containers_in_sync; try done. intros u e Hin. set_unfold in Hin.
      assert ((u, e) = (u1, e1) ∨ (u, e) = (u2, e2)) as [[= -> ->]|[= -> ->]] by naive_solver;
        naive_solver congruence.
Qed.
