(* ===== verification/DaemonSetProps.v ===== *)
(** * Properties of the DNS daemonset handlers

    The safety of node-placement updates, the footprint of the handlers, and the
    validity of the desired daemonset. *)

From S2P Require Import Prelude GoLib Types Labels Client Mem Names Manifests Samples Tls DaemonSet.

(** ** Footprints *)

Section footprints.
Context {W : Type} `{ClientLaws W} (r : reconciler).

Lemma touches_currentDNSDaemonSet S dns : touches S (currentDNSDaemonSet (W := W) dns).
Proof. unfold currentDNSDaemonSet. footprint. Qed.

Lemma returns_currentDNSDaemonSet dns :
  returns (λ res : DSResult, ∀ ds, res.1 = Some ds → key_of KDaemonSet ds = DNSDaemonSetName dns)
    (currentDNSDaemonSet (W := W) dns).
Proof.
  unfold currentDNSDaemonSet. eapply returns_bind; [apply returns_Get|].
  intros [err|ds] Hk; [case_match|]; apply returns_ret; naive_solver.
Qed.

Lemma touches_daemonsetUpdateIsSafe S current updated :
  touches S (daemonsetUpdateIsSafe (W := W) current updated).
Proof. unfold daemonsetUpdateIsSafe. footprint. Qed.

(** The updated daemonset has the metadata of the current one. *)
Lemma daemonsetConfigChanged_meta current expected updated :
  daemonsetConfigChanged current expected = Some (Some updated) → ds_meta updated = ds_meta current.
Proof.
  rewrite daemonsetConfigChanged_fields.
  destruct (compare_containers _ _) as [[cs cc]|]; [|done].
  destruct (tolerations_eqb _ _) as [te|]; [|done]. simpl. case_match; [|done]. by intros [= <-].
Qed.

Lemma touches_updateDNSDaemonSet S current desired :
  (KDaemonSet, key_of KDaemonSet current) ∈ S →
  touches S (updateDNSDaemonSet (W := W) current desired).
Proof.
  intros Hin. unfold updateDNSDaemonSet.
  eapply (touches_bind_returns _ (λ ch, daemonsetConfigChanged current desired = Some ch)); [footprint| |].
  { intros w a w' [= ? <-]. done. }
  intros [updated|] Hch; [|footprint]. apply daemonsetConfigChanged_meta in Hch.
  assert (∀ u, ds_meta u = ds_meta current → (KDaemonSet, key_of KDaemonSet u) ∈ S) as Hkey.
  { intros u Hu. unfold key_of in *. simpl in *. by rewrite Hu. }
  apply touches_bind; [apply touches_daemonsetUpdateIsSafe|].
  intros [err|[]]; [footprint|..].
  - apply touches_bind; [apply touches_Update, Hkey, Hch|]. footprint.
  - apply touches_bind; [footprint|]. intros [u|]; [|footprint].
    apply touches_bind; [apply touches_Update, Hkey, Hch|]. footprint.
Qed.

Lemma desiredDNSDaemonSet_key dns im1 im2 m tsp ds :
  desiredDNSDaemonSet dns im1 im2 m tsp = Some (inr ds) → key_of KDaemonSet ds = DNSDaemonSetName dns.
Proof.
  unfold desiredDNSDaemonSet. generalize DNSDaemonSet as manifest. intros manifest.
  unfold desiredDNSDaemonSet_from. destruct (fill_volumes _ _) as [vs []]; simpl; [|done].
  destruct (kubeRBACProxyArgs tsp) as [args|]; simpl; [|done].
  destruct (fill_containers _ _ _ _ _ _ _) as [cs vs']. by intros [= <-].
Qed.

Lemma touches_ensureDNSDaemonSet S dns m tsp :
  (KDaemonSet, DNSDaemonSetName dns) ∈ S →
  touches S (ensureDNSDaemonSet (W := W) r dns m tsp).
Proof.
  intros Hin. unfold ensureDNSDaemonSet.
  eapply touches_bind_returns; [apply touches_currentDNSDaemonSet|apply returns_currentDNSDaemonSet|].
  intros [cur [err|]] Hk; [footprint|]. simpl in Hk.
  eapply (touches_bind_returns _ (λ d, desiredDNSDaemonSet dns (cfg_CoreDNSImage (r_Config r))
    (cfg_KubeRBACProxyImage (r_Config r)) m tsp = Some d)); [footprint| |].
  { intros w a w' [= ? <-]. done. }
  intros [err|desired] Hd; [footprint|]. apply desiredDNSDaemonSet_key in Hd.
  destruct cur as [cur|].
  - apply touches_bind; [apply touches_updateDNSDaemonSet; rewrite Hk by done; done|].
    intros [err|[]]; footprint.
  - apply touches_bind; [|intros [err|]; [footprint|apply touches_currentDNSDaemonSet]].
    unfold createDNSDaemonSet. apply touches_bind; [apply touches_Create; by rewrite Hd|]. footprint.
Qed.

Lemma touches_ensureDNSDaemonSetDeleted S dns :
  (KDaemonSet, DNSDaemonSetName dns) ∈ S → touches S (ensureDNSDaemonSetDeleted (W := W) dns).
Proof. intros Hin. unfold ensureDNSDaemonSetDeleted. footprint. Qed.

(** ** Placement updates are safe *)

(** The evidence daemonsetUpdateIsSafe asks for before the pods of [current] may
    move to the placement of [updated]: its selector is unusable, it has no pods,
    or some schedulable node that the new selector matches has only taints that are
    tolerated. *)
Definition placement_safe (w : W) (current : DaemonSet) (selector : gmap string string)
    (tolerations : list Toleration) : Prop :=
  match LabelSelectorAsSelector (dss_Selector (ds_Spec current)) with
  | inl _ => True
  | inr s =>
      let '(pods, w1) := cache_List KPod
        (mkListOptions (Some (om_Namespace (ds_meta current))) (Some s)) w in
      pods = inr [] ∨
      ∃ ns nodes node,
        LabelSelectorAsSelector (Some (mkLabelSelector selector [])) = inr ns ∧
        (cache_List KNode (mkListOptions None (Some ns)) w1).1 = inr nodes ∧
        node ∈ nodes ∧ node_Unschedulable node = false ∧
        ∀ taint, taint ∈ node_Taints node → ∃ t, t ∈ tolerations ∧ ToleratesTaint t taint = true
  end.

Lemma daemonsetUpdateIsSafe_true current updated w w' :
  daemonsetUpdateIsSafe current updated w = (Some (inr true), w') →
  placement_safe w current (ps_NodeSelector (ds_podspec updated)) (ps_Tolerations (ds_podspec updated)).
Proof.
  unfold daemonsetUpdateIsSafe, placement_safe.
  destruct (LabelSelectorAsSelector (dss_Selector (ds_Spec current))) as [|s]; [done|].
  unfold mbind, M_bind, call. destruct (cache_List KPod _ w) as [[err|pods] w1]; [done|].
  destruct pods as [|pod pods]; [by left|]. cbn [length Nat.eqb].
  destruct (LabelSelectorAsSelector _) as [|ns] eqn:En; [done|].
  destruct (cache_List KNode _ w1) as [[err|nodes] w2] eqn:El; [done|].
  intros [= Hex _]. right. apply existsb_elem in Hex as (node & Hin & Hs).
  unfold schedulable, tolerationsTolerateTaints in Hs. to_prop. destruct Hs as [Hu Ht].
  exists ns, nodes, node. rewrite El. repeat split; try done.
  intros taint Htaint. rewrite forallb_elem in Ht. specialize (Ht taint Htaint).
  by apply existsb_elem in Ht.
Qed.

(** One write over a stored daemonset: the placement stays or becomes the one
    written. *)
Lemma update_placement (current u stored : DaemonSet) w :
  ds_meta u = ds_meta current →
  view w KDaemonSet (key_of KDaemonSet current) = Some current →
  view (client_Update KDaemonSet u w).2 KDaemonSet (key_of KDaemonSet current) = Some stored →
  (ps_NodeSelector (ds_podspec stored) = ps_NodeSelector (ds_podspec current) ∧
   ps_Tolerations (ds_podspec stored) = ps_Tolerations (ds_podspec current)) ∨
  (ps_NodeSelector (ds_podspec stored) = ps_NodeSelector (ds_podspec u) ∧
   ps_Tolerations (ds_podspec stored) = ps_Tolerations (ds_podspec u)).
Proof.
  intros Hm Hcur Hst. assert (released KDaemonSet u = false) as Hr.
  { rewrite <- (view_live _ _ _ _ Hcur). apply released_kept; simpl; by rewrite Hm. }
  destruct (update_law KDaemonSet u w Hr) as (_ & Hthis & _).
  replace (key_of KDaemonSet u) with (key_of KDaemonSet current) in Hthis
    by (unfold key_of; simpl; by rewrite Hm).
  destruct Hthis as [Hsame|(o' & (_ & Hs & Ht) & Hnew)].
  - left. assert (stored = current) as -> by congruence. done.
  - right. assert (stored = o') as -> by congruence. done.
Qed.

(** C8: an update moves the DNS pods only where they can run.  Starting from
    the daemonset [current] that is stored, whatever updateDNSDaemonSet does, the
    stored daemonset afterwards has the old node selector and tolerations, or new
    ones for which the safety evidence was found. *)
Theorem updateDNSDaemonSet_safe current desired w stored :
  view w KDaemonSet (key_of KDaemonSet current) = Some current →
  view (updateDNSDaemonSet current desired w).2 KDaemonSet (key_of KDaemonSet current) = Some stored →
  (ps_NodeSelector (ds_podspec stored) = ps_NodeSelector (ds_podspec current) ∧
   ps_Tolerations (ds_podspec stored) = ps_Tolerations (ds_podspec current)) ∨
  placement_safe w current (ps_NodeSelector (ds_podspec stored)) (ps_Tolerations (ds_podspec stored)).
Proof.
  intros Hcur. unfold updateDNSDaemonSet, mbind at 1, M_bind at 1, lift_option.
  destruct (daemonsetConfigChanged current desired) as [[updated|]|] eqn:Hch;
    [|simpl; rewrite Hcur; naive_solver..].
  apply daemonsetConfigChanged_meta in Hch.
  pose proof (touches_daemonsetUpdateIsSafe ∅ current updated w KDaemonSet
    (key_of KDaemonSet current)) as Hframe.
  unfold mbind at 1, M_bind at 1.
  destruct (daemonsetUpdateIsSafe current updated w) as [[[err|[]]|] w1] eqn:Hsafe;
    cbn [snd] in Hframe; rewrite Hcur in Hframe; specialize (Hframe ltac:(set_solver)).
  - simpl. rewrite Hframe. naive_solver.
  - apply daemonsetUpdateIsSafe_true in Hsafe.
    pose proof (update_placement current updated stored w1 Hch Hframe) as Hw.
    unfold mbind, M_bind, call. destruct (client_Update KDaemonSet updated w1) as [[e|o] w2];
      intros Hst; (destruct (Hw Hst) as [?|[-> ->]]; [by left|by right]).
  - unfold mbind at 1, M_bind at 1. set (u := ds_set_nodeSelector _ _).
    destruct (daemonsetConfigChanged current u) as [[?|]|];
      [|simpl; rewrite Hframe; naive_solver..].
    pose proof (update_placement current u stored w1 Hch Hframe) as Hw.
    unfold mbind, M_bind, call. destruct (client_Update KDaemonSet u w1) as [[e|o] w2];
      intros Hst; (destruct (Hw Hst) as [?|[-> ->]]; [by left|by left]).
  - simpl. rewrite Hframe. naive_solver.
Qed.

End footprints.

(** ** The desired daemonset is well formed *)

(** The CA bundles the DNS refers to that have a revision: the upstream
    resolvers' one first, then the servers', in order and with repetitions. *)
Definition ca_bundles_used (dns : DNS) (caBundleRevisionMap : gmap string string) : list string :=
  omap (λ tls : option DNSOverTLSConfig,
          match tls with
          | Some tls => if decide (tls_CABundle_Name tls ≠ "" ∧ is_Some (caBundleRevisionMap !! tls_CABundle_Name tls))
                        then Some (tls_CABundle_Name tls) else None
          | None => None
          end)
    (tc_TLS (ur_TransportConfig (spec_UpstreamResolvers (dns_Spec dns)))
     :: map (λ s, tc_TLS (fp_TransportConfig (srv_ForwardPlugin s))) (spec_Servers (dns_Spec dns))).

Lemma caBundleCM_names name server (m : gmap string string) :
  match caBundleCMVolAndVolMount name server m with
  | Some (v, vm) => v_Name v = "ca-" +:+ name ∧ vm_Name vm = "ca-" +:+ name ∧ is_Some (m !! name)
  | None => m !! name = None
  end.
Proof. unfold caBundleCMVolAndVolMount. destruct (m !! name); simpl; eauto. Qed.

Lemma ca_bundle_volumes_names dns m :
  v_Name <$> (fst <$> ca_bundle_volumes dns m) = (λ n, "ca-" +:+ n) <$> ca_bundles_used dns m ∧
  vm_Name <$> (snd <$> ca_bundle_volumes dns m) = (λ n, "ca-" +:+ n) <$> ca_bundles_used dns m.
Proof.
  unfold ca_bundle_volumes, ca_bundles_used. generalize (tc_TLS
    (ur_TransportConfig (spec_UpstreamResolvers (dns_Spec dns))) :: map (λ s, tc_TLS
    (fp_TransportConfig (srv_ForwardPlugin s))) (spec_Servers (dns_Spec dns))) as l.
  induction l as [|[tls|] l [IH1 IH2]]; [done| |exact (conj IH1 IH2)]. csimpl.
  pose proof (caBundleCM_names (tls_CABundle_Name tls) (tls_ServerName tls) m) as Hca.
  destruct (caBundleCMVolAndVolMount _ _ m) as [[v vm]|].
  - destruct Hca as (Hv & Hvm & Hr). destruct (decide _) as [[Hne _]|Hn];
      case_bool_decide; simpl; try tauto.
    split; f_equal; done.
  - destruct (decide _) as [[_ [? ?]]|Hn]; [congruence|]. case_bool_decide; done.
Qed.

(** The desired daemonset, written out. *)
Lemma desiredDNSDaemonSet_eq dns im1 im2 m tsp :
  desiredDNSDaemonSet dns im1 im2 m tsp =
  (args ← kubeRBACProxyArgs tsp;
   Some (inr (mkDaemonSet
      (mkObjectMeta ("dns-" +:+ dns_Name dns) "openshift-dns" "" ""
         {[ OwningDNSLabel := dns_Name dns ]} ∅ [dnsOwnerRef dns] [] None)
      (mkDaemonSetSpec (Some (DNSDaemonSetPodSelector dns))
         (mkPodTemplateSpec {[ controllerDaemonSetLabel := dns_Name dns ]}
            (<[ enableDaemonSetEvictionAnnotationKey := "true" ]>
               (pt_Annotations (ds_template DNSDaemonSet)))
            (mkPodSpec
               [c_set_mounts (c_set_image dns_container_manifest im1)
                  (c_VolumeMounts dns_container_manifest ++ (snd <$> ca_bundle_volumes dns m));
                c_set_args (c_set_image kube_rbac_proxy_container_manifest im2) args]
               (nodeSelectorForDNS dns) (tolerationsForDNS dns)
               ((fill_volumes dns (ps_Volumes (ds_podspec DNSDaemonSet))).1
                ++ (fst <$> ca_bundle_volumes dns m))
               (ps_TerminationGracePeriodSeconds (ds_podspec DNSDaemonSet))
               (ps_Other (ds_podspec DNSDaemonSet))))
         (dss_UpdateStrategy (ds_Spec DNSDaemonSet)) (dss_MinReadySeconds (ds_Spec DNSDaemonSet)))
      (ds_Status DNSDaemonSet)))).
Proof. reflexivity. Qed.

Lemma manifest_volume_names dns :
  v_Name <$> (fill_volumes dns (ps_Volumes (ds_podspec DNSDaemonSet))).1
  = ["config-volume"; "metrics-tls"; "tmp-dir"].
Proof. reflexivity. Qed.

Lemma string_app_inj_l (p a b : string) : p +:+ a = p +:+ b → a = b.
Proof. induction p as [|x p IH]; [done|]. rewrite !string_app_cons. intros [= ?]. auto. Qed.

Lemma manifest_volumes_nodup names :
  NoDup (["config-volume"; "metrics-tls"; "tmp-dir"] ++ ((λ n, "ca-" +:+ n) <$> names)) ↔ NoDup names.
Proof.
  rewrite NoDup_app. split.
  - intros (_ & _ & Hn). by apply NoDup_fmap_1 in Hn.
  - intros Hn. split; [|split].
    + by apply (bool_decide_unpack _).
    + intros x Hx Hin. apply list_elem_of_fmap in Hin as (n & -> & _).
      rewrite string_app_cons in Hx. set_unfold in Hx. destruct Hx as [?|[?|[?|[]]]]; done.
    + apply NoDup_fmap_2; [|done]. intros a b Hab. by apply (string_app_inj_l "ca-").
Qed.

(** C30: what the desired daemonset looks like.  Its pods carry the labels its
    selector asks for; it has the operator's two containers, with the given images;
    every volume a container mounts is declared; and the declared volumes have
    pairwise distinct names, as the API requires, exactly when no CA bundle is used
    by two of the upstream resolvers and servers. *)
Theorem desiredDNSDaemonSet_wf dns im1 im2 m tsp ds :
  desiredDNSDaemonSet dns im1 im2 m tsp = Some (inr ds) →
  (∃ sel, dss_Selector (ds_Spec ds) = Some sel ∧ ls_MatchExpressions sel = [] ∧
          ls_MatchLabels sel ⊆ pt_Labels (ds_template ds)) ∧
  two_containers ds ∧ c_Image <$> ps_Containers (ds_podspec ds) = [im1; im2] ∧
  (∀ c vm, c ∈ ps_Containers (ds_podspec ds) → vm ∈ c_VolumeMounts c →
     ∃ v, v ∈ ps_Volumes (ds_podspec ds) ∧ v_Name v = vm_Name vm) ∧
  (NoDup (v_Name <$> ps_Volumes (ds_podspec ds)) ↔ NoDup (ca_bundles_used dns m)).
Proof.
  rewrite desiredDNSDaemonSet_eq. destruct (kubeRBACProxyArgs tsp) as [args|]; [|done].
  intros [= <-]. destruct (ca_bundle_volumes_names dns m) as [Hv Hvm].
  split; [by eexists|]. split; [done|]. split; [done|].
  assert (v_Name <$> (fill_volumes dns (ps_Volumes (ds_podspec DNSDaemonSet))).1 ++
            (fst <$> ca_bundle_volumes dns m)
          = ["config-volume"; "metrics-tls"; "tmp-dir"] ++ ((λ n, "ca-" +:+ n) <$> ca_bundles_used dns m)) as Hnames.
  { by rewrite fmap_app, Hv, manifest_volume_names. }
  change (ps_Volumes _) with ((fill_volumes dns (ps_Volumes (ds_podspec DNSDaemonSet))).1 ++
            (fst <$> ca_bundle_volumes dns m)).
  split; [|rewrite Hnames; apply manifest_volumes_nodup].
  intros c vm Hc Hm.
  assert (vm_Name vm ∈ v_Name <$> (fill_volumes dns (ps_Volumes (ds_podspec DNSDaemonSet))).1 ++
            (fst <$> ca_bundle_volumes dns m)) as Hin.
  { rewrite Hnames, <- Hvm. cbn [ds_podspec ds_template ds_Spec dss_Template pt_Spec ps_Containers] in Hc.
    apply elem_of_cons in Hc as [->|[->|[]%not_elem_of_nil]%elem_of_cons].
    - change (vm ∈ c_VolumeMounts dns_container_manifest ++ (snd <$> ca_bundle_volumes dns m)) in Hm.
      apply elem_of_app in Hm as [Hm|Hm]; apply elem_of_app.
      + left. simpl in Hm. set_unfold in Hm. destruct Hm as [->|[->|[]]]; simpl; set_solver.
      + right. by apply list_elem_of_fmap_2.
    - apply elem_of_app. left. change (vm ∈ c_VolumeMounts kube_rbac_proxy_container_manifest) in Hm.
      simpl in Hm. set_unfold in Hm. destruct Hm as [->|[->|[]]]; simpl; set_solver. }
  apply list_elem_of_fmap in Hin as (v & Hn & Hin). eauto.
Qed.

(** ** The theorems at concrete inputs *)

Definition sample_desired (image : string) : DaemonSet :=
  match desiredDNSDaemonSet sample_dns image "kube-rbac-proxy:v1" ∅ None with
  | Some (inr ds) => ds
  | _ => DNSDaemonSet
  end.

Lemma desiredDNSDaemonSet_wf_witness :
  NoDup (v_Name <$> ps_Volumes (ds_podspec (sample_desired "coredns:v1"))) ↔
  NoDup (ca_bundles_used sample_dns ∅).
Proof.
  apply (desiredDNSDaemonSet_wf sample_dns "coredns:v1" "kube-rbac-proxy:v1" ∅ None).
  vm_compute. reflexivity.
Defined.

Lemma updateDNSDaemonSet_safe_witness :
  let cur := sample_desired "coredns:v0" in
  let w := mem_add KDaemonSet cur mem0 in
  ∃ stored, view (updateDNSDaemonSet cur (sample_desired "coredns:v1") w).2 KDaemonSet
              (key_of KDaemonSet cur) = Some stored ∧
    ((ps_NodeSelector (ds_podspec stored) = ps_NodeSelector (ds_podspec cur) ∧
      ps_Tolerations (ds_podspec stored) = ps_Tolerations (ds_podspec cur)) ∨
     placement_safe w cur (ps_NodeSelector (ds_podspec stored)) (ps_Tolerations (ds_podspec stored))).
Proof.
  eexists. split; [vm_compute; reflexivity|].
  apply (updateDNSDaemonSet_safe (sample_desired "coredns:v0") (sample_desired "coredns:v1")
    (mem_add KDaemonSet (sample_desired "coredns:v0") mem0)); vm_compute; reflexivity.
Defined.

(** ** Duplicate tolerations *)

Lemma cmpTolerations_refl a : cmpTolerations a a = true.
Proof.
  unfold cmpTolerations. rewrite !bool_decide_true by done. cbn [negb].
  destruct (bool_decide _); [|done]. destruct (tol_TolerationSeconds a); [apply Z.eqb_refl|done].
Qed.

Lemma cmpTolerations_sym a b : cmpTolerations a b = cmpTolerations b a.
Proof.
  unfold cmpTolerations.
  repeat case_bool_decide; simpl; try congruence; try done.
  destruct (tol_TolerationSeconds a), (tol_TolerationSeconds b); try done. apply Z.eqb_sym.
Qed.

(** Two equal tolerations after a different one: the order the comparison sorts by is
    not an order, and package cmp panics. *)
Lemma tolerations_eqb_panics a b : cmpTolerations b a = false → tolerations_eqb [b; a; a] [b; a; a] = None.
Proof.
  intros Hba. pose proof (cmpTolerations_sym a b) as Hab. rewrite Hba in Hab.
  unfold tolerations_eqb, cmp_Equal_SortSlices. cbn -[cmpTolerations].
  do 4 (rewrite ?Hab, ?Hba, ?cmpTolerations_refl; cbn -[cmpTolerations]). done.
Qed.

(** C37: comparing tolerations can panic.  cmpTolerations, which tests equality, is given to
    cmpopts.SortSlices as the order; when the tolerations of the DNS daemonset are a
    toleration and then two equal ones, every comparison of the daemonset with a desired
    one of the same tolerations panics, whatever the rest of the two is. *)
Theorem daemonsetConfigChanged_panics a b current expected :
  cmpTolerations b a = false →
  ps_Tolerations (ds_podspec current) = [b; a; a] → ps_Tolerations (ds_podspec expected) = [b; a; a] →
  daemonsetConfigChanged current expected = None.
Proof.
  intros Hba Hc He. rewrite daemonsetConfigChanged_fields, Hc, He, tolerations_eqb_panics by done.
  by destruct (compare_containers _ _) as [[cs cc]|].
Qed.

Lemma daemonsetConfigChanged_panics_witness :
  let toleration key := mkToleration key "Exists" "" "" None in
  let ds := ds_set_tolerations (sample_desired "coredns:v1")
              [toleration "infra"; toleration "gpu"; toleration "gpu"] in
  daemonsetConfigChanged ds ds = None.
Proof.
  apply (daemonsetConfigChanged_panics (mkToleration "gpu" "Exists" "" "" None)
    (mkToleration "infra" "Exists" "" "" None)); vm_compute; reflexivity.
Defined.
