(* ===== verification/DNSStatus.v ===== *)
(** * The status of a DNS: pkg/operator/controller/dns_status.go

    The four conditions computed from the cluster IP and the daemonsets, the
    transition times and their hysteresis, and the update of the status.  A
    pair (have, *DaemonSet) is an [option DaemonSet]. *)

From S2P Require Import Prelude GoLib Types Util Labels Numbers Client Mem Names Samples DaemonSet.

(** ** Pure parts *)

(** The addresses that %+v prints for pointers, a property of the running
    process: [pointer_text w b i] is the text of the i-th TolerationSeconds
    pointer of the daemonset's ([b = true]) or the wanted tolerations; and the level
    of the process's logger, which can be set. *)
Inductive LogLevel := InfoLevel | DebugLevel | TraceLevel.

Class Runtime (W : Type) := {
  pointer_text : W → bool → nat → string;
  logrus_SetLevel : LogLevel → Op W unit;
}.

Definition DNSNoService : string := "NoService".
Definition DNSNoDNSDaemonSet : string := "NoDNSDaemonSet".
Definition DNSNoDNSPodsDesired : string := "NoDNSPodsDesired".
Definition DNSNoDNSPodsAvailable : string := "NoDNSPodsAvailable".
Definition DNSInvalidDNSMaxUnavailable : string := "InvalidDNSMaxUnavailable".
Definition DNSMaxUnavailableDNSPodsExceeded : string := "MaxUnavailableDNSPodsExceeded".

Definition generateCondition (condtype reason message status : string) (transitionTime : Z)
    : OperatorCondition :=
  mkOperatorCondition condtype status transitionTime reason message.

(** lastTransitionTimeIsRecent *)
Definition lastTransitionTimeIsRecent (currTime prevTime toleration : Z) : bool :=
  if (toleration <? 0)%Z then false
  else
    let elapsed := Time_Sub currTime prevTime in
    if (elapsed =? 0)%Z then true
    else if (elapsed <? 0)%Z then false
    else (elapsed <=? toleration)%Z.

(** The test shared by the Degraded and Progressing conditions: the old
    condition is False and recent. *)
Definition recently_false (oldCondition : option OperatorCondition)
    (currentTime toleration : Z) : option OperatorCondition :=
  match oldCondition with
  | Some old =>
      if (oc_Status old =s ConditionFalse)
         && lastTransitionTimeIsRecent currentTime (oc_LastTransitionTime old) toleration
      then Some old else None
  | None => None
  end.

(** The degradedConditions slice of computeDNSDegradedCondition. *)
Definition degraded_conditions (clusterIP : string) (dnsDaemonset : option DaemonSet)
    (transitionTime : Z) : list OperatorCondition :=
  let gen t m := generateCondition t t m ConditionTrue transitionTime in
  (if (String.length clusterIP =? 0)%nat
   then [gen DNSNoService "No IP address is assigned to the DNS service."] else []) ++
  match dnsDaemonset with
  | None => [gen DNSNoDNSDaemonSet "The DNS daemonset does not exist."]
  | Some ds =>
      let want := dst_DesiredNumberScheduled (ds_Status ds) in
      let have := dst_NumberAvailable (ds_Status ds) in
      let numberUnavailable := wrap_s 32 (want - have) in
      let maxUnavailable := GetScaledValueFromIntOrPercent (Some (StrVal "10%")) want true in
      if (want =? 0)%Z then
        [gen DNSNoDNSPodsDesired
           "No DNS pods are desired; this could mean all nodes are tainted or unschedulable."]
      else if (have =? 0)%Z then [gen DNSNoDNSPodsAvailable "No DNS pods are available."]
      else match maxUnavailable with
           | inl intstrErr =>
               [gen DNSInvalidDNSMaxUnavailable
                  ("The DNS daemonset has an invalid MaxUnavailable value: " +:+ Error intstrErr)]
           | inr maxUnavailable =>
               if (maxUnavailable <? numberUnavailable)%Z then
                 [gen DNSMaxUnavailableDNSPodsExceeded
                    ("Too many DNS pods are unavailable (" +:+ fmt_d numberUnavailable +:+ " > "
                     +:+ fmt_d maxUnavailable +:+ " max unavailable).")]
               else []
           end
  end.

(** %+v of a map[string]string: its entries in key order. *)
Definition fmt_map (m : gmap string string) : string :=
  "map[" +:+ strings_Join (map (λ kv : string * string, kv.1 +:+ ":" +:+ kv.2)
               (SliceStable (key_less fst) (map_to_list m))) " " +:+ "]".

(** %+v of a []Toleration; a non-nil pointer prints as an address. *)
Definition fmt_tolerations (addr : nat → string) (ts : list Toleration) : string :=
  "[" +:+ strings_Join (imap (λ i t,
     "{Key:" +:+ tol_Key t +:+ " Operator:" +:+ tol_Operator t +:+ " Value:" +:+ tol_Value t
     +:+ " Effect:" +:+ tol_Effect t +:+ " TolerationSeconds:"
     +:+ match tol_TolerationSeconds t with None => "<nil>" | Some _ => addr i end +:+ "}") ts) " "
  +:+ "]".

(** The messages slice of computeDNSProgressingCondition. *)
Definition progressing_messages (addr : bool → nat → string) (dns : DNS) (clusterIP : string)
    (dnsDaemonset nodeResolverDaemonset : option DaemonSet) : list string :=
  (if (String.length clusterIP =? 0)%nat
   then ["No IP address is assigned to the DNS service."] else []) ++
  match dnsDaemonset with
  | None => ["The DNS daemonset does not exist."]
  | Some ds =>
      let want := dst_DesiredNumberScheduled (ds_Status ds) in
      let have := dst_UpdatedNumberScheduled (ds_Status ds) in
      let haveSelector := ps_NodeSelector (ds_podspec ds) in
      let wantSelector := nodeSelectorForDNS dns in
      let haveTolerations := ps_Tolerations (ds_podspec ds) in
      let wantTolerations := tolerationsForDNS dns in
      (if (have <? want)%Z
       then ["Have " +:+ fmt_d have +:+ " up-to-date DNS pods, want " +:+ fmt_d want +:+ "."]
       else []) ++
      (if negb (bool_decide (haveSelector = wantSelector))
       then ["Have DNS daemonset with node selector " +:+ fmt_map haveSelector +:+ ", want "
             +:+ fmt_map wantSelector +:+ "."] else []) ++
      (if negb (bool_decide (haveTolerations = wantTolerations))
       then ["Have DNS daemonset with tolerations " +:+ fmt_tolerations (addr true) haveTolerations
             +:+ ", want " +:+ fmt_tolerations (addr false) wantTolerations +:+ "."] else [])
  end ++
  match nodeResolverDaemonset with
  | None => ["The node-resolver daemonset does not exist."]
  | Some ds =>
      let want := dst_DesiredNumberScheduled (ds_Status ds) in
      let have := dst_UpdatedNumberScheduled (ds_Status ds) in
      if (have <? want)%Z
      then ["Have " +:+ fmt_d have +:+ " available node-resolver pods, want " +:+ fmt_d want +:+ "."]
      else []
  end.

(** The reasons and messages of computeDNSAvailableCondition. *)
Definition unavailable (clusterIP : string) (dnsDaemonset : option DaemonSet)
    : list (string * string) :=
  match dnsDaemonset with
  | None => [("NoDaemonSet", "The DNS daemonset does not exist.")]
  | Some ds => if (dst_NumberAvailable (ds_Status ds) =? 0)%Z
               then [("NoDaemonSetPods", "The DNS daemonset has no pods available.")] else []
  end ++
  (if (String.length clusterIP =? 0)%nat
   then [("NoService", "No IP address is assigned to the DNS service.")] else []).

(** dnsStatusesEqual; [None] is a panic of package cmp. *)
Definition dnsStatusesEqual (a b : DNSStatus) : option bool :=
  conditionsEqual ← cond.ConditionsEqual (st_Conditions a) (st_Conditions b);
  Some (if negb conditionsEqual then false
        else if negb (st_ClusterIP a =s st_ClusterIP b) then false
        else if negb (st_ClusterDomain a =s st_ClusterDomain b) then false
        else true).

(** The last of the old conditions with the given type. *)
Definition find_condition (type : string) (conditions : list OperatorCondition)
    : option OperatorCondition :=
  foldl (λ found c, if oc_Type c =s type then Some c else found) None conditions.

(** ** Handlers *)

Section handlers.
Context {W : Type} `{Client W} `{Runtime W}.

(** setDNSLastTransitionTime *)
Definition setDNSLastTransitionTime (condition : OperatorCondition)
    (oldCondition : option OperatorCondition) : M W OperatorCondition :=
  let at_time t := mkOperatorCondition (oc_Type condition) (oc_Status condition) t
                     (oc_Reason condition) (oc_Message condition) in
  match oldCondition with
  | Some old =>
      if oc_Status condition =s oc_Status old then mret (at_time (oc_LastTransitionTime old))
      else t ← call time_Now; mret (at_time t)
  | None => t ← call time_Now; mret (at_time t)
  end.

(** computeDNSDegradedCondition: the condition, and the error for a retry. *)
Definition computeDNSDegradedCondition (oldDegradedCondition newProgressingCondition : option OperatorCondition)
    (clusterIP : string) (dnsDaemonset : option DaemonSet)
    (transitionUnchangedToleration currentTime : Z) : M W (OperatorCondition * option error) :=
  let degradedConditions := degraded_conditions clusterIP dnsDaemonset currentTime in
  let progressing := match newProgressingCondition with
                     | Some c => oc_Status c =s ConditionTrue
                     | None => false
                     end in
  let nonempty := negb (length degradedConditions =? 0)%nat in
  match (if nonempty
         then recently_false oldDegradedCondition currentTime transitionUnchangedToleration
         else None) with
  | Some old => mret (old, None)
  | None =>
      let '(degradedCondition, err) :=
        if negb progressing && nonempty then
          (mkOperatorCondition OperatorStatusTypeDegraded ConditionTrue 0 "DegradedConditions"
             ("One or more other status conditions indicate a degraded state: "
              +:+ cond.FormatConditions degradedConditions),
           Some (retryable.New (ErrNew "DNS operator is degraded") transitionUnchangedToleration))
        else
          (mkOperatorCondition OperatorStatusTypeDegraded ConditionFalse 0 "AsExpected"
             "Enough DNS pods are available, and the DNS service has a cluster IP address.",
           None) in
      c ← setDNSLastTransitionTime degradedCondition oldDegradedCondition;
      mret (c, err)
  end.

(** computeDNSProgressingCondition: the condition, and the result it updates. *)
Definition computeDNSProgressingCondition (oldCondition : option OperatorCondition) (dns : DNS)
    (clusterIP : string) (dnsDaemonset nodeResolverDaemonset : option DaemonSet)
    (transitionUnchangedToleration currentTime : Z) (reconcileResult : Result)
    : M W (OperatorCondition * Result) :=
  addr ← gets pointer_text;
  let messages := progressing_messages addr dns clusterIP dnsDaemonset nodeResolverDaemonset in
  if negb (length messages =? 0)%nat then
     match recently_false oldCondition currentTime transitionUnchangedToleration with
     | Some old => mret (old, mkResult true transitionUnchangedToleration)
     | None =>
         c ← setDNSLastTransitionTime
               (mkOperatorCondition OperatorStatusTypeProgressing ConditionTrue 0 "Reconciling"
                  (strings_Join messages newline)) oldCondition;
         mret (c, reconcileResult)
     end
   else
     c ← setDNSLastTransitionTime
           (mkOperatorCondition OperatorStatusTypeProgressing ConditionFalse 0 "AsExpected"
              "All DNS and node-resolver pods are updated, and the DNS service has a cluster IP address.")
           oldCondition;
     mret (c, reconcileResult).

(** computeDNSAvailableCondition *)
Definition computeDNSAvailableCondition (oldCondition : option OperatorCondition)
    (clusterIP : string) (dnsDaemonset : option DaemonSet) : M W OperatorCondition :=
  let reasons := unavailable clusterIP dnsDaemonset in
  setDNSLastTransitionTime
    (if negb (length reasons =? 0)%nat then
       mkOperatorCondition OperatorStatusTypeAvailable ConditionFalse 0
         (strings_Join (map fst reasons) "") (strings_Join (map snd reasons) newline)
     else
       mkOperatorCondition OperatorStatusTypeAvailable ConditionTrue 0 "AsExpected"
         "The DNS daemonset has available pods, and the DNS service has a cluster IP address.")
    oldCondition.

(** computeDNSUpgradeableCondition *)
Definition computeDNSUpgradeableCondition (oldCondition : option OperatorCondition) (dns : DNS)
    : M W OperatorCondition :=
  setDNSLastTransitionTime
    (if spec_ManagementState (dns_Spec dns) =s Unmanaged then
       mkOperatorCondition OperatorStatusTypeUpgradeable ConditionFalse 0 "OperatorUnmanaged"
         "Cannot upgrade while managementState is Unmanaged"
     else
       mkOperatorCondition OperatorStatusTypeUpgradeable ConditionTrue 0 "AsExpected"
         "DNS Operator can be upgraded")
    oldCondition.

(** computeDNSStatusConditions: the conditions, the error of the Degraded
    condition, and the reconcile result. *)
Definition computeDNSStatusConditions (dns : DNS) (clusterIP : string)
    (dnsDaemonset nodeResolverDaemonset : option DaemonSet)
    (transitionUnchangedToleration : Z) (reconcileResult : Result)
    : M W (list OperatorCondition * option error * Result) :=
  let old t := find_condition t (st_Conditions (dns_Status dns)) in
  now ← call time_Now;
  '(progressing, reconcileResult) ←
    computeDNSProgressingCondition (old OperatorStatusTypeProgressing) dns clusterIP dnsDaemonset
      nodeResolverDaemonset transitionUnchangedToleration now reconcileResult;
  available ← computeDNSAvailableCondition (old OperatorStatusTypeAvailable) clusterIP dnsDaemonset;
  upgradeable ← computeDNSUpgradeableCondition (old OperatorStatusTypeUpgradeable) dns;
  '(degraded, err) ←
    computeDNSDegradedCondition (old OperatorStatusTypeDegraded) (Some progressing) clusterIP
      dnsDaemonset transitionUnchangedToleration now;
  mret ([progressing; available; upgradeable; degraded], err, reconcileResult).

(** syncDNSStatus: the error, and the reconcile result. *)
Definition syncDNSStatus (dns : DNS) (clusterIP clusterDomain : string)
    (dnsDaemonset nodeResolverDaemonset : option DaemonSet)
    (transitionUnchangedToleration : Z) (reconcileResult : Result)
    : M W (option error * Result) :=
  '(statusConds, err, reconcileResult) ←
    computeDNSStatusConditions dns clusterIP dnsDaemonset nodeResolverDaemonset
      transitionUnchangedToleration reconcileResult;
  match err with
  | Some err => mret (retryable.NewMaybeRetryableAggregate [Some err], reconcileResult)
  | None =>
      let status := mkDNSStatus clusterIP clusterDomain statusConds in
      let updated := mkDNS (dns_meta dns) (dns_Spec dns) status in
      equal ← lift_option (dnsStatusesEqual status (dns_Status dns));
      if negb equal then
        res ← call (client_StatusUpdate KDNS updated);
        match res with
        | inl err => mret (Some (Errorf_v "failed to update dns status: " (api_error err)), reconcileResult)
        | inr _ => mret (None, reconcileResult)
        end
      else mret (None, reconcileResult)
  end.

End handlers.

(** ** Properties of the pure parts *)

(** The counters of a daemonset's status are non-negative int32s. *)
Definition counters_ok (ds : DaemonSet) : Prop :=
  (0 <= dst_DesiredNumberScheduled (ds_Status ds) <= MaxInt32 ∧
   0 <= dst_NumberAvailable (ds_Status ds) <= MaxInt32)%Z.

(** Enough pods: at most a tenth of the desired pods, rounded up, is missing. *)
Definition enough_pods (ds : DaemonSet) : Prop :=
  let want := dst_DesiredNumberScheduled (ds_Status ds) in
  let have := dst_NumberAvailable (ds_Status ds) in
  (want ≠ 0 ∧ have ≠ 0 ∧ 10 * (want - have - 1) < want)%Z.

Lemma ten_percent want :
  GetScaledValueFromIntOrPercent (Some (StrVal "10%")) want true = inr (percent_ceil 10 want).
Proof. reflexivity. Qed.

Lemma string_length_eqb0 (s : string) : (String.length s =? 0)%nat = bool_decide (s = "").
Proof. by destruct s. Qed.

Lemma unavailable_no_wrap ds :
  counters_ok ds →
  wrap_s 32 (dst_DesiredNumberScheduled (ds_Status ds) - dst_NumberAvailable (ds_Status ds))
  = (dst_DesiredNumberScheduled (ds_Status ds) - dst_NumberAvailable (ds_Status ds))%Z.
Proof.
  unfold counters_ok, MaxInt32. intros [H1 H2]. apply wrap_s_id; [lia|]. unfold in_s. simpl. lia.
Qed.

Lemma degraded_conditions_nil clusterIP ods t :
  (∀ ds, ods = Some ds → counters_ok ds) →
  degraded_conditions clusterIP ods t = [] ↔
  clusterIP ≠ "" ∧ ∃ ds, ods = Some ds ∧ enough_pods ds.
Proof.
  intros Hok. unfold degraded_conditions. rewrite string_length_eqb0, app_nil.
  destruct ods as [ds|]; [|case_bool_decide; naive_solver].
  rewrite ten_percent, unavailable_no_wrap by eauto. unfold enough_pods.
  pose proof (percent_ceil_spec 10 (dst_DesiredNumberScheduled (ds_Status ds))
    (dst_DesiredNumberScheduled (ds_Status ds) - dst_NumberAvailable (ds_Status ds) - 1)).
  set (want := dst_DesiredNumberScheduled _) in *. set (have := dst_NumberAvailable _) in *.
  destruct (Z.eqb_spec want 0); [case_bool_decide; naive_solver|].
  destruct (Z.eqb_spec have 0); [case_bool_decide; naive_solver|].
  destruct (Z.ltb_spec (percent_ceil 10 want) (want - have)%Z).
  - split; [naive_solver|]. intros (_ & ? & [= <-] & _ & _ & ?). lia.
  - case_bool_decide; (split; [|naive_solver]); [naive_solver|].
    intros _. split; [done|]. eexists. repeat split; try done. lia.
Qed.

(** C36: with a toleration below the int64 limit, the previous transition is
    recent exactly when it lies in the closed interval of length toleration that
    ends now; a negative toleration or a transition in the future never is. *)
Theorem lastTransitionTimeIsRecent_spec currTime prevTime toleration :
  (toleration < MaxInt64)%Z →
  lastTransitionTimeIsRecent currTime prevTime toleration = true ↔
  (0 <= toleration ∧ prevTime <= currTime <= prevTime + toleration)%Z.
Proof.
  unfold lastTransitionTimeIsRecent, Time_Sub, MinInt64, MaxInt64. intros Ht.
  destruct (Z.ltb_spec toleration 0); [split; [done|lia]|]. cbv zeta.
  match goal with |- context [(?e =? 0)%Z] => set (el := e) end.
  assert (el = Z.max (-9223372036854775808) (Z.min 9223372036854775807 (currTime - prevTime))) as He
    by done. clearbody el.
  destruct (Z.eqb_spec el 0); [split; [lia|done]|].
  destruct (Z.ltb_spec el 0); [split; [done|lia]|].
  rewrite Z.leb_le. lia.
Qed.

Lemma lastTransitionTimeIsRecent_spec_witness :
  lastTransitionTimeIsRecent 100 70 30 = true ∧ lastTransitionTimeIsRecent 101 70 30 = false.
Proof.
  split.
  - apply (lastTransitionTimeIsRecent_spec 100 70 30); unfold MaxInt64; lia.
  - reflexivity.
Defined.

Lemma recently_false_status old now tol c :
  recently_false old now tol = Some c → old = Some c ∧ oc_Status c = ConditionFalse.
Proof. unfold recently_false. repeat case_match; intros; simplify_eq; to_prop; naive_solver. Qed.

(** ** Properties of the handlers *)

Section handler_props.
Context {W : Type} `{Client W} `{Runtime W}.

(** The condition with its transition time: the old one's when the status
    stays, and a reading of the clock otherwise. *)
Lemma wp_setDNSLastTransitionTime c old (Q : OperatorCondition → W → Prop) w :
  (∀ t w', (∀ o, old = Some o → oc_Status c = oc_Status o → t = oc_LastTransitionTime o ∧ w' = w) →
     w' = w ∨ w' = (time_Now w).2 →
     Q (mkOperatorCondition (oc_Type c) (oc_Status c) t (oc_Reason c) (oc_Message c)) w') →
  wp (setDNSLastTransitionTime c old) Q w.
Proof.
  intros HQ. unfold setDNSLastTransitionTime. destruct old as [o|].
  - case_bool_decide.
    + rewrite wp_ret. apply HQ; naive_solver.
    + rewrite wp_bind, wp_call, wp_ret. apply HQ; naive_solver.
  - rewrite wp_bind, wp_call, wp_ret. apply HQ; naive_solver.
Qed.

(** What computeDNSDegradedCondition returns. *)
Lemma wp_degraded old prog clusterIP ds tol now w :
  wp (computeDNSDegradedCondition old prog clusterIP ds tol now) (λ r _,
    (oc_Type r.1 = OperatorStatusTypeDegraded ∨ old = Some r.1) ∧
    ((oc_Status r.1 = ConditionTrue ∧
       r.2 = Some (retryable.New (ErrNew "DNS operator is degraded") tol) ∧
       degraded_conditions clusterIP ds now ≠ [] ∧ recently_false old now tol = None ∧
       ¬ (∃ p, prog = Some p ∧ oc_Status p = ConditionTrue)) ∨
    (oc_Status r.1 = ConditionFalse ∧ r.2 = None ∧
       (degraded_conditions clusterIP ds now = [] ∨ is_Some (recently_false old now tol) ∨
        ∃ p, prog = Some p ∧ oc_Status p = ConditionTrue)))) w.
Proof.
  unfold computeDNSDegradedCondition.
  destruct (degraded_conditions clusterIP ds now) as [|d dl]; simpl.
  - rewrite andb_false_r, wp_bind.
    apply wp_setDNSLastTransitionTime; intros t w' _ _; rewrite wp_ret; naive_solver.
  - destruct (recently_false old now tol) as [c|] eqn:Er.
    + rewrite wp_ret. apply recently_false_status in Er as [-> Hs]. naive_solver.
    + rewrite andb_true_r. destruct prog as [p|]; [case_bool_decide|]; simpl; rewrite wp_bind;
        apply wp_setDNSLastTransitionTime; intros t w' _ _; rewrite wp_ret; naive_solver.
Qed.

(** C28: computeDNSDegradedCondition reports True exactly when the service has no
    address or the daemonset is missing or lacks more than a tenth of its pods
    (rounded up), the operator is not Progressing, and the old condition is not a
    recent False; otherwise it reports False; and it returns a (retryable) error
    exactly when it reports True. *)
Theorem computeDNSDegradedCondition_spec old prog clusterIP ods tol now (w : W) :
  (∀ ds, ods = Some ds → counters_ok ds) →
  wp (computeDNSDegradedCondition old prog clusterIP ods tol now) (λ '(c, err) _,
    (oc_Status c = ConditionTrue ↔
       (clusterIP = "" ∨ ∀ ds, ods = Some ds → ¬ enough_pods ds) ∧
       recently_false old now tol = None ∧ ∀ p, prog = Some p → oc_Status p ≠ ConditionTrue) ∧
    (oc_Status c = ConditionTrue ∨ oc_Status c = ConditionFalse) ∧
    err = (if bool_decide (oc_Status c = ConditionTrue)
           then Some (retryable.New (ErrNew "DNS operator is degraded") tol) else None)) w.
Proof.
  intros Hok. eapply wp_mono; [apply wp_degraded|]. intros [c err] w' [_ Hr]. simpl in Hr.
  pose proof (degraded_conditions_nil clusterIP ods now Hok) as Hd.
  destruct Hr as [(Hs & -> & Hne & Hr & Hp)|(Hs & -> & Hc)]; rewrite Hs;
    (split; [|split; [by auto|done]]).
  - split; [|done]. intros _. split; [|split; [done|naive_solver]].
    destruct (decide (clusterIP = "")); [by left|right]. naive_solver.
  - split; [done|]. intros (Hbad & Hr & Hp). exfalso.
    destruct Hc as [Hn|[[? ?]|(p & ? & ?)]]; [|naive_solver..].
    apply Hd in Hn as [? (ds & ? & ?)]. naive_solver.
Qed.

(** What computeDNSProgressingCondition returns. *)
Lemma wp_progressing old dns clusterIP ds nrds tol now res w :
  let messages := progressing_messages (pointer_text w) dns clusterIP ds nrds in
  wp (computeDNSProgressingCondition old dns clusterIP ds nrds tol now res) (λ '(c, res') _,
    (oc_Type c = OperatorStatusTypeProgressing ∨ old = Some c) ∧
    if decide (messages = []) then oc_Status c = ConditionFalse ∧ res' = res
    else match recently_false old now tol with
         | Some o => c = o ∧ oc_Status c = ConditionFalse ∧ res' = mkResult true tol
         | None => oc_Status c = ConditionTrue ∧ oc_Message c = strings_Join messages newline
                   ∧ res' = res
         end) w.
Proof.
  cbv zeta. unfold computeDNSProgressingCondition. rewrite wp_bind, wp_gets.
  destruct (progressing_messages (pointer_text w) dns clusterIP ds nrds) as [|m ms];
    cbn [length Nat.eqb negb].
  - rewrite wp_bind. apply wp_setDNSLastTransitionTime. intros t w' _ _.
    rewrite wp_ret. rewrite decide_True by done. naive_solver.
  - destruct (recently_false old now tol) as [o|] eqn:Er.
    + rewrite wp_ret, decide_False by done. apply recently_false_status in Er. naive_solver.
    + rewrite wp_bind. apply wp_setDNSLastTransitionTime. intros t w' _ _.
      rewrite wp_ret, decide_False by done. naive_solver.
Qed.

Lemma wp_available old clusterIP ds w :
  wp (computeDNSAvailableCondition old clusterIP ds) (λ c _,
    oc_Type c = OperatorStatusTypeAvailable ∧
    oc_Status c = if decide (unavailable clusterIP ds = []) then ConditionTrue else ConditionFalse) w.
Proof.
  unfold computeDNSAvailableCondition. apply wp_setDNSLastTransitionTime. intros t w' _ _.
  by destruct (unavailable clusterIP ds).
Qed.

Lemma wp_upgradeable old dns w :
  wp (computeDNSUpgradeableCondition old dns) (λ c _,
    oc_Type c = OperatorStatusTypeUpgradeable ∧
    oc_Status c = if decide (spec_ManagementState (dns_Spec dns) = Unmanaged)
                  then ConditionFalse else ConditionTrue) w.
Proof.
  unfold computeDNSUpgradeableCondition. apply wp_setDNSLastTransitionTime. intros t w' _ _.
  simpl. case_bool_decide; case_decide; done.
Qed.

End handler_props.

(** A daemonset has rolled out: every pod that should run is up to date. *)
Definition rolled_out (ds : DaemonSet) : Prop :=
  (dst_DesiredNumberScheduled (ds_Status ds) <= dst_UpdatedNumberScheduled (ds_Status ds))%Z.

Lemma progressing_messages_nil addr dns clusterIP ods onr :
  progressing_messages addr dns clusterIP ods onr = [] ↔
  clusterIP ≠ "" ∧
  (∃ ds, ods = Some ds ∧ rolled_out ds ∧ ps_NodeSelector (ds_podspec ds) = nodeSelectorForDNS dns
         ∧ ps_Tolerations (ds_podspec ds) = tolerationsForDNS dns) ∧
  (∃ nr, onr = Some nr ∧ rolled_out nr).
Proof.
  unfold progressing_messages, rolled_out. rewrite string_length_eqb0, !app_nil.
  destruct ods as [ds|]; [rewrite !app_nil|by naive_solver].
  destruct onr as [nr|]; [|by naive_solver].
  destruct (Z.ltb_spec (dst_UpdatedNumberScheduled (ds_Status ds))
                       (dst_DesiredNumberScheduled (ds_Status ds)));
  destruct (Z.ltb_spec (dst_UpdatedNumberScheduled (ds_Status nr))
                       (dst_DesiredNumberScheduled (ds_Status nr)));
  repeat case_bool_decide; simpl; split; intros; destruct_and?; try done; try naive_solver lia.
Qed.

Lemma find_condition_type t cs c : find_condition t cs = Some c → oc_Type c = t.
Proof.
  unfold find_condition.
  assert (∀ acc, (∀ c, acc = Some c → oc_Type c = t) →
    foldl (λ found c, if oc_Type c =s t then Some c else found) acc cs = Some c →
    oc_Type c = t) as Hgen; [|by apply Hgen].
  induction cs as [|c' cs IH]; intros acc Hacc; simpl; [by apply Hacc|].
  case_bool_decide; apply IH; naive_solver.
Qed.

Section status_props.
Context {W : Type} `{Client W} `{Runtime W}.

(** C29: computeDNSProgressingCondition reports False, and leaves the reconcile
    result alone, when the service has an address, both daemonsets exist and have
    rolled out, and the DNS daemonset has the wanted node selector and tolerations;
    otherwise it reports True, unless the old condition is a recent False, which it
    returns unchanged while asking for a requeue after the toleration. *)
Theorem computeDNSProgressingCondition_spec old dns clusterIP ods onr tol now res (w : W) :
  wp (computeDNSProgressingCondition old dns clusterIP ods onr tol now res) (λ '(c, res') _,
    ((clusterIP ≠ "" ∧
      (∃ ds, ods = Some ds ∧ rolled_out ds ∧
             ps_NodeSelector (ds_podspec ds) = nodeSelectorForDNS dns ∧
             ps_Tolerations (ds_podspec ds) = tolerationsForDNS dns) ∧
      (∃ nr, onr = Some nr ∧ rolled_out nr)) ∧
     oc_Status c = ConditionFalse ∧ res' = res) ∨
    ((clusterIP = "" ∨
      (∀ ds, ods = Some ds → ¬ (rolled_out ds ∧
             ps_NodeSelector (ds_podspec ds) = nodeSelectorForDNS dns ∧
             ps_Tolerations (ds_podspec ds) = tolerationsForDNS dns)) ∨
      (∀ nr, onr = Some nr → ¬ rolled_out nr)) ∧
     match recently_false old now tol with
     | Some o => c = o ∧ oc_Status c = ConditionFalse ∧ res' = mkResult true tol
     | None => oc_Status c = ConditionTrue ∧ oc_Reason c = "Reconciling" ∧ res' = res
     end)) w.
Proof.
  pose proof (progressing_messages_nil (pointer_text w) dns clusterIP ods onr) as Hm.
  unfold computeDNSProgressingCondition. rewrite wp_bind, wp_gets. cbv zeta.
  destruct (progressing_messages (pointer_text w) dns clusterIP ods onr) as [|m ms];
    cbn [length Nat.eqb negb].
  - rewrite wp_bind. apply wp_setDNSLastTransitionTime. intros t w' _ _. rewrite wp_ret. naive_solver.
  - assert (clusterIP = "" ∨
      (∀ ds, ods = Some ds → ¬ (rolled_out ds ∧
             ps_NodeSelector (ds_podspec ds) = nodeSelectorForDNS dns ∧
             ps_Tolerations (ds_podspec ds) = tolerationsForDNS dns)) ∨
      (∀ nr, onr = Some nr → ¬ rolled_out nr)) as Hbad.
    { assert (∀ x : DaemonSet, Decision (rolled_out x)) as ? by (intros; apply Z_le_dec).
      destruct (decide (clusterIP = "")); [by left|right].
      destruct onr as [nr|]; [|naive_solver].
      destruct (decide (rolled_out nr)); [left|naive_solver]. naive_solver. }
    destruct (recently_false old now tol) as [o|] eqn:Er.
    + rewrite wp_ret. apply recently_false_status in Er. naive_solver.
    + rewrite wp_bind. apply wp_setDNSLastTransitionTime. intros t w' _ _.
      rewrite wp_ret. naive_solver.
Qed.

Lemma unavailable_nil clusterIP ods :
  unavailable clusterIP ods = [] ↔
  clusterIP ≠ "" ∧ ∃ ds, ods = Some ds ∧ dst_NumberAvailable (ds_Status ds) ≠ 0%Z.
Proof.
  unfold unavailable. rewrite string_length_eqb0, app_nil.
  destruct ods as [ds|]; [|naive_solver].
  destruct (Z.eqb_spec (dst_NumberAvailable (ds_Status ds)) 0); case_bool_decide; naive_solver.
Qed.

(** The conditions computeDNSStatusConditions returns, in order. *)
Lemma wp_status dns clusterIP ods onr tol res w :
  wp (computeDNSStatusConditions dns clusterIP ods onr tol res) (λ '(cs, err, _) _,
    ∃ p a u d, cs = [p; a; u; d] ∧
      oc_Type p = OperatorStatusTypeProgressing ∧ oc_Type a = OperatorStatusTypeAvailable ∧
      oc_Type u = OperatorStatusTypeUpgradeable ∧ oc_Type d = OperatorStatusTypeDegraded ∧
      (oc_Status a = ConditionTrue ↔ unavailable clusterIP ods = []) ∧
      (oc_Status u = ConditionFalse ↔ spec_ManagementState (dns_Spec dns) = Unmanaged) ∧
      (oc_Status d = ConditionTrue ∧ is_Some err ∧ oc_Status p = ConditionFalse ∧
         degraded_conditions clusterIP ods (time_Now w).1 ≠ []
       ∨ oc_Status d = ConditionFalse ∧ err = None)) w.
Proof.
  unfold computeDNSStatusConditions. autorewrite with dnsop_wp.
  eapply wp_mono; [apply wp_progressing|]. intros [p res'] w1 [Hpt Hps].
  rewrite wp_bind. eapply wp_mono; [apply wp_available|]. intros a w2 [Hat Has].
  rewrite wp_bind. eapply wp_mono; [apply wp_upgradeable|]. intros u w3 [Hut Hus].
  rewrite wp_bind. eapply wp_mono; [apply wp_degraded|]. intros [d err] w4 [Hdt Hds].
  cbn [fst snd] in Hdt, Hds.
  rewrite wp_ret. exists p, a, u, d.
  assert (oc_Type p = OperatorStatusTypeProgressing) as Hp.
  { destruct Hpt as [|Hf]; [done|]. by apply find_condition_type in Hf. }
  assert (oc_Type d = OperatorStatusTypeDegraded) as Hd.
  { destruct Hdt as [|Hf]; [done|]. by apply find_condition_type in Hf. }
  rewrite Has, Hus. repeat (split; [done|]).
  split; [by destruct (decide (unavailable clusterIP ods = []))|].
  split; [by destruct (decide (spec_ManagementState (dns_Spec dns) = Unmanaged))|].
  destruct Hds as [(? & -> & ? & ? & Hnp)|(? & -> & _)]; [left|by right].
  split; [done|]. split; [eauto|]. split; [|done].
  assert (oc_Status p = ConditionTrue ∨ oc_Status p = ConditionFalse) as [?|?]; [|naive_solver|done].
  repeat case_match; naive_solver.
Qed.

End status_props.

(** ** The status update against the API server *)

Section sync_props.
Context {W : Type} `{ClientLaws W} `{Runtime W}.

Lemma touches_setDNSLastTransitionTime S c old :
  touches S (setDNSLastTransitionTime (W := W) c old).
Proof. unfold setDNSLastTransitionTime. footprint. Qed.

#[local] Hint Resolve touches_setDNSLastTransitionTime : dnsop.

(** Computing the conditions writes nothing. *)
Lemma touches_computeDNSStatusConditions S dns clusterIP ods onr tol res :
  touches S (computeDNSStatusConditions (W := W) dns clusterIP ods onr tol res).
Proof.
  unfold computeDNSStatusConditions, computeDNSProgressingCondition, computeDNSAvailableCondition,
    computeDNSUpgradeableCondition, computeDNSDegradedCondition.
  footprint.
Qed.

Lemma touches_syncDNSStatus S dns clusterIP clusterDomain ods onr tol res :
  (KDNS, key_of KDNS dns) ∈ S →
  touches S (syncDNSStatus (W := W) dns clusterIP clusterDomain ods onr tol res).
Proof.
  intros Hin. unfold syncDNSStatus. apply touches_bind.
  { apply touches_computeDNSStatusConditions. }
  footprint.
Qed.

(** [st] reports Degraded=True. *)
Definition reports_degraded (st : DNSStatus) : Prop :=
  ∃ c, c ∈ st_Conditions st ∧ oc_Type c = OperatorStatusTypeDegraded ∧ oc_Status c = ConditionTrue.

(** syncDNSStatus never panics, touches only its DNS, and never writes a
    status with Degraded=True: either the stored DNS is left as it was, or its new
    status has the given address and domain, no Degraded=True, and Available=True
    exactly when there is an address and the daemonset has an available pod. *)
Lemma syncDNSStatus_never_degraded dns clusterIP clusterDomain ods onr tol res (w : W) :
  wp (syncDNSStatus dns clusterIP clusterDomain ods onr tol res) (λ _ w',
    (∀ k n, (k, n) ≠ (KDNS, key_of KDNS dns) → view w' k n = view w k n) ∧
    (view w' KDNS (key_of KDNS dns) = view w KDNS (key_of KDNS dns) ∨
     ∃ dns', view w' KDNS (key_of KDNS dns) = Some dns' ∧
       st_ClusterIP (dns_Status dns') = clusterIP ∧
       st_ClusterDomain (dns_Status dns') = clusterDomain ∧
       ¬ reports_degraded (dns_Status dns') ∧
       ((∃ c, c ∈ st_Conditions (dns_Status dns') ∧ oc_Type c = OperatorStatusTypeAvailable ∧
              oc_Status c = ConditionTrue) ↔
        clusterIP ≠ "" ∧ ∃ ds, ods = Some ds ∧ dst_NumberAvailable (ds_Status ds) ≠ 0%Z))) w.
Proof.
  unfold syncDNSStatus. rewrite wp_bind.
  eapply wp_mono; [eapply (wp_touches ∅);
    [apply touches_computeDNSStatusConditions|apply wp_status]|].
  intros [[cs err] res'] w1 [(p & a & u & d & -> & Hp & Ha & Hu & Hd & Havail & _ & Hdeg) Hframe].
  rewrite unavailable_nil in Havail.
  destruct Hdeg as [(_ & [e ->] & _)|[Hdf ->]].
  { rewrite wp_ret. split; [set_solver|]. left. apply Hframe. set_solver. }
  rewrite wp_bind.
  match goal with |- wp (lift_option (dnsStatusesEqual ?x ?y)) _ _ =>
    assert (is_Some (dnsStatusesEqual x y)) as [b ->] end.
  { unfold dnsStatusesEqual, cond.ConditionsEqual.
    edestruct (cmp_Equal_SortSlices_total oc_Type) as [b Hb]. setoid_rewrite Hb. eauto. }
  rewrite wp_lift. destruct b; simpl negb; cbv iota.
  { rewrite wp_ret. split; [set_solver|]. left. apply Hframe. set_solver. }
  rewrite wp_bind, wp_call. set (updated := mkDNS _ _ _).
  destruct (status_law KDNS updated w1) as (Hother & Hthis & _).
  match goal with |- wp _ (λ _ w', @?Q w') _ =>
    assert (Q (client_StatusUpdate KDNS updated w1).2) as HQ;
      [|destruct (client_StatusUpdate KDNS updated w1).1; rewrite wp_ret; exact HQ] end.
  cbv beta. split.
  - intros k n Hne. rewrite Hother by done. apply Hframe. set_solver.
  - destruct Hthis as [Hsame|(o' & (Hk & Hst & _) & Hview)].
    + left. etrans; [exact Hsame|]. apply Hframe. set_solver.
    + right. exists o'. split; [exact Hview|]. rewrite Hst. simpl.
      split; [done|]. split; [done|]. split.
      * unfold reports_degraded. simpl. intros (c & Hc & Ht & Hs). set_unfold in Hc.
        destruct Hc as [->|[->|[->|[->|[]]]]]; rewrite ?Hp, ?Ha, ?Hu, ?Hd, ?Hdf in *; naive_solver.
      * rewrite <- Havail. split; [|intros; exists a; set_solver].
        intros (c & Hc & Ht & Hs). set_unfold in Hc.
        destruct Hc as [->|[->|[->|[->|[]]]]]; rewrite ?Hp, ?Ha, ?Hu, ?Hd, ?Hdf in *; naive_solver.
Qed.

End sync_props.

(** ** Steady states *)

(** Everything rolled out and placed as wanted. *)
Definition settled (dns : DNS) (clusterIP : string) (ds nr : DaemonSet) : Prop :=
  clusterIP ≠ "" ∧ rolled_out ds ∧ rolled_out nr ∧
  ps_NodeSelector (ds_podspec ds) = nodeSelectorForDNS dns ∧
  ps_Tolerations (ds_podspec ds) = tolerationsForDNS dns.

Lemma settled_messages addr dns clusterIP ds nr :
  settled dns clusterIP ds nr → progressing_messages addr dns clusterIP (Some ds) (Some nr) = [].
Proof. intros (?&?&?&?&?). apply progressing_messages_nil. naive_solver. Qed.

(** The conditions of a settled DNS with enough pods, up to the times. *)
Definition healthy_conditions (dns : DNS) (tp ta tu td : Z) : list OperatorCondition :=
  [mkOperatorCondition OperatorStatusTypeProgressing ConditionFalse tp "AsExpected"
     "All DNS and node-resolver pods are updated, and the DNS service has a cluster IP address.";
   mkOperatorCondition OperatorStatusTypeAvailable ConditionTrue ta "AsExpected"
     "The DNS daemonset has available pods, and the DNS service has a cluster IP address.";
   (if spec_ManagementState (dns_Spec dns) =s Unmanaged
    then mkOperatorCondition OperatorStatusTypeUpgradeable ConditionFalse tu "OperatorUnmanaged"
           "Cannot upgrade while managementState is Unmanaged"
    else mkOperatorCondition OperatorStatusTypeUpgradeable ConditionTrue tu "AsExpected"
           "DNS Operator can be upgraded");
   mkOperatorCondition OperatorStatusTypeDegraded ConditionFalse td "AsExpected"
     "Enough DNS pods are available, and the DNS service has a cluster IP address."].

(** Each condition is found under its type. *)
Lemma find_healthy dns tp ta tu td :
  let cs := healthy_conditions dns tp ta tu td in
  find_condition OperatorStatusTypeProgressing cs = cs !! 0 ∧
  find_condition OperatorStatusTypeAvailable cs = cs !! 1 ∧
  find_condition OperatorStatusTypeUpgradeable cs = cs !! 2 ∧
  find_condition OperatorStatusTypeDegraded cs = cs !! 3.
Proof. unfold healthy_conditions, find_condition. case_bool_decide; repeat split. Qed.

Section steady.
Context {W : Type} `{Client W} `{Runtime W}.

Lemma setDNSLastTransitionTime_same c o (w : W) :
  oc_Status c = oc_Status o →
  setDNSLastTransitionTime c (Some o) w =
  (Some (mkOperatorCondition (oc_Type c) (oc_Status c) (oc_LastTransitionTime o)
           (oc_Reason c) (oc_Message c)), w).
Proof. intros Hs. unfold setDNSLastTransitionTime. by rewrite bool_decide_true. Qed.

Context (dns : DNS) (clusterIP : string) (ds nr : DaemonSet) (tol : Z) (res : Result).
Context (Hset : settled dns clusterIP ds nr) (Hok : counters_ok ds) (Hen : enough_pods ds).

Lemma healthy_degraded t : degraded_conditions clusterIP (Some ds) t = [].
Proof.
  destruct Hset as [? _]. apply degraded_conditions_nil; [by intros ? [= <-]|]. eauto.
Qed.

Lemma healthy_unavailable : unavailable clusterIP (Some ds) = [].
Proof. destruct Hset as [? _], Hen as (_ & ? & _). apply unavailable_nil. eauto. Qed.

(** A healthy DNS gets the healthy conditions. *)
Lemma wp_healthy w :
  wp (computeDNSStatusConditions dns clusterIP (Some ds) (Some nr) tol res) (λ '(cs, err, res') _,
    err = None ∧ res' = res ∧ ∃ tp ta tu td, cs = healthy_conditions dns tp ta tu td) w.
Proof.
  unfold computeDNSStatusConditions, computeDNSProgressingCondition, computeDNSAvailableCondition,
    computeDNSUpgradeableCondition, computeDNSDegradedCondition.
  autorewrite with dnsop_wp. rewrite healthy_unavailable, settled_messages by done.
  cbn [length Nat.eqb negb andb]. rewrite wp_bind.
  apply wp_setDNSLastTransitionTime. intros tp w1 _ _. autorewrite with dnsop_wp.
  apply wp_setDNSLastTransitionTime. intros ta w2 _ _. autorewrite with dnsop_wp.
  apply wp_setDNSLastTransitionTime. intros tu w3 _ _. rewrite healthy_degraded.
  cbn [length Nat.eqb negb andb]. rewrite andb_false_r. autorewrite with dnsop_wp.
  apply wp_setDNSLastTransitionTime. intros td w4 _ _. autorewrite with dnsop_wp.
  split; [done|]. split; [done|]. exists tp, ta, tu, td. unfold healthy_conditions.
  by case_bool_decide.
Qed.

(** On a DNS that already has them, computing them reads the clock once. *)
Lemma healthy_conditions_stable dns' tp ta tu td w :
  dns_Spec dns' = dns_Spec dns →
  st_Conditions (dns_Status dns') = healthy_conditions dns tp ta tu td →
  computeDNSStatusConditions dns' clusterIP (Some ds) (Some nr) tol res w =
  (Some (healthy_conditions dns tp ta tu td, None, res), (time_Now w).2).
Proof.
  intros Hspec Hcs. unfold computeDNSStatusConditions. rewrite Hcs.
  assert (settled dns' clusterIP ds nr) as Hset'.
  { unfold settled, nodeSelectorForDNS, tolerationsForDNS in *. by rewrite Hspec. }
  unfold computeDNSProgressingCondition, computeDNSAvailableCondition,
    computeDNSUpgradeableCondition, computeDNSDegradedCondition.
  destruct (find_healthy dns tp ta tu td) as (-> & -> & -> & ->). rewrite Hspec.
  unfold healthy_conditions.
  unfold mbind, M_bind, mret, M_ret, call, gets. destruct (time_Now w) as [now w1]. cbn [snd].
  rewrite healthy_unavailable, healthy_degraded, settled_messages by done.
  destruct (bool_decide (spec_ManagementState (dns_Spec dns) = Unmanaged));
    cbn [length Nat.eqb negb andb lookup list_lookup];
    do 4 (rewrite setDNSLastTransitionTime_same by done; rewrite ?andb_false_r; cbv beta iota);
    done.
Qed.

(** C14: once the conditions of a healthy DNS (settled, with enough pods) have
    been written, a further syncDNSStatus with the same inputs makes no call to
    the API: it reads the clock and returns no error, on any world and with any
    later clock. *)
Theorem syncDNSStatus_quiescent clusterDomain w :
  wp (computeDNSStatusConditions dns clusterIP (Some ds) (Some nr) tol res) (λ '(cs, err, res') _,
    err = None ∧ res' = res ∧
    ∀ dns' w2, dns_Spec dns' = dns_Spec dns →
      dns_Status dns' = mkDNSStatus clusterIP clusterDomain cs →
      syncDNSStatus dns' clusterIP clusterDomain (Some ds) (Some nr) tol res w2 =
      (Some (None, res), (time_Now w2).2)) w.
Proof.
  eapply wp_mono; [apply wp_healthy|].
  intros [[cs err] res'] w1 (-> & -> & tp & ta & tu & td & ->).
  split; [done|]. split; [done|]. intros dns' w2 Hspec Hst.
  unfold syncDNSStatus, mbind at 1, M_bind at 1.
  rewrite (healthy_conditions_stable dns' tp ta tu td w2) by (done || by rewrite Hst).
  rewrite Hst. unfold dnsStatusesEqual, cond.ConditionsEqual. cbn [st_Conditions st_ClusterIP st_ClusterDomain].
  assert (cmp_Equal_SortSlices cond.type_less (λ x y, bool_decide (x = y))
    (healthy_conditions dns tp ta tu td) (healthy_conditions dns tp ta tu td) = Some true) as ->.
  { apply (cmp_Equal_SortSlices_refl oc_Type). intros a. by apply bool_decide_true. }
  unfold mbind, M_bind, lift_option. simpl. by rewrite !bool_decide_true.
Qed.

End steady.

(** ** A degraded DNS is not reported *)

Section degraded.
Context {W : Type} `{ClientLaws W} `{Runtime W}.

(** When everything is rolled out and placed as wanted but too few pods are
    available, and the last Degraded condition is not a recent False, syncDNSStatus
    writes nothing at all: it returns a retryable error and the stored status stays
    as it was, whatever it says of Available and Degraded. *)
Lemma syncDNSStatus_degraded_not_written dns clusterIP clusterDomain ds nr tol res (w : W) :
  settled dns clusterIP ds nr → counters_ok ds → ¬ enough_pods ds →
  recently_false (find_condition OperatorStatusTypeDegraded (st_Conditions (dns_Status dns)))
    (time_Now w).1 tol = None →
  wp (syncDNSStatus dns clusterIP clusterDomain (Some ds) (Some nr) tol res) (λ '(err, _) w',
    (∃ e, err = Some e ∧ retryable.After e = Some tol) ∧ ∀ k n, view w' k n = view w k n) w.
Proof.
  intros Hset Hok Hen Hold. unfold syncDNSStatus, computeDNSStatusConditions.
  assert (degraded_conditions clusterIP (Some ds) (time_Now w).1 ≠ []) as Hdeg.
  { rewrite degraded_conditions_nil by naive_solver. naive_solver. }
  autorewrite with dnsop_wp.
  eapply wp_mono; [eapply (wp_touches ∅); [|apply wp_progressing]|].
  { unfold computeDNSProgressingCondition, setDNSLastTransitionTime. footprint. }
  intros [p res'] w1 [[_ Hp] Hf1]. rewrite settled_messages in Hp by done.
  rewrite decide_True in Hp by done. destruct Hp as [Hp _].
  rewrite wp_bind. eapply wp_mono; [eapply (wp_touches ∅); [|apply wp_available]|].
  { unfold computeDNSAvailableCondition, setDNSLastTransitionTime. footprint. }
  intros a w2 [_ Hf2].
  rewrite wp_bind. eapply wp_mono; [eapply (wp_touches ∅); [|apply wp_upgradeable]|].
  { unfold computeDNSUpgradeableCondition, setDNSLastTransitionTime. footprint. }
  intros u w3 [_ Hf3].
  rewrite wp_bind. eapply wp_mono; [eapply (wp_touches ∅); [|apply wp_degraded]|].
  { unfold computeDNSDegradedCondition, setDNSLastTransitionTime. footprint. }
  intros [d err] w4 [[_ Hd] Hf4]. cbn [fst snd] in Hd.
  destruct Hd as [(_ & -> & _)|(_ & _ & [?|[[? ?]|(q & [= <-] & ?)]])];
    [|by congruence|by congruence|by rewrite Hp in *].
  rewrite !wp_ret. split; [by eexists|]. intros k n.
  rewrite Hf4, Hf3, Hf2, Hf1, now_frame by set_solver. done.
Qed.

End degraded.

(** ** The theorems at concrete inputs *)

#[export] Instance Mem_Runtime : Runtime Mem :=
  {| pointer_text m _ i := "0xc" +:+ fmt_d (mem_clock m + Z.of_nat i);
     logrus_SetLevel _ m := (tt, m) |}.

Lemma computeDNSDegradedCondition_spec_witness :
  wp (computeDNSDegradedCondition None None "172.30.0.10" (Some (sample_daemonset 10 8 10)) 0 7)
    (λ '(c, err) _, oc_Status c = ConditionTrue) mem0.
Proof.
  eapply wp_mono; [apply (computeDNSDegradedCondition_spec None None "172.30.0.10"
    (Some (sample_daemonset 10 8 10)) 0 7 mem0)|].
  - intros ds [= <-]. unfold counters_ok, MaxInt32. simpl. lia.
  - intros [c err] w' [Hc _]. apply Hc. split; [right|done].
    intros ds [= <-]. unfold enough_pods. simpl. lia.
Defined.

Lemma sample_settled want have :
  settled sample_dns "172.30.0.10" (sample_daemonset want have want) (sample_daemonset want have want).
Proof. unfold settled, rolled_out. repeat split; simpl; try done; lia. Qed.

Lemma syncDNSStatus_quiescent_witness :
  wp (computeDNSStatusConditions sample_dns "172.30.0.10" (Some (sample_daemonset 3 3 3))
        (Some (sample_daemonset 3 3 3)) 5 result0) (λ '(cs, err, _) _,
    err = None ∧
    syncDNSStatus (mkDNS (dns_meta sample_dns) (dns_Spec sample_dns)
        (mkDNSStatus "172.30.0.10" "cluster.local" cs)) "172.30.0.10" "cluster.local"
      (Some (sample_daemonset 3 3 3)) (Some (sample_daemonset 3 3 3)) 5 result0 mem0 =
    (Some (None, result0), (time_Now mem0).2)) mem0.
Proof.
  eapply wp_mono; [apply (syncDNSStatus_quiescent sample_dns "172.30.0.10" (sample_daemonset 3 3 3)
    (sample_daemonset 3 3 3) 5 result0)|].
  - apply sample_settled.
  - unfold counters_ok, MaxInt32. simpl. lia.
  - unfold enough_pods. simpl. lia.
  - intros [[cs err] res'] w' (-> & _ & Hq). split; [done|]. by apply Hq.
Defined.

Lemma syncDNSStatus_degraded_not_written_witness :
  wp (syncDNSStatus sample_dns "172.30.0.10" "cluster.local" (Some (sample_daemonset 3 0 3))
        (Some (sample_daemonset 3 0 3)) 5 result0) (λ '(err, _) w',
    is_Some err ∧ view w' KDNS (mkNN "" "default") = Some sample_dns) (mem_add KDNS sample_dns mem0).
Proof.
  eapply wp_mono; [apply (syncDNSStatus_degraded_not_written sample_dns "172.30.0.10" "cluster.local"
    (sample_daemonset 3 0 3) (sample_daemonset 3 0 3) 5 result0 (mem_add KDNS sample_dns mem0))|].
  - apply sample_settled.
  - unfold counters_ok, MaxInt32. simpl. lia.
  - unfold enough_pods. simpl. lia.
  - done.
  - intros [err res'] w' [(e & -> & _) Hv]. split; [eauto|]. rewrite Hv. done.
Defined.
