(* ===== verification/Corefile.v ===== *)
(** * The Corefile and its configmap: pkg/operator/controller/controller_dns_configmap.go

    The sanitizing of the TLS settings, the selection of the upstreams, the
    rendering of the template corefileTemplate, and the handlers that keep the
    configmap up to date. *)

From S2P Require Import Prelude GoLib Types Labels Numbers Net Client Mem Names Manifests Samples.

Definition resolvConf : string := "/etc/resolv.conf".
Definition defaultDNSPort : Z := 53.
(** 20 * time.Second, and its text. *)
Definition lameDuckDuration : Z := 20 * Second.
Definition lameDuckDuration_text : string := "20s".
Definition cacheDefaultMaxPositiveTTLSeconds : Z := 900.
Definition cacheDefaultMaxNegativeTTLSeconds : Z := 30.

Definition errInvalidNetworkUpstream : error :=
  ErrNew "The address field is mandatory for upstream of type Network, but was not provided".
Definition errTransportTLSConfiguredWithoutServerName : error :=
  ErrNew "The ServerName field is mandatory when configuring TLS as the DNS Transport".
Definition errTransportTLSConfiguredForNonIP : error :=
  ErrNew "Only IP addresses are allowed when configuring TLS as the DNS Transport".
Definition errTransportTLSConfiguredForSysResConf : error :=
  ErrNew "Using system resolv config is not allowed when configuring TLS as the DNS Transport".

(** ** Sanitizing the TLS settings *)

(** tls == nil || tls.ServerName == "" *)
Definition no_server_name (tls : option DNSOverTLSConfig) : bool :=
  match tls with
  | None => true
  | Some t => tls_ServerName t =s ""
  end.

(** The two defaulting steps that end both halves of sanitizeTLSSettings. *)
Definition sanitize_transport (tc : DNSTransportConfig) : DNSTransportConfig :=
  let transport := if tc_Transport tc =s "" then CleartextTransport else tc_Transport tc in
  mkDNSTransportConfig transport
    (if (transport =s CleartextTransport) && negb (no_server_name (tc_TLS tc))
     then (λ t, mkDNSOverTLSConfig "" (tls_CABundle_Name t)) <$> tc_TLS tc
     else tc_TLS tc).

(** The test of one upstream of a TLS server: an IP address, with or without a
    port. *)
Definition upstream_is_ip (upstream : string) : bool :=
  let addr := match SplitHostPort upstream with inr (v, _) => v | inl _ => upstream end in
  match ParseIP addr with Some _ => true | None => false end.

(** One turn of the loop over the servers. *)
Definition sanitize_server (server : Server) : error + Server :=
  let fp := srv_ForwardPlugin server in
  let tc := fp_TransportConfig fp in
  let sanitized := mkServer (srv_Name server) (srv_Zones server)
    (mkForwardPlugin (fp_Upstreams fp) (fp_Policy fp) (sanitize_transport tc)
       (fp_ProtocolStrategy fp)) in
  if tc_Transport tc =s TLSTransport then
    if no_server_name (tc_TLS tc) then inl errTransportTLSConfiguredWithoutServerName
    else if negb (forallb upstream_is_ip (fp_Upstreams fp))
    then inl errTransportTLSConfiguredForNonIP
    else inr sanitized
  else inr sanitized.

Fixpoint sanitize_servers (servers : list Server) : error + list Server :=
  match servers with
  | [] => inr []
  | s :: rest =>
      match sanitize_server s with
      | inl err => inl err
      | inr s' => match sanitize_servers rest with
                  | inl err => inl err
                  | inr rest' => inr (s' :: rest')
                  end
      end
  end.

Definition dns_set_spec (dns : DNS) (spec : DNSSpec) : DNS :=
  mkDNS (dns_meta dns) spec (dns_Status dns).

(** sanitizeTLSSettings; the partly updated copy returned with an error is not
    used by the caller. *)
Definition sanitizeTLSSettings (dns : DNS) : error + DNS :=
  let spec := dns_Spec dns in
  match sanitize_servers (spec_Servers spec) with
  | inl err => inl err
  | inr servers =>
      let ur := spec_UpstreamResolvers spec in
      let tc := ur_TransportConfig ur in
      let sanitized := dns_set_spec dns
        (mkDNSSpec servers
           (mkUpstreamResolvers (ur_Upstreams ur) (ur_Policy ur) (sanitize_transport tc)
              (ur_ProtocolStrategy ur))
           (spec_NodePlacement spec) (spec_ManagementState spec) (spec_OperatorLogLevel spec)
           (spec_LogLevel spec) (spec_Cache spec)) in
      if tc_Transport tc =s TLSTransport then
        if no_server_name (tc_TLS tc) then inl errTransportTLSConfiguredWithoutServerName
        else if (length (ur_Upstreams ur) <? 1)%nat then inl errTransportTLSConfiguredForSysResConf
        else if existsb (λ u, up_Type u =s SystemResolveConfType) (ur_Upstreams ur)
        then inl errTransportTLSConfiguredForSysResConf
        else inr sanitized
      else inr sanitized
  end.

(** ** Upstreams *)

Definition cmpUpstreamType (a b : string) : bool :=
  let a := if a =s "" then SystemResolveConfType else a in
  let b := if b =s "" then SystemResolveConfType else b in
  a =s b.

Definition cmpPort (a b : Z) : bool :=
  let aVal := if negb (a =? 0)%Z then a else defaultDNSPort in
  let bVal := if negb (b =? 0)%Z then b else defaultDNSPort in
  (aVal =? bVal)%Z.

(** Converting a float64 outside its range to uint32 is implementation-defined:
    [uint32_outside t] is the value for a float that truncates to [t]. *)
Class FloatConversion := { uint32_outside : Z → Z }.

Section corefile.
Context `{UnicodeTables} `{FloatConversion}.

Definition cmpAddress (a b : string) : bool := strings_EqualFold a b.

(** cmp.Equal on Upstreams with the three comparers. *)
Definition upstream_eqb (a b : Upstream) : bool :=
  cmpUpstreamType (up_Type a) (up_Type b) && cmpAddress (up_Address a) (up_Address b)
  && cmpPort (up_Port a) (up_Port b).

Definition contains (upstreams : list Upstream) (upstream : Upstream) : bool :=
  existsb (upstream_eqb upstream) upstreams.

(** The loop of desiredDNSConfigMap over spec.upstreamResolvers.upstreams. *)
Fixpoint select_upstreams (upstreams acc : list Upstream) : error + list Upstream :=
  match upstreams with
  | [] => inr acc
  | upstream :: rest =>
      if (up_Type upstream =s NetworkResolverType) && (up_Address upstream =s "")
      then inl errInvalidNetworkUpstream
      else select_upstreams rest (if negb (contains acc upstream) then acc ++ [upstream] else acc)
  end.

(** coreDNSResolver *)
Definition coreDNSResolver (upstream : Upstream) : error + string :=
  if up_Type upstream =s NetworkResolverType then
    if up_Address upstream =s "" then inl errInvalidNetworkUpstream
    else if (0 <? up_Port upstream)%Z
    then inr (JoinHostPort (strings_ToUpper (up_Address upstream)) (fmt_d (up_Port upstream)))
    else inr (strings_ToUpper (up_Address upstream))
  else inr resolvConf.

Definition coreDNSPolicy (policy : string) : string :=
  if policy =s RandomForwardingPolicy then "random"
  else if policy =s RoundRobinForwardingPolicy then "round_robin"
  else if policy =s SequentialForwardingPolicy then "sequential"
  else "random".

Definition coreDNSLogLevel (dns : DNS) : string :=
  let l := spec_LogLevel (dns_Spec dns) in
  if l =s DNSLogLevelNormal then "class error"
  else if l =s DNSLogLevelDebug then "class denial error"
  else if l =s DNSLogLevelTrace then "class all"
  else "class error".

(** uint32(d.Round(time.Second).Seconds()) *)
Definition ttl_seconds (d : Z) : Z :=
  let t := Z.quot (Duration_Round d Second) Second in
  if (0 <=? t)%Z && (t <? 2 ^ 32)%Z then t else wrap_u 32 (uint32_outside t).

Definition coreDNSCache (dns : DNS) : Z * Z :=
  let configuredPosTTL := ttl_seconds (cache_PositiveTTL (spec_Cache (dns_Spec dns))) in
  let configuredNegTTL := ttl_seconds (cache_NegativeTTL (spec_Cache (dns_Spec dns))) in
  (if (configuredPosTTL <=? 0)%Z then cacheDefaultMaxPositiveTTLSeconds else configuredPosTTL,
   if (configuredNegTTL <=? 0)%Z then cacheDefaultMaxNegativeTTLSeconds else configuredNegTTL).

(** ** The template *)

(** corefileParameters *)
Record CorefileParameters := mkCorefileParameters {
  p_ClusterDomain : string; p_Servers : list Server; p_UpstreamResolvers : UpstreamResolvers;
  p_LogLevel : string; p_CABundleRevisionMap : gmap string string; p_CABundleFileName : string;
  p_LameDuckDuration : string; p_PositiveTTL : Z; p_NegativeTTL : Z;
  p_OCPDNSNameResolver : bool; p_DNSNameResolverNamespaces : list string }.

(** A new line, indented by four spaces [n] times, then the text. *)
Definition nl (n : nat) (s : string) : string :=
  newline +:+ String.concat "" (replicate n "    ") +:+ s.

Definition cat (l : list string) : string := String.concat "" l.

(** {{- with $tls := .TransportConfig.TLS }} ... {{- end}} *)
Definition render_tls (p : CorefileParameters) (tls : option DNSOverTLSConfig) : string :=
  match tls with
  | None => ""
  | Some tls =>
      if tls_ServerName tls =s "" then ""
      else
        nl 2 "tls_servername " +:+ tls_ServerName tls +:+
        nl 2 "tls" +:+
        (let cm := default "" (p_CABundleRevisionMap p !! tls_CABundle_Name tls) in
         if cm =s "" then ""
         else " /etc/pki/" +:+ tls_ServerName tls +:+ "-" +:+ cm +:+ "/" +:+ p_CABundleFileName p)
  end.

(** "forward ." with its upstreams and block. *)
Definition render_forward (p : CorefileParameters) (upstreams : list string)
    (tc : DNSTransportConfig) (policy protocolStrategy : string) : string :=
  "forward ." +:+
  cat (map (λ u, " " +:+ (if tc_Transport tc =s "TLS" then "tls://" else "") +:+ u) upstreams) +:+
  " {" +:+ render_tls p (tc_TLS tc) +:+
  nl 2 "policy " +:+ coreDNSPolicy policy +:+
  (if protocolStrategy =s "TCP" then nl 2 "force_tcp" else "") +:+
  nl 1 "}".

Definition render_log (p : CorefileParameters) : string :=
  "log . {" +:+ nl 2 (p_LogLevel p) +:+ nl 1 "}".

Definition render_cache (p : CorefileParameters) : string :=
  "cache " +:+ fmt_d (p_PositiveTTL p) +:+ " {" +:+
  nl 2 "denial 9984 " +:+ fmt_d (p_NegativeTTL p) +:+ nl 1 "}".

Definition render_ocp_dnsnameresolver (p : CorefileParameters) : string :=
  if p_OCPDNSNameResolver p then
    nl 1 "ocp_dnsnameresolver {" +:+
    nl 2 "namespaces " +:+ cat (map (λ ns, ns +:+ " ") (p_DNSNameResolverNamespaces p)) +:+
    nl 1 "}"
  else "".

(** {{range .Servers}} *)
Definition render_server (p : CorefileParameters) (s : Server) : string :=
  let fp := srv_ForwardPlugin s in
  "# " +:+ srv_Name s +:+
  nl 0 "" +:+ cat (map (λ z, z +:+ ":5353 ") (srv_Zones s)) +:+ "{" +:+
  nl 1 "prometheus 127.0.0.1:9153" +:+
  nl 1 (render_forward p (fp_Upstreams fp) (fp_TransportConfig fp) (fp_Policy fp)
          (fp_ProtocolStrategy fp)) +:+
  nl 1 "errors" +:+
  nl 1 (render_log p) +:+
  nl 1 "bufsize 1232" +:+
  nl 1 (render_cache p) +:+
  render_ocp_dnsnameresolver p +:+
  nl 0 "}" +:+ newline.

(** The upstreams of the default server, through UpstreamResolver; the first
    error stops the template. *)
Fixpoint resolve_upstreams (upstreams : list Upstream) : error + list string :=
  match upstreams with
  | [] => inr []
  | u :: rest =>
      match coreDNSResolver u with
      | inl err => inl err
      | inr s => match resolve_upstreams rest with
                 | inl err => inl err
                 | inr ss => inr (s :: ss)
                 end
      end
  end.

(** The rest of the template, the default server and hostname.bind. *)
Definition render_default (p : CorefileParameters) (upstreams : list string) : string :=
  let ur := p_UpstreamResolvers p in
  ".:5353 {" +:+
  nl 1 "bufsize 1232" +:+
  nl 1 "errors" +:+
  nl 1 (render_log p) +:+
  nl 1 "health {" +:+
  nl 2 "lameduck " +:+ p_LameDuckDuration p +:+
  nl 1 "}" +:+
  nl 1 "ready" +:+
  nl 1 "kubernetes " +:+ p_ClusterDomain p +:+ " in-addr.arpa ip6.arpa {" +:+
  nl 2 "pods insecure" +:+
  nl 2 "fallthrough in-addr.arpa ip6.arpa" +:+
  nl 1 "}" +:+
  nl 1 "prometheus 127.0.0.1:9153" +:+
  nl 1 (render_forward p upstreams (ur_TransportConfig ur) (ur_Policy ur)
          (ur_ProtocolStrategy ur)) +:+
  nl 1 (render_cache p) +:+
  nl 1 "reload" +:+
  render_ocp_dnsnameresolver p +:+
  nl 0 "}" +:+
  nl 0 "hostname.bind:5353 {" +:+
  nl 1 "chaos" +:+
  nl 0 "}" +:+ newline.

(** corefileTemplate.Execute *)
Definition corefileTemplate (p : CorefileParameters) : error + string :=
  match resolve_upstreams (ur_Upstreams (p_UpstreamResolvers p)) with
  | inl err => inl (ErrWrap "template: Corefile: error calling UpstreamResolver: " err)
  | inr upstreams => inr (cat (map (render_server p) (p_Servers p)) +:+ render_default p upstreams)
  end.

(** ** The configmap *)

(** The upstream resolvers of the template, from the sanitized DNS. *)
Definition effective_upstreamResolvers (dns : DNS) : error + UpstreamResolvers :=
  let ur := spec_UpstreamResolvers (dns_Spec dns) in
  let policy := if negb (ur_Policy ur =s "") then ur_Policy ur else SequentialForwardingPolicy in
  if (0 <? length (ur_Upstreams ur))%nat then
    match select_upstreams (ur_Upstreams ur) [] with
    | inl err => inl err
    | inr upstreams =>
        inr (mkUpstreamResolvers upstreams policy (ur_TransportConfig ur) (ur_ProtocolStrategy ur))
    end
  else inr (mkUpstreamResolvers [mkUpstream SystemResolveConfType "" 0] policy
              (ur_TransportConfig ur) (ur_ProtocolStrategy ur)).

Definition desiredDNSConfigMap (dns : DNS) (clusterDomain : string)
    (caBundleRevisionMap : gmap string string) (dnsNameResolverEnabled : bool)
    (dnsNameResolverNamespaces : list string) : error + ConfigMap :=
  let clusterDomain := if (String.length clusterDomain =? 0)%nat then "cluster.local" else clusterDomain in
  match sanitizeTLSSettings dns with
  | inl err => inl err
  | inr dns =>
      match effective_upstreamResolvers dns with
      | inl err => inl err
      | inr upstreamResolvers =>
          let '(pTTL, nTTL) := coreDNSCache dns in
          match corefileTemplate
                  (mkCorefileParameters clusterDomain (spec_Servers (dns_Spec dns)) upstreamResolvers
                     (coreDNSLogLevel dns) caBundleRevisionMap caBundleFileName
                     lameDuckDuration_text pTTL nTTL dnsNameResolverEnabled
                     dnsNameResolverNamespaces) with
          | inl err => inl err
          | inr corefile =>
              let name := DNSConfigMapName dns in
              inr (mkConfigMap
                     (mkObjectMeta (nn_Name name) (nn_Namespace name) "" ""
                        {[ OwningDNSLabel := DNSDaemonSetLabel dns ]} ∅ [dnsOwnerRef dns] [] None)
                     (Some {[ "Corefile" := corefile ]}))
          end
      end
  end.

(** corefileChanged: the configmap to write, if one is needed.  A nil map and an
    empty one are equal (EquateEmpty). *)
Definition corefileChanged (current expected : ConfigMap) : option ConfigMap :=
  if bool_decide (default ∅ (cm_Data current) = default ∅ (cm_Data expected)) then None
  else Some (mkConfigMap (cm_meta current) (cm_Data expected)).

(** ** Handlers *)

Section handlers.
Context {W : Type} `{Client W} (r : reconciler).

(** A (bool, *ConfigMap, error) result. *)
Definition CMResult : Type := option ConfigMap * option error.

Definition currentDNSConfigMap (dns : DNS) : M W CMResult :=
  res ← call (client_Get KConfigMap (DNSConfigMapName dns));
  match res with
  | inr current => mret (Some current, None)
  | inl err => if IsNotFound err then mret (None, None) else mret (None, Some (api_error err))
  end.

Definition updateDNSConfigMap (current desired : ConfigMap) : M W (error + bool) :=
  match corefileChanged current desired with
  | None => mret (inr false)
  | Some updated =>
      res ← call (client_Update KConfigMap updated);
      match res with
      | inl err => mret (inl (Errorf_v "failed to update configmap: " (api_error err)))
      | inr _ => mret (inr true)
      end
  end.

Definition ensureDNSConfigMap (dns : DNS) (clusterDomain : string)
    (caBundleRevisionMap : gmap string string) : M W CMResult :=
  cur ← currentDNSConfigMap dns;
  match cur with
  | (_, Some err) => mret (None, Some (Errorf_v "failed to get configmap: " err))
  | (current, None) =>
      match desiredDNSConfigMap dns clusterDomain caBundleRevisionMap
              (r_dnsNameResolverEnabled r) (r_dnsNameResolverNamespaces r) with
      | inl err => mret (current, Some (Errorf_v "failed to build configmap: " err))
      | inr desired =>
          match current with
          | None =>
              res ← call (client_Create KConfigMap desired);
              match res with
              | inl err => mret (None, Some (Errorf_v "failed to create configmap: " (api_error err)))
              | inr _ => currentDNSConfigMap dns
              end
          | Some current =>
              updated ← updateDNSConfigMap current desired;
              match updated with
              | inl err => mret (Some current, Some err)
              | inr true => currentDNSConfigMap dns
              | inr false => mret (Some current, None)
              end
          end
      end
  end.

End handlers.
End corefile.
