(* ===== verification/CorefileGolden.v ===== *)
(** * The Corefiles of the repository's own tests

    Cases of TestDesiredDNSConfigmap, TestDesiredDNSConfigmapUpstreamResolvers and
    TestDesiredDNSConfigmapDNSNameResolverEnabled, each with the text of its file under
    pkg/operator/controller/testdata or its error, evaluated in the model. *)

From S2P Require Import Prelude GoLib Types Labels Numbers Net Client Mem Names Manifests Samples.
From S2P Require Import Corefile.

(** The tests use ASCII addresses and in-range TTLs only. *)
#[export] Instance ascii_only : UnicodeTables :=
  {| unicode_ToUpper s := s; unicode_EqualFold s t := bool_decide (s = t) |}.
(** On amd64 the conversion goes through a signed 64-bit integer. *)
#[export] Instance amd64_float : FloatConversion := {| uint32_outside t := t |}.

Definition golden_dns (servers : list Server) (ur : UpstreamResolvers) (logLevel : string)
    (cache : DNSCache) : DNS :=
  mkDNS (mkObjectMeta "default" "" "" "" ∅ ∅ [] [] None)
    (mkDNSSpec servers ur (mkDNSNodePlacement ∅ []) "" "" logLevel cache) (mkDNSStatus "" "" []).

Definition corefile_of (dns : DNS) (enabled : bool) (namespaces : list string) : error + string :=
  match desiredDNSConfigMap dns "cluster.local" (list_to_map [("cacerts", "ca-cacerts-2"); ("ca-bundle-config", "ca-ca-bundle-config-1")]) enabled namespaces with
  | inl err => inl err
  | inr cm => inr (default "" (cm_Data cm ≫= lookup "Corefile"))
  end.

(** A text from its lines. *)
Definition unlines (ls : list string) : string := String.concat "" (map (λ l, l +:+ newline) ls).



(** Check if Corefile is rendered correctly *)
Example golden_default_corefile : corefile_of (golden_dns
     [(mkServer "foo" ["foo.com"] (mkForwardPlugin ["1.1.1.1"; "2.2.2.2:5353"] "RoundRobin" (mkDNSTransportConfig "" None) "")); (mkServer "bar" ["bar.com"; "example.com"] (mkForwardPlugin ["3.3.3.3"] "Random" (mkDNSTransportConfig "" None) "")); (mkServer "fizz" ["fizz.com"] (mkForwardPlugin ["5.5.5.5"; "6.6.6.6"] "Sequential" (mkDNSTransportConfig "" None) "")); (mkServer "buzz" ["buzz.com"; "example.buzz.com"] (mkForwardPlugin ["4.4.4.4"] "" (mkDNSTransportConfig "" None) ""))]
     (mkUpstreamResolvers [] "" (mkDNSTransportConfig "" None) "")
     "" (mkDNSCache 0 0))
    false []
  = inr (unlines (
     "# foo" ::
     "foo.com:5353 {" ::
     "    prometheus 127.0.0.1:9153" ::
     "    forward . 1.1.1.1 2.2.2.2:5353 {" ::
     "        policy round_robin" ::
     "    }" ::
     "    errors" ::
     "    log . {" ::
     "        class error" ::
     "    }" ::
     "    bufsize 1232" ::
     "    cache 900 {" ::
     "        denial 9984 30" ::
     "    }" ::
     "}" ::
     "# bar" ::
     "bar.com:5353 example.com:5353 {" ::
     "    prometheus 127.0.0.1:9153" ::
     "    forward . 3.3.3.3 {" ::
     "        policy random" ::
     "    }" ::
     "    errors" ::
     "    log . {" ::
     "        class error" ::
     "    }" ::
     "    bufsize 1232" ::
     "    cache 900 {" ::
     "        denial 9984 30" ::
     "    }" ::
     "}" ::
     "# fizz" ::
     "fizz.com:5353 {" ::
     "    prometheus 127.0.0.1:9153" ::
     "    forward . 5.5.5.5 6.6.6.6 {" ::
     "        policy sequential" ::
     "    }" ::
     "    errors" ::
     "    log . {" ::
     "        class error" ::
     "    }" ::
     "    bufsize 1232" ::
     "    cache 900 {" ::
     "        denial 9984 30" ::
     "    }" ::
     "}" ::
     "# buzz" ::
     "buzz.com:5353 example.buzz.com:5353 {" ::
     "    prometheus 127.0.0.1:9153" ::
     "    forward . 4.4.4.4 {" ::
     "        policy random" ::
     "    }" ::
     "    errors" ::
     "    log . {" ::
     "        class error" ::
     "    }" ::
     "    bufsize 1232" ::
     "    cache 900 {" ::
     "        denial 9984 30" ::
     "    }" ::
     "}" ::
     ".:5353 {" ::
     "    bufsize 1232" ::
     "    errors" ::
     "    log . {" ::
     "        class error" ::
     "    }" ::
     "    health {" ::
     "        lameduck 20s" ::
     "    }" ::
     "    ready" ::
     "    kubernetes cluster.local in-addr.arpa ip6.arpa {" ::
     "        pods insecure" ::
     "        fallthrough in-addr.arpa ip6.arpa" ::
     "    }" ::
     "    prometheus 127.0.0.1:9153" ::
     "    forward . /etc/resolv.conf {" ::
     "        policy sequential" ::
     "    }" ::
     "    cache 900 {" ::
     "        denial 9984 30" ::
     "    }" ::
     "    reload" ::
     "}" ::
     "hostname.bind:5353 {" ::
     "    chaos" ::
     "}" :: nil)).
Proof. vm_compute. reflexivity. Qed.

(** Check the expected DNS-over-TLS settings *)
Example golden_forwardplugin_tls : corefile_of (golden_dns
     [(mkServer "foo" ["foo.com"] (mkForwardPlugin ["1.1.1.1"; "2.2.2.2:5353"] "RoundRobin" (mkDNSTransportConfig "TLS" (Some (mkDNSOverTLSConfig "dns.foo.com" ""))) "")); (mkServer "bar" ["bar.com"] (mkForwardPlugin ["1.1.1.1"; "2.2.2.2:5353"] "RoundRobin" (mkDNSTransportConfig "TLS" (Some (mkDNSOverTLSConfig "dns.bar.com" "cacerts"))) ""))]
     (mkUpstreamResolvers [] "" (mkDNSTransportConfig "" None) "")
     "" (mkDNSCache 0 0))
    false []
  = inr (unlines (
     "# foo" ::
     "foo.com:5353 {" ::
     "    prometheus 127.0.0.1:9153" ::
     "    forward . tls://1.1.1.1 tls://2.2.2.2:5353 {" ::
     "        tls_servername dns.foo.com" ::
     "        tls" ::
     "        policy round_robin" ::
     "    }" ::
     "    errors" ::
     "    log . {" ::
     "        class error" ::
     "    }" ::
     "    bufsize 1232" ::
     "    cache 900 {" ::
     "        denial 9984 30" ::
     "    }" ::
     "}" ::
     "# bar" ::
     "bar.com:5353 {" ::
     "    prometheus 127.0.0.1:9153" ::
     "    forward . tls://1.1.1.1 tls://2.2.2.2:5353 {" ::
     "        tls_servername dns.bar.com" ::
     "        tls /etc/pki/dns.bar.com-ca-cacerts-2/ca-bundle.crt" ::
     "        policy round_robin" ::
     "    }" ::
     "    errors" ::
     "    log . {" ::
     "        class error" ::
     "    }" ::
     "    bufsize 1232" ::
     "    cache 900 {" ::
     "        denial 9984 30" ::
     "    }" ::
     "}" ::
     ".:5353 {" ::
     "    bufsize 1232" ::
     "    errors" ::
     "    log . {" ::
     "        class error" ::
     "    }" ::
     "    health {" ::
     "        lameduck 20s" ::
     "    }" ::
     "    ready" ::
     "    kubernetes cluster.local in-addr.arpa ip6.arpa {" ::
     "        pods insecure" ::
     "        fallthrough in-addr.arpa ip6.arpa" ::
     "    }" ::
     "    prometheus 127.0.0.1:9153" ::
     "    forward . /etc/resolv.conf {" ::
     "        policy sequential" ::
     "    }" ::
     "    cache 900 {" ::
     "        denial 9984 30" ::
     "    }" ::
     "    reload" ::
     "}" ::
     "hostname.bind:5353 {" ::
     "    chaos" ::
     "}" :: nil)).
Proof. vm_compute. reflexivity. Qed.

(** Default Corefile with fractional cache values configured *)
Example golden_default_corefile_cache_with_fractional_values_configured : corefile_of (golden_dns
     []
     (mkUpstreamResolvers [] "" (mkDNSTransportConfig "" None) "")
     "" (mkDNSCache 999000000 444000000))
    false []
  = inr (unlines (
     ".:5353 {" ::
     "    bufsize 1232" ::
     "    errors" ::
     "    log . {" ::
     "        class error" ::
     "    }" ::
     "    health {" ::
     "        lameduck 20s" ::
     "    }" ::
     "    ready" ::
     "    kubernetes cluster.local in-addr.arpa ip6.arpa {" ::
     "        pods insecure" ::
     "        fallthrough in-addr.arpa ip6.arpa" ::
     "    }" ::
     "    prometheus 127.0.0.1:9153" ::
     "    forward . /etc/resolv.conf {" ::
     "        policy sequential" ::
     "    }" ::
     "    cache 1 {" ::
     "        denial 9984 30" ::
     "    }" ::
     "    reload" ::
     "}" ::
     "hostname.bind:5353 {" ::
     "    chaos" ::
     "}" :: nil)).
Proof. vm_compute. reflexivity. Qed.

(** CR of 5 upstreams in upstreamResolvers should return a coreFile with 5 upstreams defined *)
Example golden_5upstreams : corefile_of (golden_dns
     [(mkServer "foo" ["foo.com"] (mkForwardPlugin ["1.1.1.1"; "2.2.2.2:5353"] "RoundRobin" (mkDNSTransportConfig "" None) ""))]
     (mkUpstreamResolvers [(mkUpstream "Network" "1.2.3.4" 0); (mkUpstream "Network" "9.8.7.6" 0); (mkUpstream "Network" "1001:AAAA:bbbb:cCcC::2222" 53); (mkUpstream "Network" "2.3.4.5" 5353); (mkUpstream "Network" "127.0.0.53" 0)] "RoundRobin" (mkDNSTransportConfig "" None) "")
     "" (mkDNSCache 0 0))
    false []
  = inr (unlines (
     "# foo" ::
     "foo.com:5353 {" ::
     "    prometheus 127.0.0.1:9153" ::
     "    forward . 1.1.1.1 2.2.2.2:5353 {" ::
     "        policy round_robin" ::
     "    }" ::
     "    errors" ::
     "    log . {" ::
     "        class error" ::
     "    }" ::
     "    bufsize 1232" ::
     "    cache 900 {" ::
     "        denial 9984 30" ::
     "    }" ::
     "}" ::
     ".:5353 {" ::
     "    bufsize 1232" ::
     "    errors" ::
     "    log . {" ::
     "        class error" ::
     "    }" ::
     "    health {" ::
     "        lameduck 20s" ::
     "    }" ::
     "    ready" ::
     "    kubernetes cluster.local in-addr.arpa ip6.arpa {" ::
     "        pods insecure" ::
     "        fallthrough in-addr.arpa ip6.arpa" ::
     "    }" ::
     "    prometheus 127.0.0.1:9153" ::
     "    forward . 1.2.3.4 9.8.7.6 [1001:AAAA:BBBB:CCCC::2222]:53 2.3.4.5:5353 127.0.0.53 {" ::
     "        policy round_robin" ::
     "    }" ::
     "    cache 900 {" ::
     "        denial 9984 30" ::
     "    }" ::
     "    reload" ::
     "}" ::
     "hostname.bind:5353 {" ::
     "    chaos" ::
     "}" :: nil)).
Proof. vm_compute. reflexivity. Qed.

(** CR with upstreamResolvers containing a network upstream without address should return error *)
Example golden_12 : corefile_of (golden_dns
     [(mkServer "foo" ["foo.com"] (mkForwardPlugin ["1.1.1.1"; "2.2.2.2:5353"] "RoundRobin" (mkDNSTransportConfig "" None) ""))]
     (mkUpstreamResolvers [(mkUpstream "Network" "" 0)] "RoundRobin" (mkDNSTransportConfig "" None) "")
     "" (mkDNSCache 0 0))
    false []
  = inl errInvalidNetworkUpstream.
Proof. vm_compute. reflexivity. Qed.

(** CR with duplicates in upstreamResolvers.upstreams should return coreFile without duplicates *)
Example golden_duplicate_upstreams : corefile_of (golden_dns
     [(mkServer "foo" ["foo.com"] (mkForwardPlugin ["1.1.1.1"; "2.2.2.2:5353"] "RoundRobin" (mkDNSTransportConfig "" None) ""))]
     (mkUpstreamResolvers [(mkUpstream "SystemResolvConf" "" 0); (mkUpstream "Network" "1001:AAAA:BBBB:CCCC::2222" 5353); (mkUpstream "Network" "1001:AAAA:BBBB:CCCC::2222" 5353); (mkUpstream "Network" "10.0.0.1" 53); (mkUpstream "Network" "10.0.0.1" 0); (mkUpstream "Network" "1001:AAAA:BBBB:CCCC::2222" 5354); (mkUpstream "SystemResolvConf" "" 53)] "Random" (mkDNSTransportConfig "" None) "")
     "" (mkDNSCache 0 0))
    false []
  = inr (unlines (
     "# foo" ::
     "foo.com:5353 {" ::
     "    prometheus 127.0.0.1:9153" ::
     "    forward . 1.1.1.1 2.2.2.2:5353 {" ::
     "        policy round_robin" ::
     "    }" ::
     "    errors" ::
     "    log . {" ::
     "        class error" ::
     "    }" ::
     "    bufsize 1232" ::
     "    cache 900 {" ::
     "        denial 9984 30" ::
     "    }" ::
     "}" ::
     ".:5353 {" ::
     "    bufsize 1232" ::
     "    errors" ::
     "    log . {" ::
     "        class error" ::
     "    }" ::
     "    health {" ::
     "        lameduck 20s" ::
     "    }" ::
     "    ready" ::
     "    kubernetes cluster.local in-addr.arpa ip6.arpa {" ::
     "        pods insecure" ::
     "        fallthrough in-addr.arpa ip6.arpa" ::
     "    }" ::
     "    prometheus 127.0.0.1:9153" ::
     "    forward . /etc/resolv.conf [1001:AAAA:BBBB:CCCC::2222]:5353 10.0.0.1:53 [1001:AAAA:BBBB:CCCC::2222]:5354 {" ::
     "        policy random" ::
     "    }" ::
     "    cache 900 {" ::
     "        denial 9984 30" ::
     "    }" ::
     "    reload" ::
     "}" ::
     "hostname.bind:5353 {" ::
     "    chaos" ::
     "}" :: nil)).
Proof. vm_compute. reflexivity. Qed.

(** CR with upstreamResolvers.upstreams of type empty should return coreFile without duplicate /etc/resolv.conf *)
Example golden_upstreams_type_empty : corefile_of (golden_dns
     [(mkServer "foo" ["foo.com"] (mkForwardPlugin ["1.1.1.1"; "2.2.2.2:5353"] "RoundRobin" (mkDNSTransportConfig "" None) ""))]
     (mkUpstreamResolvers [(mkUpstream "SystemResolvConf" "" 53); (mkUpstream "Network" "100.1.1.1" 5500); (mkUpstream "Network" "100.1.1.1" 5500); (mkUpstream "" "" 53); (mkUpstream "Network" "1000::100" 53); (mkUpstream "Network" "1000::100" 53)] "Random" (mkDNSTransportConfig "" None) "")
     "" (mkDNSCache 0 0))
    false []
  = inr (unlines (
     "# foo" ::
     "foo.com:5353 {" ::
     "    prometheus 127.0.0.1:9153" ::
     "    forward . 1.1.1.1 2.2.2.2:5353 {" ::
     "        policy round_robin" ::
     "    }" ::
     "    errors" ::
     "    log . {" ::
     "        class error" ::
     "    }" ::
     "    bufsize 1232" ::
     "    cache 900 {" ::
     "        denial 9984 30" ::
     "    }" ::
     "}" ::
     ".:5353 {" ::
     "    bufsize 1232" ::
     "    errors" ::
     "    log . {" ::
     "        class error" ::
     "    }" ::
     "    health {" ::
     "        lameduck 20s" ::
     "    }" ::
     "    ready" ::
     "    kubernetes cluster.local in-addr.arpa ip6.arpa {" ::
     "        pods insecure" ::
     "        fallthrough in-addr.arpa ip6.arpa" ::
     "    }" ::
     "    prometheus 127.0.0.1:9153" ::
     "    forward . /etc/resolv.conf 100.1.1.1:5500 [1000::100]:53 {" ::
     "        policy random" ::
     "    }" ::
     "    cache 900 {" ::
     "        denial 9984 30" ::
     "    }" ::
     "    reload" ::
     "}" ::
     "hostname.bind:5353 {" ::
     "    chaos" ::
     "}" :: nil)).
Proof. vm_compute. reflexivity. Qed.

(** CR with upstreamResolvers containing 1 SystemResolvConf NS and policy should return a coreFile with 1 upstream defined and that policy *)
Example golden_1sysresconf : corefile_of (golden_dns
     [(mkServer "foo" ["foo.com"] (mkForwardPlugin ["1.1.1.1"; "2.2.2.2:5353"] "RoundRobin" (mkDNSTransportConfig "" None) ""))]
     (mkUpstreamResolvers [(mkUpstream "SystemResolvConf" "" 0)] "Random" (mkDNSTransportConfig "" None) "")
     "" (mkDNSCache 0 0))
    false []
  = inr (unlines (
     "# foo" ::
     "foo.com:5353 {" ::
     "    prometheus 127.0.0.1:9153" ::
     "    forward . 1.1.1.1 2.2.2.2:5353 {" ::
     "        policy round_robin" ::
     "    }" ::
     "    errors" ::
     "    log . {" ::
     "        class error" ::
     "    }" ::
     "    bufsize 1232" ::
     "    cache 900 {" ::
     "        denial 9984 30" ::
     "    }" ::
     "}" ::
     ".:5353 {" ::
     "    bufsize 1232" ::
     "    errors" ::
     "    log . {" ::
     "        class error" ::
     "    }" ::
     "    health {" ::
     "        lameduck 20s" ::
     "    }" ::
     "    ready" ::
     "    kubernetes cluster.local in-addr.arpa ip6.arpa {" ::
     "        pods insecure" ::
     "        fallthrough in-addr.arpa ip6.arpa" ::
     "    }" ::
     "    prometheus 127.0.0.1:9153" ::
     "    forward . /etc/resolv.conf {" ::
     "        policy random" ::
     "    }" ::
     "    cache 900 {" ::
     "        denial 9984 30" ::
     "    }" ::
     "    reload" ::
     "}" ::
     "hostname.bind:5353 {" ::
     "    chaos" ::
     "}" :: nil)).
Proof. vm_compute. reflexivity. Qed.

(** CR of TLS-enabled upstreamResolvers including system resolve config should fail *)
Example golden_23 : corefile_of (golden_dns
     []
     (mkUpstreamResolvers [(mkUpstream "SystemResolvConf" "" 0); (mkUpstream "Network" "9.8.7.6" 0); (mkUpstream "Network" "1001:AAAA:bbbb:cCcC::2222" 53); (mkUpstream "Network" "2.3.4.5" 5353); (mkUpstream "Network" "127.0.0.53" 0)] "RoundRobin" (mkDNSTransportConfig "TLS" (Some (mkDNSOverTLSConfig "example.com" ""))) "")
     "" (mkDNSCache 0 0))
    false []
  = inl errTransportTLSConfiguredForSysResConf.
Proof. vm_compute. reflexivity. Qed.

(** CR of TLS-enabled forwardPlugin including a non-ip should fail *)
Example golden_24 : corefile_of (golden_dns
     [(mkServer "foo" ["foo.com"] (mkForwardPlugin ["non-ip"; "2.2.2.2:5353"] "RoundRobin" (mkDNSTransportConfig "TLS" (Some (mkDNSOverTLSConfig "example.com" ""))) ""))]
     (mkUpstreamResolvers [] "" (mkDNSTransportConfig "" None) "")
     "" (mkDNSCache 0 0))
    false []
  = inl errTransportTLSConfiguredForNonIP.
Proof. vm_compute. reflexivity. Qed.

(** CR of TLS-enabled forwardPlugin including a non-ip with port should fail *)
Example golden_25 : corefile_of (golden_dns
     [(mkServer "foo" ["foo.com"] (mkForwardPlugin ["non-ip:5353"; "2.2.2.2:5353"] "RoundRobin" (mkDNSTransportConfig "TLS" (Some (mkDNSOverTLSConfig "example.com" ""))) ""))]
     (mkUpstreamResolvers [] "" (mkDNSTransportConfig "" None) "")
     "" (mkDNSCache 0 0))
    false []
  = inl errTransportTLSConfiguredForNonIP.
Proof. vm_compute. reflexivity. Qed.

(** CR of TLS-enabled forwardPlugin having no serverName should fail *)
Example golden_26 : corefile_of (golden_dns
     [(mkServer "foo" ["foo.com"] (mkForwardPlugin ["1.1.1.1"; "2.2.2.2:5353"] "RoundRobin" (mkDNSTransportConfig "TLS" None) ""))]
     (mkUpstreamResolvers [] "" (mkDNSTransportConfig "" None) "")
     "" (mkDNSCache 0 0))
    false []
  = inl errTransportTLSConfiguredWithoutServerName.
Proof. vm_compute. reflexivity. Qed.

(** CR with upstreamResolvers using TLS defining a CA bundle should return a coreFile containing upstreams with TLS and CA bundle *)
Example golden_upstreamresolvers_with_cabundle : corefile_of (golden_dns
     []
     (mkUpstreamResolvers [(mkUpstream "Network" "9.8.7.6" 0); (mkUpstream "Network" "1001:AAAA:bbbb:cCcC::2222" 53)] "RoundRobin" (mkDNSTransportConfig "TLS" (Some (mkDNSOverTLSConfig "example.com" "ca-bundle-config"))) "")
     "" (mkDNSCache 0 0))
    false []
  = inr (unlines (
     ".:5353 {" ::
     "    bufsize 1232" ::
     "    errors" ::
     "    log . {" ::
     "        class error" ::
     "    }" ::
     "    health {" ::
     "        lameduck 20s" ::
     "    }" ::
     "    ready" ::
     "    kubernetes cluster.local in-addr.arpa ip6.arpa {" ::
     "        pods insecure" ::
     "        fallthrough in-addr.arpa ip6.arpa" ::
     "    }" ::
     "    prometheus 127.0.0.1:9153" ::
     "    forward . tls://9.8.7.6 tls://[1001:AAAA:BBBB:CCCC::2222]:53 {" ::
     "        tls_servername example.com" ::
     "        tls /etc/pki/example.com-ca-ca-bundle-config-1/ca-bundle.crt" ::
     "        policy round_robin" ::
     "    }" ::
     "    cache 900 {" ::
     "        denial 9984 30" ::
     "    }" ::
     "    reload" ::
     "}" ::
     "hostname.bind:5353 {" ::
     "    chaos" ::
     "}" :: nil)).
Proof. vm_compute. reflexivity. Qed.

(** CR with upstreamResolvers using TLS defining a non-existing CA bundle should return a coreFile containing upstreams with TLS and no CA bundle *)
Example golden_tls_with_non_existing_cabundle : corefile_of (golden_dns
     []
     (mkUpstreamResolvers [(mkUpstream "Network" "9.8.7.6" 0); (mkUpstream "Network" "1001:AAAA:bbbb:cCcC::2222" 53)] "RoundRobin" (mkDNSTransportConfig "TLS" (Some (mkDNSOverTLSConfig "example.com" "ca-bundle-config-2"))) "")
     "" (mkDNSCache 0 0))
    false []
  = inr (unlines (
     ".:5353 {" ::
     "    bufsize 1232" ::
     "    errors" ::
     "    log . {" ::
     "        class error" ::
     "    }" ::
     "    health {" ::
     "        lameduck 20s" ::
     "    }" ::
     "    ready" ::
     "    kubernetes cluster.local in-addr.arpa ip6.arpa {" ::
     "        pods insecure" ::
     "        fallthrough in-addr.arpa ip6.arpa" ::
     "    }" ::
     "    prometheus 127.0.0.1:9153" ::
     "    forward . tls://9.8.7.6 tls://[1001:AAAA:BBBB:CCCC::2222]:53 {" ::
     "        tls_servername example.com" ::
     "        tls" ::
     "        policy round_robin" ::
     "    }" ::
     "    cache 900 {" ::
     "        denial 9984 30" ::
     "    }" ::
     "    reload" ::
     "}" ::
     "hostname.bind:5353 {" ::
     "    chaos" ::
     "}" :: nil)).
Proof. vm_compute. reflexivity. Qed.

(** CR with upstreamResolver with protocolStrategy of TCP *)
Example golden_upstreamresolver_protocolstrategy_tcp : corefile_of (golden_dns
     []
     (mkUpstreamResolvers [(mkUpstream "SystemResolvConf" "" 0)] "" (mkDNSTransportConfig "" None) "TCP")
     "" (mkDNSCache 0 0))
    false []
  = inr (unlines (
     ".:5353 {" ::
     "    bufsize 1232" ::
     "    errors" ::
     "    log . {" ::
     "        class error" ::
     "    }" ::
     "    health {" ::
     "        lameduck 20s" ::
     "    }" ::
     "    ready" ::
     "    kubernetes cluster.local in-addr.arpa ip6.arpa {" ::
     "        pods insecure" ::
     "        fallthrough in-addr.arpa ip6.arpa" ::
     "    }" ::
     "    prometheus 127.0.0.1:9153" ::
     "    forward . /etc/resolv.conf {" ::
     "        policy sequential" ::
     "        force_tcp" ::
     "    }" ::
     "    cache 900 {" ::
     "        denial 9984 30" ::
     "    }" ::
     "    reload" ::
     "}" ::
     "hostname.bind:5353 {" ::
     "    chaos" ::
     "}" :: nil)).
Proof. vm_compute. reflexivity. Qed.

(** Check if Corefile is rendered correctly with ocp_dnsnameresolver plugin with multiple namespaces *)
Example golden_default_corefile_ocp_dnsnameresolver_with_multiple_namespaces : corefile_of (golden_dns
     []
     (mkUpstreamResolvers [] "" (mkDNSTransportConfig "" None) "")
     "" (mkDNSCache 0 0))
    true ["foo"; "bar"; "foobar"]
  = inr (unlines (
     ".:5353 {" ::
     "    bufsize 1232" ::
     "    errors" ::
     "    log . {" ::
     "        class error" ::
     "    }" ::
     "    health {" ::
     "        lameduck 20s" ::
     "    }" ::
     "    ready" ::
     "    kubernetes cluster.local in-addr.arpa ip6.arpa {" ::
     "        pods insecure" ::
     "        fallthrough in-addr.arpa ip6.arpa" ::
     "    }" ::
     "    prometheus 127.0.0.1:9153" ::
     "    forward . /etc/resolv.conf {" ::
     "        policy sequential" ::
     "    }" ::
     "    cache 900 {" ::
     "        denial 9984 30" ::
     "    }" ::
     "    reload" ::
     "    ocp_dnsnameresolver {" ::
     "        namespaces foo bar foobar " ::
     "    }" ::
     "}" ::
     "hostname.bind:5353 {" ::
     "    chaos" ::
     "}" :: nil)).
Proof. vm_compute. reflexivity. Qed.
