(* ===== verification/CorefileProps.v ===== *)
(** * Properties of the Corefile's inputs and handlers

    What sanitizing accepts and produces, which upstreams are kept, the range of
    the cache TTLs, and what the configmap handlers do. *)

From S2P Require Import Prelude GoLib Types Labels Numbers Net Client Mem Names Manifests Samples.
From S2P Require Import Corefile CorefileGolden.

(** ** Sanitizing *)

(** A transport the Corefile can be rendered for: never empty, and without a
    server name when it is cleartext. *)
Definition clean_transport (tc : DNSTransportConfig) : Prop :=
  tc_Transport tc ≠ "" ∧ (tc_Transport tc = CleartextTransport → no_server_name (tc_TLS tc) = true).

Lemma sanitize_transport_clean tc : clean_transport (sanitize_transport tc).
Proof.
  unfold clean_transport, sanitize_transport. simpl.
  split; [by case_bool_decide|].
  set (transport := if bool_decide (tc_Transport tc = "") then _ else _). intros Ht.
  rewrite (bool_decide_true (transport = _)) by done. simpl.
  destruct (no_server_name (tc_TLS tc)) eqn:E; simpl; [done|]. by destruct (tc_TLS tc).
Qed.

Lemma sanitize_transport_id tc : clean_transport tc → sanitize_transport tc = tc.
Proof.
  intros [Hne Hct]. unfold sanitize_transport. rewrite (bool_decide_false (tc_Transport tc = "")) by done.
  destruct tc as [tr tls]; simpl in *. f_equal. case_bool_decide; [|done]. by rewrite Hct.
Qed.

(** Sanitizing keeps the transport, but for the empty one. *)
Lemma sanitize_transport_TLS tc :
  tc_Transport (sanitize_transport tc) = TLSTransport ↔ tc_Transport tc = TLSTransport.
Proof. unfold sanitize_transport. simpl. case_bool_decide as E; [rewrite E|]; done. Qed.

Lemma sanitize_transport_tls_TLS tc :
  tc_Transport tc = TLSTransport → tc_TLS (sanitize_transport tc) = tc_TLS tc.
Proof. intros Ht. unfold sanitize_transport. by rewrite Ht. Qed.

(** The demands of a TLS server and of TLS upstream resolvers. *)
Definition server_ok (s : Server) : Prop :=
  let tc := fp_TransportConfig (srv_ForwardPlugin s) in
  tc_Transport tc = TLSTransport →
  no_server_name (tc_TLS tc) = false ∧
  ∀ u, u ∈ fp_Upstreams (srv_ForwardPlugin s) → upstream_is_ip u = true.

Definition resolvers_ok (ur : UpstreamResolvers) : Prop :=
  let tc := ur_TransportConfig ur in
  tc_Transport tc = TLSTransport →
  no_server_name (tc_TLS tc) = false ∧ ur_Upstreams ur ≠ [] ∧
  ∀ u, u ∈ ur_Upstreams ur → up_Type u ≠ SystemResolveConfType.

(** The sanitized server. *)
Definition clean_server (s : Server) : Server :=
  let fp := srv_ForwardPlugin s in
  mkServer (srv_Name s) (srv_Zones s)
    (mkForwardPlugin (fp_Upstreams fp) (fp_Policy fp) (sanitize_transport (fp_TransportConfig fp))
       (fp_ProtocolStrategy fp)).

Lemma sanitize_server_spec s s' : sanitize_server s = inr s' ↔ server_ok s ∧ s' = clean_server s.
Proof.
  unfold sanitize_server, server_ok, clean_server. case_bool_decide as Ht; [|naive_solver].
  destruct (no_server_name _); [naive_solver|].
  destruct (forallb upstream_is_ip _) eqn:Ef; simpl.
  - rewrite forallb_elem in Ef. naive_solver.
  - split; [done|]. intros [Hok _]. destruct (Hok Ht) as [_ Hip].
    apply forallb_elem in Hip. congruence.
Qed.

Lemma sanitize_servers_spec ss ss' :
  sanitize_servers ss = inr ss' ↔ Forall server_ok ss ∧ ss' = clean_server <$> ss.
Proof.
  revert ss'. induction ss as [|s ss IH]; intros ss'; simpl.
  { split; [intros [= <-]; auto|]. by intros [_ ->]. }
  rewrite Forall_cons.
  destruct (sanitize_server s) as [e|s1] eqn:Es.
  { split; [done|]. intros [[Hs _] _].
    assert (sanitize_server s = inr (clean_server s)) by (by apply sanitize_server_spec). congruence. }
  apply sanitize_server_spec in Es as [Hs ->].
  destruct (sanitize_servers ss) as [e|ss1].
  - split; [done|]. intros [[_ Hss] _]. by destruct (IH (clean_server <$> ss)) as [_ ?]; naive_solver.
  - destruct (IH ss1) as [IH1 _]. destruct (IH1 eq_refl) as [? ->]. naive_solver.
Qed.

(** The sanitized DNS. *)
Definition clean_dns (dns : DNS) : DNS :=
  let spec := dns_Spec dns in
  let ur := spec_UpstreamResolvers spec in
  dns_set_spec dns
    (mkDNSSpec (clean_server <$> spec_Servers spec)
       (mkUpstreamResolvers (ur_Upstreams ur) (ur_Policy ur)
          (sanitize_transport (ur_TransportConfig ur)) (ur_ProtocolStrategy ur))
       (spec_NodePlacement spec) (spec_ManagementState spec) (spec_OperatorLogLevel spec)
       (spec_LogLevel spec) (spec_Cache spec)).

Lemma sanitizeTLSSettings_iff dns dns' :
  sanitizeTLSSettings dns = inr dns' ↔
  Forall server_ok (spec_Servers (dns_Spec dns)) ∧
  resolvers_ok (spec_UpstreamResolvers (dns_Spec dns)) ∧ dns' = clean_dns dns.
Proof.
  unfold sanitizeTLSSettings.
  destruct (sanitize_servers (spec_Servers (dns_Spec dns))) as [e|ss] eqn:Es.
  { split; [done|]. intros (Hs & _ & _).
    assert (sanitize_servers (spec_Servers (dns_Spec dns)) = inr (clean_server <$> spec_Servers (dns_Spec dns)))
      by (by apply sanitize_servers_spec). congruence. }
  apply sanitize_servers_spec in Es as [Hs ->].
  unfold resolvers_ok, clean_dns. case_bool_decide as Ht; [|naive_solver].
  destruct (no_server_name _); [naive_solver|].
  destruct (ur_Upstreams _) as [|u us] eqn:Eu; [naive_solver|]. cbn [length Nat.ltb Nat.leb].
  destruct (existsb _ (u :: us)) eqn:Ex.
  - split; [done|]. intros (_ & Hok & _). destruct (Hok Ht) as (_ & _ & Hty).
    apply existsb_elem in Ex as (x & Hx & Hxt). to_prop. by destruct (Hty x Hx).
  - split; [|naive_solver]. intros [= <-]. split; [done|]. split; [|done]. intros _.
    split; [done|]. split; [done|]. intros x Hx Hxt.
    rewrite existsb_elem_false in Ex. specialize (Ex x Hx). by to_prop.
Qed.

Lemma clean_server_ok s : server_ok s → server_ok (clean_server s).
Proof.
  unfold server_ok, clean_server. cbn [srv_ForwardPlugin fp_TransportConfig fp_Upstreams].
  rewrite sanitize_transport_TLS. intros Hok Ht. rewrite sanitize_transport_tls_TLS by done.
  by apply Hok.
Qed.

Lemma clean_resolvers_ok ur :
  resolvers_ok ur →
  resolvers_ok (mkUpstreamResolvers (ur_Upstreams ur) (ur_Policy ur)
    (sanitize_transport (ur_TransportConfig ur)) (ur_ProtocolStrategy ur)).
Proof.
  unfold resolvers_ok. cbn [ur_TransportConfig ur_Upstreams].
  rewrite sanitize_transport_TLS. intros Hok Ht. rewrite sanitize_transport_tls_TLS by done.
  by apply Hok.
Qed.

Lemma clean_server_idem s : clean_server (clean_server s) = clean_server s.
Proof.
  unfold clean_server. cbn [srv_ForwardPlugin fp_TransportConfig fp_Upstreams fp_Policy
    fp_ProtocolStrategy srv_Name srv_Zones].
  by rewrite (sanitize_transport_id (sanitize_transport _)) by apply sanitize_transport_clean.
Qed.


(** ** Upstreams *)

Section upstreams.
Context `{UnicodeTables} `{FloatConversion}.

(** A Network upstream without an address. *)
Definition nameless (u : Upstream) : Prop := up_Type u = NetworkResolverType ∧ up_Address u = "".

(** No kept upstream repeats an earlier one. *)
Definition no_repeats (l : list Upstream) : Prop :=
  ∀ i j a b, (i < j)%nat → l !! i = Some a → l !! j = Some b → upstream_eqb b a = false.

Lemma no_repeats_snoc l u : no_repeats l → contains l u = false → no_repeats (l ++ [u]).
Proof.
  intros Hl Hu i j a b Hij Hi Hj. unfold contains in Hu. rewrite existsb_elem_false in Hu.
  assert (j < length (l ++ [u]))%nat as Hlen by (by apply lookup_lt_Some in Hj).
  rewrite length_app in Hlen. simpl in Hlen.
  rewrite lookup_app_l in Hi by lia.
  destruct (decide (j < length l)%nat).
  - rewrite lookup_app_l in Hj by done. exact (Hl i j a b Hij Hi Hj).
  - assert (j = length l) as -> by lia. rewrite list_lookup_middle in Hj by done.
    simplify_eq. apply Hu. by eapply list_elem_of_lookup_2.
Qed.

Lemma select_upstreams_loop us acc :
  no_repeats acc →
  match select_upstreams us acc with
  | inl e => e = errInvalidNetworkUpstream ∧ ∃ u, u ∈ us ∧ nameless u
  | inr l => (∃ kept, l = acc ++ kept ∧ kept `sublist_of` us) ∧ no_repeats l ∧
             ∀ u, u ∈ us → ¬ nameless u ∧ (u ∈ l ∨ contains l u = true)
  end.
Proof.
  revert acc. induction us as [|u us IH]; intros acc Hacc; simpl.
  { split; [exists []; by rewrite app_nil_r|]. set_solver. }
  destruct (bool_decide (up_Type u = NetworkResolverType) && bool_decide (up_Address u = "")) eqn:E.
  { to_prop. split; [done|]. exists u. split; [set_solver|done]. }
  assert (¬ nameless u) as Hnu.
  { intros [H1 H2]. rewrite H1, H2 in E. by rewrite !bool_decide_true in E. }
  destruct (contains acc u) eqn:Ec; simpl.
  - specialize (IH acc Hacc). destruct (select_upstreams us acc) as [e|l]; [naive_solver set_solver|].
    destruct IH as ((kept & -> & Hsub) & Hnr & Hall). split; [exists kept; split; [done|by constructor]|].
    split; [done|]. intros x [->|Hx]%elem_of_cons; [|by apply Hall]. split; [done|]. right.
    unfold contains in *. rewrite existsb_app, Ec. done.
  - specialize (IH (acc ++ [u]) (no_repeats_snoc _ _ Hacc Ec)).
    destruct (select_upstreams us (acc ++ [u])) as [e|l]; [naive_solver set_solver|].
    destruct IH as ((kept & -> & Hsub) & Hnr & Hall).
    split; [exists (u :: kept); split; [by rewrite <- app_assoc|by constructor]|].
    split; [done|]. intros x [->|Hx]%elem_of_cons; [|by apply Hall]. split; [done|]. left. set_solver.
Qed.

Lemma select_upstreams_nil us :
  match select_upstreams us [] with
  | inl e => e = errInvalidNetworkUpstream ∧ ∃ u, u ∈ us ∧ nameless u
  | inr l => l `sublist_of` us ∧ no_repeats l ∧
             ∀ u, u ∈ us → ¬ nameless u ∧ (u ∈ l ∨ contains l u = true)
  end.
Proof.
  pose proof (select_upstreams_loop us []) as Hs. destruct (select_upstreams us []).
  - apply Hs. intros i j a b _ Hi. by rewrite lookup_nil in Hi.
  - destruct Hs as ((kept & -> & ?) & ? & ?); [|done].
    intros i j a b _ Hi. by rewrite lookup_nil in Hi.
Qed.

(** The upstreams of the default server: the configured ones in order, each
    one dropped that repeats (by type, case-folded address and port, 53 by default) one
    kept before it, and none missing; the only error is a Network upstream without an
    address, which is always reported. *)
Lemma select_upstreams_spec us :
  match select_upstreams us [] with
  | inl e => e = errInvalidNetworkUpstream ∧ ∃ u, u ∈ us ∧ nameless u
  | inr l => l `sublist_of` us ∧ no_repeats l ∧
             ∀ u, u ∈ us → ¬ nameless u ∧ (u ∈ l ∨ contains l u = true)
  end.
Proof. apply select_upstreams_nil. Qed.

(** Without a nameless upstream the template cannot fail. *)
Lemma resolve_upstreams_total us :
  (∀ u, u ∈ us → ¬ nameless u) → ∃ l, resolve_upstreams us = inr l ∧ length l = length us.
Proof.
  induction us as [|u us IH]; intros Hus; simpl; [eauto|].
  destruct IH as (l & -> & Hlen); [set_solver|].
  assert (∃ s, coreDNSResolver u = inr s) as [s ->].
  { unfold coreDNSResolver. case_bool_decide as Ht; [|eauto]. case_bool_decide as Ha.
    - destruct (Hus u); [set_solver|done].
    - case_match; eauto. }
  exists (s :: l). simpl. auto.
Qed.

Lemma sublist_elem {A} (l k : list A) x : l `sublist_of` k → x ∈ l → x ∈ k.
Proof. intros Hs. induction Hs; set_solver. Qed.

(** The effective upstreams resolve. *)
Lemma effective_upstreamResolvers_total dns ur :
  effective_upstreamResolvers dns = inr ur → ∃ l, resolve_upstreams (ur_Upstreams ur) = inr l.
Proof.
  unfold effective_upstreamResolvers. case_match.
  - pose proof (select_upstreams_nil (ur_Upstreams (spec_UpstreamResolvers (dns_Spec dns)))) as Hs.
    destruct (select_upstreams _ _) as [e|l]; [done|]. intros [= <-]. simpl.
    destruct Hs as (Hsub & _ & Hn). destruct (resolve_upstreams_total l) as (x & ? & _); [|eauto].
    intros u Hu. apply Hn. by eapply sublist_elem.
  - intros [= <-]. simpl. eauto.
Qed.


(** ** Cache TTLs *)

Lemma ttl_seconds_range d : (0 <= ttl_seconds d < 2 ^ 32)%Z.
Proof.
  unfold ttl_seconds. case_match eqn:E.
  - to_prop. destruct E as [E1 E2]. apply Z.leb_le in E1. apply Z.ltb_lt in E2. done.
  - apply (wrap_u_range 32). lia.
Qed.

(** Rounding a non-negative duration to seconds, half up. *)
Lemma Duration_Round_Second d :
  (0 <= d)%Z → (d + Second <= MaxInt64)%Z →
  Duration_Round d Second = ((d + 500000000) / Second * Second)%Z.
Proof.
  unfold Duration_Round, lessThanHalf, MaxInt64, Second, wrap_u. intros H1 H2.
  rewrite Z.rem_mod_nonneg by lia.
  pose proof (Z.mod_pos_bound d 1000000000 ltac:(lia)) as Hb.
  pose proof (Z.div_mod d 1000000000 ltac:(lia)) as Hd.
  set (rr := (d mod 1000000000)%Z) in *. set (q := (d / 1000000000)%Z) in *.
  assert (1000000000 <=? 0 = false)%Z as -> by done.
  assert (d <? 0 = false)%Z as -> by (apply Z.ltb_ge; lia).
  rewrite (Z.mod_small rr) by lia. rewrite (Z.mod_small (rr + rr)) by lia.
  rewrite (Z.mod_small 1000000000) by lia.
  destruct (Z.ltb_spec (rr + rr) 1000000000).
  - assert ((d + 500000000) / 1000000000 = q)%Z as -> by (symmetry; apply Z.div_unique with (rr + 500000000)%Z; lia).
    lia.
  - assert ((d + 500000000) / 1000000000 = q + 1)%Z as ->
      by (symmetry; apply Z.div_unique with (rr - 500000000)%Z; lia).
    rewrite wrap_s_id; [|lia|unfold in_s; simpl; lia].
    destruct (Z.gtb_spec (d + 1000000000 - rr) d); lia.
Qed.

(** C33: the TTLs of the Corefile are always positive uint32s, so CoreDNS accepts
    them; a TTL between 0 and 2^32 - 2 seconds is rounded to the nearest second, half a
    second up, and one that rounds to zero gives the default, 900 and 30 seconds. *)
Theorem coreDNSCache_spec dns :
  let ttl d dflt := let s := ((d + 500000000) / Second)%Z in if decide (s = 0%Z) then dflt else s in
  let p := cache_PositiveTTL (spec_Cache (dns_Spec dns)) in
  let n := cache_NegativeTTL (spec_Cache (dns_Spec dns)) in
  (0 < (coreDNSCache dns).1 < 2 ^ 32 ∧ 0 < (coreDNSCache dns).2 < 2 ^ 32)%Z ∧
  ((0 <= p <= (2 ^ 32 - 2) * Second)%Z → (coreDNSCache dns).1 = ttl p 900%Z) ∧
  ((0 <= n <= (2 ^ 32 - 2) * Second)%Z → (coreDNSCache dns).2 = ttl n 30%Z).
Proof.
  cbv zeta. unfold coreDNSCache, cacheDefaultMaxPositiveTTLSeconds, cacheDefaultMaxNegativeTTLSeconds.
  set (p := cache_PositiveTTL _). set (n := cache_NegativeTTL _). cbn [fst snd].
  pose proof (ttl_seconds_range p). pose proof (ttl_seconds_range n).
  assert (∀ d dflt, (0 <= d <= (2 ^ 32 - 2) * Second)%Z →
    (if (ttl_seconds d <=? 0)%Z then dflt else ttl_seconds d)
    = if decide ((d + 500000000) / Second = 0)%Z then dflt else ((d + 500000000) / Second)%Z) as Hd.
  { intros d dflt Hr. unfold ttl_seconds, Second in *.
    rewrite Duration_Round_Second by (unfold MaxInt64, Second; lia).
    unfold Second. rewrite Z.quot_mul by lia.
    pose proof (Z.div_pos (d + 500000000) 1000000000 ltac:(lia) ltac:(lia)) as Hpos.
    pose proof (Z.div_lt_upper_bound (d + 500000000) 1000000000 (2 ^ 32) ltac:(lia) ltac:(lia)) as Hlt.
    set (s := ((d + 500000000) / 1000000000)%Z) in *.
    assert ((0 <=? s) && (s <? 2 ^ 32) = true)%Z as -> by (to_prop; lia).
    destruct (Z.leb_spec s 0); case_decide; lia. }
  split; [|split; intros; by apply Hd].
  destruct (Z.leb_spec (ttl_seconds p) 0), (Z.leb_spec (ttl_seconds n) 0); lia.
Qed.

End upstreams.

(** ** The configmap handlers *)

Section configmap.
Context `{UnicodeTables} `{FloatConversion} {W : Type} `{ClientLaws W} (r : reconciler).

Lemma returns_currentDNSConfigMap dns :
  returns (λ res : CMResult, ∀ cm, res.1 = Some cm → key_of KConfigMap cm = DNSConfigMapName dns)
    (currentDNSConfigMap (W := W) dns).
Proof.
  unfold currentDNSConfigMap. eapply returns_bind; [apply returns_Get|].
  intros [err|cm] Hk; [case_match|]; apply returns_ret; naive_solver.
Qed.

Lemma desiredDNSConfigMap_key dns cd m b ns cm :
  desiredDNSConfigMap dns cd m b ns = inr cm → key_of KConfigMap cm = DNSConfigMapName dns.
Proof.
  unfold desiredDNSConfigMap. destruct (sanitizeTLSSettings dns) as [|dns'] eqn:Es; [done|].
  apply sanitizeTLSSettings_iff in Es as (_ & _ & ->).
  destruct (effective_upstreamResolvers _); [done|]. destruct (coreDNSCache _).
  destruct (corefileTemplate _); [done|]. by intros [= <-].
Qed.

Lemma touches_ensureDNSConfigMap S dns cd m :
  (KConfigMap, DNSConfigMapName dns) ∈ S →
  touches S (ensureDNSConfigMap (W := W) r dns cd m).
Proof.
  intros Hin. unfold ensureDNSConfigMap.
  eapply touches_bind_returns; [unfold currentDNSConfigMap; footprint|apply returns_currentDNSConfigMap|].
  intros [cur [err|]] Hk; [footprint|]. simpl in Hk.
  destruct (desiredDNSConfigMap _ _ _ _ _) as [err|desired] eqn:Hd; [footprint|].
  apply desiredDNSConfigMap_key in Hd. destruct cur as [cur|].
  - apply touches_bind; [|unfold currentDNSConfigMap; footprint].
    unfold updateDNSConfigMap, corefileChanged. case_bool_decide; [footprint|].
    apply touches_bind; [apply touches_Update|footprint].
    specialize (Hk cur eq_refl). unfold key_of in *. simpl in *. by rewrite Hk.
  - apply touches_bind; [apply touches_Create; by rewrite Hd|].
    unfold currentDNSConfigMap. footprint.
Qed.

(** What a current... handler says of the store. *)
Lemma currentDNSConfigMap_found dns w cm w' :
  currentDNSConfigMap dns w = (Some (Some cm, None), w') →
  view w' KConfigMap (DNSConfigMapName dns) = Some cm ∧
  view w KConfigMap (DNSConfigMapName dns) = Some cm.
Proof.
  unfold currentDNSConfigMap, mbind, M_bind, call.
  pose proof (get_found KConfigMap (DNSConfigMapName dns) w) as Hf.
  pose proof (get_frame KConfigMap (DNSConfigMapName dns) w KConfigMap (DNSConfigMapName dns)) as Hr.
  destruct (client_Get KConfigMap (DNSConfigMapName dns) w) as [[err|o] w1]; simpl in *.
  - destruct (IsNotFound err); intros; simplify_eq.
  - intros [= <- <-]. rewrite Hr. auto.
Qed.

(** When ensureDNSConfigMap returns a configmap without an error, that
    configmap is the one stored at the end, and its data is the rendered Corefile the
    DNS asks for, whether it was created, updated or already right. *)
Lemma ensureDNSConfigMap_correct dns cd m w cm w' :
  ensureDNSConfigMap r dns cd m w = (Some (Some cm, None), w') →
  ∃ desired,
    desiredDNSConfigMap dns cd m (r_dnsNameResolverEnabled r) (r_dnsNameResolverNamespaces r) = inr desired ∧
    view w' KConfigMap (DNSConfigMapName dns) = Some cm ∧
    default ∅ (cm_Data cm) = default ∅ (cm_Data desired).
Proof.
  unfold ensureDNSConfigMap, mbind at 1, M_bind at 1.
  destruct (currentDNSConfigMap dns w) as [[[cur [err|]]|] w1] eqn:Ecur; [done| |done].
  pose proof (returns_currentDNSConfigMap dns w _ _ Ecur) as Hk. simpl in Hk.
  destruct (desiredDNSConfigMap _ _ _ _ _) as [err|desired] eqn:Hd; [done|].
  intros Hrun. exists desired. split; [done|]. apply desiredDNSConfigMap_key in Hd.
  destruct cur as [cur|].
  - specialize (Hk cur eq_refl).
    revert Hrun. unfold updateDNSConfigMap, corefileChanged. case_bool_decide as Heq.
    + intros [= <- <-]. split; [|done]. by apply currentDNSConfigMap_found in Ecur as [? _].
    + set (u := mkConfigMap _ _).
      assert (key_of KConfigMap u = DNSConfigMapName dns) as Hu by (unfold key_of in *; simpl in *; done).
      assert (released KConfigMap u = false) as Hr.
      { apply currentDNSConfigMap_found in Ecur as [Hc _]. rewrite <- (view_live _ _ _ _ Hc).
        by apply released_kept. }
      destruct (update_law KConfigMap u w1 Hr) as (_ & _ & Hok). rewrite Hu in Hok.
      unfold mbind, M_bind, call.
      destruct (client_Update KConfigMap u w1) as [[err|o] w2]; [done|]. simpl in *.
      intros Hrun. apply currentDNSConfigMap_found in Hrun as [Hv Hv2].
      destruct (Hok o eq_refl) as [[_ Hdata] Ho]. split; [done|].
      assert (cm = o) as -> by congruence. by rewrite Hdata.
  - destruct (create_law KConfigMap desired w1) as (_ & _ & Hok). rewrite Hd in Hok.
    revert Hrun. unfold mbind, M_bind, call.
    destruct (client_Create KConfigMap desired w1) as [[err|o] w2]; [done|]. simpl in *.
    intros Hrun. apply currentDNSConfigMap_found in Hrun as [Hv Hv2].
    destruct (Hok o eq_refl) as [[_ Hdata] Ho]. split; [done|].
    assert (cm = o) as -> by congruence. by rewrite Hdata.
Qed.

End configmap.
