(* ===== verification/CorefileSyntax.v ===== *)
(** * Reading the Corefile

    The Corefile is read by CoreDNS as a list of server blocks: keys, then one directive
    per line, some with a block of their own.  This file states that syntax (words
    separated by blanks, one directive per line, braces, comments), what server blocks the
    parameters of the template of controller_dns_configmap.go ask for, and that the text
    the template renders reads as exactly these blocks. *)

From S2P Require Import Prelude GoLib Types Util Labels Numbers Net Client Mem Names Manifests Samples.
From S2P Require Import Tls DaemonSet Corefile CorefileGolden CorefileProps.

(** ** The syntax *)

(** A directive with its arguments, and the lines of its block if it has one. *)
Record Directive := mkDirective { d_words : list string; d_block : option (list (list string)) }.

(** A server block. *)
Record Block := mkBlock { b_keys : list string; b_directives : list Directive }.

#[export] Instance Directive_eq : EqDecision Directive.
Proof. solve_decision. Defined.
#[export] Instance Block_eq : EqDecision Block.
Proof. solve_decision. Defined.

Definition char_newline : Ascii.ascii := Ascii.ascii_of_nat 10.
Definition char_hash : Ascii.ascii := Ascii.ascii_of_nat 35.

Definition is_blank (c : Ascii.ascii) : bool :=
  let n := Ascii.nat_of_ascii c in ((n =? 32) || (n =? 9) || (n =? 13))%nat.

(** The word read so far, if there is one. *)
Definition flush (acc : string) : list string := if acc =s "" then [] else [acc].

(** The words of the lines of a text; [acc] is the word being read, and a word that
    starts with a number sign makes the rest of its line a comment. *)
Fixpoint lex (comment : bool) (acc : string) (s : string) : list string * list (list string) :=
  match s with
  | EmptyString => (flush acc, [])
  | String c s =>
      if bool_decide (c = char_newline) then
        let '(ws, ls) := lex false "" s in (flush acc, ws :: ls)
      else if comment then lex true acc s
      else if is_blank c then let '(ws, ls) := lex false "" s in (flush acc ++ ws, ls)
      else if bool_decide (c = char_hash) && (acc =s "") then lex true "" s
      else lex false (acc +:+ String c "") s
  end.

Definition lines (s : string) : list (list string) := let '(ws, ls) := lex false "" s in ws :: ls.

(** What a line is. *)
Inductive Line := Blank | Open (ws : list string) | Close | Plain (ws : list string).

Definition classify (ws : list string) : Line :=
  match rev ws with
  | [] => Blank
  | w :: rest =>
      if (w =s "{") && negb (bool_decide (rest = [])) then Open (rev rest)
      else if (w =s "}") && bool_decide (rest = []) then Close
      else Plain ws
  end.

(** Reading the lines: between blocks, in a server block, in the block of a directive. *)
Inductive State :=
| Between
| InServer (keys : list string) (ds : list Directive)
| InDirective (keys : list string) (ds : list Directive) (words : list string) (block : list (list string)).

Fixpoint read (st : State) (blocks : list Block) (ls : list (list string)) : option (list Block) :=
  match ls with
  | [] => match st with Between => Some blocks | _ => None end
  | l :: ls =>
      match st, classify l with
      | _, Blank => read st blocks ls
      | Between, Open keys => read (InServer keys []) blocks ls
      | Between, _ => None
      | InServer keys ds, Open ws => read (InDirective keys ds ws []) blocks ls
      | InServer keys ds, Close => read Between (blocks ++ [mkBlock keys ds]) ls
      | InServer keys ds, Plain ws => read (InServer keys (ds ++ [mkDirective ws None])) blocks ls
      | InDirective keys ds ws block, Close =>
          read (InServer keys (ds ++ [mkDirective ws (Some block)])) blocks ls
      | InDirective keys ds ws block, Plain l => read (InDirective keys ds ws (block ++ [l])) blocks ls
      | InDirective _ _ _ _, Open _ => None
      end
  end.

Definition read_corefile (text : string) : option (list Block) := read Between [] (lines text).

(** ** The blocks the parameters ask for *)

Definition directive (ws : list string) : Directive := mkDirective ws None.

Section blocks.
Context (p : CorefileParameters).

(** The CA bundle file of an upstream's TLS configuration, if there is one. *)
Definition ca_file (tls : DNSOverTLSConfig) : list string :=
  match p_CABundleRevisionMap p !! tls_CABundle_Name tls with
  | Some cm => if cm =s "" then []
               else ["/etc/pki/" +:+ tls_ServerName tls +:+ "-" +:+ cm +:+ "/" +:+ p_CABundleFileName p]
  | None => []
  end.

Definition tls_lines (tls : option DNSOverTLSConfig) : list (list string) :=
  match tls with
  | Some tls => if tls_ServerName tls =s "" then []
                else [["tls_servername"; tls_ServerName tls]; "tls" :: ca_file tls]
  | None => []
  end.

Definition forward_directive (upstreams : list string) (tc : DNSTransportConfig) (policy protocolStrategy : string)
    : Directive :=
  mkDirective ("forward" :: "." :: map (λ u, (if tc_Transport tc =s "TLS" then "tls://" else "") +:+ u) upstreams)
    (Some (tls_lines (tc_TLS tc) ++ [["policy"; coreDNSPolicy policy]]
           ++ (if protocolStrategy =s "TCP" then [["force_tcp"]] else []))).

Definition log_directive : Directive := mkDirective ["log"; "."] (Some [(lex false "" (p_LogLevel p)).1]).

Definition cache_directive : Directive :=
  mkDirective ["cache"; fmt_d (p_PositiveTTL p)] (Some [["denial"; "9984"; fmt_d (p_NegativeTTL p)]]).

Definition resolver_directives : list Directive :=
  if p_OCPDNSNameResolver p
  then [mkDirective ["ocp_dnsnameresolver"] (Some ["namespaces" :: p_DNSNameResolverNamespaces p])] else [].

Definition server_block (s : Server) : Block :=
  let fp := srv_ForwardPlugin s in
  mkBlock (map (λ z, z +:+ ":5353") (srv_Zones s))
    ([directive ["prometheus"; "127.0.0.1:9153"];
      forward_directive (fp_Upstreams fp) (fp_TransportConfig fp) (fp_Policy fp) (fp_ProtocolStrategy fp);
      directive ["errors"]; log_directive; directive ["bufsize"; "1232"]; cache_directive]
     ++ resolver_directives).

Definition default_block (upstreams : list string) : Block :=
  let ur := p_UpstreamResolvers p in
  mkBlock [".:5353"]
    ([directive ["bufsize"; "1232"]; directive ["errors"]; log_directive;
      mkDirective ["health"] (Some [["lameduck"; p_LameDuckDuration p]]); directive ["ready"];
      mkDirective ["kubernetes"; p_ClusterDomain p; "in-addr.arpa"; "ip6.arpa"]
        (Some [["pods"; "insecure"]; ["fallthrough"; "in-addr.arpa"; "ip6.arpa"]]);
      directive ["prometheus"; "127.0.0.1:9153"];
      forward_directive upstreams (ur_TransportConfig ur) (ur_Policy ur) (ur_ProtocolStrategy ur);
      cache_directive; directive ["reload"]]
     ++ resolver_directives).

Definition corefile_blocks (upstreams : list string) : list Block :=
  map server_block (p_Servers p)
  ++ [default_block upstreams; mkBlock ["hostname.bind:5353"] [directive ["chaos"]]].

End blocks.

(** ** Words *)

(** A character that is part of a word wherever it stands. *)
Definition word_char (c : Ascii.ascii) : bool :=
  let n := Ascii.nat_of_ascii c in
  negb (is_blank c || (n =? 10) || (n =? 34) || (n =? 35) || (n =? 92) || (n =? 123) || (n =? 125))%nat.

(** A word: not empty, and such characters only. *)
Definition is_word (s : string) : bool := negb (s =s "") && string_all word_char s.

Lemma is_word_chars s : is_word s = true → string_all word_char s = true.
Proof. unfold is_word. to_prop. tauto. Qed.

Lemma is_word_nonempty s : is_word s = true → s ≠ "".
Proof. unfold is_word. to_prop. tauto. Qed.

Lemma string_all_app f (a b : string) : string_all f (a +:+ b) = string_all f a && string_all f b.
Proof. induction a as [|c a IH]; simpl; [done|]. by rewrite IH, andb_assoc. Qed.

Lemma word_char_spec c : word_char c = true →
  bool_decide (c = char_newline) = false ∧ is_blank c = false ∧ bool_decide (c = char_hash) = false.
Proof.
  unfold word_char. intros Hc. to_prop. destruct Hc as ((((((Hb & H10) & _) & H35) & _) & _) & _).
  apply Nat.eqb_neq in H10, H35. split; [|split]; [intros ->; done|done|intros ->; done].
Qed.

(** ** Lexing a line *)

(** Reading the piece [x] of a line with the word [acc] begun gives the words [ws] and
    begins the word [acc']. *)
Definition piece (x acc : string) (ws : list string) (acc' : string) : Prop :=
  ∀ t, lex false acc (x +:+ t) = let '(w, l) := lex false acc' t in (ws ++ w, l).

Lemma piece_nil acc : piece "" acc [] acc.
Proof. intros t. rewrite string_app_nil_l. by destruct (lex false acc t). Qed.

Lemma piece_app x y acc ws acc' ws' acc'' :
  piece x acc ws acc' → piece y acc' ws' acc'' → piece (x +:+ y) acc (ws ++ ws') acc''.
Proof.
  intros Hx Hy t. rewrite string_app_assoc, Hx, Hy. destruct (lex false acc'' t). by rewrite app_assoc.
Qed.

Lemma piece_word v acc : string_all word_char v = true → piece v acc [] (acc +:+ v).
Proof.
  revert acc. induction v as [|c v IH]; intros acc Hv t.
  - rewrite string_app_nil_r. apply piece_nil.
  - simpl in Hv. to_prop. destruct Hv as [Hc Hv]. destruct (word_char_spec c Hc) as (Hn & Hb & Hh).
    rewrite string_app_cons. cbn [lex]. rewrite Hn, Hb, Hh. simpl andb. cbv iota.
    rewrite (IH _ Hv t). by rewrite string_app_assoc, string_app_cons, string_app_nil_l.
Qed.

(** A blank ends the word. *)
Lemma piece_blank acc : acc ≠ "" → piece " " acc [acc] "".
Proof.
  intros Ha t. change (" " +:+ t) with (String (Ascii.ascii_of_nat 32) t). simpl. destruct (lex false "" t).
  unfold flush. by rewrite bool_decide_false.
Qed.

(** A word and the blank after it. *)
Lemma piece_word_blank v : is_word v = true → piece (v +:+ " ") "" [v] "".
Proof.
  intros Hv. apply (piece_app v " " "" [] v [v] ""); [apply (piece_word v ""), is_word_chars, Hv|].
  by apply piece_blank, is_word_nonempty.
Qed.

(** ** Lexing the lines *)

(** The rest of a text after a line: nothing, or a new line. *)
Definition tailish (t : string) : Prop := t = "" ∨ ∃ s, t = newline +:+ s.
Definition tail_lines (t : string) : list (list string) :=
  match t with EmptyString => [] | String _ s => lines s end.

Lemma tail_lines_newline s : tail_lines (newline +:+ s) = lines s.
Proof. done. Qed.

Definition is_line (l : string) (ws : list string) : Prop :=
  ∀ t, tailish t → lex false "" (l +:+ t) = (ws, tail_lines t).

Lemma lex_newline acc s : lex false acc (newline +:+ s) = (flush acc, lines s).
Proof. change (newline +:+ s) with (String char_newline s). cbn. unfold lines. by destruct (lex false "" s). Qed.

Lemma line_pieces l ws acc : piece l "" ws acc → is_line l (ws ++ flush acc).
Proof.
  intros Hl t [->|[s ->]]; rewrite Hl; [done|]. by rewrite lex_newline.
Qed.

Lemma line_word l ws acc : piece l "" ws acc → acc ≠ "" → is_line l (ws ++ [acc]).
Proof. intros Hl Ha. pose proof (line_pieces l ws acc Hl) as H. unfold flush in H. by rewrite bool_decide_false in H. Qed.

(** The lines [ls] that the text [T], which starts with a new line, adds. *)
Definition tail_of (T : string) (ls : list (list string)) : Prop :=
  ∀ t, tailish t → tailish (T +:+ t) ∧ tail_lines (T +:+ t) = ls ++ tail_lines t.

Lemma tail_nil : tail_of "" [].
Proof. done. Qed.

Lemma tail_app A B la lb : tail_of A la → tail_of B lb → tail_of (A +:+ B) (la ++ lb).
Proof.
  intros HA HB t Ht. rewrite string_app_assoc. destruct (HB t Ht) as [HtB HlB].
  destruct (HA _ HtB) as [HtA HlA]. by rewrite HlA, HlB, app_assoc.
Qed.

Lemma lex_indent1 s : lex false "" ("    " +:+ s) = lex false "" s.
Proof.
  set (b := Ascii.ascii_of_nat 32). change ("    " +:+ s) with (String b (String b (String b (String b s)))).
  simpl. by destruct (lex false "" s).
Qed.

Lemma lex_indent n s : lex false "" (String.concat "" (replicate n "    ") +:+ s) = lex false "" s.
Proof.
  destruct n as [|n]; [done|]. revert s. induction n as [|n IH]; intros s; [apply lex_indent1|].
  change (String.concat "" (replicate (S (S n)) "    ")) with ("    " +:+ String.concat "" (replicate (S n) "    ")).
  by rewrite string_app_assoc, lex_indent1.
Qed.

Lemma tail_line n l ws : is_line l ws → tail_of (nl n l) [ws].
Proof.
  intros Hl t Ht. unfold nl. rewrite !string_app_assoc. split; [right; by eexists|].
  rewrite tail_lines_newline. unfold lines. by rewrite lex_indent, (Hl t Ht).
Qed.

(** A line and what follows it, in the order of the template. *)
Lemma tail_nl n l ws T ls : is_line l ws → tail_of T ls → tail_of (nl n (l +:+ T)) (ws :: ls).
Proof.
  intros Hl HT. replace (nl n (l +:+ T)) with (nl n l +:+ T) by (unfold nl; by rewrite !string_app_assoc).
  by apply (tail_app _ _ [ws]); [apply tail_line|].
Qed.

(** A text of whole lines. *)
Definition full (S : string) (ls : list (list string)) : Prop := ∀ t, lines (S +:+ t) = ls ++ lines t.

Lemma full_lines l ws T ls : is_line l ws → tail_of T ls → full (l +:+ T +:+ newline) (ws :: ls).
Proof.
  intros Hl HT t. rewrite !string_app_assoc. unfold lines at 1.
  destruct (HT (newline +:+ t) ltac:(right; by eexists)) as [Ht He]. rewrite (Hl _ Ht), He. done.
Qed.

(** A tail up to the end of its last line. *)
Definition ends (T : string) (ls : list (list string)) : Prop :=
  ∀ t, tailish (T +:+ t) ∧ tail_lines (T +:+ t) = ls ++ lines t.

Lemma ends_newline : ends newline [].
Proof. intros t. split; [right; by eexists|done]. Qed.

Lemma ends_app A B la lb : tail_of A la → ends B lb → ends (A +:+ B) (la ++ lb).
Proof.
  intros HA HB t. rewrite string_app_assoc. destruct (HB t) as [Ht Hl]. destruct (HA _ Ht) as [Ht' ->].
  split; [done|]. by rewrite Hl, app_assoc.
Qed.

Lemma full_ends l ws T ls : is_line l ws → ends T ls → full (l +:+ T) (ws :: ls).
Proof.
  intros Hl HT t. rewrite string_app_assoc. unfold lines at 1. destruct (HT t) as [Ht He]. by rewrite (Hl _ Ht), He.
Qed.

Lemma full_conv S ls ls' : full S ls → ls = ls' → full S ls'.
Proof. by intros HS <-. Qed.

Lemma full_nil : full "" [].
Proof. done. Qed.

Lemma full_app A B la lb : full A la → full B lb → full (A +:+ B) (la ++ lb).
Proof. intros HA HB t. by rewrite string_app_assoc, HA, HB, app_assoc. Qed.

(** ** Reading what was printed *)

(** The lines of a directive and of a server block. *)
Definition directive_lines (d : Directive) : list (list string) :=
  match d_block d with
  | None => [d_words d]
  | Some block => (d_words d ++ ["{"]) :: block ++ [["}"]]
  end.

Definition block_lines (b : Block) : list (list string) :=
  (b_keys b ++ ["{"]) :: mjoin (map directive_lines (b_directives b)) ++ [["}"]].

(** A line of words. *)
Definition wordy (ws : list string) : Prop := ws ≠ [] ∧ Forall (λ w, is_word w = true) ws.

Definition directive_ok (d : Directive) : Prop :=
  wordy (d_words d) ∧ match d_block d with Some block => Forall wordy block | None => True end.

Definition block_ok (b : Block) : Prop := wordy (b_keys b) ∧ Forall directive_ok (b_directives b).

Lemma classify_open ws : ws ≠ [] → classify (ws ++ ["{"]) = Open ws.
Proof.
  intros Hw. unfold classify. rewrite rev_app_distr. simpl. rewrite bool_decide_false, rev_involutive; [done|].
  intros Hr. apply Hw. rewrite <- (rev_involutive ws), Hr. done.
Qed.

Lemma classify_wordy ws : wordy ws → classify ws = Plain ws.
Proof.
  intros [Hne Hw]. unfold classify. destruct (rev ws) as [|w rest] eqn:E.
  { exfalso. apply Hne. by rewrite <- (rev_involutive ws), E. }
  assert (is_word w = true) as Hword.
  { rewrite Forall_forall in Hw. apply Hw. apply list_elem_of_In. apply in_rev. rewrite E. by left. }
  rewrite (bool_decide_false (w = "{")), (bool_decide_false (w = "}")); [done|intros ->; done|intros ->; done].
Qed.

Lemma read_block_lines keys ds ws block block' blocks rest :
  Forall wordy block' →
  read (InDirective keys ds ws block) blocks (block' ++ ["}"] :: rest)
  = read (InServer keys (ds ++ [mkDirective ws (Some (block ++ block'))])) blocks rest.
Proof.
  intros Hb. revert block. induction Hb as [|l block' Hl _ IH]; intros block; simpl.
  - by rewrite app_nil_r.
  - rewrite (classify_wordy l Hl), IH. by rewrite <- app_assoc.
Qed.

Lemma read_directives keys ds ds' blocks rest :
  Forall directive_ok ds' →
  read (InServer keys ds) blocks (mjoin (map directive_lines ds') ++ ["}"] :: rest)
  = read Between (blocks ++ [mkBlock keys (ds ++ ds')]) rest.
Proof.
  intros Hd. revert ds. induction Hd as [|[ws [block|]] ds' [Hw Hb] _ IH]; intros ds; simpl in *.
  - by rewrite app_nil_r.
  - rewrite (classify_open ws) by apply Hw. rewrite <- !app_assoc. simpl.
    rewrite (read_block_lines keys ds ws [] block) by done. rewrite IH. by rewrite <- app_assoc.
  - rewrite (classify_wordy ws Hw), IH. by rewrite <- app_assoc.
Qed.

Lemma read_blocks blocks bs rest :
  Forall block_ok bs → read Between blocks (mjoin (map block_lines bs) ++ rest) = read Between (blocks ++ bs) rest.
Proof.
  intros Hb. revert blocks. induction Hb as [|b bs [Hk Hd] _ IH]; intros blocks; simpl.
  - by rewrite app_nil_r.
  - rewrite (classify_open (b_keys b)) by apply Hk. rewrite <- !app_assoc. simpl.
    rewrite (read_directives (b_keys b) [] (b_directives b)) by done. simpl. rewrite IH, <- app_assoc. by destruct b.
Qed.

Lemma read_block b blocks rest :
  block_ok b → read Between blocks (block_lines b ++ rest) = read Between (blocks ++ [b]) rest.
Proof.
  intros Hb. pose proof (read_blocks blocks [b] rest ltac:(by apply Forall_singleton)) as Hr. simpl in Hr.
  by rewrite app_nil_r in Hr.
Qed.

(** A comment does not count. *)
Lemma read_comment blocks rest : read Between blocks ([] :: rest) = read Between blocks rest.
Proof. done. Qed.

(** ** Lines with parameters *)

(** The words of a literal, computed. *)
Fixpoint run (acc x : string) : option (list string * string) :=
  match x with
  | EmptyString => Some ([], acc)
  | String c x =>
      if bool_decide (c = char_newline) || bool_decide (c = char_hash) then None
      else if is_blank c then '(ws, acc') ← run "" x; Some (flush acc ++ ws, acc')
      else run (acc +:+ String c "") x
  end.

Lemma piece_run x acc ws acc' : run acc x = Some (ws, acc') → piece x acc ws acc'.
Proof.
  revert acc ws acc'. induction x as [|c x IH]; intros acc ws acc'; cbn [run].
  - intros [= <- <-]. apply piece_nil.
  - destruct (bool_decide (c = char_newline)) eqn:En; [done|]. destruct (bool_decide (c = char_hash)) eqn:Eh; [done|].
    cbn [orb]. intros Hrun t. rewrite string_app_cons. cbn [lex]. rewrite En, Eh. cbn [andb]. cbv iota.
    destruct (is_blank c).
    + destruct (run "" x) as [[ws1 acc1]|] eqn:Er; [|done]. injection Hrun as <- <-.
      rewrite (IH _ _ _ Er t). destruct (lex false acc1 t). by rewrite app_assoc.
    + apply (IH _ _ _ Hrun t).
Qed.

Lemma line_run l ws acc : run "" l = Some (ws, acc) → is_line l (ws ++ flush acc).
Proof. intros Hl. by apply line_pieces, piece_run. Qed.

(** A literal, then a word. *)
Lemma line_lit_word lit ws v : run "" lit = Some (ws, "") → is_word v = true → is_line (lit +:+ v) (ws ++ [v]).
Proof.
  intros Hl Hv. apply line_word; [|by apply is_word_nonempty]. rewrite <- (app_nil_r ws).
  eapply piece_app; [by apply piece_run|]. by apply (piece_word v ""), is_word_chars.
Qed.

(** A word between two literals. *)
Lemma line_lit_word_lit lit ws v lit' ws' acc :
  run "" lit = Some (ws, "") → is_word v = true → run "" lit' = Some (ws', acc) →
  is_line (lit +:+ v +:+ " " +:+ lit') (ws ++ v :: ws' ++ flush acc).
Proof.
  intros Hl Hv Hl'. replace (ws ++ v :: ws' ++ flush acc) with ((ws ++ [] ++ [v] ++ ws') ++ flush acc)
    by (by rewrite <- !app_assoc). apply line_pieces.
  eapply piece_app; [by apply piece_run|]. eapply piece_app; [by apply (piece_word v ""), is_word_chars|].
  eapply piece_app; [apply piece_blank, is_word_nonempty, Hv|by apply piece_run].
Qed.

Lemma cat_cons x l : cat (x :: l) = x +:+ cat l.
Proof. unfold cat. destruct l; [simpl; by rewrite string_app_nil_r|done]. Qed.

(** Words with a blank before each. *)
Lemma piece_words_before {A} (f : A → string) (l : list A) acc :
  acc ≠ "" → (∀ x, x ∈ l → is_word (f x) = true) →
  piece (cat (map (λ x, " " +:+ f x) l) +:+ " {") acc ([acc] ++ map f l) "{".
Proof.
  revert acc. induction l as [|x l IH]; intros acc Ha Hl; simpl map.
  - apply (piece_app " " "{" acc [acc] "" [] "{"); [by apply piece_blank|by apply piece_run].
  - rewrite cat_cons, !string_app_assoc. apply (piece_app " " _ acc [acc] ""); [by apply piece_blank|].
    apply (piece_app (f x) _ "" [] (f x)); [apply (piece_word (f x) ""), is_word_chars, Hl, list_elem_of_here|].
    apply IH; [apply is_word_nonempty, Hl, list_elem_of_here|]. intros y Hy. by apply Hl, list_elem_of_further.
Qed.

(** Words with a blank after each. *)
Lemma piece_words_after {A} (f : A → string) (l : list A) :
  (∀ x, x ∈ l → is_word (f x) = true) → piece (cat (map (λ x, f x +:+ " ") l)) "" (map f l) "".
Proof.
  induction l as [|x l IH]; intros Hl; [apply piece_nil|]. simpl map. rewrite cat_cons.
  apply (piece_app _ _ "" [f x] ""); [apply piece_word_blank, Hl, list_elem_of_here|].
  apply IH. intros y Hy. by apply Hl, list_elem_of_further.
Qed.

Lemma line_comment name : string_all (λ c, negb (bool_decide (c = char_newline))) name = true → is_line ("# " +:+ name) [].
Proof.
  intros Hn t Ht. assert (∀ acc, lex true acc (name +:+ t) = (flush acc, tail_lines t)) as Hc.
  { induction name as [|c name IH]; intros acc.
    - destruct Ht as [->|[s ->]]; [done|]. change ("" +:+ newline +:+ s) with (String char_newline s). cbn.
      rewrite tail_lines_newline. unfold lines. by destruct (lex false "" s).
    - simpl in Hn. to_prop. destruct Hn as [Hc Hn]. rewrite string_app_cons. cbn [lex].
      rewrite bool_decide_false by done. apply (IH Hn). }
  rewrite string_app_assoc. change (lex false "" ("# " +:+ name +:+ t)) with (lex true "" (name +:+ t)).
  apply Hc.
Qed.

(** Numbers are words. *)
Lemma pretty_N_go_chars n s : string_all word_char s = true → string_all word_char (pretty_N_go n s) = true.
Proof.
  revert s. induction (N.lt_wf_0 n) as [n _ IH]. intros s Hs.
  destruct (decide (n = 0)%N) as [->|Hn]; [by rewrite pretty_N_go_0|].
  rewrite pretty_N_go_step by lia. apply IH; [apply N.div_lt; lia|]. cbn [string_all]. rewrite Hs, andb_true_r.
  unfold pretty_N_char. repeat case_match; reflexivity.
Qed.

Lemma pretty_N_go_nonempty n s : s ≠ "" ∨ n ≠ 0%N → pretty_N_go n s ≠ "".
Proof.
  revert s. induction (N.lt_wf_0 n) as [n _ IH]. intros s Hs.
  destruct (decide (n = 0)%N) as [->|Hn]; [rewrite pretty_N_go_0; by destruct Hs|].
  rewrite pretty_N_go_step by lia. apply IH; [apply N.div_lt; lia|]. by left.
Qed.

Lemma fmt_d_word z : is_word (fmt_d z) = true.
Proof.
  assert (∀ q, is_word (pretty (N.pos q)) = true) as Hpos.
  { intros q. unfold is_word. rewrite bool_decide_false.
    - change (pretty (N.pos q)) with (pretty_N_go (N.pos q) ""). by apply pretty_N_go_chars.
    - change (pretty (N.pos q)) with (pretty_N_go (N.pos q) ""). apply pretty_N_go_nonempty. by right. }
  unfold fmt_d. destruct z as [|q|q]; [reflexivity|apply Hpos|].
  change (pretty (Z.neg q)) with ("-" +:+ pretty (N.pos q)). unfold is_word. cbn [string_all]. 
  pose proof (is_word_chars _ (Hpos q)) as Hc. unfold is_word. rewrite string_all_app, Hc. done.
Qed.

(** ** The template *)

(** A line given word by word. *)
Ltac wordy :=
  split; [discriminate|];
  repeat (apply Forall_cons_2; [first [reflexivity|apply fmt_d_word|assumption|auto]|]); try apply Forall_nil_2.

Section template.
Context (p : CorefileParameters).

Definition word_chars (s : string) : bool := string_all word_char s.

(** The strings of a TLS configuration that are printed. *)
Definition tls_ok (tls : option DNSOverTLSConfig) : bool :=
  match tls with
  | Some tls => word_chars (tls_ServerName tls) &&
                word_chars (default "" (p_CABundleRevisionMap p !! tls_CABundle_Name tls))
  | None => true
  end.

(** A server whose name is one line, with zones and upstreams that are words. *)
Definition server_ok (s : Server) : bool :=
  let fp := srv_ForwardPlugin s in
  string_all (λ c, negb (bool_decide (c = char_newline))) (srv_Name s) &&
  negb (bool_decide (srv_Zones s = [])) && forallb is_word (srv_Zones s) &&
  forallb is_word (fp_Upstreams fp) && tls_ok (tc_TLS (fp_TransportConfig fp)).

(** Parameters whose strings are words where the template puts words. *)
Definition parameters_ok (upstreams : list string) : bool :=
  is_word (p_ClusterDomain p) && is_word (p_LameDuckDuration p) && word_chars (p_CABundleFileName p) &&
  bool_decide (p_LogLevel p ∈ ["class error"; "class denial error"; "class all"]) &&
  forallb is_word (p_DNSNameResolverNamespaces p) && forallb server_ok (p_Servers p) &&
  forallb is_word upstreams && tls_ok (tc_TLS (ur_TransportConfig (p_UpstreamResolvers p))).

Lemma policy_word policy : is_word (coreDNSPolicy policy) = true.
Proof. unfold coreDNSPolicy. repeat case_match; reflexivity. Qed.

(** The upstreams and the CA bundle file as the template writes them. *)
Lemma upstream_word (pre u : string) : word_chars pre = true → is_word u = true → is_word (pre +:+ u) = true.
Proof.
  unfold is_word, word_chars. intros Hp Hu. to_prop. destruct Hu as [Hne Hc]. rewrite string_all_app, Hp, Hc.
  split; [|done]. by destruct pre.
Qed.

Lemma transport_chars tc : word_chars (if tc_Transport tc =s "TLS" then "tls://" else "") = true.
Proof. by case_match. Qed.

Lemma ca_path_word sn cm file : word_chars sn = true → word_chars cm = true → word_chars file = true →
  is_word ("/etc/pki/" +:+ sn +:+ "-" +:+ cm +:+ "/" +:+ file) = true.
Proof.
  unfold is_word, word_chars. intros Hsn Hcm Hfile. rewrite bool_decide_false by done.
  by rewrite !string_all_app, Hsn, Hcm, Hfile.
Qed.

Lemma tail_literal n l ws acc : run "" l = Some (ws, acc) → tail_of (nl n l) [ws ++ flush acc].
Proof. intros Hl. by apply tail_line, line_run. Qed.

(** Move what follows a line out of it. *)
Lemma nl_app n a b : nl n (a +:+ b) = nl n a +:+ b.
Proof. unfold nl. by rewrite !string_app_assoc. Qed.

Lemma tail_tls tls :
  tls_ok tls = true → word_chars (p_CABundleFileName p) = true → tail_of (render_tls p tls) (tls_lines p tls).
Proof.
  destruct tls as [tls|]; [|intros; apply tail_nil]. simpl. intros Hok Hfile. to_prop. destruct Hok as [Hsn Hcm].
  destruct (tls_ServerName tls =s "") eqn:Esn; [apply tail_nil|]. to_prop.
  assert (is_word (tls_ServerName tls) = true) as Hword by (unfold is_word; to_prop; done).
  rewrite <- string_app_assoc, <- nl_app. apply (tail_app _ _ [_]).
  { apply tail_line, (line_lit_word _ ["tls_servername"]); done. }
  unfold ca_file. destruct (p_CABundleRevisionMap p !! tls_CABundle_Name tls) as [cm|]; simpl in *;
    [|rewrite string_app_nil_r; by apply (tail_literal 2 "tls" [] "tls")].
  destruct (cm =s "") eqn:Ecm; [rewrite string_app_nil_r; by apply (tail_literal 2 "tls" [] "tls")|].
  rewrite <- nl_app. apply tail_line.
  change ("tls" +:+ " /etc/pki/" +:+ tls_ServerName tls +:+ "-" +:+ cm +:+ "/" +:+ p_CABundleFileName p)
    with ("tls " +:+ ("/etc/pki/" +:+ tls_ServerName tls +:+ "-" +:+ cm +:+ "/" +:+ p_CABundleFileName p)).
  apply (line_lit_word _ ["tls"]); [done|]. by apply ca_path_word.
Qed.

Lemma tail_forward ups tc policy ps :
  forallb is_word ups = true → tls_ok (tc_TLS tc) = true → word_chars (p_CABundleFileName p) = true →
  tail_of (nl 1 (render_forward p ups tc policy ps)) (directive_lines (forward_directive p ups tc policy ps)).
Proof.
  intros Hups Htls Hfile. unfold render_forward.
  set (T := render_tls p (tc_TLS tc) +:+ _).
  match goal with |- tail_of (nl 1 (?a +:+ ?b +:+ ?c +:+ T)) _ =>
    replace (a +:+ b +:+ c +:+ T) with ((a +:+ b +:+ c) +:+ T) by (by rewrite !string_app_assoc) end.
  unfold forward_directive, directive_lines. cbn [d_block d_words]. apply tail_nl.
  - set (f := λ u : string, (if tc_Transport tc =s "TLS" then "tls://" else "") +:+ u).
    apply (line_word _ ("forward" :: "." :: map f ups)); [|done].
    apply (piece_app "forward ." _ "" ["forward"] "."); [by apply piece_run|].
    apply (piece_words_before f); [done|]. intros u Hu. rewrite forallb_elem in Hups.
    apply upstream_word; [apply transport_chars|by apply Hups].
  - unfold T. rewrite <- !app_assoc. apply tail_app; [by apply tail_tls|].
    rewrite <- string_app_assoc, <- nl_app.
    apply (tail_app _ _ [_]); [apply tail_line, (line_lit_word _ ["policy"]); [done|apply policy_word]|].
    apply tail_app; [|by apply (tail_literal 1 "}" [] "}")].
    destruct (ps =s "TCP"); [by apply (tail_literal 2 "force_tcp" [] "force_tcp")|apply tail_nil].
Qed.

Lemma tail_log : p_LogLevel p ∈ ["class error"; "class denial error"; "class all"] →
  tail_of (nl 1 (render_log p)) (directive_lines (log_directive p)) ∧ directive_ok (log_directive p).
Proof.
  intros Hl. unfold render_log, log_directive, directive_lines. cbn [d_block d_words].
  assert (∃ ws acc, run "" (p_LogLevel p) = Some (ws, acc) ∧ (lex false "" (p_LogLevel p)).1 = ws ++ flush acc ∧
    wordy (ws ++ flush acc)) as (ws & acc & Hr & -> & Hw).
  { set_unfold in Hl. destruct Hl as [->|[->|[->|[]]]]; eexists _, _; (split; [reflexivity|]);
      (split; [reflexivity|]); (split; [done|]); repeat constructor. }
  split; [|split; [split; [done|]; repeat constructor|by constructor]].
  apply (tail_nl 1 "log . {"); [by apply (line_run _ ["log"; "."] "{")|].
  apply (tail_app _ _ [_]); [by apply tail_literal|by apply (tail_literal 1 "}" [] "}")].
Qed.

Lemma tail_cache :
  tail_of (nl 1 (render_cache p)) (directive_lines (cache_directive p)) ∧ directive_ok (cache_directive p).
Proof.
  unfold render_cache, cache_directive, directive_lines. cbn [d_block d_words]. split.
  - rewrite <- (string_app_assoc "cache "), <- (string_app_assoc _ " {").
    apply tail_nl.
    + rewrite string_app_assoc. by apply (line_lit_word_lit "cache " ["cache"] _ "{" [] "{"); [|apply fmt_d_word|].
    + rewrite <- string_app_assoc, <- nl_app. apply (tail_app _ _ [_]); [|by apply (tail_literal 1 "}" [] "}")].
      apply tail_line, (line_lit_word _ ["denial"; "9984"]); [done|apply fmt_d_word].
  - split; [by wordy|]. apply Forall_singleton. by wordy.
Qed.

Lemma tail_resolver : forallb is_word (p_DNSNameResolverNamespaces p) = true →
  tail_of (render_ocp_dnsnameresolver p) (mjoin (map directive_lines (resolver_directives p))) ∧
  Forall directive_ok (resolver_directives p).
Proof.
  intros Hns. unfold render_ocp_dnsnameresolver, resolver_directives.
  destruct (p_OCPDNSNameResolver p); [|split; [apply tail_nil|constructor]].
  rewrite forallb_forall in Hns. split.
  - apply (tail_app _ _ [_]); [by apply (tail_literal 1 _ ["ocp_dnsnameresolver"] "{")|].
    rewrite <- string_app_assoc, <- nl_app.
    apply (tail_app _ _ [_]); [|by apply (tail_literal 1 "}" [] "}")]. apply tail_line.
    pose proof (piece_words_after id (p_DNSNameResolverNamespaces p)) as Hp. rewrite map_id in Hp.
    rewrite <- (app_nil_r ("namespaces" :: _)). apply (line_pieces _ ("namespaces" :: _) "").
    apply (piece_app "namespaces " _ "" ["namespaces"] ""); [by apply piece_run|].
    apply Hp. intros x Hx. by apply Hns, list_elem_of_In.
  - apply Forall_singleton. split; [by wordy|]. apply Forall_singleton. split; [done|].
    apply Forall_cons_2; [done|]. rewrite Forall_forall. intros x Hx. by apply Hns, list_elem_of_In.
Qed.

Lemma tls_lines_wordy tls :
  tls_ok tls = true → word_chars (p_CABundleFileName p) = true → Forall wordy (tls_lines p tls).
Proof.
  destruct tls as [tls|]; [|constructor]. simpl. intros Hok Hfile. to_prop. destruct Hok as [Hsn Hcm].
  destruct (tls_ServerName tls =s "") eqn:Esn; [constructor|]. to_prop.
  assert (is_word (tls_ServerName tls) = true) as Hword by (unfold is_word; to_prop; done).
  apply Forall_cons_2; [by wordy|]. apply Forall_singleton. unfold ca_file.
  destruct (p_CABundleRevisionMap p !! tls_CABundle_Name tls) as [cm|]; simpl in *; [|by wordy].
  destruct (cm =s ""); [by wordy|]. wordy. by apply ca_path_word.
Qed.

Lemma forward_ok ups tc policy ps :
  forallb is_word ups = true → tls_ok (tc_TLS tc) = true → word_chars (p_CABundleFileName p) = true →
  directive_ok (forward_directive p ups tc policy ps).
Proof.
  intros Hups Htls Hfile. split; simpl.
  - wordy. rewrite Forall_fmap, Forall_forall. rewrite forallb_elem in Hups. intros u Hu.
    apply upstream_word; [apply transport_chars|by apply Hups].
  - apply Forall_app. split; [by apply tls_lines_wordy|]. apply Forall_cons_2; [wordy; apply policy_word|].
    case_match; [apply Forall_singleton; by wordy|constructor].
Qed.

(** One piece of the text after the other; the lines are put together at the end. *)
Lemma tail_conv T ls ls' : tail_of T ls → ls = ls' → tail_of T ls'.
Proof. by intros HT <-. Qed.

Lemma full_server s :
  server_ok s = true → p_LogLevel p ∈ ["class error"; "class denial error"; "class all"] →
  word_chars (p_CABundleFileName p) = true → forallb is_word (p_DNSNameResolverNamespaces p) = true →
  full (render_server p s) ([] :: block_lines (server_block p s)) ∧ block_ok (server_block p s).
Proof.
  intros Hs Hlog Hfile Hns. unfold server_ok in Hs. to_prop.
  destruct Hs as ((((Hname & Hz) & Hzones) & Hups) & Htls).
  destruct (tail_log Hlog) as [Tlog Dlog]. destruct tail_cache as [Tcache Dcache].
  destruct (tail_resolver Hns) as [Tres Dres].
  pose proof (tail_forward (fp_Upstreams (srv_ForwardPlugin s)) (fp_TransportConfig (srv_ForwardPlugin s))
    (fp_Policy (srv_ForwardPlugin s)) (fp_ProtocolStrategy (srv_ForwardPlugin s)) Hups Htls Hfile) as Tfwd.
  rewrite forallb_elem in Hzones.
  assert (∀ z, z ∈ srv_Zones s → is_word (z +:+ ":5353") = true) as Hwz.
  { intros z Hin. specialize (Hzones z Hin). unfold is_word in *. to_prop. destruct Hzones as [Hne Hc].
    rewrite string_all_app, Hc. split; [|done]. by destruct z. }
  split.
  - unfold render_server. cbv zeta.
    match goal with |- full ("# " +:+ ?n +:+ nl 0 "" +:+ ?z +:+ "{" +:+ ?a +:+ ?b +:+ ?c +:+ ?d +:+ ?e +:+ ?f +:+ ?g +:+ ?h +:+ newline) _ =>
      replace ("# " +:+ n +:+ nl 0 "" +:+ z +:+ "{" +:+ a +:+ b +:+ c +:+ d +:+ e +:+ f +:+ g +:+ h +:+ newline)
        with (("# " +:+ n) +:+ (nl 0 (z +:+ "{") +:+ a +:+ b +:+ c +:+ d +:+ e +:+ f +:+ g +:+ h) +:+ newline)
        by (unfold nl at 1 10; rewrite !string_app_assoc; reflexivity) end.
    apply full_lines; [by apply line_comment|]. eapply tail_conv.
    { apply tail_app.
      { apply tail_line, (line_word _ (map (λ z, z +:+ ":5353") (srv_Zones s)) "{"); [|done].
        rewrite <- (app_nil_r (map (λ z, z +:+ ":5353") _)). apply (piece_app _ "{" _ _ ""); [|by apply piece_run].
        pose proof (piece_words_after (λ z, z +:+ ":5353") (srv_Zones s) Hwz) as Hp. simpl in Hp.
        replace (map (λ z, z +:+ ":5353 ") (srv_Zones s)) with (map (λ z, (z +:+ ":5353") +:+ " ") (srv_Zones s)); [done|].
        apply map_ext. intros z. by rewrite string_app_assoc. }
      apply tail_app; [by apply (tail_literal 1 _ ["prometheus"] "127.0.0.1:9153")|].
      apply tail_app; [exact Tfwd|]. apply tail_app; [by apply (tail_literal 1 _ [] "errors")|].
      apply tail_app; [exact Tlog|]. apply tail_app; [by apply (tail_literal 1 _ ["bufsize"] "1232")|].
      apply tail_app; [exact Tcache|]. apply tail_app; [exact Tres|]. by apply (tail_literal 0 "}" [] "}"). }
    unfold block_lines, server_block. cbn [b_keys b_directives]. rewrite map_app, join_app. simpl.
    by rewrite <- !app_assoc.
  - split; simpl.
    + split; [by destruct (srv_Zones s)|]. rewrite Forall_fmap, Forall_forall. exact Hwz.
    + repeat (apply Forall_cons_2; [first [split; [by wordy|done] | assumption | by apply forward_ok]|]). exact Dres.
Qed.

Lemma full_default ups :
  is_word (p_ClusterDomain p) = true → is_word (p_LameDuckDuration p) = true → forallb is_word ups = true →
  tls_ok (tc_TLS (ur_TransportConfig (p_UpstreamResolvers p))) = true →
  p_LogLevel p ∈ ["class error"; "class denial error"; "class all"] →
  word_chars (p_CABundleFileName p) = true → forallb is_word (p_DNSNameResolverNamespaces p) = true →
  full (render_default p ups)
    (block_lines (default_block p ups) ++ block_lines (mkBlock ["hostname.bind:5353"] [directive ["chaos"]])) ∧
  block_ok (default_block p ups).
Proof.
  intros Hcd Hld Hups Htls Hlog Hfile Hns.
  destruct (tail_log Hlog) as [Tlog Dlog]. destruct tail_cache as [Tcache Dcache].
  destruct (tail_resolver Hns) as [Tres Dres].
  pose proof (tail_forward ups _ (ur_Policy (p_UpstreamResolvers p)) (ur_ProtocolStrategy (p_UpstreamResolvers p))
    Hups Htls Hfile) as Tfwd.
  split.
  - unfold render_default. cbv zeta.
    match goal with |- full (?x +:+ ?a +:+ ?b +:+ ?c +:+ ?d +:+ nl 2 ?e1 +:+ ?e2 +:+ ?f +:+ ?g +:+ nl 1 ?h1 +:+ ?h2 +:+ ?h3 +:+ ?rest) _ =>
      replace (x +:+ a +:+ b +:+ c +:+ d +:+ nl 2 e1 +:+ e2 +:+ f +:+ g +:+ nl 1 h1 +:+ h2 +:+ h3 +:+ rest)
        with (x +:+ a +:+ b +:+ c +:+ d +:+ nl 2 (e1 +:+ e2) +:+ f +:+ g +:+ nl 1 (h1 +:+ h2 +:+ h3) +:+ rest)
        by (rewrite !nl_app, !string_app_assoc; reflexivity) end.
    eapply full_conv.
    { apply (full_ends _ [".:5353"; "{"]); [by apply (line_run _ [".:5353"] "{")|].
      apply ends_app; [by apply (tail_literal 1 _ ["bufsize"] "1232")|].
      apply ends_app; [by apply (tail_literal 1 _ [] "errors")|]. apply ends_app; [exact Tlog|].
      apply ends_app; [by apply (tail_literal 1 _ ["health"] "{")|].
      apply ends_app; [by apply tail_line, (line_lit_word _ ["lameduck"])|].
      apply ends_app; [by apply (tail_literal 1 _ [] "}")|]. apply ends_app; [by apply (tail_literal 1 _ [] "ready")|].
      apply ends_app; [by apply tail_line, (line_lit_word_lit "kubernetes " ["kubernetes"] _ "in-addr.arpa ip6.arpa {"
        ["in-addr.arpa"; "ip6.arpa"] "{")|].
      apply ends_app; [by apply (tail_literal 2 _ ["pods"] "insecure")|].
      apply ends_app; [by apply (tail_literal 2 _ ["fallthrough"; "in-addr.arpa"] "ip6.arpa")|].
      apply ends_app; [by apply (tail_literal 1 _ [] "}")|].
      apply ends_app; [by apply (tail_literal 1 _ ["prometheus"] "127.0.0.1:9153")|].
      apply ends_app; [exact Tfwd|]. apply ends_app; [exact Tcache|].
      apply ends_app; [by apply (tail_literal 1 _ [] "reload")|]. apply ends_app; [exact Tres|].
      apply ends_app; [by apply (tail_literal 0 _ [] "}")|].
      apply ends_app; [by apply (tail_literal 0 _ ["hostname.bind:5353"] "{")|].
      apply ends_app; [by apply (tail_literal 1 _ [] "chaos")|].
      apply ends_app; [by apply (tail_literal 0 _ [] "}")|]. apply ends_newline. }
    unfold block_lines, default_block. cbn [b_keys b_directives]. rewrite map_app, join_app. simpl.
    by rewrite <- !app_assoc.
  - split; simpl; [by wordy|].
    repeat (apply Forall_cons_2; [first [split; [by wordy|done] | assumption | by apply forward_ok
      | split; [by wordy|repeat (apply Forall_cons_2; [by wordy|]); constructor]]|]). exact Dres.
Qed.

Lemma read_servers servers blocks T :
  (∀ s, s ∈ servers → server_ok s = true) → p_LogLevel p ∈ ["class error"; "class denial error"; "class all"] →
  word_chars (p_CABundleFileName p) = true → forallb is_word (p_DNSNameResolverNamespaces p) = true →
  read Between blocks (lines (cat (map (render_server p) servers) +:+ T))
  = read Between (blocks ++ map (server_block p) servers) (lines T).
Proof.
  intros Hs Hlog Hfile Hns. revert blocks. induction servers as [|s servers IH]; intros blocks.
  - simpl map. rewrite app_nil_r. done.
  - simpl map. rewrite cat_cons, string_app_assoc.
    destruct (full_server s (Hs s (list_elem_of_here _ _)) Hlog Hfile Hns) as [Hf Hb].
    rewrite Hf, <- app_comm_cons, read_comment, read_block by done.
    rewrite IH by (intros; by apply Hs, list_elem_of_further). by rewrite <- app_assoc.
Qed.

(** C16: the Corefile says what the DNS asks for.  The text the template renders reads,
    by the syntax of Corefiles, as exactly these server blocks: one per server of the DNS,
    with its zones as keys and its upstreams, policy, TLS settings and protocol in the
    forward directive; the default server with the cluster domain; and hostname.bind.  The
    parameters must be words where the template puts words (and the names of servers one
    line), so that no string of the DNS can be taken for syntax. *)
Theorem corefile_reads upstreams text :
  corefileTemplate p = inr text → resolve_upstreams (ur_Upstreams (p_UpstreamResolvers p)) = inr upstreams →
  parameters_ok upstreams = true → read_corefile text = Some (corefile_blocks p upstreams).
Proof.
  unfold corefileTemplate. intros Ht Hu. rewrite Hu in Ht. injection Ht as <-.
  unfold parameters_ok. intros Hok. to_prop.
  destruct Hok as (((((((Hcd & Hld) & Hfile) & Hlog) & Hns) & Hservers) & Hups) & Htls).
  destruct (full_default upstreams Hcd Hld Hups Htls Hlog Hfile Hns) as [Fdef Bdef].
  rewrite forallb_elem in Hservers. unfold read_corefile, corefile_blocks. rewrite read_servers by done. simpl app.
  rewrite <- (string_app_nil_r (render_default p upstreams)), Fdef.
  rewrite <- app_assoc, read_block by done. rewrite read_block; [by rewrite <- app_assoc|].
  split; [by wordy|]. apply Forall_singleton. split; [by wordy|done].
Qed.

End template.

(** ** At concrete parameters *)

(** One server with TLS upstreams and a CA bundle, and the system resolvers. *)
Definition sample_parameters (name : string) : CorefileParameters :=
  mkCorefileParameters "cluster.local"
    [mkServer name ["example.com"; "example.org"]
       (mkForwardPlugin ["1.1.1.1"; "2.2.2.2:5353"] RoundRobinForwardingPolicy
          (mkDNSTransportConfig "TLS" (Some (mkDNSOverTLSConfig "dns.example.com" "cacerts"))) "TCP")]
    (mkUpstreamResolvers [mkUpstream SystemResolveConfType "" 0] SequentialForwardingPolicy (mkDNSTransportConfig "" None) "")
    "class error" {[ "cacerts" := "ca-cacerts-2" ]} caBundleFileName "20s" 900 30 true ["openshift-ovn-kubernetes"].

Definition sample_text (name : string) : string :=
  match corefileTemplate (sample_parameters name) with inr text => text | inl _ => "" end.

Lemma corefile_reads_witness :
  read_corefile (sample_text "foo") = Some (corefile_blocks (sample_parameters "foo") ["/etc/resolv.conf"]).
Proof.
  apply (corefile_reads (sample_parameters "foo") ["/etc/resolv.conf"] (sample_text "foo"));
    vm_compute; reflexivity.
Defined.

(** Without the condition the theorem fails: the operator checks neither names nor zones
    nor upstreams for new lines, and a server name with one adds a server block. *)
Lemma corefile_injection :
  ∃ blocks, read_corefile (sample_text ("foo" +:+ newline +:+ "evil:53 {" +:+ newline +:+ "erratic" +:+ newline +:+ "}"))
            = Some blocks ∧ mkBlock ["evil:53"] [directive ["erratic"]] ∈ blocks ∧ length blocks = 4%nat.
Proof. eexists. split; [vm_compute; reflexivity|]. split; [apply list_elem_of_here|reflexivity]. Qed.
