(* ===== verification/Service.v ===== *)
(** * The DNS service: pkg/operator/controller/controller_dns_service.go

    The decision on topology-aware hints, the desired service, the comparison that
    preserves what the API and users own, and the handlers. *)

From S2P Require Import Prelude GoLib Types Labels Client Mem Names Manifests Samples.

Definition servingCertAnnotationKey : string := "service.beta.openshift.io/serving-cert-secret-name".
Definition topologyAwareHintsAnnotationKey : string := "service.kubernetes.io/topology-aware-hints".
Definition managedDNSServiceAnnotations : list string :=
  [servingCertAnnotationKey; topologyAwareHintsAnnotationKey].

Definition LabelTopologyZone : string := "topology.kubernetes.io/zone".

(** ** Topology-aware hints *)

Definition nodeHasExcludedLabels (labels : gmap string string) : bool :=
  if (size labels =? 0)%nat then false
  else if bool_decide (is_Some (labels !! "node-role.kubernetes.io/control-plane")) then true
  else if bool_decide (is_Some (labels !! "node-role.kubernetes.io/master")) then true
  else false.

(** The first condition of type Ready decides. *)
Fixpoint nodeIsReady (conditions : list NodeCondition) : bool :=
  match conditions with
  | [] => false
  | c :: rest => if nc_Type c =s "Ready" then nc_Status c =s "True" else nodeIsReady rest
  end.

Definition ignoreNodeForTopologyAwareHints (node : Node) : bool :=
  nodeHasExcludedLabels (om_Labels (node_meta node)) || negb (nodeIsReady (node_Conditions node)).

(** node.Labels[corev1.LabelTopologyZone] *)
Definition node_zone (node : Node) : string :=
  default "" (om_Labels (node_meta node) !! LabelTopologyZone).

Definition nodeIsValidForTopologyAwareHints (node : Node) : bool :=
  negb (node_AllocatableCPU node =? 0)%Z && negb (node_zone node =s "").

(** The loop of shouldEnableTopologyAwareHints, with the zones met so far. *)
Fixpoint hints_loop (nodes : list Node) (zones : gset string) : bool :=
  match nodes with
  | [] => (2 <=? size zones)%nat
  | node :: rest =>
      if ignoreNodeForTopologyAwareHints node then hints_loop rest zones
      else if negb (nodeIsValidForTopologyAwareHints node) then false
      else hints_loop rest ({[ node_zone node ]} ∪ zones)
  end.

(** ** The desired service *)

Definition desiredDNSService (dns : DNS) (clusterIP : string) (enableTopologyAwareHints : bool)
    (daemonsetRef : OwnerReference) : Service :=
  let s := DNSService in
  let name := DNSServiceName dns in
  let annotations : gmap string string :=
    {[ MetricsServingCertAnnotation := DNSMetricsSecretName dns ]} in
  let annotations := if enableTopologyAwareHints
                     then <[ topologyAwareHintsAnnotationKey := "auto" ]> annotations
                     else annotations in
  let sp := svc_Spec s in
  mkService
    (mkObjectMeta (nn_Name name) (nn_Namespace name) (om_UID (svc_meta s))
       (om_ResourceVersion (svc_meta s)) {[ OwningDNSLabel := DNSDaemonSetLabel dns ]} annotations
       [dnsOwnerRef dns] (om_Finalizers (svc_meta s)) (om_DeletionTimestamp (svc_meta s)))
    (mkServiceSpec (ss_Ports sp) (ls_MatchLabels (DNSDaemonSetPodSelector dns))
       (if (0 <? String.length clusterIP)%nat then clusterIP else ss_ClusterIP sp)
       (ss_ClusterIPs sp) (ss_IPFamilies sp) (ss_IPFamilyPolicy sp) (ss_Type sp)
       (ss_SessionAffinity sp) (ss_InternalTrafficPolicy sp) (ss_TrafficDistribution sp)
       (ss_ExternalName sp) (ss_Other sp)).

(** ** Comparing services *)

Definition cmpServiceAffinity (a b : string) : bool :=
  let a := if (String.length a =? 0)%nat then "None" else a in
  let b := if (String.length b =? 0)%nat then "None" else b in
  a =s b.

Definition cmpServiceType (a b : string) : bool :=
  let a := if (String.length a =? 0)%nat then "ClusterIP" else a in
  let b := if (String.length b =? 0)%nat then "ClusterIP" else b in
  a =s b.

Definition cmpServiceInternalTrafficPolicyType (a b : option string) : bool :=
  default "Cluster" a =s default "Cluster" b.

(** cmp.Equal(current.Spec, expected.Spec, serviceCmpOpts...) *)
Definition service_spec_eqb (a b : ServiceSpec) : bool :=
  bool_decide (ss_Ports a = ss_Ports b)
  && bool_decide (ss_Selector a = ss_Selector b)
  && cmpServiceType (ss_Type a) (ss_Type b)
  && cmpServiceAffinity (ss_SessionAffinity a) (ss_SessionAffinity b)
  && cmpServiceInternalTrafficPolicyType (ss_InternalTrafficPolicy a) (ss_InternalTrafficPolicy b)
  && bool_decide (ss_TrafficDistribution a = ss_TrafficDistribution b)
  && (ss_ExternalName a =s ss_ExternalName b)
  && bool_decide (ss_Other a = ss_Other b).

(** cmp.Equal on the annotations, the entries that are not managed ignored. *)
Definition managed_annotations_eqb (a b : gmap string string) : bool :=
  forallb (λ k, bool_decide (a !! k = b !! k)) managedDNSServiceAnnotations.

(** One turn of the loop over the managed annotations. *)
Definition merge_service_annotation (current expected updated : gmap string string) (k : string)
    : gmap string string :=
  match current !! k, expected !! k with
  | Some currentVal, Some expectedVal =>
      if negb (currentVal =s expectedVal) then <[ k := expectedVal ]> updated else updated
  | None, Some expectedVal => <[ k := expectedVal ]> updated
  | Some _, None => delete k updated
  | None, None => updated
  end.

(** serviceChanged: the service to write, if one is needed. *)
Definition serviceChanged (current expected : Service) : option Service :=
  let cm := svc_meta current in
  let cs := svc_Spec current in
  let es := svc_Spec expected in
  let currentAnnotations := om_Annotations cm in
  let expectedAnnotations := om_Annotations (svc_meta expected) in
  if service_spec_eqb cs es && managed_annotations_eqb currentAnnotations expectedAnnotations
  then None
  else
    Some (mkService
      (mkObjectMeta (om_Name cm) (om_Namespace cm) (om_UID cm) (om_ResourceVersion cm) (om_Labels cm)
         (foldl (merge_service_annotation currentAnnotations expectedAnnotations) currentAnnotations
            managedDNSServiceAnnotations)
         (om_OwnerReferences cm) (om_Finalizers cm) (om_DeletionTimestamp cm))
      (mkServiceSpec (ss_Ports es) (ss_Selector es)
         (ss_ClusterIP cs) (ss_ClusterIPs cs) (ss_IPFamilies cs) (ss_IPFamilyPolicy cs)
         (ss_Type es) (ss_SessionAffinity es) (ss_InternalTrafficPolicy es)
         (ss_TrafficDistribution es) (ss_ExternalName es) (ss_Other es))).

(** ** Handlers *)

Section handlers.
Context {W : Type} `{Client W}.

Definition SvcResult : Type := option Service * option error.

Definition currentDNSService (dns : DNS) : M W SvcResult :=
  res ← call (client_Get KService (DNSServiceName dns));
  match res with
  | inr current => mret (Some current, None)
  | inl err => if IsNotFound err then mret (None, None) else mret (None, Some (api_error err))
  end.

Definition shouldEnableTopologyAwareHints (dns : DNS) : M W (error + bool) :=
  nodes ← call (cache_List KNode (mkListOptions None None));
  match nodes with
  | inl err => mret (inl (api_error err))
  | inr nodes => mret (inr (hints_loop nodes ∅))
  end.

Definition updateDNSService (current desired : Service) : M W (error + bool) :=
  match serviceChanged current desired with
  | None => mret (inr false)
  | Some updated =>
      res ← call (client_Update KService updated);
      match res with
      | inl err => mret (inl (Errorf_v ("failed to update dns service "
          +:+ nn_String (key_of KService updated) +:+ ": ") (api_error err)))
      | inr _ => mret (inr true)
      end
  end.

Definition ensureDNSService (dns : DNS) (clusterIP : string) (daemonsetRef : OwnerReference)
    : M W SvcResult :=
  cur ← currentDNSService dns;
  match cur with
  | (_, Some err) => mret (None, Some err)
  | (current, None) =>
      hints ← shouldEnableTopologyAwareHints dns;
      match hints with
      | inl err => mret (None, Some err)
      | inr enableTopologyAwareHints =>
          let desired := desiredDNSService dns clusterIP enableTopologyAwareHints daemonsetRef in
          match current with
          | None =>
              res ← call (client_Create KService desired);
              match res with
              | inl err => mret (None, Some (Errorf_v "failed to create dns service: " (api_error err)))
              | inr _ => currentDNSService dns
              end
          | Some current =>
              updated ← updateDNSService current desired;
              match updated with
              | inl err => mret (Some current, Some err)
              | inr true => currentDNSService dns
              | inr false => mret (Some current, None)
              end
          end
      end
  end.

End handlers.

(** ** Properties *)

(** What the loop decides. *)
Lemma hints_loop_true nodes :
  let counted := filter (λ n, ignoreNodeForTopologyAwareHints n = false) nodes in
  hints_loop nodes ∅ = true ↔
  Forall (λ n, node_AllocatableCPU n ≠ 0%Z ∧ node_zone n ≠ "") counted ∧
  2 ≤ size (list_to_set (C := gset string) (node_zone <$> counted)).
Proof.
  cbv zeta.
  assert (∀ zones, hints_loop nodes zones = true ↔
    Forall (λ n, node_AllocatableCPU n ≠ 0%Z ∧ node_zone n ≠ "")
      (filter (λ n, ignoreNodeForTopologyAwareHints n = false) nodes) ∧
    2 ≤ size (list_to_set (node_zone <$>
      (filter (λ n, ignoreNodeForTopologyAwareHints n = false) nodes)) ∪ zones)) as Hgen.
  { induction nodes as [|n nodes IH]; intros zones; cbn [hints_loop].
    { rewrite filter_nil, Nat.leb_le, fmap_nil. cbn [list_to_set]. rewrite (left_id_L ∅ (∪)). split; [|tauto]. split; [constructor|done]. }
    rewrite filter_cons. destruct (ignoreNodeForTopologyAwareHints n) eqn:E.
    - rewrite decide_False by done. apply IH.
    - rewrite decide_True by done. unfold nodeIsValidForTopologyAwareHints.
      rewrite Forall_cons. destruct (Z.eqb_spec (node_AllocatableCPU n) 0); simpl;
        [split; [done|tauto]|].
      case_bool_decide; simpl; [split; [done|tauto]|]. rewrite IH.
      replace (list_to_set (node_zone <$> filter (λ n0, ignoreNodeForTopologyAwareHints n0 = false) nodes)
               ∪ ({[node_zone n]} ∪ zones))
        with ({[node_zone n]} ∪ list_to_set (node_zone <$> filter (λ n0, ignoreNodeForTopologyAwareHints n0 = false) nodes)
               ∪ zones) by set_solver.
      tauto. }
  rewrite (Hgen ∅). by rewrite (right_id_L ∅ (∪)).
Qed.

(** The decision does not depend on the order of the nodes. *)
Lemma hints_loop_elem l l' : (∀ n, n ∈ l ↔ n ∈ l') → hints_loop l ∅ = hints_loop l' ∅.
Proof.
  intros Hl. apply Bool.eq_true_iff_eq. rewrite !hints_loop_true.
  assert (∀ n, n ∈ filter (λ n, ignoreNodeForTopologyAwareHints n = false) l ↔
               n ∈ filter (λ n, ignoreNodeForTopologyAwareHints n = false) l') as Hf
    by (intros n; rewrite !list_elem_of_filter, Hl; done).
  assert (list_to_set (C := gset string) (node_zone <$> filter (λ n, ignoreNodeForTopologyAwareHints n = false) l) =
          list_to_set (node_zone <$> filter (λ n, ignoreNodeForTopologyAwareHints n = false) l')) as ->.
  { apply set_eq. intros z. rewrite !elem_of_list_to_set, !list_elem_of_fmap. by setoid_rewrite Hf. }
  rewrite !Forall_forall. by setoid_rewrite Hf.
Qed.

(** C27: topology-aware hints are enabled exactly when every ready node that is
    neither a master nor a control-plane node has allocatable CPU and a zone, and these
    nodes lie in at least two zones. *)
Theorem hints_loop_spec nodes :
  let counted := filter (λ n, ignoreNodeForTopologyAwareHints n = false) nodes in
  hints_loop nodes ∅ = true ↔
  Forall (λ n, node_AllocatableCPU n ≠ 0%Z ∧ node_zone n ≠ "") counted ∧
  2 ≤ size (list_to_set (C := gset string) (node_zone <$> counted)).
Proof. apply hints_loop_true. Qed.

Lemma merge_service_annotation_lookup current expected updated k j :
  merge_service_annotation current expected updated k !! j =
  if decide (j = k) then
    (if decide (current !! k = expected !! k) then updated !! k else expected !! k) else updated !! j.
Proof.
  unfold merge_service_annotation.
  destruct (current !! k) as [x|] eqn:Ex, (expected !! k) as [y|] eqn:Ey; simpl.
  - case_bool_decide; simpl; repeat case_decide; simplify_eq; try done;
      by rewrite ?lookup_insert_eq, ?lookup_insert_ne.
  - repeat case_decide; simplify_eq; by rewrite ?lookup_delete_eq, ?lookup_delete_ne.
  - repeat case_decide; simplify_eq; by rewrite ?lookup_insert_eq, ?lookup_insert_ne.
  - by repeat case_decide; simplify_eq.
Qed.

(** The managed annotations get the expected values, the others keep theirs. *)
Lemma merged_service_annotations current expected j :
  foldl (merge_service_annotation current expected) current managedDNSServiceAnnotations !! j =
  if decide (j ∈ managedDNSServiceAnnotations) then expected !! j else current !! j.
Proof.
  unfold managedDNSServiceAnnotations. cbn [foldl]. rewrite !merge_service_annotation_lookup.
  assert (servingCertAnnotationKey ≠ topologyAwareHintsAnnotationKey) by done.
  destruct (decide (j ∈ _)) as [Hin|Hin]; set_unfold in Hin.
  - destruct Hin as [->|[->|[]]]; repeat case_decide; congruence.
  - repeat case_decide; naive_solver.
Qed.

Lemma service_spec_eqb_refl_managed cs es :
  service_spec_eqb (mkServiceSpec (ss_Ports es) (ss_Selector es) (ss_ClusterIP cs) (ss_ClusterIPs cs)
    (ss_IPFamilies cs) (ss_IPFamilyPolicy cs) (ss_Type es) (ss_SessionAffinity es)
    (ss_InternalTrafficPolicy es) (ss_TrafficDistribution es) (ss_ExternalName es) (ss_Other es)) es = true.
Proof.
  unfold service_spec_eqb, cmpServiceType, cmpServiceAffinity, cmpServiceInternalTrafficPolicyType.
  simpl. by rewrite !bool_decide_true.
Qed.

Lemma serviceChanged_stable current expected updated :
  serviceChanged current expected = Some updated → serviceChanged updated expected = None.
Proof.
  unfold serviceChanged at 1. case_match; [done|]. intros <-%(inj Some).
  unfold serviceChanged. cbn [svc_Spec svc_meta om_Annotations]. rewrite service_spec_eqb_refl_managed, andb_true_l.
  assert (managed_annotations_eqb (foldl (merge_service_annotation (om_Annotations (svc_meta current))
    (om_Annotations (svc_meta expected))) (om_Annotations (svc_meta current)) managedDNSServiceAnnotations)
    (om_Annotations (svc_meta expected)) = true) as ->; [|done].
  unfold managed_annotations_eqb. apply forallb_elem. intros k Hk.
  apply bool_decide_true. rewrite merged_service_annotations. by rewrite decide_True.
Qed.

Lemma serviceChanged_refl s : serviceChanged s s = None.
Proof.
  unfold serviceChanged, service_spec_eqb, cmpServiceType, cmpServiceAffinity, cmpServiceInternalTrafficPolicyType.
  rewrite !bool_decide_true by done. unfold managed_annotations_eqb.
  assert (forallb (λ k, bool_decide (om_Annotations (svc_meta s) !! k = om_Annotations (svc_meta s) !! k))
    managedDNSServiceAnnotations = true) as ->; [|done].
  apply forallb_elem. intros k _. by apply bool_decide_true.
Qed.



Section footprints.
Context {W : Type} `{ClientLaws W}.

Lemma touches_ensureDNSService S dns clusterIP ref :
  (KService, DNSServiceName dns) ∈ S → touches S (ensureDNSService (W := W) dns clusterIP ref).
Proof.
  intros Hin. unfold ensureDNSService, currentDNSService, shouldEnableTopologyAwareHints.
  eapply (touches_bind_returns _ (λ res : SvcResult, ∀ svc, res.1 = Some svc →
    key_of KService svc = DNSServiceName dns)); [footprint| |].
  { eapply returns_bind; [apply returns_Get|].
    intros [err|svc] Hk; [case_match|]; apply returns_ret; naive_solver. }
  intros [cur [err|]] Hk; [footprint|]. simpl in Hk.
  apply touches_bind; [footprint|]. intros [err|hints]; [footprint|].
  destruct cur as [cur|]; [|apply touches_bind; [by apply touches_Create|footprint]].
  apply touches_bind; [|footprint]. unfold updateDNSService.
  destruct (serviceChanged cur _) as [u|] eqn:E; [|footprint].
  apply touches_bind; [apply touches_Update|footprint].
  assert (key_of KService u = key_of KService cur) as ->; [|by rewrite Hk].
  revert E. unfold serviceChanged. case_match; [done|]. by intros [= <-].
Qed.

End footprints.
