(* ===== verification/NodeResolver.v ===== *)
(** * The node-resolver daemonset:
    pkg/operator/controller/controller_dns_node_resolver_daemonset.go *)

From S2P Require Import Prelude GoLib Types Labels Client Mem Names Manifests Embedded Samples DaemonSet.

(** The embedded shell script assets/node-resolver/update-node-resolver.sh. *)
Class Assets := { nodeResolverScript : string }.

Definition services : string := "image-registry.openshift-image-registry.svc".
Definition workloadPartitioningManagement : string := "target.workload.openshift.io/management".

Section node_resolver.
Context `{Assets}.

(** The environment of the container. *)
Definition node_resolver_envs (clusterIP clusterDomain : string) : list EnvVar :=
  [mkEnvVar "SERVICES" services None]
  ++ (if (0 <? String.length clusterIP)%nat then [mkEnvVar "NAMESERVER" clusterIP None] else [])
  ++ (if (0 <? String.length clusterDomain)%nat then [mkEnvVar "CLUSTER_DOMAIN" clusterDomain None] else []).

(** desiredNodeResolverDaemonSet: (wantDS, daemonset, err) is [inr] of the
    daemonset if one is wanted. *)
Definition desiredNodeResolverDaemonSet (dns : DNS) (clusterIP clusterDomain openshiftCLIImage : string)
    : error + option DaemonSet :=
  let name := NodeResolverDaemonSetName in
  inr (Some (mkDaemonSet
    (mkObjectMeta (nn_Name name) (nn_Namespace name) "" "" ∅ ∅ [dnsOwnerRef dns] [] None)
    (mkDaemonSetSpec (Some NodeResolverDaemonSetPodSelector)
       (mkPodTemplateSpec (ls_MatchLabels NodeResolverDaemonSetPodSelector)
          {[ workloadPartitioningManagement :=
               "{" +:+ dquote +:+ "effect" +:+ dquote +:+ ": "
               +:+ dquote +:+ "PreferredDuringScheduling" +:+ dquote +:+ "}" ]}
          (mkPodSpec
             [mkContainer "dns-node-resolver" openshiftCLIImage
                ["/bin/bash"; "-c"; nodeResolverScript] []
                (node_resolver_envs clusterIP clusterDomain)
                [mkVolumeMount "hosts-file" "/etc/hosts" false ∅; mkVolumeMount "tmp-dir" "/tmp" false ∅]
                None None []
                (list_to_map [
                   ("imagePullPolicy", "IfNotPresent");
                   ("resources", "{requests: {cpu: 5m, memory: 21Mi}}");
                   ("securityContext", "{privileged: true, readOnlyRootFilesystem: true}");
                   ("terminationMessagePolicy", "FallbackToLogsOnError")])]
             {[ "kubernetes.io/os" := "linux" ]}
             [mkToleration "" "Exists" "" "" None]
             [mkVolume "hosts-file" None None (Some (mkHostPathVolumeSource "/etc/hosts" (Some "File"))) None None;
              mkVolume "tmp-dir" None None None (Some "{}") None]
             None
             (list_to_map [
                ("hostNetwork", "true");
                ("priorityClassName", "system-node-critical");
                ("serviceAccountName", "node-resolver")])))
       (mkDaemonSetUpdateStrategy "RollingUpdate"
          (Some (mkRollingUpdateDaemonSet (Some (StrVal "33%")) (Some (IntVal 0)))))
       0)
    (mkDaemonSetStatus 0 0 0))).

(** Field updates of a container. *)
Definition c_set_command (c : Container) (command : list string) : Container :=
  mkContainer (c_Name c) (c_Image c) command (c_Args c) (c_Env c) (c_VolumeMounts c)
    (c_ReadinessProbe c) (c_LivenessProbe c) (c_Ports c) (c_Other c).
Definition c_set_env (c : Container) (env : list EnvVar) : Container :=
  mkContainer (c_Name c) (c_Image c) (c_Command c) (c_Args c) env (c_VolumeMounts c)
    (c_ReadinessProbe c) (c_LivenessProbe c) (c_Ports c) (c_Other c).

(** The container part of nodeResolverDaemonSetConfigChanged: the new containers
    and whether they changed. *)
Definition node_resolver_containers (current expected : list Container) : list Container * bool :=
  if negb (length current =? length expected)%nat then (expected, true)
  else
    match current, expected with
    | c :: rest, e :: _ =>
        let '(u, changed) := if negb (bool_decide (c_Command c = c_Command e))
                             then (c_set_command c (c_Command e), true) else (c, false) in
        let '(u, changed) := if negb (c_Image c =s c_Image e)
                             then (c_set_image u (c_Image e), true) else (u, changed) in
        let '(u, changed) := if negb (bool_decide (c_Env c = c_Env e))
                             then (c_set_env u (c_Env e), true) else (u, changed) in
        (u :: rest, changed)
    | _, _ => (current, false)
    end.

(** nodeResolverDaemonSetConfigChanged; the outer [None] is a panic of package cmp. *)
Definition nodeResolverDaemonSetConfigChanged (current expected : DaemonSet) : option (option DaemonSet) :=
  let cur := ds_podspec current in
  let exp := ds_podspec expected in
  let '(updated, changed) :=
    if negb (bool_decide (dss_UpdateStrategy (ds_Spec current) = dss_UpdateStrategy (ds_Spec expected)))
    then (ds_set_strategy current (dss_UpdateStrategy (ds_Spec expected)), true)
    else (current, false) in
  let '(containers, containersChanged) :=
    node_resolver_containers (ps_Containers cur) (ps_Containers exp) in
  let updated := ds_set_containers updated containers in
  let changed := changed || containersChanged in
  let '(updated, changed) :=
    if negb (bool_decide (ps_NodeSelector cur = ps_NodeSelector exp))
    then (ds_set_nodeSelector updated (ps_NodeSelector exp), true) else (updated, changed) in
  tolerationsEqual ← tolerations_eqb (ps_Tolerations cur) (ps_Tolerations exp);
  let '(updated, changed) :=
    if negb tolerationsEqual
    then (ds_set_tolerations updated (ps_Tolerations exp), true) else (updated, changed) in
  let '(updated, changed) :=
    if negb (volumes_eqb (ps_Volumes cur) (ps_Volumes exp))
    then (ds_set_volumes updated (ps_Volumes exp), true) else (updated, changed) in
  Some (if changed then Some updated else None).

(** ** Handlers *)

Section handlers.
Context {W : Type} `{Client W} (r : reconciler).

Definition currentNodeResolverDaemonSet : M W DSResult :=
  res ← call (client_Get KDaemonSet NodeResolverDaemonSetName);
  match res with
  | inr daemonset => mret (Some daemonset, None)
  | inl err => if IsNotFound err then mret (None, None) else mret (None, Some (api_error err))
  end.

Definition createNodeResolverDaemonSet (daemonset : DaemonSet) : M W (option error) :=
  res ← call (client_Create KDaemonSet daemonset);
  match res with
  | inr _ => mret None
  | inl err => mret (Some (Errorf_v ("failed to create node resolver daemonset "
      +:+ nn_String (key_of KDaemonSet daemonset) +:+ ": ") (api_error err)))
  end.

Definition deleteNodeResolverDaemonSet (daemonset : DaemonSet) : M W (option error) :=
  err ← call (client_Delete KDaemonSet (key_of KDaemonSet daemonset));
  match err with
  | Some err =>
      if IsNotFound err then mret None
      else mret (Some (Errorf_v ("failed to delete node resolver daemonset "
             +:+ nn_String (key_of KDaemonSet daemonset) +:+ ": ") (api_error err)))
  | None => mret None
  end.

Definition updateNodeResolverDaemonSet (current desired : DaemonSet) : M W (error + bool) :=
  change ← lift_option (nodeResolverDaemonSetConfigChanged current desired);
  match change with
  | None => mret (inr false)
  | Some updated =>
      res ← call (client_Update KDaemonSet updated);
      match res with
      | inl err => mret (inl (Errorf_v ("failed to update node resolver daemonset "
          +:+ nn_String (key_of KDaemonSet updated) +:+ ": ") (api_error err)))
      | inr _ => mret (inr true)
      end
  end.

Definition ensureNodeResolverDaemonSet (dns : DNS) (clusterIP clusterDomain : string) : M W DSResult :=
  cur ← currentNodeResolverDaemonSet;
  match cur with
  | (_, Some err) => mret (None, Some err)
  | (current, None) =>
      match desiredNodeResolverDaemonSet dns clusterIP clusterDomain (cfg_OpenshiftCLIImage (r_Config r)) with
      | inl err => mret (current, Some (Errorf_v "failed to build node resolver daemonset: " err))
      | inr desired =>
          match desired, current with
          | None, None => mret (None, None)
          | None, Some current =>
              err ← deleteNodeResolverDaemonSet current;
              match err with
              | Some err => mret (Some current, Some err)
              | None => mret (None, None)
              end
          | Some desired, None =>
              err ← createNodeResolverDaemonSet desired;
              match err with
              | Some err => mret (None, Some err)
              | None => currentNodeResolverDaemonSet
              end
          | Some desired, Some current =>
              updated ← updateNodeResolverDaemonSet current desired;
              match updated with
              | inl err => mret (Some current, Some err)
              | inr true => currentNodeResolverDaemonSet
              | inr false => mret (Some current, None)
              end
          end
      end
  end.

End handlers.

(** ** Properties *)

(** nodeResolverDaemonSetConfigChanged in straight-line form. *)
Definition nr_updated (current expected : DaemonSet) (tolerationsEqual : bool) : DaemonSet :=
  let cur := ds_podspec current in
  let exp := ds_podspec expected in
  mkDaemonSet (ds_meta current)
    (mkDaemonSetSpec (dss_Selector (ds_Spec current))
       (mkPodTemplateSpec (pt_Labels (ds_template current)) (pt_Annotations (ds_template current))
          (mkPodSpec (node_resolver_containers (ps_Containers cur) (ps_Containers exp)).1
             (if negb (bool_decide (ps_NodeSelector cur = ps_NodeSelector exp))
              then ps_NodeSelector exp else ps_NodeSelector cur)
             (if negb tolerationsEqual then ps_Tolerations exp else ps_Tolerations cur)
             (if negb (volumes_eqb (ps_Volumes cur) (ps_Volumes exp))
              then ps_Volumes exp else ps_Volumes cur)
             (ps_TerminationGracePeriodSeconds cur) (ps_Other cur)))
       (if negb (bool_decide (dss_UpdateStrategy (ds_Spec current) = dss_UpdateStrategy (ds_Spec expected)))
        then dss_UpdateStrategy (ds_Spec expected) else dss_UpdateStrategy (ds_Spec current))
       (dss_MinReadySeconds (ds_Spec current)))
    (ds_Status current).

Definition nr_changed (current expected : DaemonSet) (tolerationsEqual : bool) : bool :=
  let cur := ds_podspec current in
  let exp := ds_podspec expected in
  negb (volumes_eqb (ps_Volumes cur) (ps_Volumes exp))
  || (negb tolerationsEqual
  || (negb (bool_decide (ps_NodeSelector cur = ps_NodeSelector exp))
  || (negb (bool_decide (dss_UpdateStrategy (ds_Spec current) = dss_UpdateStrategy (ds_Spec expected))) || false
      || (node_resolver_containers (ps_Containers cur) (ps_Containers exp)).2))).

Lemma nodeResolverDaemonSetConfigChanged_fields current expected :
  nodeResolverDaemonSetConfigChanged current expected =
  (tolerationsEqual ←
     tolerations_eqb (ps_Tolerations (ds_podspec current)) (ps_Tolerations (ds_podspec expected));
   Some (if nr_changed current expected tolerationsEqual
         then Some (nr_updated current expected tolerationsEqual) else None)).
Proof.
  unfold nodeResolverDaemonSetConfigChanged, nr_changed, nr_updated.
  destruct (node_resolver_containers _ _) as [cs cc].
  destruct (tolerations_eqb _ _) as [te|]; [|by repeat case_match]. simpl.
  repeat (rewrite if_changed; cbv beta iota).
  repeat match goal with
  | |- context [if ?b then ?f ?u ?v else ?u] =>
      first [ rewrite (proj1 (proj2 (if_ds_set b u)))
            | rewrite (proj1 (proj2 (proj2 (if_ds_set b u))))
            | rewrite (proj1 (proj2 (proj2 (proj2 (proj2 (if_ds_set b u))))))
            | rewrite (proj1 (proj2 (proj2 (proj2 (proj2 (proj2 (if_ds_set b u))))))) ]
  end.
  reflexivity.
Qed.

(** The container part, once applied, has nothing left to change. *)
Lemma node_resolver_containers_stable current expected :
  (node_resolver_containers (node_resolver_containers current expected).1 expected).2 = false.
Proof.
  unfold node_resolver_containers.
  destruct (length current =? length expected)%nat eqn:El; simpl.
  - destruct current as [|c cs], expected as [|e es]; try done. cbn [length Nat.eqb] in El.
    repeat case_bool_decide; simpl; rewrite El; simpl; repeat case_bool_decide; simplify_eq/=;
      congruence.
  - rewrite Nat.eqb_refl. simpl. destruct expected as [|e es]; [done|].
    by rewrite !bool_decide_true.
Qed.

End node_resolver.

(** The updated daemonset has the metadata of the current one. *)
Lemma nodeResolverDaemonSetConfigChanged_meta current expected updated :
  nodeResolverDaemonSetConfigChanged current expected = Some (Some updated) → ds_meta updated = ds_meta current.
Proof.
  rewrite nodeResolverDaemonSetConfigChanged_fields. destruct (tolerations_eqb _ _); [|done].
  simpl. case_match; [|done]. by intros <-%(inj Some)%(inj Some).
Qed.

Lemma nodeResolverDaemonSetConfigChanged_stable current expected updated :
  nodeResolverDaemonSetConfigChanged current expected = Some (Some updated) →
  nodeResolverDaemonSetConfigChanged updated expected = Some None.
Proof.
  rewrite nodeResolverDaemonSetConfigChanged_fields.
  destruct (tolerations_eqb _ _) as [te|] eqn:Et; [|done]. simpl.
  destruct (nr_changed current expected te) eqn:Ec; [|done]. intros <-%(inj Some)%(inj Some).
  rewrite nodeResolverDaemonSetConfigChanged_fields.
  assert (tolerations_eqb (ps_Tolerations (ds_podspec (nr_updated current expected te)))
    (ps_Tolerations (ds_podspec expected)) = Some true) as ->.
  { unfold nr_updated. simpl. destruct te; [done|]. simpl. eapply cmp_Equal_SortSlices_self; [|exact Et].
    intros a. by apply bool_decide_true. }
  simpl. assert (nr_changed (nr_updated current expected te) expected true = false) as ->; [|done].
  unfold nr_changed, nr_updated. cbn [ds_podspec ds_template ds_Spec dss_Template pt_Spec dss_UpdateStrategy
    ps_NodeSelector ps_Volumes ps_Containers negb].
  rewrite node_resolver_containers_stable.
  assert (volumes_eqb (if negb (volumes_eqb (ps_Volumes (ds_podspec current)) (ps_Volumes (ds_podspec expected)))
    then ps_Volumes (ds_podspec expected) else ps_Volumes (ds_podspec current))
    (ps_Volumes (ds_podspec expected)) = true) as ->.
  { destruct (volumes_eqb (ps_Volumes (ds_podspec current)) _) eqn:E; [done|apply volumes_eqb_refl]. }
  do 2 (rewrite bool_decide_true by (by case_bool_decide)). done.
Qed.

(** A daemonset needs no change to become itself, and its status does not count. *)
Lemma nodeResolverDaemonSetConfigChanged_refl d x : nodeResolverDaemonSetConfigChanged d d = Some x → x = None.
Proof.
  rewrite nodeResolverDaemonSetConfigChanged_fields. destruct (tolerations_eqb _ _) as [te|] eqn:Et; [|done].
  apply cmp_Equal_SortSlices_self in Et as Et'; [|intros a; by apply bool_decide_true].
  unfold tolerations_eqb in Et. rewrite Et in Et'. injection Et' as ->. simpl. unfold nr_changed.
  rewrite volumes_eqb_refl, !bool_decide_true by done. simpl.
  assert ((node_resolver_containers (ps_Containers (ds_podspec d)) (ps_Containers (ds_podspec d))).2 = false) as ->.
  { unfold node_resolver_containers. rewrite Nat.eqb_refl. simpl. destruct (ps_Containers (ds_podspec d)); [done|].
    by rewrite !bool_decide_true. }
  by intros [= <-].
Qed.

(** The comparison looks at the specs only. *)
Lemma nodeResolverDaemonSetConfigChanged_spec c c' d x :
  ds_Spec c' = ds_Spec c → nodeResolverDaemonSetConfigChanged c' d = Some x →
  ∃ y, nodeResolverDaemonSetConfigChanged c d = Some y ∧ (y = None → x = None).
Proof.
  destruct c as [m sp st], c' as [m' sp' st']. simpl. intros ->. rewrite !nodeResolverDaemonSetConfigChanged_fields.
  change (ds_podspec (mkDaemonSet m' sp st')) with (ds_podspec (mkDaemonSet m sp st)).
  destruct (tolerations_eqb _ _) as [te|]; [|done]. simpl. intros [= <-]. eexists. split; [done|].
  change (nr_changed (mkDaemonSet m' sp st') d te) with (nr_changed (mkDaemonSet m sp st) d te).
  by destruct (nr_changed _ d te).
Qed.

Section footprints.
Context `{Assets} {W : Type} `{ClientLaws W} (r : reconciler).

Lemma touches_ensureNodeResolverDaemonSet S dns clusterIP clusterDomain :
  (KDaemonSet, NodeResolverDaemonSetName) ∈ S →
  touches S (ensureNodeResolverDaemonSet (W := W) r dns clusterIP clusterDomain).
Proof.
  intros Hin. unfold ensureNodeResolverDaemonSet.
  eapply (touches_bind_returns _ (λ res : DSResult, ∀ ds, res.1 = Some ds →
    key_of KDaemonSet ds = NodeResolverDaemonSetName)); [unfold currentNodeResolverDaemonSet; footprint| |].
  { eapply returns_bind; [apply returns_Get|].
    intros [err|svc] Hk; [case_match|]; apply returns_ret; naive_solver. }
  intros [cur [err|]] Hk; [footprint|]. simpl in Hk.
  unfold desiredNodeResolverDaemonSet. destruct cur as [cur|].
  - apply touches_bind; [|unfold currentNodeResolverDaemonSet; footprint].
    unfold updateNodeResolverDaemonSet. set (desired := mkDaemonSet _ _ _).
    eapply (touches_bind_returns _ (λ ch, nodeResolverDaemonSetConfigChanged cur desired = Some ch)); [footprint| |].
    { intros w a w' [= ? <-]. done. }
    intros [u|] Hch; [|footprint]. apply touches_bind; [apply touches_Update|footprint].
    assert (key_of KDaemonSet u = key_of KDaemonSet cur) as ->; [|by rewrite Hk].
    revert Hch. rewrite nodeResolverDaemonSetConfigChanged_fields.
    destruct (tolerations_eqb _ _); [|done]. simpl. case_match; [|done]. intros <-%(inj Some)%(inj Some). done.
  - apply touches_bind; [|unfold currentNodeResolverDaemonSet; footprint].
    unfold createNodeResolverDaemonSet. apply touches_bind; [by apply touches_Create|footprint].
Qed.

End footprints.

(** The script that is embedded, for concrete runs. *)
#[export] Instance embedded_assets : Assets := {| nodeResolverScript := node_resolver_update_node_resolver_text |}.
