(* ===== verification/NetworkPolicies.v ===== *)
(** * Network policies, the cluster role and the service monitor:
    controller_dns_networkpolicy.go, controller_cluster_role.go and
    controller_service_monitor.go under pkg/operator/controller *)

From S2P Require Import Prelude GoLib Types Labels Client Mem Names Manifests Samples.

(** ** Network policies *)

Definition desiredDNSNetworkPolicy (dns : DNS) : NetworkPolicy :=
  let np := DNSNetworkPolicy in
  let m := netpol_meta np in
  let s := netpol_Spec np in
  let name := DNSNetworkPolicyName dns in
  mkNetworkPolicy
    (mkObjectMeta (nn_Name name) (nn_Namespace name) (om_UID m) (om_ResourceVersion m)
       (<[ OwningDNSLabel := DNSDaemonSetLabel dns ]> (om_Labels m)) (om_Annotations m)
       [dnsOwnerRef dns] (om_Finalizers m) (om_DeletionTimestamp m))
    (mkNetworkPolicySpec (DNSDaemonSetPodSelector dns) (nps_Ingress s) (nps_Egress s) (nps_PolicyTypes s)).

(** networkPolicyChanged *)
Definition networkPolicyChanged (current desired : NetworkPolicy) : bool * NetworkPolicy :=
  let cm := netpol_meta current in
  let dm := netpol_meta desired in
  let '(spec, changed) :=
    if negb (bool_decide (netpol_Spec current = netpol_Spec desired))
    then (netpol_Spec desired, true) else (netpol_Spec current, false) in
  let '(labels, changed) :=
    if negb (bool_decide (om_Labels cm = om_Labels dm)) then (om_Labels dm, true) else (om_Labels cm, changed) in
  let '(owners, changed) :=
    if negb (bool_decide (om_OwnerReferences cm = om_OwnerReferences dm))
    then (om_OwnerReferences dm, true) else (om_OwnerReferences cm, changed) in
  (changed,
   mkNetworkPolicy
     (mkObjectMeta (om_Name cm) (om_Namespace cm) (om_UID cm) (om_ResourceVersion cm) labels
        (om_Annotations cm) owners (om_Finalizers cm) (om_DeletionTimestamp cm)) spec).

(** ** The cluster role *)

Definition addDNSNameResolverPolicyRule (cr : ClusterRole) : ClusterRole :=
  mkClusterRole (cr_meta cr) (cr_Rules cr ++ [
    mkPolicyRule ["network.openshift.io"] ["dnsnameresolvers"] ["get"; "list"; "watch"] ∅;
    mkPolicyRule ["network.openshift.io"] ["dnsnameresolvers/status"] ["get"; "update"; "patch"] ∅]).

Definition desiredDNSClusterRole (dnsNameResolverEnabled : bool) : ClusterRole :=
  let cr := DNSClusterRole in
  if dnsNameResolverEnabled then addDNSNameResolverPolicyRule cr else cr.

(** clusterRoleChanged: the cluster role to write, if one is needed. *)
Definition clusterRoleChanged (current expected : ClusterRole) : option ClusterRole :=
  if bool_decide (cr_Rules current = cr_Rules expected) then None
  else Some (mkClusterRole (cr_meta current) (cr_Rules expected)).

(** ** The service monitor *)

(** cmp.Equal(a, b, EquateEmpty()) on unstructured values, with the entries of
    maps in key order. *)
Fixpoint unstructured_eqb (a b : Unstructured) : bool :=
  match a, b with
  | UString s, UString t => s =s t
  | UList l, UList k =>
      (fix go (l k : list Unstructured) : bool :=
         match l, k with
         | [], [] => true
         | x :: l, y :: k => unstructured_eqb x y && go l k
         | _, _ => false
         end) l k
  | UMap m, UMap n =>
      (fix go (m n : list (string * Unstructured)) : bool :=
         match m, n with
         | [], [] => true
         | (k, x) :: m, (j, y) :: n => (k =s j) && unstructured_eqb x y && go m n
         | _, _ => false
         end) m n
  | _, _ => false
  end.

Definition desiredServiceMonitor (dns : DNS) (svc : Service) (daemonsetRef : OwnerReference) : ServiceMonitor :=
  let name := DNSServiceMonitorName dns in
  mkServiceMonitor
    (mkObjectMeta (nn_Name name) (nn_Namespace name) "" "" ∅ ∅ [daemonsetRef] [] None)
    (Some (UMap [
      ("endpoints", UList [UMap [
         ("bearerTokenFile", UString "/var/run/secrets/kubernetes.io/serviceaccount/token");
         ("interval", UString "30s");
         ("path", UString "/metrics");
         ("port", UString "metrics");
         ("scheme", UString "https");
         ("tlsConfig", UMap [
            ("caFile", UString "/etc/prometheus/configmaps/serving-certs-ca-bundle/service-ca.crt");
            ("serverName", UString (om_Name (svc_meta svc) +:+ "." +:+ om_Namespace (svc_meta svc) +:+ ".svc"))])]]);
      ("namespaceSelector", UMap [("matchNames", UList [UString "openshift-dns"])]);
      ("selector", UMap [])])).

Definition serviceMonitorChanged (current expected : ServiceMonitor) : option ServiceMonitor :=
  let equal := match sm_spec current, sm_spec expected with
               | Some a, Some b => unstructured_eqb a b
               | None, None => true
               | _, _ => false
               end in
  if equal then None else Some (mkServiceMonitor (sm_meta current) (sm_spec expected)).

(** ** Handlers *)

Section handlers.
Context {W : Type} `{Client W} (r : reconciler).

Definition NPResult : Type := option NetworkPolicy * option error.

Definition currentDenyAllNetworkPolicy : M W NPResult :=
  res ← call (client_Get KNetworkPolicy (key_of KNetworkPolicy NetworkPolicyDenyAll));
  match res with
  | inr current => mret (Some current, None)
  | inl err => if IsNotFound err then mret (None, None) else mret (None, Some (api_error err))
  end.

Definition currentDNSNetworkPolicy (dns : DNS) : M W NPResult :=
  res ← call (client_Get KNetworkPolicy (DNSNetworkPolicyName dns));
  match res with
  | inr current => mret (Some current, None)
  | inl err => if IsNotFound err then mret (None, None) else mret (None, Some (api_error err))
  end.

Definition updateDNSNetworkPolicy (current desired : NetworkPolicy) : M W (error + bool) :=
  let '(changed, updated) := networkPolicyChanged current desired in
  if negb changed then mret (inr false)
  else
    res ← call (client_Update KNetworkPolicy updated);
    match res with
    | inl err => mret (inl (ErrWrap ("failed to update dns networkpolicy "
        +:+ nn_String (key_of KNetworkPolicy updated) +:+ ": ") (api_error err)))
    | inr _ => mret (inr true)
    end.

Definition ensureDenyAllNetworkPolicy : M W NPResult :=
  cur ← currentDenyAllNetworkPolicy;
  match cur with
  | (_, Some err) => mret (None, Some err)
  | (None, None) =>
      res ← call (client_Create KNetworkPolicy NetworkPolicyDenyAll);
      match res with
      | inl err => mret (None, Some (ErrWrap "failed to create networkpolicy: " (api_error err)))
      | inr _ => currentDenyAllNetworkPolicy
      end
  | (Some current, None) =>
      updated ← updateDNSNetworkPolicy current NetworkPolicyDenyAll;
      match updated with
      | inl err => mret (Some current, Some err)
      | inr true => currentDenyAllNetworkPolicy
      | inr false => mret (Some current, None)
      end
  end.

Definition ensureDNSNetworkPolicy (dns : DNS) : M W NPResult :=
  cur ← currentDNSNetworkPolicy dns;
  match cur with
  | (_, Some err) => mret (None, Some err)
  | (None, None) =>
      res ← call (client_Create KNetworkPolicy (desiredDNSNetworkPolicy dns));
      match res with
      | inl err => mret (None, Some (ErrWrap "failed to create dns networkpolicy: " (api_error err)))
      | inr _ => currentDNSNetworkPolicy dns
      end
  | (Some current, None) =>
      updated ← updateDNSNetworkPolicy current (desiredDNSNetworkPolicy dns);
      match updated with
      | inl err => mret (Some current, Some err)
      | inr true => currentDNSNetworkPolicy dns
      | inr false => mret (Some current, None)
      end
  end.

Definition CRResult : Type := option ClusterRole * option error.

Definition dns_clusterrole_key : NamespacedName := mkNN "" (om_Name (cr_meta DNSClusterRole)).

Definition currentDNSClusterRole : M W CRResult :=
  res ← call (client_Get KClusterRole dns_clusterrole_key);
  match res with
  | inr current => mret (Some current, None)
  | inl err => if IsNotFound err then mret (None, None) else mret (None, Some (api_error err))
  end.

Definition updateDNSClusterRole (current desired : ClusterRole) : M W (error + bool) :=
  match clusterRoleChanged current desired with
  | None => mret (inr false)
  | Some updated =>
      res ← call (client_Update KClusterRole updated);
      match res with
      | inl err => mret (inl (Errorf_v ("failed to update dns cluster role "
          +:+ nn_String (key_of KClusterRole updated) +:+ ": ") (api_error err)))
      | inr _ => mret (inr true)
      end
  end.

Definition ensureDNSClusterRole : M W CRResult :=
  cur ← currentDNSClusterRole;
  match cur with
  | (_, Some err) => mret (None, Some err)
  | (None, None) =>
      res ← call (client_Create KClusterRole (desiredDNSClusterRole (r_dnsNameResolverEnabled r)));
      match res with
      | inl err => mret (None, Some (Errorf_v "failed to create dns cluster role: " (api_error err)))
      | inr _ => currentDNSClusterRole
      end
  | (Some current, None) =>
      updated ← updateDNSClusterRole current (desiredDNSClusterRole (r_dnsNameResolverEnabled r));
      match updated with
      | inl err => mret (Some current, Some err)
      | inr true => currentDNSClusterRole
      | inr false => mret (Some current, None)
      end
  end.

Definition SMResult : Type := option ServiceMonitor * option error.

Definition currentServiceMonitor (dns : DNS) : M W SMResult :=
  res ← call (client_Get KServiceMonitor (DNSServiceMonitorName dns));
  match res with
  | inr sm => mret (Some sm, None)
  | inl err => if IsNotFound err then mret (None, None) else mret (None, Some (api_error err))
  end.

Definition updateDNSServiceMonitor (current desired : ServiceMonitor) : M W (error + bool) :=
  match serviceMonitorChanged current desired with
  | None => mret (inr false)
  | Some updated =>
      res ← call (client_Update KServiceMonitor updated);
      match res with
      | inl err => mret (inl (Errorf_v ("failed to update dns servicemonitor "
          +:+ nn_String (key_of KServiceMonitor updated) +:+ ": ") (api_error err)))
      | inr _ => mret (inr true)
      end
  end.

Definition ensureServiceMonitor (dns : DNS) (svc : Service) (daemonsetRef : OwnerReference) : M W SMResult :=
  let desired := desiredServiceMonitor dns svc daemonsetRef in
  cur ← currentServiceMonitor dns;
  match cur with
  | (_, Some err) => mret (None, Some err)
  | (None, None) =>
      res ← call (client_Create KServiceMonitor desired);
      match res with
      | inl err => mret (None, Some (Errorf_v ("failed to create servicemonitor "
          +:+ nn_String (key_of KServiceMonitor desired) +:+ ": ") (api_error err)))
      | inr _ => currentServiceMonitor dns
      end
  | (Some current, None) =>
      updated ← updateDNSServiceMonitor current desired;
      match updated with
      | inl err => mret (Some current, Some err)
      | inr true => currentServiceMonitor dns
      | inr false => mret (Some current, None)
      end
  end.

End handlers.

(** ** Properties *)

(** NetworkPolicyChanged asks for an update exactly when the spec, the labels
    or the owners differ; the updated policy has the desired ones, keeps the rest of the
    current metadata, and needs no further update. *)
Lemma networkPolicyChanged_spec current desired :
  let '(changed, updated) := networkPolicyChanged current desired in
  (changed = false ↔ netpol_Spec current = netpol_Spec desired ∧
     om_Labels (netpol_meta current) = om_Labels (netpol_meta desired) ∧
     om_OwnerReferences (netpol_meta current) = om_OwnerReferences (netpol_meta desired)) ∧
  netpol_Spec updated = netpol_Spec desired ∧
  om_Labels (netpol_meta updated) = om_Labels (netpol_meta desired) ∧
  om_OwnerReferences (netpol_meta updated) = om_OwnerReferences (netpol_meta desired) ∧
  key_of KNetworkPolicy updated = key_of KNetworkPolicy current ∧
  om_Annotations (netpol_meta updated) = om_Annotations (netpol_meta current) ∧
  (networkPolicyChanged updated desired).1 = false.
Proof.
  unfold networkPolicyChanged. repeat case_bool_decide; simpl in *;
    repeat split; intros; destruct_and?; try done; try congruence;
    repeat case_bool_decide; done.
Qed.

Section footprints.
Context {W : Type} `{ClientLaws W} (r : reconciler).

Lemma touches_updateDNSNetworkPolicy S current desired :
  (KNetworkPolicy, key_of KNetworkPolicy current) ∈ S →
  touches S (updateDNSNetworkPolicy (W := W) current desired).
Proof.
  intros Hin. unfold updateDNSNetworkPolicy.
  destruct (networkPolicyChanged current desired) as [ch u] eqn:E.
  assert (key_of KNetworkPolicy u = key_of KNetworkPolicy current) as Hu.
  { revert E. unfold networkPolicyChanged. repeat case_match; intros; by simplify_eq. }
  destruct ch; cbn [negb]; [|footprint].
  apply touches_bind; [apply (touches_Update S KNetworkPolicy u); by rewrite Hu|footprint].
Qed.

(** The keys the handlers of this file write. *)
Lemma touches_ensureDenyAllNetworkPolicy S :
  (KNetworkPolicy, key_of KNetworkPolicy NetworkPolicyDenyAll) ∈ S →
  touches S (ensureDenyAllNetworkPolicy (W := W)).
Proof.
  intros Hin. unfold ensureDenyAllNetworkPolicy.
  eapply (touches_bind_returns _ (λ res : NPResult, ∀ o, res.1 = Some o →
    key_of KNetworkPolicy o = key_of KNetworkPolicy NetworkPolicyDenyAll));
    [unfold currentDenyAllNetworkPolicy; footprint| |].
  { eapply returns_bind; [apply returns_Get|].
    intros [err|o] Hk; [case_match|]; apply returns_ret; naive_solver. }
  intros [[cur|] [err|]] Hk; [footprint| |footprint|].
  - apply touches_bind; [apply touches_updateDNSNetworkPolicy; by rewrite Hk|].
    unfold currentDenyAllNetworkPolicy. footprint.
  - apply touches_bind; [by apply touches_Create|unfold currentDenyAllNetworkPolicy; footprint].
Qed.

Lemma touches_ensureDNSNetworkPolicy S dns :
  (KNetworkPolicy, DNSNetworkPolicyName dns) ∈ S →
  touches S (ensureDNSNetworkPolicy (W := W) dns).
Proof.
  intros Hin. unfold ensureDNSNetworkPolicy.
  eapply (touches_bind_returns _ (λ res : NPResult, ∀ o, res.1 = Some o →
    key_of KNetworkPolicy o = DNSNetworkPolicyName dns));
    [unfold currentDNSNetworkPolicy; footprint| |].
  { eapply returns_bind; [apply returns_Get|].
    intros [err|o] Hk; [case_match|]; apply returns_ret; naive_solver. }
  intros [[cur|] [err|]] Hk; [footprint| |footprint|].
  - apply touches_bind; [apply touches_updateDNSNetworkPolicy; by rewrite Hk|].
    unfold currentDNSNetworkPolicy. footprint.
  - apply touches_bind; [by apply touches_Create|unfold currentDNSNetworkPolicy; footprint].
Qed.

Lemma touches_ensureDNSClusterRole S :
  (KClusterRole, dns_clusterrole_key) ∈ S → touches S (ensureDNSClusterRole (W := W) r).
Proof.
  intros Hin. unfold ensureDNSClusterRole.
  eapply (touches_bind_returns _ (λ res : CRResult, ∀ o, res.1 = Some o →
    key_of KClusterRole o = dns_clusterrole_key)); [unfold currentDNSClusterRole; footprint| |].
  { eapply returns_bind; [apply returns_Get|].
    intros [err|o] Hk; [case_match|]; apply returns_ret; naive_solver. }
  intros [[cur|] [err|]] Hk; [footprint| |footprint|].
  - apply touches_bind; [|unfold currentDNSClusterRole; footprint].
    unfold updateDNSClusterRole, clusterRoleChanged. case_bool_decide; [footprint|].
    apply touches_bind; [apply touches_Update|footprint].
    specialize (Hk cur eq_refl). unfold key_of in *. simpl in *. by rewrite Hk.
  - apply touches_bind; [apply touches_Create|unfold currentDNSClusterRole; footprint].
    by destruct (r_dnsNameResolverEnabled r).
Qed.

Lemma touches_ensureServiceMonitor S dns svc ref :
  (KServiceMonitor, DNSServiceMonitorName dns) ∈ S →
  touches S (ensureServiceMonitor (W := W) dns svc ref).
Proof.
  intros Hin. unfold ensureServiceMonitor.
  eapply (touches_bind_returns _ (λ res : SMResult, ∀ o, res.1 = Some o →
    key_of KServiceMonitor o = DNSServiceMonitorName dns)); [unfold currentServiceMonitor; footprint| |].
  { eapply returns_bind; [apply returns_Get|].
    intros [err|o] Hk; [case_match|]; apply returns_ret; naive_solver. }
  intros [[cur|] [err|]] Hk; [footprint| |footprint|].
  - apply touches_bind; [|unfold currentServiceMonitor; footprint].
    unfold updateDNSServiceMonitor, serviceMonitorChanged. cbv zeta.
    match goal with |- context [if ?b then None else _] => destruct b end; [footprint|].
    apply touches_bind; [apply touches_Update|footprint].
    specialize (Hk cur eq_refl). unfold key_of in *. simpl in *. by rewrite Hk.
  - apply touches_bind; [by apply touches_Create|unfold currentServiceMonitor; footprint].
Qed.

End footprints.
