(* ===== verification/CABundle.v ===== *)
(** * CA bundle configmaps: pkg/operator/controller/controller_cabundle_configmap.go

    The copies of the user's CA bundles from openshift-config into openshift-dns,
    and the removal of the copies no longer referred to. *)

From S2P Require Import Prelude GoLib Types Labels Client Mem Names Manifests Samples.

Definition cmLabels : gmap string string := {[ "dns.operator.openshift.io/ca-bundle" := "true" ]}.
Definition cmLabelSelector : LabelSelector := mkLabelSelector cmLabels [].
(** cmSelector; building it cannot fail. *)
Definition cmSelector : Selector :=
  match LabelSelectorAsSelector (Some cmLabelSelector) with
  | inr s => s
  | inl _ => SelNothing
  end.

(** The name of the CA bundle of a TLS transport that has one. *)
Definition ca_bundle_name (tc : DNSTransportConfig) : option string :=
  if tc_Transport tc =s TLSTransport then
    match tc_TLS tc with
    | Some tls => if negb (tls_CABundle_Name tls =s "") then Some (tls_CABundle_Name tls) else None
    | None => None
    end
  else None.

(** configmapNames: of the upstream resolvers, then of the servers. *)
Definition configmapNames (dns : DNS) : list string :=
  omap ca_bundle_name
    (ur_TransportConfig (spec_UpstreamResolvers (dns_Spec dns))
     :: map (λ s, fp_TransportConfig (srv_ForwardPlugin s)) (spec_Servers (dns_Spec dns))).

(** desiredCABundleConfigMap *)
Definition desiredCABundleConfigMap (dns : DNS) (haveSource : bool) (sourceConfigmap : ConfigMap)
    (name : NamespacedName) : option ConfigMap :=
  if negb haveSource then None
  else match om_DeletionTimestamp (dns_meta dns) with
       | Some _ => None
       | None => Some (mkConfigMap
           (mkObjectMeta (nn_Name name) (nn_Namespace name) "" "" cmLabels ∅ [dnsOwnerRef dns] [] None)
           (cm_Data sourceConfigmap))
       end.

(** caBundleConfigmapsEqual: reflect.DeepEqual, nil and empty maps distinguished. *)
Definition caBundleConfigmapsEqual (a b : ConfigMap) : bool := bool_decide (cm_Data a = cm_Data b).

Section handlers.
Context {W : Type} `{Client W}.

Definition currentCABundleConfigMap (name : NamespacedName) : M W (error + option ConfigMap) :=
  if (String.length (nn_Name name) =? 0)%nat then mret (inr None)
  else
    res ← call (client_Get KConfigMap name);
    match res with
    | inr cm => mret (inr (Some cm))
    | inl err => if IsNotFound err then mret (inr None) else mret (inl (api_error err))
    end.

Definition updateCABundleConfigMap (current desired : ConfigMap) : M W (error + bool) :=
  if caBundleConfigmapsEqual current desired then mret (inr false)
  else
    res ← call (client_Update KConfigMap (mkConfigMap (cm_meta current) (cm_Data desired)));
    match res with
    | inl err => mret (inl (api_error err))
    | inr _ => mret (inr true)
    end.

(** A Delete whose NotFound error is ignored. *)
Definition deleteConfigMap (cm : ConfigMap) : M W (list error) :=
  err ← call (client_Delete KConfigMap (key_of KConfigMap cm));
  match err with
  | Some err => if IsNotFound err then mret []
                else mret [ErrWrap "failed to delete configmap: " (api_error err)]
  | None => mret []
  end.

(** One turn of the loop over configmapNames: the errors it appends. *)
Definition sync_ca_bundle (dns : DNS) (name : string) : M W (list error) :=
  let sourceName := mkNN GlobalUserSpecifiedConfigNamespace name in
  src ← currentCABundleConfigMap sourceName;
  match src with
  | inl err => mret [ErrWrap ("failed to get source ca bundle configmap " +:+ name +:+ ": ") err]
  | inr None => mret []
  | inr (Some source) =>
      let destName := CABundleConfigMapName (om_Name (cm_meta source)) in
      cur ← currentCABundleConfigMap destName;
      match cur with
      | inl err => mret [ErrWrap ("failed to get destination ca bundle configmap "
                                  +:+ nn_Name destName +:+ ": ") err]
      | inr current =>
          match desiredCABundleConfigMap dns true source destName, current with
          | None, None => mret []
          | None, Some current => deleteConfigMap current
          | Some desired, None =>
              res ← call (client_Create KConfigMap desired);
              match res with
              | inl err => mret [ErrWrap "failed to create configmap: " (api_error err)]
              | inr _ => mret []
              end
          | Some desired, Some current =>
              res ← updateCABundleConfigMap current desired;
              match res with
              | inl err => mret [ErrWrap "failed to update configmap: " err]
              | inr _ => mret []
              end
          end
      end
  end.

(** Run a loop whose body appends errors. *)
Fixpoint for_errs {A} (body : A → M W (list error)) (l : list A) : M W (list error) :=
  match l with
  | [] => mret []
  | a :: rest =>
      errs ← body a;
      errs' ← for_errs body rest;
      mret (errs ++ errs')
  end.

(** One turn of the loop over the listed configmaps. *)
Definition prune_ca_bundle (names : list string) (cm : ConfigMap) : M W (list error) :=
  if existsb (λ name, om_Name (cm_meta cm) =s nn_Name (CABundleConfigMapName name)) names
  then mret [] else deleteConfigMap cm.

Definition ensureCABundleConfigMaps (dns : DNS) : M W (option error) :=
  let names := configmapNames dns in
  errs ← for_errs (sync_ca_bundle dns) names;
  cmList ← call (cache_List KConfigMap
    (mkListOptions (Some DefaultOperandNamespace) (Some cmSelector)));
  let '(items, errs) := match cmList with
                        | inl err => ([], errs ++ [ErrWrap "failed to list ca bundle configmaps: " (api_error err)])
                        | inr items => (items, errs)
                        end in
  errs' ← for_errs (prune_ca_bundle names) items;
  mret (NewAggregate (Some <$> (errs ++ errs'))).

(** The revision of the CA bundle of one transport config, if it can be read
    (controller.go, caBundleRevisionMap). *)
Definition ca_bundle_revision (revisions : gmap string string) (tc : DNSTransportConfig)
    : M W (gmap string string) :=
  match ca_bundle_name tc with
  | None => mret revisions
  | Some caBundle =>
      res ← call (client_Get KConfigMap (CABundleConfigMapName caBundle));
      match res with
      | inl err => mret revisions
      | inr cm => mret (<[ caBundle := om_Name (cm_meta cm) +:+ "-" +:+ om_ResourceVersion (cm_meta cm) ]> revisions)
      end
  end.

Fixpoint ca_bundle_revisions (revisions : gmap string string) (tcs : list DNSTransportConfig)
    : M W (gmap string string) :=
  match tcs with
  | [] => mret revisions
  | tc :: rest =>
      revisions ← ca_bundle_revision revisions tc;
      ca_bundle_revisions revisions rest
  end.

Definition caBundleRevisionMap (dns : DNS) : M W (gmap string string) :=
  ca_bundle_revisions ∅
    (ur_TransportConfig (spec_UpstreamResolvers (dns_Spec dns))
     :: map (λ s, fp_TransportConfig (srv_ForwardPlugin s)) (spec_Servers (dns_Spec dns))).

End handlers.

(** ** Properties *)

Section props.
Context {W : Type} `{ClientLaws W}.

(** A loop that returns no errors keeps an invariant [I] that its error-free turns
    keep, and establishes [P a] for every element, if the turns keep that too. *)
Lemma for_errs_inv {A} (body : A → M W (list error)) (I : W → Prop) (P : A → W → Prop) l w :
  I w →
  (∀ a w, a ∈ l → I w → wlp (body a) (λ errs w', errs = [] →
     I w' ∧ P a w' ∧ ∀ b, b ∈ l → P b w → P b w') w) →
  wlp (for_errs body l) (λ errs w', errs = [] → I w' ∧ ∀ a, a ∈ l → P a w') w.
Proof.
  intros HI Hbody.
  assert (∀ dn rest w, dn ++ rest = l → I w → (∀ a, a ∈ dn → P a w) →
    wlp (for_errs body rest) (λ errs w', errs = [] → I w' ∧ ∀ a, a ∈ l → P a w') w) as Hgen;
    [|by apply (Hgen [] l); [done|done|set_solver]].
  intros dn rest. revert dn. induction rest as [|a rest IH]; intros dn w0 Hl HI0 HP; simpl.
  { rewrite wlp_ret. rewrite app_nil_r in Hl. subst. auto. }
  rewrite wlp_bind. eapply wlp_mono; [apply (Hbody a w0); [set_solver|done]|].
  intros [|e errs] w1 He; rewrite wlp_bind; [|by apply wlp_true].
  destruct (He eq_refl) as (HI1 & HPa & Hkeep).
  eapply wlp_mono; [apply (IH (dn ++ [a])); [by rewrite <- app_assoc|done|]|done].
  intros b [Hb| ->%list_elem_of_singleton]%elem_of_app; [|done].
  apply Hkeep; [set_solver|by apply HP].
Qed.

(** A source configmap in openshift-config and its copy in openshift-dns. *)
Definition source_key (name : string) : NamespacedName := mkNN GlobalUserSpecifiedConfigNamespace name.

(** The copy of [name] exists with the data of its source, if there is a source: the same
    data as far as [same] tells. *)
Definition synced_as (same : option (gmap string string) → option (gmap string string) → Prop)
    (name : string) (w : W) : Prop :=
  ∀ src, view w KConfigMap (source_key name) = Some src →
  ∃ cm, view w KConfigMap (CABundleConfigMapName name) = Some cm ∧ same (cm_Data cm) (cm_Data src).

(** The same data; a missing map is an empty one. *)
Definition same_data (a b : option (gmap string string)) : Prop := default ∅ a = default ∅ b.
Definition synced : string → W → Prop := synced_as same_data.

#[local] Instance same_data_refl : Reflexive same_data.
Proof. done. Qed.

Section stores.
Context (acc : ∀ k, obj k → obj k → Prop) `{!Stores W acc}.
Context (same : option (gmap string string) → option (gmap string string) → Prop) `{!Reflexive same}.
Context (Hsame : ∀ u o, acc KConfigMap u o → same (cm_Data o) (cm_Data u)).

Lemma currentCABundleConfigMap_spec name w :
  nn_Name name ≠ "" →
  wlp (currentCABundleConfigMap name) (λ res w',
    (∀ k n, view w' k n = view w k n) ∧
    match res with
    | inl _ => True
    | inr o => view w KConfigMap name = o ∧ ∀ cm, o = Some cm → key_of KConfigMap cm = name
    end) w.
Proof.
  intros Hne. unfold currentCABundleConfigMap.
  destruct (nn_Name name) eqn:En; [done|]. cbn [String.length Nat.eqb].
  rewrite wlp_bind, wlp_call.
  pose proof (get_frame KConfigMap name w) as Hframe.
  pose proof (get_found KConfigMap name w) as Hf. pose proof (get_missing KConfigMap name w) as Hm.
  pose proof (get_key KConfigMap name w) as Hk.
  destruct (client_Get KConfigMap name w) as [[err|o] w1]; cbn [fst snd] in *.
  - destruct err as [m|m]; simpl; rewrite wlp_ret; [|done].
    split; [done|]. split; [by apply (Hm m)|done].
  - rewrite wlp_ret. split; [done|]. split; [by apply Hf|]. intros cm [= <-]. by apply Hk.
Qed.

(** One write of the copy of [name]: the other keys keep their objects. *)
Lemma keep_synced name name' w w' :
  (∀ k n, (k, n) ≠ (KConfigMap, CABundleConfigMapName name) → view w' k n = view w k n) →
  synced_as same name w' → synced_as same name' w → synced_as same name' w'.
Proof.
  intros Hframe Hs Hs'. destruct (decide (name' = name)) as [->|Hne]; [done|].
  intros src Hsrc. rewrite Hframe in Hsrc by done. destruct (Hs' src Hsrc) as (cm & Hcm & Hd).
  exists cm. split; [|done]. rewrite Hframe; [done|].
  intros [= Heq]. apply Hne. by simplify_eq.
Qed.

Lemma sync_ca_bundle_spec dns name w :
  name ≠ "" → om_DeletionTimestamp (dns_meta dns) = None →
  wlp (sync_ca_bundle dns name) (λ errs w',
    (∀ k n, (k, n) ≠ (KConfigMap, CABundleConfigMapName name) → view w' k n = view w k n) ∧
    (errs = [] → synced_as same name w')) w.
Proof.
  intros Hne Hdel. unfold sync_ca_bundle. rewrite wlp_bind.
  eapply wlp_mono; [by apply currentCABundleConfigMap_spec|].
  intros [err|[source|]] w1 [Hf1 Hres]; [by rewrite wlp_ret| |].
  2:{ rewrite wlp_ret. split; [auto|]. intros _ src Hsrc. rewrite Hf1 in Hsrc.
      destruct Hres as [Hres _]. unfold source_key in Hsrc. simpl in Hres. congruence. }
  destruct Hres as [Hsrc Hkey]. specialize (Hkey source eq_refl).
  assert (om_Name (cm_meta source) = name) as -> by (by inversion Hkey).
  rewrite wlp_bind. eapply wlp_mono; [apply currentCABundleConfigMap_spec; done|].
  intros [err|current] w2 [Hf2 Hcur]; [rewrite wlp_ret; split; [intros; by rewrite Hf2|done]|].
  unfold desiredCABundleConfigMap. rewrite Hdel. cbn [negb].
  set (desired := mkConfigMap _ _).
  assert (∀ w3 (o : ConfigMap), (∀ k n, (k, n) ≠ (KConfigMap, CABundleConfigMapName name) →
      view w3 k n = view w2 k n) → view w3 KConfigMap (CABundleConfigMapName name) = Some o →
      same (cm_Data o) (cm_Data source) → synced_as same name w3) as Hsync.
  { intros w3 o Hf3 Ho Hd src Hs. rewrite Hf3, Hf2, Hf1 in Hs by done.
    unfold source_key in Hs. assert (src = source) as -> by congruence. eauto. }
  destruct current as [current|]; destruct Hcur as [Hcur Hck].
  - specialize (Hck current eq_refl). rewrite wlp_bind. unfold updateCABundleConfigMap, caBundleConfigmapsEqual.
    case_bool_decide as Heq.
    + rewrite !wlp_ret. split; [intros; by rewrite Hf2|]. intros _.
      apply (Hsync w2 current); [done|by rewrite Hf2|by rewrite Heq].
    + rewrite wlp_bind, wlp_call. set (u := mkConfigMap _ _).
      assert (key_of KConfigMap u = CABundleConfigMapName name) as Hu by exact Hck.
      assert (released KConfigMap u = false) as Hr.
      { rewrite <- (view_live _ _ _ _ Hcur). by apply released_kept. }
      destruct (stores_update KConfigMap u w2 Hr) as (Hother & _ & Hok). rewrite Hu in *.
      destruct (client_Update KConfigMap u w2) as [[err|o] w3]; cbn [fst snd] in *; rewrite !wlp_ret;
        (split; [intros k n Hkn; rewrite Hother by done; by rewrite Hf2|]); [done|]. intros _.
      destruct (Hok o eq_refl) as [Hd%Hsame Ho]. by apply (Hsync w3 o).
  - rewrite wlp_bind, wlp_call. destruct (stores_create KConfigMap desired w2) as (Hother & _ & Hok).
    change (key_of KConfigMap desired) with (CABundleConfigMapName name) in *.
    destruct (client_Create KConfigMap desired w2) as [[err|o] w3]; cbn [fst snd] in *; rewrite wlp_ret;
      (split; [intros k n Hkn; rewrite Hother by done; by rewrite Hf2|]); [done|]. intros _.
    destruct (Hok o eq_refl) as [Hd%Hsame Ho]. by apply (Hsync w3 o).
Qed.

Lemma configmapNames_nonempty dns name : name ∈ configmapNames dns → name ≠ "".
Proof.
  unfold configmapNames. intros Hin. apply list_elem_of_omap in Hin as (tc & _ & Hn). revert Hn.
  unfold ca_bundle_name. repeat case_match; intros; simplify_eq. by to_prop.
Qed.

(** The objects the pruning loop may delete: listed copies in openshift-dns. *)
Definition prunable (cm : ConfigMap) : Prop := om_Namespace (cm_meta cm) = DefaultOperandNamespace.

Lemma touches_deleteConfigMap S cm :
  (KConfigMap, key_of KConfigMap cm) ∈ S → touches S (deleteConfigMap (W := W) cm).
Proof. intros Hin. unfold deleteConfigMap. footprint. Qed.

Lemma prune_ca_bundle_spec names cm w :
  prunable cm →
  wlp (prune_ca_bundle names cm) (λ _ w',
    (∀ k n, k ≠ KConfigMap ∨ nn_Namespace n ≠ DefaultOperandNamespace → view w' k n = view w k n) ∧
    ∀ name, name ∈ names → view w' KConfigMap (CABundleConfigMapName name)
                           = view w KConfigMap (CABundleConfigMapName name)) w.
Proof.
  intros Hp. unfold prune_ca_bundle. destruct (existsb _ names) eqn:Ex; [by rewrite wlp_ret|].
  rewrite existsb_elem_false in Ex.
  eapply wlp_mono; [apply (wlp_touches {[ (KConfigMap, key_of KConfigMap cm) ]}),
    touches_deleteConfigMap; set_solver|].
  intros errs w' Hf. split.
  - intros k n Hkn. apply Hf. intros Hin. apply elem_of_singleton in Hin. simplify_eq.
    destruct Hkn as [?|Hns]; [done|]. by apply Hns.
  - intros name Hin. apply Hf. intros Heq. apply elem_of_singleton in Heq.
    specialize (Ex name Hin). apply bool_decide_eq_false in Ex. apply Ex. by inversion Heq.
Qed.

Lemma cmList_prunable w items :
  (cache_List KConfigMap (mkListOptions (Some DefaultOperandNamespace) (Some cmSelector)) w).1 = inr items →
  ∀ cm, cm ∈ items → prunable cm.
Proof.
  intros Hl cm Hcm. pose proof (cache_list_match _ _ _ _ _ Hl Hcm) as Hm.
  unfold list_matches in Hm. simpl in Hm. to_prop. tauto.
Qed.

(** A run without errors: the copies are there, and nothing outside the configmaps of
    openshift-dns has been touched. *)
Lemma ensureCABundleConfigMaps_copies dns w w' :
  om_DeletionTimestamp (dns_meta dns) = None →
  ensureCABundleConfigMaps dns w = (Some None, w') →
  (∀ k n, k ≠ KConfigMap ∨ nn_Namespace n ≠ DefaultOperandNamespace → view w' k n = view w k n) ∧
  ∀ name, name ∈ configmapNames dns → synced_as same name w'.
Proof.
  intros Hdel Hrun.
  set (I := λ w0 : W, ∀ k n, k ≠ KConfigMap ∨ nn_Namespace n ≠ DefaultOperandNamespace →
                      view w0 k n = view w k n).
  assert (wlp (ensureCABundleConfigMaps dns) (λ res w',
    res = None → I w' ∧ ∀ name, name ∈ configmapNames dns → synced_as same name w') w) as Hwlp;
    [|by apply (wlp_run _ _ _ _ _ Hwlp Hrun)].
  unfold ensureCABundleConfigMaps. rewrite wlp_bind.
  eapply wlp_mono; [apply (for_errs_inv _ I (synced_as same)); [done|]|].
  { intros name w0 Hin HI. eapply wlp_mono; [apply sync_ca_bundle_spec; [|done]|].
    { by eapply configmapNames_nonempty. }
    intros errs w1 [Hf Hs] He. specialize (Hs He). split; [|split; [done|]].
    - intros k n Hkn. rewrite Hf; [by apply HI|]. intros [= -> ->]. destruct Hkn as [?|Hns]; [done|].
      by apply Hns.
    - intros name' _ Hs'. by eapply keep_synced. }
  intros errs w1 Hsync. rewrite wlp_bind, wlp_call.
  pose proof (cache_list_frame KConfigMap (mkListOptions (Some DefaultOperandNamespace) (Some cmSelector)) w1) as Hfl.
  pose proof (cmList_prunable w1) as Hpr.
  destruct (cache_List _ _ w1) as [[err|items] w2]; cbn [fst snd] in *.
  { simpl. rewrite wlp_bind, !wlp_ret. intros Hn. exfalso. apply NewAggregate_somes in Hn.
    by destruct errs. }
  rewrite wlp_bind. destruct errs as [|e errs].
  2:{ apply wlp_true. intros errs' w3. rewrite wlp_ret. intros Hn. by apply NewAggregate_somes in Hn. }
  destruct (Hsync eq_refl) as [HI Hall].
  set (J := λ w0 : W, I w0 ∧ ∀ name, name ∈ configmapNames dns → synced_as same name w0).
  eapply wlp_mono; [apply (for_errs_inv _ J (λ _ _, True))|].
  - split; [intros k n Hkn; rewrite Hfl; by apply HI|].
    intros name Hin src. unfold synced_as in Hall. rewrite !Hfl. by apply Hall.
  - intros cm w0 Hin [HI0 Hs0].
    eapply wlp_mono; [apply prune_ca_bundle_spec; by eapply Hpr|].
    intros errs' w3 [Hf Hk] _. split; [|done]. split.
    + intros k n Hkn. rewrite Hf by done. by apply HI0.
    + intros name Hin' src. rewrite (Hf KConfigMap (source_key name)) by (right; done).
      rewrite Hk by done. by apply Hs0.
  - intros errs' w3 HJ. rewrite wlp_ret. intros Hn%NewAggregate_somes. simpl in Hn.
    destruct (HJ Hn) as [? _]. done.
Qed.


End stores.


Lemma touches_for_errs {A} S (body : A → M W (list error)) l :
  (∀ a, a ∈ l → touches S (body a)) → touches S (for_errs body l).
Proof.
  induction l as [|a l IH]; intros Hb; simpl; [footprint|].
  apply touches_bind; [apply Hb; set_solver|]. intros errs.
  apply touches_bind; [apply IH; set_solver|]. footprint.
Qed.

Lemma touches_currentCABundleConfigMap S name : touches S (currentCABundleConfigMap (W := W) name).
Proof. unfold currentCABundleConfigMap. footprint. Qed.

Lemma returns_currentCABundleConfigMap name :
  returns (λ res, ∀ cm, res = inr (Some cm) → key_of KConfigMap cm = name)
    (currentCABundleConfigMap (W := W) name).
Proof.
  unfold currentCABundleConfigMap. case_match; [apply returns_ret; naive_solver|].
  eapply returns_bind; [apply returns_Get|].
  intros [err|cm] Hk; [case_match|]; apply returns_ret; naive_solver.
Qed.

(** Everything ensureCABundleConfigMaps touches is a configmap of openshift-dns. *)
Lemma touches_ensureCABundleConfigMaps S dns :
  (∀ n, nn_Namespace n = DefaultOperandNamespace → (KConfigMap, n) ∈ S) →
  touches S (ensureCABundleConfigMaps (W := W) dns).
Proof.
  intros Hin. unfold ensureCABundleConfigMaps. apply touches_bind.
  - apply touches_for_errs. intros name _. unfold sync_ca_bundle.
    apply touches_bind; [apply touches_currentCABundleConfigMap|].
    intros [err|[source|]]; [footprint| |footprint].
    eapply touches_bind_returns; [apply touches_currentCABundleConfigMap|
      apply returns_currentCABundleConfigMap|].
    intros [err|current] Hk; [footprint|].
    destruct (desiredCABundleConfigMap _ _ _ _) as [desired|] eqn:Ed, current as [current|].
    + apply touches_bind; [|footprint]. unfold updateCABundleConfigMap. case_match; [footprint|].
      apply touches_bind; [apply touches_Update|footprint]. apply Hin.
      specialize (Hk current eq_refl). by inversion Hk.
    + apply touches_bind; [apply touches_Create|footprint]. apply Hin. revert Ed.
      unfold desiredCABundleConfigMap. simpl. case_match; [done|]. by intros [= <-].
    + apply touches_deleteConfigMap, Hin. by rewrite (Hk current eq_refl).
    + footprint.
  - intros errs.
    eapply (touches_bind_returns _ (λ r, ∀ os o, r = inr os → o ∈ os → prunable o));
      [exact (touches_cache_List S KConfigMap _)| |].
    { intros w r w' Hr os o -> Ho. revert Hr. unfold call.
      pose proof (cmList_prunable w os) as Hp. destruct (cache_List _ _ w) as [x y].
      intros [= -> _]. by apply Hp. }
    intros [err|items] Hp; (apply touches_bind; [|footprint]); [simpl; footprint|].
    apply touches_for_errs. intros cm Hcm. unfold prune_ca_bundle. case_match; [footprint|].
    apply touches_deleteConfigMap, Hin. exact (Hp items cm eq_refl Hcm).
Qed.

Lemma touches_caBundleRevisionMap S dns : touches S (caBundleRevisionMap (W := W) dns).
Proof.
  unfold caBundleRevisionMap. generalize (∅ : gmap string string) as m.
  induction (_ :: _) as [|tc tcs IH]; intros m; simpl; [footprint|].
  apply touches_bind; [unfold ca_bundle_revision; footprint|apply IH].
Qed.

End props.

(** A DNS with a TLS server and its CA bundle. *)
Definition sample_tls_dns : DNS :=
  mkDNS (dns_meta sample_dns)
    (mkDNSSpec [mkServer "foo" ["foo.com"] (mkForwardPlugin ["1.1.1.1"] ""
         (mkDNSTransportConfig TLSTransport (Some (mkDNSOverTLSConfig "dns.foo.com" "cacerts"))) "")]
       (mkUpstreamResolvers [] "" (mkDNSTransportConfig "" None) "") (mkDNSNodePlacement ∅ [])
       "" "" "" (mkDNSCache 0 0))
    (mkDNSStatus "" "" []).

Definition sample_ca_source : ConfigMap :=
  mkConfigMap (named "openshift-config" "cacerts") (Some {[ "ca-bundle.crt" := "PEM" ]}).

