(* ===== verification/Controller.v ===== *)
(** * The DNS controller: pkg/operator/controller/controller.go

    Reconcile and the steps it composes, and the predicates and mappings of its
    watches. *)

From S2P Require Import Prelude GoLib Types Util Labels Numbers Net Client Mem Names Manifests.
From S2P Require Import Samples Tls DaemonSet DaemonSetProps DNSStatus Corefile CorefileProps.
From S2P Require Import Service NodeResolver NetworkPolicies CABundle.

Definition namespaceRunLevelLabel : string := "openshift.io/run-level".
Definition namespaceClusterMonitoringLabel : string := "openshift.io/cluster-monitoring".
Definition namespacePodSecurityEnforceLabel : string := "pod-security.kubernetes.io/enforce".
Definition namespacePodSecurityAuditLabel : string := "pod-security.kubernetes.io/audit".
Definition namespacePodSecurityWarnLabel : string := "pod-security.kubernetes.io/warn".

Definition managedDNSNamespaceLabels : list string :=
  [namespaceClusterMonitoringLabel; namespaceRunLevelLabel; namespacePodSecurityAuditLabel;
   namespacePodSecurityEnforceLabel; namespacePodSecurityWarnLabel].

(** ** Watches *)

(** The requests an event enqueues: names of DNSes. *)
Definition objectToDNS : list NamespacedName := [DefaultDNSNamespaceName].

Definition isInNS (namespace : string) (o : ObjectMeta) : bool := om_Namespace o =s namespace.

(** enqueueRequestForOwningDNS *)
Definition enqueueRequestForOwningDNS (o : ObjectMeta) : list NamespacedName :=
  match om_Labels o !! OwningDNSLabel with
  | Some dnsName => [mkNN "" dnsName]
  | None => []
  end.

(** The predicates of the watch on nodes. *)
Definition nodePredicate (node : Node) : bool := negb (ignoreNodeForTopologyAwareHints node).

Definition nodeUpdatePredicate (old nu : Node) : bool :=
  if negb (Bool.eqb (ignoreNodeForTopologyAwareHints old) (ignoreNodeForTopologyAwareHints nu)) then true
  else if negb (ignoreNodeForTopologyAwareHints nu)
          && negb (Bool.eqb (nodeIsValidForTopologyAwareHints old) (nodeIsValidForTopologyAwareHints nu))
  then true
  else false.

(** ** Pure helpers *)

(** namespaceLabelsChanged *)
Definition namespaceLabelsChanged (existingNamespace desiredNamespace : Namespace) : bool * Namespace :=
  let em := ns_meta existingNamespace in
  let existing := om_Labels em in
  let desired := om_Labels (ns_meta desiredNamespace) in
  let '(labels, changed) :=
    foldl (λ (st : gmap string string * bool) k,
             match desired !! k with
             | Some desiredVal =>
                 if match existing !! k with
                    | None => true
                    | Some existingVal => negb (existingVal =s desiredVal)
                    end
                 then (<[ k := desiredVal ]> st.1, true) else st
             | None => st
             end) (existing, false) managedDNSNamespaceLabels in
  (changed, mkNamespace (mkObjectMeta (om_Name em) (om_Namespace em) (om_UID em) (om_ResourceVersion em)
              labels (om_Annotations em) (om_OwnerReferences em) (om_Finalizers em)
              (om_DeletionTimestamp em))).

(** The text of a *net.IPNet. *)
Definition IPNet_String (n : IPNet) : string :=
  IP_String (ipnet_IP n) +:+ "/" +:+ fmt_d (ipnet_PrefixLen n).

(** The pure part of getClusterIPFromNetworkConfig. *)
Definition clusterIP_of_network (serviceNetwork : list string) : error + string :=
  match serviceNetwork with
  | [] => inl (ErrNew "no service networks found in cluster network config")
  | cidr :: _ =>
      match ParseCIDR cidr with
      | inl err => inl (Errorf_v ("invalid service cidr " +:+ cidr +:+ ": ") err)
      | inr serviceCIDR =>
          match cidr_Host serviceCIDR 10 with
          | inl err => inl (Errorf_v ("invalid service cidr " +:+ IPNet_String serviceCIDR +:+ ": ") err)
          | inr dnsClusterIP => inr (IP_String dnsClusterIP)
          end
      end
  end.

(** The external-name service openshift.default.svc. *)
Definition openshift_service : Service :=
  mkService (named "default" "openshift")
    (mkServiceSpec [] ∅ "" [] [] None "ExternalName" "" None None
       "kubernetes.default.svc.cluster.local" ∅).

(** The owner reference to the DNS daemonset. *)
Definition daemonset_owner_ref (ds : DaemonSet) : OwnerReference :=
  mkOwnerReference "apps/v1" "DaemonSet" (om_Name (ds_meta ds)) (om_UID (ds_meta ds)) (Some true).

Definition dns_set_finalizers (dns : DNS) (finalizers : list string) : DNS :=
  let m := dns_meta dns in
  mkDNS (mkObjectMeta (om_Name m) (om_Namespace m) (om_UID m) (om_ResourceVersion m) (om_Labels m)
           (om_Annotations m) (om_OwnerReferences m) finalizers (om_DeletionTimestamp m))
        (dns_Spec dns) (dns_Status dns).

(** The log level of spec.operatorLogLevel. *)
Definition operator_log_level (level : string) : LogLevel :=
  if level =s DNSLogLevelNormal then InfoLevel
  else if level =s DNSLogLevelDebug then DebugLevel
  else if level =s DNSLogLevelTrace then TraceLevel
  else InfoLevel.

(** ** Handlers *)

Section controller.
Context `{UnicodeTables} `{FloatConversion} `{Assets}.
Context {W : Type} `{Client W} `{Runtime W} (r : reconciler).

(** getClusterIPFromNetworkConfig *)
Definition getClusterIPFromNetworkConfig : M W (error + string) :=
  res ← call (client_Get KNetwork (mkNN "" "cluster"));
  match res with
  | inl err => mret (inl (Errorf_v "failed to get network 'cluster': " (api_error err)))
  | inr networkConfig => mret (clusterIP_of_network (net_ServiceNetwork networkConfig))
  end.

(** The get-or-create pattern of the objects that are never updated: the object is
    created from its manifest when it is not found.  [errorf] is fmt.Errorf with %v or
    %w as its last verb. *)
Definition get_or_create (k : Kind) (o : obj k) (errorf : string → error → error)
    (what : string) : M W (option error) :=
  res ← call (client_Get k (key_of k o));
  match res with
  | inr _ => mret None
  | inl err =>
      if negb (IsNotFound err)
      then mret (Some (errorf ("failed to get " +:+ what +:+ ": ") (api_error err)))
      else
        res ← call (client_Create k o);
        match res with
        | inl err => mret (Some (errorf ("failed to create " +:+ what +:+ ": ") (api_error err)))
        | inr _ => mret None
        end
  end.

(** Run the steps in order, up to the first error. *)
Fixpoint first_error (steps : list (M W (option error))) : M W (option error) :=
  match steps with
  | [] => mret None
  | step :: rest =>
      err ← step;
      match err with
      | Some err => mret (Some err)
      | None => first_error rest
      end
  end.

(** The namespace part of ensureDNSNamespace. *)
Definition ensure_namespace : M W (option error) :=
  let desiredNamespace := DNSNamespace in
  let name := om_Name (ns_meta desiredNamespace) in
  res ← call (client_Get KNamespace DefaultDNSOperandNamespaceName);
  match res with
  | inl err =>
      if negb (IsNotFound err)
      then mret (Some (ErrWrap ("failed to get dns namespace " +:+ Quote name +:+ ": ") (api_error err)))
      else
        res ← call (client_Create KNamespace desiredNamespace);
        match res with
        | inl err => mret (Some (ErrWrap ("failed to create dns namespace " +:+ name +:+ ": ") (api_error err)))
        | inr _ => mret None
        end
  | inr existingNamespace =>
      let '(changed, updatedNamespace) := namespaceLabelsChanged existingNamespace desiredNamespace in
      if changed : bool then
        res ← call (client_Update KNamespace updatedNamespace);
        match res with
        | inl err => mret (Some (ErrWrap ("failed to update dns namespace "
                       +:+ om_Name (ns_meta updatedNamespace) +:+ ": ") (api_error err)))
        | inr _ => mret None
        end
      else mret None
  end.

(** ensureDNSNamespace *)
Definition ensureDNSNamespace : M W (option error) :=
  first_error [
    ensure_namespace;
    ( '(_, err) ← ensureDNSClusterRole r;
      mret ((λ err, Errorf_v ("failed to ensure dns cluster role for "
                              +:+ om_Name (cr_meta DNSClusterRole) +:+ ": ") err) <$> err));
    get_or_create KClusterRoleBinding DNSClusterRoleBinding Errorf_v
      ("dns cluster role binding " +:+ om_Name (crb_meta DNSClusterRoleBinding));
    get_or_create KServiceAccount DNSServiceAccount Errorf_v
      ("dns service account " +:+ nn_String (key_of KServiceAccount DNSServiceAccount));
    get_or_create KServiceAccount NodeResolverServiceAccount ErrWrap
      ("serviceaccount " +:+ nn_String (key_of KServiceAccount NodeResolverServiceAccount)) ].

(** ensureMetricsIntegration *)
Definition ensureMetricsIntegration (dns : DNS) (svc : Service) (daemonsetRef : OwnerReference)
    : M W (option error) :=
  first_error [
    get_or_create KClusterRole MetricsClusterRole Errorf_v
      ("dns metrics cluster role " +:+ om_Name (cr_meta MetricsClusterRole));
    get_or_create KClusterRoleBinding MetricsClusterRoleBinding Errorf_v
      ("dns metrics cluster role binding " +:+ om_Name (crb_meta MetricsClusterRoleBinding));
    get_or_create KRole MetricsRole Errorf_v
      ("dns metrics role " +:+ nn_String (key_of KRole MetricsRole));
    get_or_create KRoleBinding MetricsRoleBinding Errorf_v
      ("dns metrics role binding " +:+ nn_String (key_of KRoleBinding MetricsRoleBinding));
    ( '(_, err) ← ensureServiceMonitor dns svc daemonsetRef;
      mret ((λ err, Errorf_v ("failed to ensure servicemonitor for " +:+ dns_Name dns +:+ ": ") err) <$> err)) ].

(** ensureExternalNameForOpenshiftService *)
Definition ensureExternalNameForOpenshiftService : M W (option error) :=
  get_or_create KService openshift_service Errorf_v
    ("external name service " +:+ nn_String (key_of KService openshift_service)).

(** ensureOpenshiftExternalNameServiceDeleted *)
Definition ensureOpenshiftExternalNameServiceDeleted : M W (option error) :=
  err ← call (client_Delete KService (key_of KService openshift_service));
  match err with
  | Some err =>
      if negb (IsNotFound err)
      then mret (Some (Errorf_v ("failed to delete external name service "
                  +:+ nn_String (key_of KService openshift_service) +:+ ": ") (api_error err)))
      else mret None
  | None => mret None
  end.

(** enforceDNSFinalizer; the client overwrites the DNS with the server's reply. *)
Definition enforceDNSFinalizer (dns : DNS) : M W (error + DNS) :=
  if negb (slice.ContainsString (om_Finalizers (dns_meta dns)) DNSControllerFinalizer) then
    res ← call (client_Update KDNS
      (dns_set_finalizers dns (om_Finalizers (dns_meta dns) ++ [DNSControllerFinalizer])));
    match res with
    | inl err => mret (inl (api_error err))
    | inr dns => mret (inr dns)
    end
  else mret (inr dns).

(** ensureDNSDeleted *)
Definition ensureDNSDeleted (dns : DNS) : M W (option error) :=
  err ← ensureDNSDaemonSetDeleted dns;
  mret ((λ err, Errorf_v ("failed to delete daemonset for dns " +:+ dns_Name dns +:+ ": ") err) <$> err).

(** The part of ensureDNS that needs the daemonset: the errors, the cluster IP, and
    the error of an early return. *)
Definition ensure_operands (dns : DNS) (dnsDaemonset : DaemonSet) (clusterIP clusterDomain : string)
    (cmMap : gmap string string) : M W (error + (list error * string)) :=
  let daemonsetRef := daemonset_owner_ref dnsDaemonset in
  '(_, err) ← ensureDNSConfigMap r dns clusterDomain cmMap;
  let errs := match err with
              | Some err => [Errorf_v ("failed to create configmap for dns " +:+ dns_Name dns +:+ ": ") err]
              | None => []
              end in
  '(_, err) ← ensureDNSNetworkPolicy dns;
  let errs := errs ++ match err with
                      | Some err => [Errorf_v ("failed to ensure networkpolicy for dns " +:+ dns_Name dns +:+ ": ") err]
                      | None => []
                      end in
  '(_, err) ← ensureDenyAllNetworkPolicy;
  match err with
  | Some err => mret (inl err)
  | None =>
      '(svc, err) ← ensureDNSService dns clusterIP daemonsetRef;
      match err with
      | Some err =>
          mret (inr (errs ++ [Errorf_v ("failed to create service for dns " +:+ dns_Name dns +:+ ": ") err], ""))
      | None =>
          match svc with
          | None => mret (inr (errs ++ [ErrNew ("failed to get service for dns " +:+ dns_Name dns)], clusterIP))
          | Some svc =>
              err ← ensureMetricsIntegration dns svc daemonsetRef;
              mret (inr (errs ++ match err with
                | Some err => [Errorf_v ("failed to integrate metrics with openshift-monitoring for dns "
                                         +:+ dns_Name dns +:+ ": ") err]
                | None => []
                end, clusterIP))
          end
      end
  end.

(** The end of ensureDNS: the node resolver and the status. *)
Definition ensure_status (dns : DNS) (clusterIP clusterDomain : string) (dnsDaemonset : option DaemonSet)
    (errs : list error) (reconcileResult : Result) : M W (option error * Result) :=
  '(nodeResolverDaemonset, err) ← ensureNodeResolverDaemonSet r dns clusterIP clusterDomain;
  let errs := errs ++ match err with Some err => [err] | None => [] end in
  '(err, reconcileResult) ← syncDNSStatus dns clusterIP clusterDomain dnsDaemonset nodeResolverDaemonset
    (2 * lameDuckDuration) reconcileResult;
  let errs := errs ++ match err with
                      | Some err =>
                          match retryable.After err with
                          | Some _ => [err]
                          | None => [ErrWrap ("failed to sync status of dns " +:+ Quote (dns_Name dns) +:+ ": ") err]
                          end
                      | None => []
                      end in
  mret (retryable.NewMaybeRetryableAggregate (Some <$> errs), reconcileResult).

(** ensureDNS: the error, and the reconcile result. *)
Definition ensureDNS (dns : DNS) (reconcileResult : Result) : M W (option error * Result) :=
  let clusterDomain := "cluster.local" in
  ip ← getClusterIPFromNetworkConfig;
  match ip with
  | inl err => mret (Some (Errorf_v "failed to get cluster IP from network config: " err), reconcileResult)
  | inr clusterIP =>
      err ← ensureCABundleConfigMaps dns;
      let errs := match err with
                  | Some err => [ErrWrap ("failed to create ca bundle configmaps for dns " +:+ dns_Name dns +:+ ": ") err]
                  | None => []
                  end in
      cmMap ← caBundleRevisionMap dns;
      res ← call (client_Get KAPIServer (mkNN "" "cluster"));
      match (match res with
             | inl err => if negb (IsNotFound err) then inl err else inr None
             | inr apiServer => inr (as_TLSSecurityProfile apiServer)
             end) with
      | inl err =>
          mret (NewAggregate (Some <$> (errs ++ [ErrWrap "failed to get apiserver config: " (api_error err)])),
                reconcileResult)
      | inr tlsSecurityProfile =>
          '(dnsDaemonset, err) ← ensureDNSDaemonSet r dns cmMap tlsSecurityProfile;
          match err with
          | Some err =>
              ensure_status dns clusterIP clusterDomain dnsDaemonset
                (errs ++ [Errorf_v ("failed to ensure daemonset for dns " +:+ dns_Name dns +:+ ": ") err])
                reconcileResult
          | None =>
              match dnsDaemonset with
              | None =>
                  ensure_status dns clusterIP clusterDomain None
                    (errs ++ [ErrNew ("failed to get daemonset for dns " +:+ dns_Name dns)]) reconcileResult
              | Some ds =>
                  res ← ensure_operands dns ds clusterIP clusterDomain cmMap;
                  match res with
                  | inl err => mret (Some err, reconcileResult)
                  | inr (errs', clusterIP) =>
                      ensure_status dns clusterIP clusterDomain (Some ds) (errs ++ errs') reconcileResult
                  end
              end
          end
      end
  end.

(** The Unmanaged branch of Reconcile. *)
Definition reconcile_unmanaged (dns : DNS) (result : Result) : M W (list error * Result) :=
  let clusterDomain := "cluster.local" in
  ip ← getClusterIPFromNetworkConfig;
  let '(clusterIP, errs) :=
    match ip with
    | inl err => ("", [Errorf_v "failed to get cluster IP from network config: " err])
    | inr ip => (ip, [])
    end in
  '(dnsDaemonset, err) ← currentDNSDaemonSet dns;
  let errs := errs ++ match err with Some err => [err] | None => [] end in
  '(nodeResolverDaemonset, err) ← currentNodeResolverDaemonSet;
  let errs := errs ++ match err with Some err => [err] | None => [] end in
  '(err, result) ← syncDNSStatus dns clusterIP clusterDomain dnsDaemonset nodeResolverDaemonset
    (2 * lameDuckDuration) result;
  let errs := errs ++ match err with
                      | Some err => [ErrWrap ("failed to sync status of dns " +:+ Quote (dns_Name dns) +:+ ": ") err]
                      | None => []
                      end in
  mret (errs, result).

(** The deletion branch of Reconcile, with the errors of ensureDNSNamespace. *)
Definition reconcile_deletion (dns : DNS) (errs : list error) : M W (list error) :=
  err ← ensureOpenshiftExternalNameServiceDeleted;
  let errs := errs ++ match err with
                      | Some err => [Errorf_v "failed to delete external name for openshift service: " err]
                      | None => []
                      end in
  err ← ensureDNSDeleted dns;
  let errs := errs ++ match err with
                      | Some err => [Errorf_v ("failed to ensure deletion for dns " +:+ dns_Name dns +:+ ": ") err]
                      | None => []
                      end in
  if (length errs =? 0)%nat then
    if slice.ContainsString (om_Finalizers (dns_meta dns)) DNSControllerFinalizer then
      res ← call (client_Update KDNS (dns_set_finalizers dns
        (default [] (slice.RemoveString (om_Finalizers (dns_meta dns)) DNSControllerFinalizer))));
      match res with
      | inl err => mret [Errorf_v ("failed to remove finalizer from dns " +:+ dns_Name dns +:+ ": ") (api_error err)]
      | inr _ => mret []
      end
    else mret []
  else mret errs.

(** The last branch of Reconcile: the finalizer, then ensureDNS.  The result is the
    early return for a retryable error, or the errors and the reconcile result. *)
Definition reconcile_managed (dns : DNS) (errs : list error) (result : Result)
    : M W (Result + (list error * Result)) :=
  fin ← enforceDNSFinalizer dns;
  match fin with
  | inl err =>
      mret (inr (errs ++ [Errorf_v ("failed to enforce finalizer for dns " +:+ dns_Name dns +:+ ": ") err], result))
  | inr dns =>
      '(err, result) ← ensureDNS dns result;
      match err with
      | Some err =>
          match retryable.After err with
          | Some after => mret (inl (mkResult false after))
          | None => mret (inr (errs ++ [Errorf_v ("failed to ensure dns " +:+ dns_Name dns +:+ ": ") err], result))
          end
      | None =>
          err ← ensureExternalNameForOpenshiftService;
          mret (inr (errs ++ match err with
            | Some err => [Errorf_v "failed to ensure external name for openshift service: " err]
            | None => []
            end, result))
      end
  end.

(** Reconcile *)
Definition Reconcile (request : NamespacedName) : M W (Result * option error) :=
  let result := result0 in
  if negb (nn_Name request =s DefaultDNSController) then mret (result, None)
  else
    res ← call (client_Get KDNS request);
    match res with
    | inl err =>
        mret (result, NewAggregate (if IsNotFound err then []
          else [Some (Errorf_v ("failed to get dns " +:+ nn_String request +:+ ": ") (api_error err))]))
    | inr dns =>
        call (logrus_SetLevel (operator_log_level (spec_OperatorLogLevel (dns_Spec dns))));;
        if spec_ManagementState (dns_Spec dns) =s Unmanaged then
          '(errs, result) ← reconcile_unmanaged dns result;
          mret (result, NewAggregate (Some <$> errs))
        else
          err ← ensureDNSNamespace;
          let errs := match err with
                      | Some err => [Errorf_v "failed to ensure dns namespace: " err]
                      | None => []
                      end in
          match om_DeletionTimestamp (dns_meta dns) with
          | Some _ =>
              errs ← reconcile_deletion dns errs;
              mret (result, NewAggregate (Some <$> errs))
          | None =>
              res ← reconcile_managed dns errs result;
              match res with
              | inl early => mret (early, None)
              | inr (errs, result) => mret (result, NewAggregate (Some <$> errs))
              end
          end
    end.

End controller.
