(* ===== verification/StatusController.v ===== *)
(** * The status controller: pkg/operator/controller/status/controller.go

    The ClusterOperator the operator reports its state in: the versions it reports,
    its four conditions, how they are merged into the stored ones, and Reconcile. *)

From S2P Require Import Prelude GoLib Types Util Labels Numbers Client Mem Names Manifests Samples.
From S2P Require Import DaemonSet.

Definition OperatorVersionName : string := "operator".
Definition CoreDNSVersionName : string := "coredns".
Definition OpenshiftCLIVersionName : string := "openshift-cli".
Definition KubeRBACProxyName : string := "kube-rbac-proxy".
Definition UnknownVersionValue : string := "unknown".
Definition dnsEqualConditionMessage : string := "Desired and current number of DNSes are equal".

(** configv1.ClusterStatusConditionType *)
Definition OperatorAvailable : string := "Available".
Definition OperatorProgressing : string := "Progressing".
Definition OperatorDegraded : string := "Degraded".
Definition OperatorUpgradeable : string := "Upgradeable".

(** A version per operand, by its name. *)
Notation Versions := (gmap string string) (only parsing).

(** m[k]: the zero value when the key is absent. *)
Definition version_of (m : Versions) (k : string) : string := default "" (m !! k).

(** ** The order of map iteration

    The order in which range visits a map is not specified and changes from one loop to
    the next: each loop asks the world for it. *)
Class MapRange (W : Type) := { map_range : Versions → Op W (list (string * string)) }.

(** ** Versions *)

Definition computeOldVersions (oldVersions : list OperandVersion) : Versions :=
  foldl (λ m v, <[ ov_Name v := ov_Version v ]> m) ∅ oldVersions.

Definition computeNewVersions (operatorReleaseVersion coreDNSImage openshiftCLIImage
    kubeRBACProxyImage : string) : Versions :=
  <[ OperatorVersionName := operatorReleaseVersion ]> (<[ CoreDNSVersionName := coreDNSImage ]>
  (<[ OpenshiftCLIVersionName := openshiftCLIImage ]> {[ KubeRBACProxyName := kubeRBACProxyImage ]})).

(** computeOperatorStatusVersions, for the order the map is visited in. *)
Definition computeOperatorStatusVersions (newVersions : list (string * string)) : list OperandVersion :=
  map (λ nv, mkOperandVersion nv.1 nv.2) newVersions.

(** *** Available pods (k8s.io/kubectl/pkg/util/podutils) *)

Fixpoint getPodConditionFromList (conditions : list PodCondition) (conditionType : string)
    : option PodCondition :=
  match conditions with
  | [] => None
  | c :: rest => if pc_Type c =s conditionType then Some c else getPodConditionFromList rest conditionType
  end.

Definition IsPodAvailable (pod : Pod) (minReadySeconds now : Z) : bool :=
  match getPodConditionFromList (pod_Conditions pod) "Ready" with
  | None => false
  | Some c =>
      (pc_Status c =s ConditionTrue) &&
      ((minReadySeconds =? 0)%Z ||
       (negb (Time_IsZero (pc_LastTransitionTime c)) &&
        (pc_LastTransitionTime c + minReadySeconds * Second <? now)%Z))
  end.

(** versionNameForContainerName *)
Definition versionNameForContainerName (name : string) : option string :=
  if name =s "dns" then Some CoreDNSVersionName
  else if name =s "kube-rbac-proxy" then Some KubeRBACProxyName
  else if name =s "dns-node-resolver" then Some OpenshiftCLIVersionName
  else None.

(** available[k]: the number of instances of an operand at the new version. *)
Definition available_of (available : gmap string Z) (k : string) : Z := default 0%Z (available !! k).

(** The closure updateAvailableFromPod. *)
Definition updateAvailableFromPod (newVersions : Versions) (available : gmap string Z) (pod : Pod)
    : gmap string Z :=
  foldl (λ available container,
    match versionNameForContainerName (c_Name container) with
    | None => available
    | Some versionName =>
        if c_Image container =s version_of newVersions versionName
        then <[ versionName := (available_of available versionName + 1)%Z ]> available
        else available
    end) available (pod_Containers pod).

(** One of the two loops over pods. *)
Definition count_pods (newVersions : Versions) (ds : DaemonSet) (now : Z) (available : gmap string Z)
    (pods : list Pod) : gmap string Z :=
  foldl (λ available pod,
    if negb (IsPodAvailable pod (dss_MinReadySeconds (ds_Spec ds)) now) then available
    else updateAvailableFromPod newVersions available pod) available pods.

(** computeCurrentVersions, at the time [now] the clock returns. *)
Definition computeCurrentVersions (oldVersions newVersions : Versions)
    (dnsDaemonSet nodeResolverDaemonSet : DaemonSet) (dnsPods nodeResolverPods : list Pod) (now : Z)
    : Versions :=
  let available := count_pods newVersions dnsDaemonSet now ∅ dnsPods in
  let available := count_pods newVersions nodeResolverDaemonSet now available nodeResolverPods in
  let desiredDNS := dst_DesiredNumberScheduled (ds_Status dnsDaemonSet) in
  let coreDNSLevel := (desiredDNS <=? available_of available CoreDNSVersionName)%Z in
  let kubeRBACProxyLevel := (desiredDNS <=? available_of available KubeRBACProxyName)%Z in
  let '(coreDNSVersion, kubeRBACProxyVersion) :=
    if coreDNSLevel && kubeRBACProxyLevel
    then (version_of newVersions CoreDNSVersionName, version_of newVersions KubeRBACProxyName)
    else (version_of oldVersions CoreDNSVersionName, version_of oldVersions KubeRBACProxyName) in
  let desiredNR := dst_DesiredNumberScheduled (ds_Status nodeResolverDaemonSet) in
  let openshiftCLILevel := (desiredNR <=? available_of available OpenshiftCLIVersionName)%Z in
  let openshiftCLIVersion :=
    if openshiftCLILevel then version_of newVersions OpenshiftCLIVersionName
    else version_of oldVersions OpenshiftCLIVersionName in
  let operatorVersion :=
    if coreDNSLevel && kubeRBACProxyLevel && openshiftCLILevel
    then version_of newVersions OperatorVersionName
    else version_of oldVersions OperatorVersionName in
  computeNewVersions operatorVersion coreDNSVersion openshiftCLIVersion kubeRBACProxyVersion.

(** isUpgrading, for the order the map curVersions is visited in. *)
Definition isUpgrading (curVersions : list (string * string)) (oldVersions newVersions : Versions)
    : bool * list string :=
  foldl (λ st nv,
    let '(name, curVersion) := nv in
    let '(upgrading, messages) := st in
    let messages :=
      match oldVersions !! name with
      | Some oldVersion =>
          if negb (oldVersion =s curVersion)
          then messages ++ ["Upgraded " +:+ name +:+ " to " +:+ Quote curVersion +:+ "."] else messages
      | None => messages
      end in
    match newVersions !! name with
    | Some newVersion =>
        if negb (curVersion =s newVersion)
        then (true, messages ++ ["Upgrading " +:+ name +:+ " to " +:+ Quote newVersion +:+ "."])
        else (upgrading, messages)
    | None => (upgrading, messages)
    end) (false, []) curVersions.

(** ** Conditions *)

(** A condition as it is computed, without a transition time. *)
Definition new_condition (type status reason message : string) : ClusterOperatorStatusCondition :=
  mkCOCondition type status 0 reason message.

Definition checkDNSAvailable (dns : DNS) : bool :=
  existsb (λ c, (oc_Type c =s OperatorStatusTypeAvailable) && (oc_Status c =s ConditionTrue))
          (st_Conditions (dns_Status dns)).

Definition computeOperatorAvailableCondition (haveDNS : bool) (dns : DNS) : ClusterOperatorStatusCondition :=
  if negb haveDNS then
    new_condition OperatorAvailable ConditionFalse "DNSDoesNotExist"
      ("DNS " +:+ Quote "default" +:+ " does not exist.")
  else if negb (checkDNSAvailable dns) then
    new_condition OperatorAvailable ConditionFalse "DNSUnavailable"
      ("DNS " +:+ Quote "default" +:+ " is unavailable.")
  else
    new_condition OperatorAvailable ConditionTrue "AsExpected"
      ("DNS " +:+ Quote "default" +:+ " is available.").

(** computeOperatorUpgradeableCondition: the last Upgradeable condition decides. *)
Definition computeOperatorUpgradeableCondition (dns : DNS) : ClusterOperatorStatusCondition :=
  let '(upgradeable, message) :=
    foldl (λ (st : bool * string) cond,
      if oc_Type cond =s OperatorStatusTypeUpgradeable
      then (bool_decide (oc_Status cond = ConditionTrue), oc_Message cond) else st)
      (true, "") (st_Conditions (dns_Status dns)) in
  let text verb := if (0 <? String.length message)%nat
                   then "DNS " +:+ dns_Name dns +:+ verb +:+ ": " +:+ message
                   else "DNS " +:+ dns_Name dns +:+ verb in
  if negb upgradeable
  then new_condition OperatorUpgradeable ConditionFalse "DNSNotUpgradeable" (text " is not upgradeable")
  else new_condition OperatorUpgradeable ConditionTrue "DNSUpgradeable" (text " is upgradeable").

(** The messages of the DNS's Degraded=True conditions. *)
Definition degraded_messages (dns : DNS) : list string :=
  oc_Message <$> filter (λ c, oc_Type c = OperatorStatusTypeDegraded ∧ oc_Status c = ConditionTrue)
                   (st_Conditions (dns_Status dns)).

(** computeOperatorDegradedCondition, for the order curVersions is visited in. *)
Definition computeOperatorDegradedCondition (haveDNS : bool) (dns : DNS)
    (oldVersions newVersions : Versions) (curVersions : list (string * string))
    : ClusterOperatorStatusCondition :=
  if negb haveDNS then
    new_condition OperatorDegraded ConditionTrue "DNSDoesNotExist"
      ("DNS " +:+ Quote "default" +:+ " does not exist.")
  else
    let '(upgrading, _) := isUpgrading curVersions oldVersions newVersions in
    let messages := degraded_messages dns in
    if negb upgrading && negb (length messages =? 0)%nat then
      new_condition OperatorDegraded ConditionTrue "DNSDegraded"
        ("DNS " +:+ dns_Name dns +:+ " is degraded: " +:+ strings_Join messages newline)
    else new_condition OperatorDegraded ConditionFalse "DNSNotDegraded" "".

(** The first Progressing condition of the DNS: the status, reasons and messages. *)
Definition progressing_of_dns (haveDNS : bool) (dns : DNS) : string * list string * list string :=
  if negb haveDNS then
    (ConditionTrue, ["DNSDoesNotExist"], ["DNS " +:+ Quote "default" +:+ " does not exist"])
  else
    match List.find (λ c, oc_Type c =s OperatorStatusTypeProgressing) (st_Conditions (dns_Status dns)) with
    | Some cond =>
        if oc_Status cond =s ConditionTrue then
          (ConditionTrue, ["DNSReportsProgressingIsTrue"],
           ["DNS " +:+ Quote (dns_Name dns) +:+ " reports Progressing=True: " +:+ Quote (oc_Message cond)])
        else if oc_Status cond =s ConditionUnknown then
          (ConditionUnknown, ["DNSReportsProgressingIsUnknown"],
           ["DNS " +:+ Quote (dns_Name dns) +:+ " reports Progressing=Unknown: " +:+ Quote (oc_Message cond)])
        else (ConditionUnknown, [], [])
    | None =>
        (ConditionUnknown, ["DNSDoesNotReportProgressingStatus"],
         ["DNS " +:+ Quote (dns_Name dns) +:+ " is not reporting a Progressing status condition"])
    end.

(** computeOperatorProgressingCondition, for the order curVersions is visited in. *)
Definition computeOperatorProgressingCondition (haveDNS : bool) (dns : DNS)
    (oldVersions newVersions : Versions) (curVersions : list (string * string))
    : ClusterOperatorStatusCondition :=
  let '(status, progressingReasons, messages) := progressing_of_dns haveDNS dns in
  let '(upgrading, upgradingMessages) := isUpgrading curVersions oldVersions newVersions in
  let '(status, progressingReasons, messages) :=
    if upgrading : bool
    then (ConditionTrue, progressingReasons ++ ["Upgrading"],
          messages ++ [strings_Join upgradingMessages newline])
    else (status, progressingReasons, messages) in
  if negb (length progressingReasons =? 0)%nat
  then new_condition OperatorProgressing status (strings_Join progressingReasons "And")
         (strings_Join messages newline)
  else new_condition OperatorProgressing ConditionFalse "AsExpected" dnsEqualConditionMessage.

(** ** Merging conditions *)

(** The inner loop of mergeConditions: the first condition of the update's type takes its
    status, reason and message, and a new transition time when the status changes. *)
Fixpoint update_condition (now : Z) (update : ClusterOperatorStatusCondition)
    (conditions : list ClusterOperatorStatusCondition) : option (list ClusterOperatorStatusCondition) :=
  match conditions with
  | [] => None
  | c :: rest =>
      if coc_Type c =s coc_Type update then
        Some (mkCOCondition (coc_Type c) (coc_Status update)
                (if negb (coc_Status c =s coc_Status update) then now else coc_LastTransitionTime c)
                (coc_Reason update) (coc_Message update) :: rest)
      else cons c <$> update_condition now update rest
  end.

(** mergeConditions, at the time [now] the clock returns. *)
Definition mergeConditions (now : Z) (conditions updates : list ClusterOperatorStatusCondition)
    : list ClusterOperatorStatusCondition :=
  let '(conditions, additions) :=
    foldl (λ (st : list ClusterOperatorStatusCondition * list ClusterOperatorStatusCondition) update,
      match update_condition now update st.1 with
      | Some conditions => (conditions, st.2)
      | None => (st.1, st.2 ++ [mkCOCondition (coc_Type update) (coc_Status update) now
                                  (coc_Reason update) (coc_Message update)])
      end) (conditions, []) updates in
  conditions ++ additions.

(** operatorStatusesEqual; [None] is a panic of package cmp. *)
Definition operatorStatusesEqual (a b : ClusterOperatorStatus) : option bool :=
  conditionsEqual ← cmp_Equal_SortSlices (λ a b, string_ltb (coc_Type a) (coc_Type b))
    (λ x y, bool_decide (x = y)) (cos_Conditions a) (cos_Conditions b);
  if negb conditionsEqual then Some false
  else
    relatedEqual ← cmp_Equal_SortSlices (λ a b, string_ltb (oref_Name a) (oref_Name b))
      (λ x y, bool_decide (x = y)) (cos_RelatedObjects a) (cos_RelatedObjects b);
    if negb relatedEqual then Some false
    else
      versionsEqual ← cmp_Equal_SortSlices (λ a b, string_ltb (ov_Name a) (ov_Name b))
        (λ x y, bool_decide (x = y)) (cos_Versions a) (cos_Versions b);
      if negb versionsEqual then Some false else Some true.

(** ** Reconcile *)

(** initializeClusterOperator of the zero ClusterOperator. *)
Definition initializeClusterOperator : ClusterOperator :=
  mkClusterOperator (named "" (nn_Name DNSClusterOperatorName))
    (mkCOStatus
       [new_condition OperatorDegraded ConditionUnknown "" "";
        new_condition OperatorProgressing ConditionUnknown "" "";
        new_condition OperatorAvailable ConditionUnknown "" ""]
       [mkOperandVersion OperatorVersionName UnknownVersionValue;
        mkOperandVersion CoreDNSVersionName UnknownVersionValue;
        mkOperandVersion OpenshiftCLIVersionName UnknownVersionValue;
        mkOperandVersion KubeRBACProxyName UnknownVersionValue]
       []).

(** operatorState; an object that was not found has its zero value. *)
Record operatorState := mkOperatorState {
  haveNamespace : bool; namespace : Namespace;
  haveDNS : bool; dns : DNS;
  dnsDaemonSet : DaemonSet; nodeResolverDaemonSet : DaemonSet;
  dnsPodList : list Pod; nodeResolverPodList : list Pod }.

Definition dns0 : DNS :=
  mkDNS meta0 (mkDNSSpec [] (mkUpstreamResolvers [] "" (mkDNSTransportConfig "" None) "")
                 (mkDNSNodePlacement ∅ []) "" "" "" (mkDNSCache 0 0)) (mkDNSStatus "" "" []).

Definition daemonset0 : DaemonSet :=
  mkDaemonSet meta0
    (mkDaemonSetSpec None (mkPodTemplateSpec ∅ ∅ (mkPodSpec [] ∅ [] [] None ∅))
       (mkDaemonSetUpdateStrategy "" None) 0)
    (mkDaemonSetStatus 0 0 0).

(** GroupName of the API groups *)
Definition operatorv1_GroupName : string := "operator.openshift.io".
Definition rbacv1_GroupName : string := "rbac.authorization.k8s.io".
Definition networkingv1_GroupName : string := "networking.k8s.io".

(** The related objects. *)
Definition relatedObjects (OperatorNamespace : string) (state : operatorState) : list ObjectReference :=
  [mkObjectReference "" "namespaces" "" OperatorNamespace;
   mkObjectReference operatorv1_GroupName "dnses" "" "default";
   mkObjectReference rbacv1_GroupName "clusterroles" "" "openshift-dns-operator";
   mkObjectReference rbacv1_GroupName "clusterrolebindings" "" "openshift-dns-operator";
   mkObjectReference networkingv1_GroupName "networkpolicies" OperatorNamespace ""] ++
  if haveNamespace state then
    [mkObjectReference "" "namespaces" "" (om_Name (ns_meta (namespace state)));
     mkObjectReference networkingv1_GroupName "networkpolicies" (om_Name (ns_meta (namespace state))) ""]
  else [].

Section handlers.
Context {W : Type} `{Client W} `{MapRange W} (config : Config).

(** A lookup in the cache whose NotFound error leaves the zero value. *)
Definition cache_get_daemonset (name : NamespacedName) (what : string) : M W (error + DaemonSet) :=
  res ← call (cache_Get KDaemonSet name);
  match res with
  | inr ds => mret (inr ds)
  | inl err => if negb (IsNotFound err)
               then mret (inl (ErrWrap ("failed to get " +:+ what +:+ ": ") (api_error err)))
               else mret (inr daemonset0)
  end.

(** The pods a label selector selects in the operand namespace. *)
Definition list_pods (selector : LabelSelector) (what : string) : M W (error + list Pod) :=
  match LabelSelectorAsSelector (Some selector) with
  | inl err => mret (inl err)
  | inr sel =>
      res ← call (cache_List KPod (mkListOptions (Some DefaultOperandNamespace) (Some sel)));
      match res with
      | inl err => mret (inl (ErrWrap ("failed to list " +:+ what +:+ ": ") (api_error err)))
      | inr pods => mret (inr pods)
      end
  end.

(** getOperatorState *)
Definition getOperatorState : M W (error + operatorState) :=
  let name := mkNN "" DefaultOperandNamespace in
  res ← call (client_Get KNamespace name);
  match (match res with
         | inl err => if negb (IsNotFound err) then inl err else inr None
         | inr ns => inr (Some ns)
         end) with
  | inl err => mret (inl (ErrWrap ("failed to get namespace " +:+ Quote (nn_String name) +:+ ": ")
                            (api_error err)))
  | inr ns =>
      let have := bool_decide (is_Some ns) in
      let namespace := default (mkNamespace meta0) ns in
      dnsList ← call (cache_List KDNS (mkListOptions None None));
      match dnsList with
      | inl err => mret (inl (ErrWrap "failed to list dnses: " (api_error err)))
      | inr items =>
          nr ← cache_get_daemonset NodeResolverDaemonSetName "node-resolver daemonset";
          match nr with
          | inl err => mret (inl err)
          | inr nodeResolver =>
              nrPods ← list_pods NodeResolverDaemonSetPodSelector "node-resolver pods";
              match nrPods with
              | inl err => mret (inl err)
              | inr nrPods =>
                  match items with
                  | [] => mret (inr (mkOperatorState have namespace false dns0 daemonset0 nodeResolver [] nrPods))
                  | theDNS :: _ =>
                      ds ← cache_get_daemonset (DNSDaemonSetName theDNS) "dns daemonset";
                      match ds with
                      | inl err => mret (inl err)
                      | inr ds =>
                          pods ← list_pods (DNSDaemonSetPodSelector theDNS) "dns pods";
                          match pods with
                          | inl err => mret (inl err)
                          | inr pods =>
                              mret (inr (mkOperatorState have namespace true theDNS ds nodeResolver pods nrPods))
                          end
                      end
                  end
              end
          end
      end
  end.

(** The new status of the ClusterOperator: the part of Reconcile between getOperatorState
    and the comparison.  The clock is read by computeCurrentVersions and by each call of
    mergeConditions, and curVersions is visited three times. *)
Definition compute_status (co : ClusterOperatorStatus) (state : operatorState) : M W ClusterOperatorStatus :=
  let related := relatedObjects (cfg_OperatorNamespace config) state in
  let oldVersions := computeOldVersions (cos_Versions co) in
  let newVersions := computeNewVersions (cfg_OperatorReleaseVersion config) (cfg_CoreDNSImage config)
                       (cfg_OpenshiftCLIImage config) (cfg_KubeRBACProxyImage config) in
  now ← call time_Now;
  let curVersions := computeCurrentVersions oldVersions newVersions (dnsDaemonSet state)
                       (nodeResolverDaemonSet state) (dnsPodList state) (nodeResolverPodList state) now in
  order1 ← call (map_range curVersions);
  let operatorProgressingCondition :=
    computeOperatorProgressingCondition (haveDNS state) (dns state) oldVersions newVersions order1 in
  order2 ← call (map_range curVersions);
  let operatorDegradedCondition :=
    computeOperatorDegradedCondition (haveDNS state) (dns state) oldVersions newVersions order2 in
  now ← call time_Now;
  let conditions := mergeConditions now (cos_Conditions co)
    [computeOperatorAvailableCondition (haveDNS state) (dns state);
     operatorProgressingCondition; operatorDegradedCondition] in
  order3 ← call (map_range curVersions);
  let versions := computeOperatorStatusVersions order3 in
  now ← call time_Now;
  let conditions := mergeConditions now conditions [computeOperatorUpgradeableCondition (dns state)] in
  mret (mkCOStatus conditions versions related).

(** Reconcile; a computeOperatorDegradedCondition without a DNS does not visit curVersions. *)
Definition Reconcile (request : NamespacedName) : M W (Result * option error) :=
  let name := DNSClusterOperatorName in
  res ← call (client_Get KClusterOperator name);
  res ← match res with
        | inr co => mret (inr co)
        | inl err =>
            if IsNotFound err then
              res ← call (client_Create KClusterOperator initializeClusterOperator);
              match res with
              | inl err => mret (inl (ErrWrap ("failed to create clusteroperator " +:+ Quote (nn_Name name)
                                               +:+ ": ") (api_error err)))
              | inr co => mret (inr co)
              end
            else mret (inl (ErrWrap ("failed to get clusteroperator " +:+ Quote (nn_Name name) +:+ ": ")
                              (api_error err)))
        end;
  match res with
  | inl err => mret (result0, Some err)
  | inr co =>
      state ← getOperatorState;
      match state with
      | inl err => mret (result0, Some (ErrWrap "failed to get operator state: " err))
      | inr state =>
          status ← compute_status (co_Status co) state;
          equal ← lift_option (operatorStatusesEqual (co_Status co) status);
          if negb equal then
            res ← call (client_StatusUpdate KClusterOperator (mkClusterOperator (co_meta co) status));
            match res with
            | inl err => mret (result0, Some (ErrWrap ("failed to update clusteroperator "
                                +:+ Quote (nn_Name name) +:+ ": ") (api_error err)))
            | inr _ => mret (result0, None)
            end
          else mret (result0, None)
      end
  end.

End handlers.

(** The mapping of the watch on clusteroperators. *)
Definition isDNSClusterOperator (o : ObjectMeta) : bool := om_Name o =s DefaultOperatorName.
Definition clusteroperatorToDNS : list NamespacedName := [mkNN "" DefaultDNSName].
