(* ===== verification/Operator.v ===== *)
(** * The operator process: cmd/dns-operator/main.go and pkg/operator/operator.go

    The configuration the process collects from its environment, what it hands to the
    controllers, and the default DNS it keeps in existence.  The order of start-up is in
    [Startup.v]. *)

From S2P Require Import Prelude GoLib Types Util Labels Numbers Client Mem Names Manifests Tls.
From S2P Require Import StatusController Controller.

Definition operatorNamespace : string := "openshift-dns-operator".

(** The part of main that collects the configuration: [env] is os.Getenv, and the left
    result the message main exits with. *)
Definition collect_config (env : string → string) : string + Config :=
  let releaseVersion := env "RELEASE_VERSION" in
  let releaseVersion := if (String.length releaseVersion =? 0)%nat then UnknownVersionValue else releaseVersion in
  let coreDNSImage := env "IMAGE" in
  if (String.length coreDNSImage =? 0)%nat then inl "IMAGE environment variable is required"
  else
    let cliImage := env "OPENSHIFT_CLI_IMAGE" in
    if (String.length cliImage =? 0)%nat then inl "OPENSHIFT_CLI_IMAGE environment variable is required"
    else
      let kubeRBACProxyImage := env "KUBE_RBAC_PROXY_IMAGE" in
      if (String.length kubeRBACProxyImage =? 0)%nat
      then inl "KUBE_RBAC_PROXY_IMAGE environment variable is required"
      else inr (mkConfig releaseVersion operatorNamespace coreDNSImage cliImage kubeRBACProxyImage).

(** The part of New that builds the configuration of the DNS controller; the flag is the
    feature gate DNSNameResolver. *)
Definition operator_reconciler (config : Config) (dnsNameResolverEnabled : bool) : reconciler :=
  mkReconciler config dnsNameResolverEnabled [DefaultDNSNameResolverNamespace].

(** dnsnameresolver.Config, as New builds it. *)
Record DNSNameResolverConfig := mkDNSNameResolverConfig {
  OperandNamespace : string; ServiceName : string; DNSPort : string; DNSNameResolverNamespace : string }.

(** The default DNS as the operator creates it. *)
Definition default_dns : DNS :=
  mkDNS (named "" DefaultDNSController) (dns_Spec dns0) (dns_Status dns0).

(** The arguments of dnsnameresolver.New; [None] is an index out of range. *)
Definition dnsnameresolver_config : option DNSNameResolverConfig :=
  c ← ps_Containers (pt_Spec (dss_Template (ds_Spec DNSDaemonSet))) !! 0%nat;
  p ← c_Ports c !! 0%nat;
  Some (mkDNSNameResolverConfig DefaultOperandNamespace (nn_Name (DNSServiceName default_dns))
          (fmt_d (cp_ContainerPort p)) DefaultDNSNameResolverNamespace).

(** ensureDefaultDNS *)
Definition ensureDefaultDNS {W} `{Client W} : M W (option error) :=
  res ← call (client_Get KDNS (mkNN "" (dns_Name default_dns)));
  match res with
  | inr _ => mret None
  | inl err =>
      if negb (IsNotFound err) then mret (Some (api_error err))
      else
        res ← call (client_Create KDNS default_dns);
        match res with
        | inl err => mret (Some (Errorf_v "failed to create default dns: " (api_error err)))
        | inr _ => mret None
        end
  end.

(** One round of the goroutine of Start that keeps the default DNS in existence; [synced] is
    what WaitForCacheSync reports.  Errors are only logged. *)
Definition default_dns_tick {W} `{Client W} (synced : bool) : M W unit :=
  if negb synced then mret ()
  else _ ← ensureDefaultDNS; mret ().

(** ** Properties *)

(** The name resolver controller queries the port CoreDNS serves, through the service of
    the default DNS. *)
Lemma dnsnameresolver_config_value :
  dnsnameresolver_config =
  Some (mkDNSNameResolverConfig "openshift-dns" "dns-default" "5353" "openshift-ovn-kubernetes").
Proof. vm_compute. reflexivity. Qed.

Section ensure.
Context {W : Type} `{ClientLaws W}.

(** When ensureDefaultDNS reports success, the DNS exists and an existing one is kept
    as it is; nothing else is touched. *)
Lemma ensureDefaultDNS_spec (w : W) :
  let key := mkNN "" "default" in
  match ensureDefaultDNS w with
  | (Some None, w') => is_Some (view w' KDNS key) ∧ ∀ d, view w KDNS key = Some d → view w' KDNS key = Some d
  | (Some (Some _), w') | (None, w') => ∀ d, view w KDNS key = Some d → is_Some (view w' KDNS key)
  end ∧ ∀ k n, (k, n) ≠ (KDNS, key) → view (ensureDefaultDNS w).2 k n = view w k n.
Proof.
  unfold ensureDefaultDNS, mbind, M_bind, call. change (mkNN "" (dns_Name default_dns)) with (mkNN "" "default").
  pose proof (get_frame KDNS (mkNN "" "default") w) as Hfr.
  pose proof (get_found KDNS (mkNN "" "default") w) as Hfound.
  pose proof (get_missing KDNS (mkNN "" "default") w) as Hmiss.
  destruct (client_Get KDNS (mkNN "" "default") w) as [[err|d] w1]; cbn [fst snd] in *.
  2:{ simpl. rewrite !Hfr, (Hfound d eq_refl). naive_solver. }
  destruct err as [m|m]; cbn [IsNotFound negb]; simpl; [|split; [intros d ?; rewrite Hfr; eauto|intros; apply Hfr]].
  specialize (Hmiss m eq_refl). destruct (create_law KDNS default_dns w1) as (Hother & _ & Hok).
  change (key_of KDNS default_dns) with (mkNN "" "default") in *.
  destruct (client_Create KDNS default_dns w1) as [[e|o] w2]; cbn [fst snd] in *; simpl.
  - split; [congruence|]. intros k n Hk. by rewrite Hother, Hfr.
  - destruct (Hok o eq_refl) as [_ Ho]. rewrite Ho. split; [split; [by eexists|congruence]|].
    intros k n Hk. by rewrite Hother, Hfr.
Qed.

(** A round does what ensureDefaultDNS does, or nothing. *)
Lemma default_dns_tick_world (synced : bool) (w : W) :
  (default_dns_tick synced w).2 = if synced then (ensureDefaultDNS w).2 else w.
Proof.
  destruct synced; [|done]. unfold default_dns_tick, mbind, M_bind. simpl.
  by destruct (ensureDefaultDNS w) as [[]].
Qed.

Lemma default_dns_tick_frame (synced : bool) (w : W) k n :
  (k, n) ≠ (KDNS, mkNN "" "default") → view (default_dns_tick synced w).2 k n = view w k n.
Proof. rewrite default_dns_tick_world. destruct synced; [|done]. apply ensureDefaultDNS_spec. Qed.

End ensure.
