(* ===== verification/ControllerProps.v ===== *)
(** * Properties of the DNS controller

    The footprint of Reconcile, the Unmanaged state and the removal of the finalizer. *)

From S2P Require Import Prelude GoLib Types Util Labels Numbers Net Client Mem Names Manifests.
From S2P Require Import Samples Tls DaemonSet DaemonSetProps DNSStatus Corefile CorefileGolden.
From S2P Require Import CorefileProps Service NodeResolver NetworkPolicies CABundle Controller.

(** Setting the log level writes nothing to the cluster. *)
Class RuntimeLaws (W : Type) `{ClientLaws W} `{Runtime W} := {
  setlevel_frame : ∀ l w k n, view (logrus_SetLevel l w).2 k n = view w k n;
}.

#[export] Instance Mem_RuntimeLaws : RuntimeLaws Mem.
Proof. constructor. done. Qed.

(** ** Footprint *)

(** The objects the controller manages for the DNS called [name]. *)
Definition operand_keys (name : string) : list (Kind * NamespacedName) :=
  [(KNamespace, mkNN "" "openshift-dns");
   (KClusterRole, mkNN "" "openshift-dns"); (KClusterRoleBinding, mkNN "" "openshift-dns");
   (KServiceAccount, mkNN "openshift-dns" "dns"); (KServiceAccount, mkNN "openshift-dns" "node-resolver");
   (KDaemonSet, mkNN "openshift-dns" ("dns-" +:+ name)); (KDaemonSet, mkNN "openshift-dns" "node-resolver");
   (KNetworkPolicy, mkNN "openshift-dns" ("dns-" +:+ name));
   (KNetworkPolicy, mkNN "openshift-dns" "openshift-dns-deny-all");
   (KService, mkNN "openshift-dns" ("dns-" +:+ name)); (KService, mkNN "default" "openshift");
   (KClusterRole, mkNN "" "dns-monitoring"); (KClusterRoleBinding, mkNN "" "dns-monitoring");
   (KRole, mkNN "openshift-dns" "prometheus-k8s"); (KRoleBinding, mkNN "openshift-dns" "prometheus-k8s");
   (KServiceMonitor, mkNN "openshift-dns" ("dns-" +:+ name))].

(** What a reconciliation of the DNS [request] may touch: these objects, the
    configmaps of openshift-dns, and the DNS itself. *)
Definition footprint_of (request : NamespacedName) : propset (Kind * NamespacedName) :=
  {[ kn | kn ∈ operand_keys (nn_Name request) ∨
          (kn.1 = KConfigMap ∧ nn_Namespace kn.2 = DefaultOperandNamespace) ∨
          kn = (KDNS, request) ]}.

Section footprints.
Context `{UnicodeTables} `{FloatConversion} `{Assets}.
Context {W : Type} `{RuntimeLaws W} (r : reconciler).

Lemma touches_first_error S (steps : list (M W (option error))) :
  Forall (touches S) steps → touches S (first_error steps).
Proof. induction 1; simpl; footprint. Qed.

Lemma touches_get_or_create S k o errorf what :
  (k, key_of k o) ∈ S → touches S (get_or_create (W := W) k o errorf what).
Proof. intros Hin. unfold get_or_create. footprint. Qed.

Lemma namespaceLabelsChanged_key e d :
  key_of KNamespace (namespaceLabelsChanged e d).2 = key_of KNamespace e.
Proof. unfold namespaceLabelsChanged. by destruct (foldl _ _ _). Qed.

Lemma touches_ensure_namespace S :
  (KNamespace, mkNN "" "openshift-dns") ∈ S → touches S (ensure_namespace (W := W)).
Proof.
  intros Hin. unfold ensure_namespace.
  eapply touches_bind_returns; [exact (touches_Get S KNamespace _)|exact (returns_Get KNamespace _)|].
  intros [err|ns] Hk; [footprint|]. specialize (Hk ns eq_refl).
  pose proof (namespaceLabelsChanged_key ns DNSNamespace) as Hu.
  destruct (namespaceLabelsChanged ns DNSNamespace) as [[] u]; [|footprint].
  apply touches_bind; [apply (touches_Update S KNamespace u)|footprint].
  cbn [snd] in Hu. by rewrite Hu, Hk.
Qed.

Context (request : NamespacedName).
Notation F := (footprint_of request).

Lemma footprint_operand kn : kn ∈ operand_keys (nn_Name request) → kn ∈ F.
Proof. intros Hin. unfold footprint_of. set_solver. Qed.

Lemma footprint_configmap n : nn_Namespace n = DefaultOperandNamespace → (KConfigMap, n) ∈ F.
Proof. intros Hin. unfold footprint_of. set_solver. Qed.

Lemma footprint_dns dns : key_of KDNS dns = request → (KDNS, key_of KDNS dns) ∈ F.
Proof. intros Hin. unfold footprint_of. set_solver. Qed.

(** An explicit member of the operands. *)
Ltac operand := apply footprint_operand; unfold operand_keys; repeat (first [left; reflexivity | right]).

Lemma touches_ensureDNSNamespace : touches F (ensureDNSNamespace (W := W) r).
Proof.
  unfold ensureDNSNamespace. apply touches_first_error. repeat apply Forall_cons_2; [..|constructor].
  - apply touches_ensure_namespace. operand.
  - apply touches_bind; [apply touches_ensureDNSClusterRole; operand|]. intros [? ?]. footprint.
  - apply touches_get_or_create. operand.
  - apply touches_get_or_create. operand.
  - apply touches_get_or_create. operand.
Qed.

Lemma touches_getClusterIP S : touches S (getClusterIPFromNetworkConfig (W := W)).
Proof. unfold getClusterIPFromNetworkConfig. footprint. Qed.

Section dns.
Context (dns : DNS) (Hdns : key_of KDNS dns = request).

Lemma dns_Name_request : dns_Name dns = nn_Name request.
Proof. by rewrite <- Hdns. Qed.

(** A member of the operands named after the DNS. *)
Ltac named_operand :=
  unfold DNSDaemonSetName, DNSServiceName, DNSNetworkPolicyName, DNSServiceMonitorName;
  rewrite dns_Name_request; operand.

Lemma touches_ensureMetricsIntegration svc ref :
  touches F (ensureMetricsIntegration (W := W) dns svc ref).
Proof.
  unfold ensureMetricsIntegration. apply touches_first_error. repeat apply Forall_cons_2; [..|constructor];
    [apply touches_get_or_create; operand..|].
  apply touches_bind; [apply touches_ensureServiceMonitor; named_operand|]. intros [? ?]. footprint.
Qed.

Lemma touches_ensure_operands ds ip cd m : touches F (ensure_operands (W := W) r dns ds ip cd m).
Proof.
  unfold ensure_operands.
  apply touches_bind; [apply touches_ensureDNSConfigMap, footprint_configmap; done|]. intros [? ?].
  apply touches_bind; [apply touches_ensureDNSNetworkPolicy; named_operand|]. intros [? ?].
  apply touches_bind; [apply touches_ensureDenyAllNetworkPolicy; operand|]. intros [? [e|]]; [footprint|].
  apply touches_bind; [apply touches_ensureDNSService; named_operand|]. intros [[svc|] [e'|]]; [footprint| |footprint..].
  apply touches_bind; [apply touches_ensureMetricsIntegration|]. footprint.
Qed.

Lemma touches_ensure_status ip cd ds errs res :
  touches F (ensure_status (W := W) r dns ip cd ds errs res).
Proof.
  unfold ensure_status.
  apply touches_bind; [apply touches_ensureNodeResolverDaemonSet; operand|]. intros [? ?].
  apply touches_bind; [apply touches_syncDNSStatus, footprint_dns, Hdns|]. intros [? ?]. footprint.
Qed.

Lemma touches_ensureDNS res : touches F (ensureDNS (W := W) r dns res).
Proof.
  unfold ensureDNS. apply touches_bind; [apply touches_getClusterIP|]. intros [e|ip]; [footprint|].
  apply touches_bind; [apply touches_ensureCABundleConfigMaps, footprint_configmap|]. intros err.
  apply touches_bind; [apply touches_caBundleRevisionMap|]. intros m.
  apply touches_bind; [exact (touches_Get F KAPIServer _)|]. intros res'.
  match goal with |- touches _ (match ?x with _ => _ end) => destruct x as [e|tsp] end; [footprint|].
  apply touches_bind; [apply touches_ensureDNSDaemonSet; named_operand|].
  intros [ds [e|]]; [apply touches_ensure_status|]. destruct ds as [ds|]; [|apply touches_ensure_status].
  apply touches_bind; [apply touches_ensure_operands|].
  intros [e|[errs ip']]; [footprint|apply touches_ensure_status].
Qed.

Lemma touches_reconcile_unmanaged S res :
  (KDNS, request) ∈ S → touches S (reconcile_unmanaged (W := W) dns res).
Proof.
  intros Hin. unfold reconcile_unmanaged. apply touches_bind; [apply touches_getClusterIP|]. intros ip.
  match goal with |- touches _ (let '(_, _) := ?x in _) => destruct x as [ip' errs] end.
  apply touches_bind; [apply touches_currentDNSDaemonSet|]. intros [? ?].
  apply touches_bind; [unfold currentNodeResolverDaemonSet; footprint|]. intros [? ?].
  apply touches_bind; [apply touches_syncDNSStatus; by rewrite Hdns|]. intros [? ?]. footprint.
Qed.

Lemma touches_reconcile_deletion errs : touches F (reconcile_deletion (W := W) dns errs).
Proof.
  unfold reconcile_deletion.
  apply touches_bind; [unfold ensureOpenshiftExternalNameServiceDeleted|].
  { apply touches_bind; [apply touches_Delete; operand|]. footprint. }
  intros e1. apply touches_bind.
  { unfold ensureDNSDeleted. apply touches_bind; [apply touches_ensureDNSDaemonSetDeleted; named_operand|].
    footprint. }
  intros e2. match goal with |- touches _ (if ?b then _ else _) => destruct b end; [|footprint].
  destruct (slice.ContainsString _ _); [|footprint].
  apply touches_bind; [apply touches_Update, (footprint_dns (dns_set_finalizers dns _)), Hdns|]. footprint.
Qed.

End dns.

Lemma released_add_finalizer dns f : released KDNS (dns_set_finalizers dns (om_Finalizers (dns_meta dns) ++ [f])) = false.
Proof. unfold released. simpl. rewrite (bool_decide_false (_ ++ _ = [])), andb_false_r; [done|]. by destruct (om_Finalizers _). Qed.

Lemma returns_enforceDNSFinalizer dns :
  key_of KDNS dns = request →
  returns (λ res : error + DNS, ∀ d, res = inr d → key_of KDNS d = request)
    (enforceDNSFinalizer (W := W) dns).
Proof.
  intros Hdns. unfold enforceDNSFinalizer. case_match; [|apply returns_ret; naive_solver].
  set (u := dns_set_finalizers _ _).
  eapply (returns_bind (λ res : APIError + DNS, ∀ d, res = inr d → key_of KDNS d = request)).
  - intros w a w'. unfold call. destruct (update_law KDNS u w (released_add_finalizer _ _)) as (_ & _ & Hok).
    destruct (client_Update KDNS u w) as [a' w1]. intros [= <- <-] d ->. cbn [fst] in Hok.
    destruct (Hok d eq_refl) as [(Hk & _) _]. rewrite Hk. exact Hdns.
  - intros [e|d] Hd; apply returns_ret; naive_solver.
Qed.

Lemma touches_reconcile_managed dns errs res :
  key_of KDNS dns = request → touches F (reconcile_managed (W := W) r dns errs res).
Proof.
  intros Hdns. unfold reconcile_managed.
  eapply touches_bind_returns; [|by apply returns_enforceDNSFinalizer|].
  { unfold enforceDNSFinalizer. case_match; [|footprint].
    apply touches_bind; [apply touches_Update, (footprint_dns (dns_set_finalizers dns _)), Hdns|]. footprint. }
  intros [e|d] Hd; [footprint|]. specialize (Hd d eq_refl).
  apply touches_bind; [by apply touches_ensureDNS|]. intros [[e|] res']; [footprint|].
  apply touches_bind; [apply touches_get_or_create; operand|]. footprint.
Qed.

Lemma touches_Reconcile : touches F (Reconcile (W := W) r request).
Proof.
  unfold Reconcile. destruct (bool_decide (nn_Name request = _)); cbn [negb]; [|footprint].
  eapply touches_bind_returns; [exact (touches_Get F KDNS _)|exact (returns_Get KDNS _)|].
  intros [err|dns] Hk; [footprint|]. specialize (Hk dns eq_refl).
  apply touches_bind; [apply touches_call; intros; apply setlevel_frame|]. intros _.
  destruct (bool_decide (spec_ManagementState _ = _)).
  { apply touches_bind; [apply touches_reconcile_unmanaged; [done|unfold footprint_of; set_solver]|].
    intros [? ?]. footprint. }
  apply touches_bind; [apply touches_ensureDNSNamespace|]. intros err.
  destruct (om_DeletionTimestamp (dns_meta dns)).
  - apply touches_bind; [by apply touches_reconcile_deletion|]. footprint.
  - apply touches_bind; [by apply touches_reconcile_managed|]. footprint.
Qed.

End footprints.

Section reconcile.
Context `{UnicodeTables} `{FloatConversion} `{Assets}.
Context {W : Type} `{RuntimeLaws W} (r : reconciler).

(** C1: Reconcile touches nothing but its operands: every object that is not the
    DNS of the request, a configmap of openshift-dns or one of the sixteen named objects
    is exactly as before, whatever errors, early returns or panics happen on the way; and
    a request that is not for the default DNS has no effect at all. *)
Theorem Reconcile_footprint request (w : W) :
  (∀ k n, (k, n) ∉ footprint_of request → view (Reconcile r request w).2 k n = view w k n) ∧
  (nn_Name request ≠ DefaultDNSController → Reconcile r request w = (Some (result0, None), w)).
Proof.
  split; [apply (touches_Reconcile r request)|].
  intros Hn. unfold Reconcile. by rewrite bool_decide_false.
Qed.

(** What syncDNSStatus does to the stored DNS: its spec stays. *)
Lemma syncDNSStatus_spec_kept dns ip cd ods onr tol res w d d' :
  view w KDNS (key_of KDNS dns) = Some d →
  view (syncDNSStatus dns ip cd ods onr tol res w).2 KDNS (key_of KDNS dns) = Some d' →
  dns_Spec d' = dns_Spec d.
Proof.
  intros Hd. unfold syncDNSStatus, mbind at 1, M_bind at 1.
  pose proof (touches_computeDNSStatusConditions ∅ dns ip ods onr tol res w KDNS (key_of KDNS dns)) as Hf.
  destruct (computeDNSStatusConditions dns ip ods onr tol res w) as [[[[cs err] res']|] w1];
    cbn [snd] in Hf; rewrite Hd in Hf; specialize (Hf ltac:(set_solver)); [|simpl; congruence].
  destruct err as [err|]; [simpl; congruence|].
  unfold mbind, M_bind, lift_option. destruct (dnsStatusesEqual _ _) as [[]|]; [simpl; congruence| |simpl; congruence].
  cbn [negb]. set (u := mkDNS _ _ _). unfold call.
  destruct (status_law KDNS u w1) as (_ & Hthis & _).
  change (key_of KDNS u) with (key_of KDNS dns) in Hthis. rewrite Hf in Hthis.
  destruct (client_StatusUpdate KDNS u w1) as [[e|o] w2]; cbn [snd] in Hthis |- *; simpl; intros Hv;
    (destruct Hthis as [Hs|(o' & (_ & _ & Hs) & Ho)]; [congruence|]; specialize (Hs d eq_refl); congruence).
Qed.

(** The world after a bind. *)
Lemma bind_world {A B} (m : M W A) (f : A → M W B) w :
  ((m ≫= f) w).2 = match m w with (Some a, w') => (f a w').2 | (None, w') => w' end.
Proof. unfold mbind, M_bind. by destruct (m w) as [[a|] w']. Qed.

(** A step that touches nothing, then the rest. *)
Lemma bind_quiet {A B} (m : M W A) (f : A → M W B) w (P : W → Prop) :
  touches ∅ m →
  (∀ w', (∀ k n, view w' k n = view w k n) → P w') →
  (∀ a w', m w = (Some a, w') → (∀ k n, view w' k n = view w k n) → P (f a w').2) →
  P ((m ≫= f) w).2.
Proof.
  intros Hm Hp Hf. rewrite bind_world. specialize (Hm w). specialize (Hf).
  destruct (m w) as [[a|] w'] eqn:E; cbn [snd] in Hm.
  - apply Hf; [done|]. intros. apply Hm. set_solver.
  - apply Hp. intros. apply Hm. set_solver.
Qed.

(** The Unmanaged branch leaves everything but the status of the DNS. *)
Lemma reconcile_unmanaged_kept request dns res w d d' :
  key_of KDNS dns = request →
  view w KDNS request = Some d →
  view (reconcile_unmanaged dns res w).2 KDNS request = Some d' → dns_Spec d' = dns_Spec d.
Proof.
  intros Hk Hd. unfold reconcile_unmanaged.
  apply bind_quiet; [apply touches_getClusterIP|intros; congruence|]. intros ip w1 _ Hq1.
  match goal with |- context [let '(_, _) := ?x in _] => destruct x as [clusterIP errs] end.
  apply bind_quiet; [apply touches_currentDNSDaemonSet|intros; congruence|]. intros [ods e1] w2 _ Hq2.
  apply bind_quiet; [unfold currentNodeResolverDaemonSet; footprint|intros; congruence|].
  intros [onr e2] w3 _ Hq3. rewrite bind_world.
  pose proof (syncDNSStatus_spec_kept dns clusterIP "cluster.local" ods onr (2 * lameDuckDuration) res w3 d d') as Hs.
  rewrite Hk, Hq3, Hq2, Hq1 in Hs. specialize (Hs Hd).
  destruct (syncDNSStatus _ _ _ _ _ _ _ w3) as [[[e3 res3]|] w4]; exact Hs.
Qed.


(** ** The finalizer *)

(** C12: the finalizer is a lock on deletion.  While the namespace, the external-name
    service or the daemonset could not be cleaned up, the deletion branch leaves the
    stored DNS untouched; and when the branch changes the stored DNS at all, exactly the
    controller's finalizer is gone from its list, and the DNS disappears only if it was
    being deleted and had no other finalizer. *)
Theorem reconcile_deletion_finalizer dns errs (w : W) :
  view w KDNS (key_of KDNS dns) = Some dns →
  let '(e1, w1) := ensureOpenshiftExternalNameServiceDeleted w in
  let '(e2, w2) := ensureDNSDeleted dns w1 in
  let stored := view (reconcile_deletion dns errs w).2 KDNS (key_of KDNS dns) in
  ((errs ≠ [] ∨ e1 ≠ Some None ∨ e2 ≠ Some None) → stored = Some dns) ∧
  let others := filter (λ f, f ≠ DNSControllerFinalizer) (om_Finalizers (dns_meta dns)) in
  match stored with
  | Some dns' => dns' = dns ∨ (dns_Spec dns' = dns_Spec dns ∧ om_Finalizers (dns_meta dns') = others)
  | None => om_DeletionTimestamp (dns_meta dns) ≠ None ∧ others = []
  end.
Proof.
  intros Hview. unfold reconcile_deletion. rewrite bind_world.
  assert (touches (W := W) {[ (KService, key_of KService openshift_service) ]}
    ensureOpenshiftExternalNameServiceDeleted) as T1.
  { unfold ensureOpenshiftExternalNameServiceDeleted. apply touches_bind; [apply touches_Delete; set_solver|footprint]. }
  assert (touches (W := W) {[ (KDaemonSet, DNSDaemonSetName dns) ]} (ensureDNSDeleted dns)) as T2.
  { unfold ensureDNSDeleted. apply touches_bind; [apply touches_ensureDNSDaemonSetDeleted; set_solver|footprint]. }
  specialize (T1 w KDNS (key_of KDNS dns) ltac:(set_solver)).
  destruct (ensureOpenshiftExternalNameServiceDeleted w) as [[e1|] w1]; cbn [snd] in T1.
  2:{ destruct (ensureDNSDeleted dns w1). rewrite T1, Hview. naive_solver. }
  rewrite bind_world. specialize (T2 w1 KDNS (key_of KDNS dns) ltac:(set_solver)).
  destruct (ensureDNSDeleted dns w1) as [[e2|] w2]; cbn [snd] in T2; [|rewrite T2, T1, Hview; naive_solver].
  rewrite T1, Hview in T2.
  match goal with |- context [(length ?l =? 0)%nat] => destruct l as [|e0 es] eqn:El end.
  2:{ cbn [length Nat.eqb]. simpl. rewrite T2. naive_solver. }
  cbn [length Nat.eqb]. apply app_nil in El as [El1 El2]. apply app_nil in El1 as [-> El1].
  destruct e1; [done|]. destruct e2; [done|]. split; [naive_solver|].
  destruct (slice.ContainsString _ _); [|simpl; rewrite T2; naive_solver].
  rewrite bind_world. unfold call. set (u := dns_set_finalizers _ _).
  assert (om_Finalizers (dns_meta u) = filter (λ f, f ≠ DNSControllerFinalizer) (om_Finalizers (dns_meta dns))) as Hu
    by (apply RemoveString_spec).
  destruct (released KDNS u) eqn:Er.
  - destruct (release_law KDNS u w2 Er) as (_ & Hthis & _). change (key_of KDNS u) with (key_of KDNS dns) in Hthis.
    unfold released in Er. rewrite <- Hu. simpl in Er. to_prop.
    destruct (client_Update KDNS u w2) as [[e|o] w3]; cbn [snd] in *; simpl;
      (destruct Hthis as [->| ->]; [rewrite T2; naive_solver|exact Er]).
  - destruct (update_law KDNS u w2 Er) as (_ & Hthis & _). change (key_of KDNS u) with (key_of KDNS dns) in Hthis.
    destruct (client_Update KDNS u w2) as [[e|o] w3]; cbn [snd] in *; simpl;
      (destruct Hthis as [->|(o' & (_ & Hs & Hfin) & ->)]; [rewrite T2; naive_solver|]);
      right; (split; [exact Hs|]); by rewrite Hfin, Hu.
Qed.

End reconcile.
