(* ===== verification/Installed.v ===== *)
(** * What a successful reconciliation installs

    Objects never disappear from the cluster in the managed branch of Reconcile, and a
    handler that reports no error has its object in the cluster.  Together: after a
    reconciliation without errors every operand exists. *)

From S2P Require Import Prelude GoLib Types Util Labels Numbers Net Client Mem Names Manifests.
From S2P Require Import Samples Tls DaemonSet DaemonSetProps DNSStatus Corefile CorefileGolden.
From S2P Require Import CorefileProps Service NodeResolver NetworkPolicies CABundle Controller.
From S2P Require Import ControllerProps.

(** ** The rules *)

Section rules.
Context {W : Type} `{ClientLaws W}.

(** The object is in the cluster. *)
Definition present (w : W) (kn : Kind * NamespacedName) : Prop := is_Some (view w kn.1 kn.2).

(** Running [m] removes no object, whether or not it panics. *)
Definition grows {A} (m : M W A) : Prop := ∀ w kn, present w kn → present (m w).2 kn.

(** When [m] returns a value that is [ok], the objects [K] are in the cluster. *)
Definition provides {A} (K : list (Kind * NamespacedName)) (ok : A → Prop) (m : M W A) : Prop :=
  ∀ w, wlp m (λ a w', ok a → Forall (present w') K) w.

Lemma grows_touches {A} (m : M W A) : touches ∅ m → grows m.
Proof. intros Hm w kn Hp. unfold present in *. rewrite Hm; [done|set_solver]. Qed.

Lemma grows_ret {A} (a : A) : grows (mret a : M W A).
Proof. intros w kn Hp. exact Hp. Qed.

Lemma grows_bind {A B} (m : M W A) (f : A → M W B) :
  grows m → (∀ a, grows (f a)) → grows (m ≫= f).
Proof.
  intros Hm Hf w kn Hp. unfold mbind, M_bind. specialize (Hm w kn Hp).
  destruct (m w) as [[a|] w']; [by apply Hf|done].
Qed.

Lemma grows_bind_returns {A B} (P : A → Prop) (m : M W A) (f : A → M W B) :
  grows m → returns P m → (∀ a, P a → grows (f a)) → grows (m ≫= f).
Proof.
  intros Hm HP Hf w kn Hp. unfold mbind, M_bind. specialize (Hm w kn Hp). specialize (HP w).
  destruct (m w) as [[a|] w']; [|done]. exact (Hf a (HP a w' eq_refl) w' kn Hm).
Qed.

(** A write keeps what is there, and adds its object when it succeeds. *)
Lemma write_present k o acc (w w' : W) r kn :
  write_spec k o acc (view w) (view w') r → present w kn → present w' kn.
Proof.
  unfold present. intros (Hother & Hthis & _) Hp. destruct kn as [k' n']. simpl in *.
  destruct (decide ((k', n') = (k, key_of k o))) as [[= -> ->]|Hne]; [|by rewrite Hother].
  destruct Hthis as [->|(o' & _ & ->)]; [done|by eexists].
Qed.

Lemma grows_Create k o : grows (call (client_Create k o)).
Proof.
  intros w kn Hp. unfold call. pose proof (create_law k o w) as Hw.
  destruct (client_Create k o w). by eapply write_present.
Qed.

Lemma grows_Update k o : released k o = false → grows (call (client_Update k o)).
Proof.
  intros Hr w kn Hp. unfold call. pose proof (update_law k o w Hr) as Hw.
  destruct (client_Update k o w). by eapply write_present.
Qed.

Lemma grows_StatusUpdate k o : grows (call (client_StatusUpdate k o)).
Proof.
  intros w kn Hp. unfold call. pose proof (status_law k o w) as Hw.
  destruct (client_StatusUpdate k o w). by eapply write_present.
Qed.

Lemma grows_Get k n : grows (call (client_Get k n)).
Proof. apply grows_touches. exact (touches_Get ∅ k n). Qed.

Lemma grows_cache_List k l : grows (call (cache_List k l)).
Proof. apply grows_touches. exact (touches_cache_List ∅ k l). Qed.

Lemma grows_lift {A} (o : option A) : grows (lift_option o : M W A).
Proof. apply grows_touches, touches_lift. Qed.

(** The first step provides some of the objects, the rest provides the others. *)
Lemma provides_bind {A B} K1 K2 (okA : A → Prop) (ok : B → Prop) (m : M W A) (f : A → M W B) :
  provides K1 okA m → (∀ a, grows (f a)) → (∀ a, returns (λ b, ok b → okA a) (f a)) →
  (∀ a, provides K2 ok (f a)) → provides (K1 ++ K2) ok (m ≫= f).
Proof.
  intros Hm Hg Hr Hf w. apply wlp_bind. specialize (Hm w). unfold wlp in *.
  destruct (m w) as [[a|] w1]; [|done]. specialize (Hf a w1). specialize (Hr a w1). specialize (Hg a w1).
  unfold wlp in Hf. destruct (f a w1) as [[b|] w2]; [|done]. intros Hok. apply Forall_app.
  split; [|by apply Hf]. eapply Forall_impl; [by apply Hm, (Hr b w2)|]. intros kn. apply Hg.
Qed.

(** Either the first step finds the objects, or the rest provides them. *)
Lemma provides_bind_or {A B} K (P okA : A → Prop) `{∀ a, Decision (okA a)} (ok : B → Prop) (m : M W A)
    (f : A → M W B) :
  provides K okA m → returns P m → (∀ a, P a → okA a → grows (f a)) → (∀ a, ¬ okA a → provides K ok (f a)) →
  provides K ok (m ≫= f).
Proof.
  intros Hm HP Hg Hf w. apply wlp_bind. specialize (Hm w). specialize (HP w). unfold wlp in *.
  destruct (m w) as [[a|] w1]; [|done]. destruct (decide (okA a)) as [Ha|Ha]; [|by apply Hf].
  specialize (Hg a (HP a w1 eq_refl) Ha w1). destruct (f a w1) as [[b|] w2]; [|done]. intros _.
  eapply Forall_impl; [by apply Hm|]. intros kn. apply Hg.
Qed.

Lemma provides_after {A B} K (ok : B → Prop) (m : M W A) (f : A → M W B) :
  (∀ a, provides K ok (f a)) → provides K ok (m ≫= f).
Proof.
  intros Hf w. apply wlp_bind. unfold wlp. destruct (m w) as [[a|] w1]; [|done]. apply Hf.
Qed.

(** The first step provides the objects, and the rest keeps them. *)
Lemma provides_before {A B} K (okA : A → Prop) (ok : B → Prop) (m : M W A) (f : A → M W B) :
  provides K okA m → (∀ a, grows (f a)) → (∀ a, returns (λ b, ok b → okA a) (f a)) →
  provides K ok (m ≫= f).
Proof.
  intros Hm Hg Hr. rewrite <- (app_nil_r K). eapply provides_bind; eauto.
  intros a w. unfold wlp. destruct (f a w) as [[b|] w2]; [|done]. constructor.
Qed.

Lemma provides_fail {A} K (ok : A → Prop) (a : A) : ¬ ok a → provides K ok (mret a : M W A).
Proof. intros Ha w. unfold wlp. simpl. done. Qed.

Lemma provides_weaken {A} K (ok ok' : A → Prop) (m : M W A) :
  provides K ok m → (∀ a, ok' a → ok a) → provides K ok' m.
Proof. intros Hm Hok w. eapply wlp_mono; [apply Hm|]. auto. Qed.

Lemma provides_never {A} K (ok : A → Prop) (m : M W A) : returns (λ a, ok a → False) m → provides K ok m.
Proof.
  intros Hm w. unfold wlp. specialize (Hm w). destruct (m w) as [[a|] w']; [|done].
  intros Hok. by destruct (Hm a w' eq_refl).
Qed.

Lemma provides_Get k n : provides [(k, n)] (λ r, ∃ o, r = inr o) (call (client_Get k n)).
Proof.
  intros w. unfold wlp, call. pose proof (get_found k n w) as Hf. pose proof (get_frame k n w k n) as Hfr.
  destruct (client_Get k n w) as [r w1]. intros [o ->]. apply Forall_singleton.
  unfold present. simpl in *. rewrite Hfr, (Hf o eq_refl). by eexists.
Qed.

Lemma provides_Create k o : provides [(k, key_of k o)] (λ r, ∃ o', r = inr o') (call (client_Create k o)).
Proof.
  intros w. unfold wlp, call. pose proof (create_law k o w) as (_ & _ & Hc).
  destruct (client_Create k o w) as [r w1]. intros [o' ->]. apply Forall_singleton.
  unfold present. simpl in *. destruct (Hc o' eq_refl) as [_ ->]. by eexists.
Qed.

End rules.

#[export] Hint Resolve grows_ret grows_Create grows_StatusUpdate grows_Get grows_cache_List
  grows_lift : dnsop_grow.

(** Walk through a handler that deletes nothing. *)
Ltac grow :=
  repeat (intros; first
    [ solve [auto with dnsop_grow]
    | match goal with
      | |- grows (call (client_Get ?k ?n)) => exact (grows_Get k n)
      | |- grows (call (client_Create ?k ?n)) => exact (grows_Create k n)
      | |- grows (call (client_Update ?k ?n)) => apply (grows_Update k n); solve [auto with dnsop_grow]
      | |- grows (call (cache_List ?k ?l)) => exact (grows_cache_List k l)
      end
    | apply grows_bind
    | match goal with
      | |- grows (match ?x with _ => _ end) => destruct x
      end ]).

(** ** The handlers *)

Section handlers.
Context `{UnicodeTables} `{FloatConversion} `{Assets}.
Context {W : Type} `{RuntimeLaws W} (r : reconciler).

(** The lookup every handler starts with. *)
Definition lookup (k : Kind) (n : NamespacedName) : M W (option (obj k) * option error) :=
  res ← call (client_Get k n);
  match res with
  | inr current => mret (Some current, None)
  | inl err => if IsNotFound err then mret (None, None) else mret (None, Some (api_error err))
  end.

Lemma grows_lookup k n : grows (lookup k n).
Proof. unfold lookup. grow. Qed.

Lemma provides_lookup k n : provides [(k, n)] (λ res, is_Some res.1) (lookup k n).
Proof.
  unfold lookup. eapply provides_before; [apply provides_Get|grow|].
  intros [e|o]; [|intros ????; by eexists].
  destruct (IsNotFound e); apply returns_ret; intros [? Hx]; discriminate Hx.
Qed.

Lemma returns_lookup k n : returns (λ res, ∀ o, res.1 = Some o → released k o = false) (lookup k n).
Proof.
  unfold lookup. eapply returns_bind; [apply returns_Get_live|].
  intros [e|o] Ho; [case_match|]; apply returns_ret; naive_solver.
Qed.

Lemma grows_ensure k n {A} (f : option (obj k) * option error → M W A) :
  (∀ o e, released k o = false → grows (f (Some o, e))) → (∀ e, grows (f (None, e))) →
  grows (lookup k n ≫= f).
Proof.
  intros Hsome Hnone. eapply grows_bind_returns; [apply grows_lookup|apply returns_lookup|].
  intros [[o|] e] Ho; [|apply Hnone]. apply Hsome. by apply Ho.
Qed.

(** The three ways such a handler goes on: an error; create and look up again; or
    update what was found. *)
Lemma provides_ensure k n (f : option (obj k) * option error → M W (option (obj k) * option error)) :
  (∀ o e, released k o = false → grows (f (Some o, e))) → (∀ e, provides [(k, n)] (λ res, res.2 = None) (f (None, e))) →
  provides [(k, n)] (λ res, res.2 = None) (lookup k n ≫= f).
Proof.
  intros Hsome Hnone. eapply (provides_bind_or _ _ (λ res, is_Some res.1)).
  - apply provides_lookup.
  - apply returns_lookup.
  - intros [[o|] e] Ho; [intros _; by apply Hsome, Ho|intros [? ?]; done].
  - intros [[o|] e]; [intros []; by eexists|]. intros _. apply Hnone.
Qed.

Lemma provides_create k o (err : APIError → error) (f : M W (option (obj k) * option error)) :
  grows f →
  provides [(k, key_of k o)] (λ res, res.2 = None)
    (res ← call (client_Create k o);
     match res with inl e => mret (None, Some (err e)) | inr _ => f end).
Proof.
  intros Hf. eapply provides_before; [apply provides_Create| |].
  - intros [e|?]; [apply grows_ret|done].
  - intros [e|o']; [|intros ????; by eexists]. apply returns_ret. intros Hx. discriminate Hx.
Qed.

Lemma provides_createDNSDaemonSet ds :
  provides [(KDaemonSet, key_of KDaemonSet ds)] (λ e, e = None) (createDNSDaemonSet (W := W) ds).
Proof.
  unfold createDNSDaemonSet. eapply provides_before; [apply (provides_Create KDaemonSet)|grow|].
  intros [e|o]; [by apply returns_ret|]. intros ????. by eexists.
Qed.

Lemma provides_createNodeResolverDaemonSet ds :
  provides [(KDaemonSet, key_of KDaemonSet ds)] (λ e, e = None) (createNodeResolverDaemonSet (W := W) ds).
Proof.
  unfold createNodeResolverDaemonSet. eapply provides_before; [apply (provides_Create KDaemonSet)|grow|].
  intros [e|o]; [by apply returns_ret|]. intros ????. by eexists.
Qed.

(** The updates keep the deletion time and the finalizers of what they found. *)
Lemma grows_updateDNSNetworkPolicy a b :
  released KNetworkPolicy a = false → grows (updateDNSNetworkPolicy (W := W) a b).
Proof.
  intros Ha. unfold updateDNSNetworkPolicy. destruct (networkPolicyChanged a b) as [[] u] eqn:E; cbn [negb]; [|grow].
  assert (released KNetworkPolicy u = false) by (revert E; unfold networkPolicyChanged; repeat case_match; intros ?; by simplify_eq/=).
  grow.
Qed.

Lemma grows_updateDNSConfigMap a b : released KConfigMap a = false → grows (updateDNSConfigMap (W := W) a b).
Proof. intros Ha. unfold updateDNSConfigMap, corefileChanged. case_bool_decide; grow. Qed.

Lemma grows_updateDNSClusterRole a b : released KClusterRole a = false → grows (updateDNSClusterRole (W := W) a b).
Proof. intros Ha. unfold updateDNSClusterRole, clusterRoleChanged. case_bool_decide; grow. Qed.

Lemma grows_updateDNSServiceMonitor a b :
  released KServiceMonitor a = false → grows (updateDNSServiceMonitor (W := W) a b).
Proof.
  intros Ha. unfold updateDNSServiceMonitor. destruct (serviceMonitorChanged a b) as [u|] eqn:E; [|grow].
  assert (released KServiceMonitor u = false)
    by (revert E; unfold serviceMonitorChanged; intros E; repeat case_match; by simplify_eq/=).
  grow.
Qed.

Lemma grows_updateDNSService a b : released KService a = false → grows (updateDNSService (W := W) a b).
Proof.
  intros Ha. unfold updateDNSService. destruct (serviceChanged a b) as [u|] eqn:E; [|grow].
  assert (released KService u = false) by (revert E; unfold serviceChanged; case_match; [done|by intros [= <-]]). grow.
Qed.

Lemma grows_daemonset_write {A} (ds u : DaemonSet) (f : APIError + DaemonSet → M W A) :
  released KDaemonSet ds = false → ds_meta u = ds_meta ds → (∀ res, grows (f res)) →
  grows (call (client_Update KDaemonSet u) ≫= f).
Proof.
  intros Hr Hm Hf. apply grows_bind; [|done]. apply (grows_Update KDaemonSet). rewrite <- Hr.
  apply released_kept; simpl; by rewrite Hm.
Qed.

Lemma grows_updateDNSDaemonSet a b : released KDaemonSet a = false → grows (updateDNSDaemonSet (W := W) a b).
Proof.
  intros Ha. unfold updateDNSDaemonSet.
  eapply (grows_bind_returns (λ ch, daemonsetConfigChanged a b = Some ch)); [grow|by intros w x w' [= ? <-]|].
  intros [updated|] Hch; [|grow]. apply daemonsetConfigChanged_meta in Hch.
  apply grows_bind; [unfold daemonsetUpdateIsSafe; grow|].
  intros [err|[]]; [grow|by apply (grows_daemonset_write a); [..|grow]|].
  apply grows_bind; [grow|]. intros [u|]; [|grow]. by apply (grows_daemonset_write a); [..|grow].
Qed.

Lemma grows_updateNodeResolverDaemonSet a b :
  released KDaemonSet a = false → grows (updateNodeResolverDaemonSet (W := W) a b).
Proof.
  intros Ha. unfold updateNodeResolverDaemonSet.
  eapply (grows_bind_returns (λ ch, nodeResolverDaemonSetConfigChanged a b = Some ch)); [grow|by intros w x w' [= ? <-]|].
  intros [u|] Hch; [|grow]. apply (grows_daemonset_write a); [done| |grow].
  revert Hch. rewrite nodeResolverDaemonSetConfigChanged_fields.
  destruct (tolerations_eqb _ _); [|done]. simpl. case_match; [|done]. intros <-%(inj Some)%(inj Some). done.
Qed.

#[local] Hint Resolve grows_updateDNSNetworkPolicy grows_updateDNSConfigMap grows_updateDNSClusterRole
  grows_updateDNSServiceMonitor grows_updateDNSService grows_updateDNSDaemonSet
  grows_updateNodeResolverDaemonSet grows_lookup : dnsop_grow.

Lemma grows_shouldEnable dns : grows (shouldEnableTopologyAwareHints (W := W) dns).
Proof. unfold shouldEnableTopologyAwareHints. grow. Qed.

Lemma provides_ensureDNSConfigMap dns cd m :
  provides [(KConfigMap, DNSConfigMapName dns)] (λ res, res.2 = None) (ensureDNSConfigMap (W := W) r dns cd m).
Proof.
  apply (provides_ensure KConfigMap).
  - intros o [e|] Hr; unfold currentDNSConfigMap; grow.
  - intros [e|]; [by apply provides_fail|].
    destruct (desiredDNSConfigMap _ _ _ _ _) as [e|desired] eqn:Ed; [by apply provides_fail|].
    pose proof (desiredDNSConfigMap_key _ _ _ _ _ _ Ed) as Hk.
    rewrite <- Hk. apply (provides_create KConfigMap). apply (grows_lookup KConfigMap).
Qed.

Lemma provides_ensureDNSNetworkPolicy dns :
  provides [(KNetworkPolicy, DNSNetworkPolicyName dns)] (λ res, res.2 = None)
    (ensureDNSNetworkPolicy (W := W) dns).
Proof.
  apply (provides_ensure KNetworkPolicy).
  - intros o [e|] Hr; unfold currentDNSNetworkPolicy; grow.
  - intros [e|]; [by apply provides_fail|].
    apply (provides_create KNetworkPolicy (desiredDNSNetworkPolicy dns)). apply (grows_lookup KNetworkPolicy).
Qed.

Lemma provides_ensureDenyAllNetworkPolicy :
  provides [(KNetworkPolicy, mkNN "openshift-dns" "openshift-dns-deny-all")] (λ res, res.2 = None)
    (ensureDenyAllNetworkPolicy (W := W)).
Proof.
  apply (provides_ensure KNetworkPolicy).
  - intros o [e|] Hr; unfold currentDenyAllNetworkPolicy; grow.
  - intros [e|]; [by apply provides_fail|].
    apply (provides_create KNetworkPolicy NetworkPolicyDenyAll). apply (grows_lookup KNetworkPolicy).
Qed.

Lemma provides_ensureDNSClusterRole :
  provides [(KClusterRole, mkNN "" "openshift-dns")] (λ res, res.2 = None) (ensureDNSClusterRole (W := W) r).
Proof.
  apply (provides_ensure KClusterRole).
  - intros o [e|] Hr; unfold currentDNSClusterRole; grow.
  - intros [e|]; [by apply provides_fail|].
    assert (key_of KClusterRole (desiredDNSClusterRole (r_dnsNameResolverEnabled r))
            = mkNN "" "openshift-dns") as Hk by (by destruct (r_dnsNameResolverEnabled r)).
    rewrite <- Hk. apply (provides_create KClusterRole). apply (grows_lookup KClusterRole).
Qed.

Lemma provides_ensureServiceMonitor dns svc ref :
  provides [(KServiceMonitor, DNSServiceMonitorName dns)] (λ res, res.2 = None)
    (ensureServiceMonitor (W := W) dns svc ref).
Proof.
  apply (provides_ensure KServiceMonitor).
  - intros o [e|] Hr; unfold currentServiceMonitor; grow.
  - intros [e|]; [by apply provides_fail|].
    apply (provides_create KServiceMonitor (desiredServiceMonitor dns svc ref)).
    apply (grows_lookup KServiceMonitor).
Qed.

Lemma provides_ensureDNSService dns ip ref :
  provides [(KService, DNSServiceName dns)] (λ res, res.2 = None) (ensureDNSService (W := W) dns ip ref).
Proof.
  apply (provides_ensure KService).
  - intros o [e|] Hr; [grow|]. apply grows_bind; [apply grows_shouldEnable|].
    unfold currentDNSService. grow.
  - intros [e|]; [by apply provides_fail|]. apply provides_after. intros [e|hints]; [by apply provides_fail|].
    apply (provides_create KService (desiredDNSService dns ip hints ref)). apply (grows_lookup KService).
Qed.

Lemma provides_ensureDNSDaemonSet dns m tsp :
  provides [(KDaemonSet, DNSDaemonSetName dns)] (λ res, res.2 = None) (ensureDNSDaemonSet (W := W) r dns m tsp).
Proof.
  apply (provides_ensure KDaemonSet).
  - intros o [e|] Hr; unfold currentDNSDaemonSet; grow.
  - intros [e|]; [by apply provides_fail|]. intros w. apply wlp_bind, wlp_lift.
    intros [e|desired] Ed; [by apply (provides_fail [_])|].
    rewrite <- (desiredDNSDaemonSet_key _ _ _ _ _ _ Ed). revert w.
    eapply (provides_before _ (λ e, e = None)); [apply provides_createDNSDaemonSet| |].
    + intros [e|]; [grow|apply (grows_lookup KDaemonSet)].
    + intros [e|]; [by apply returns_ret|done].
Qed.

Lemma provides_ensureNodeResolverDaemonSet dns ip cd :
  provides [(KDaemonSet, mkNN "openshift-dns" "node-resolver")] (λ res, res.2 = None)
    (ensureNodeResolverDaemonSet (W := W) r dns ip cd).
Proof.
  apply (provides_ensure KDaemonSet).
  - intros o [e|] Hr; [grow|]. cbn [desiredNodeResolverDaemonSet]. unfold currentNodeResolverDaemonSet. grow.
  - intros [e|]; [by apply provides_fail|]. cbn [desiredNodeResolverDaemonSet].
    eapply (provides_before [_] (λ e, e = None)); [apply provides_createNodeResolverDaemonSet| |].
    + intros [e|]; [grow|apply (grows_lookup KDaemonSet)].
    + intros [e|]; [by apply returns_ret|done].
Qed.

Lemma grows_get_or_create k o errorf what : grows (get_or_create (W := W) k o errorf what).
Proof. unfold get_or_create. grow. Qed.

Lemma provides_get_or_create k o errorf what :
  provides [(k, key_of k o)] (λ e, e = None) (get_or_create (W := W) k o errorf what).
Proof.
  unfold get_or_create. intros w. apply wlp_bind. pose proof (provides_Get k (key_of k o) w) as Hg.
  unfold wlp at 1. unfold wlp in Hg at 1. destruct (call (client_Get k (key_of k o)) w) as [[[e|cur]|] w1].
  - destruct (IsNotFound e); cbn [negb]; [|done]. revert w1 Hg. intros w1 _. revert w1.
    eapply provides_before; [apply provides_Create|grow|].
    intros [e'|o']; [by apply returns_ret|]. intros ????. by eexists.
  - intros _. apply Hg. by eexists.
  - done.
Qed.

Lemma get_or_create_installs k o errorf what :
  provides [(k, key_of k o)] (λ e, e = None) (get_or_create (W := W) k o errorf what)
  ∧ grows (get_or_create (W := W) k o errorf what).
Proof. split; [apply provides_get_or_create|apply grows_get_or_create]. Qed.

(** Steps in sequence: each provides its objects, and none removes any. *)
Lemma provides_first_error Ks (steps : list (M W (option error))) :
  Forall2 (λ K m, provides K (λ e, e = None) m ∧ grows m) Ks steps →
  provides (concat Ks) (λ e, e = None) (first_error steps) ∧ grows (first_error steps).
Proof.
  induction 1 as [|K m Ks steps [Hm Hg] _ [IHp IHg]]; simpl.
  { split; [|apply grows_ret]. intros w. unfold wlp. simpl. constructor. }
  split.
  - eapply (provides_bind K _ (λ e, e = None)); [done|by intros [e|]; [apply grows_ret|]| |].
    + intros [e|]; [by apply returns_ret|done].
    + intros [e|]; [by apply provides_fail|done].
  - apply grows_bind; [done|]. by intros [e|]; [apply grows_ret|].
Qed.

(** ** None of the managed handlers removes an object *)

Lemma grows_ensureDNSConfigMap dns cd m : grows (ensureDNSConfigMap (W := W) r dns cd m).
Proof. apply (grows_ensure KConfigMap); unfold currentDNSConfigMap; grow. Qed.

Lemma grows_ensureDNSNetworkPolicy dns : grows (ensureDNSNetworkPolicy (W := W) dns).
Proof. apply (grows_ensure KNetworkPolicy); unfold currentDNSNetworkPolicy; grow. Qed.

Lemma grows_ensureDenyAllNetworkPolicy : grows (ensureDenyAllNetworkPolicy (W := W)).
Proof. apply (grows_ensure KNetworkPolicy); unfold currentDenyAllNetworkPolicy; grow. Qed.

Lemma grows_ensureDNSClusterRole : grows (ensureDNSClusterRole (W := W) r).
Proof. apply (grows_ensure KClusterRole); unfold currentDNSClusterRole; grow. Qed.

Lemma grows_ensureServiceMonitor dns svc ref : grows (ensureServiceMonitor (W := W) dns svc ref).
Proof. apply (grows_ensure KServiceMonitor); unfold currentServiceMonitor; grow. Qed.

Lemma grows_ensureDNSService dns ip ref : grows (ensureDNSService (W := W) dns ip ref).
Proof.
  apply (grows_ensure KService); [intros o [e|] Hr; [grow|]|intros [e|]; [grow|]];
    (apply grows_bind; [apply grows_shouldEnable|unfold currentDNSService; grow]).
Qed.

Lemma grows_ensureNodeResolverDaemonSet dns ip cd :
  grows (ensureNodeResolverDaemonSet (W := W) r dns ip cd).
Proof.
  apply (grows_ensure KDaemonSet); cbn [desiredNodeResolverDaemonSet];
    unfold createNodeResolverDaemonSet, currentNodeResolverDaemonSet; grow.
Qed.

Lemma grows_syncDNSStatus dns ip cd ods onr tol res : grows (syncDNSStatus (W := W) dns ip cd ods onr tol res).
Proof.
  unfold syncDNSStatus. apply grows_bind; [apply grows_touches, touches_computeDNSStatusConditions|]. grow.
Qed.

(** ** Composition *)

Definition namespace_keys : list (Kind * NamespacedName) :=
  [(KNamespace, mkNN "" "openshift-dns"); (KClusterRole, mkNN "" "openshift-dns");
   (KClusterRoleBinding, mkNN "" "openshift-dns"); (KServiceAccount, mkNN "openshift-dns" "dns");
   (KServiceAccount, mkNN "openshift-dns" "node-resolver")].

Lemma ensure_namespace_installs :
  provides [(KNamespace, mkNN "" "openshift-dns")] (λ e, e = None) (ensure_namespace (W := W))
  ∧ grows (ensure_namespace (W := W)).
Proof.
  unfold ensure_namespace. split; [|grow].
  intros w. apply wlp_bind. pose proof (provides_Get KNamespace DefaultDNSOperandNamespaceName w) as Hg.
  unfold wlp at 1. unfold wlp in Hg at 1.
  destruct (call (client_Get KNamespace DefaultDNSOperandNamespaceName) w) as [[[e|cur]|] w1]; [| |done].
  - destruct (IsNotFound e); cbn [negb]; [|done]. clear Hg. revert w1.
    eapply provides_before; [apply (provides_Create KNamespace DNSNamespace)|grow|].
    intros [e'|o']; [by apply returns_ret|]. intros ????. by eexists.
  - specialize (Hg ltac:(by eexists)). unfold wlp.
    match goal with |- context [?m w1] => assert (grows m) as Hgrow by grow end.
    specialize (Hgrow w1 _ (proj1 (Forall_singleton _ _) Hg)).
    destruct (_ w1) as [[x|] w2]; [|done]. intros _. by apply Forall_singleton.
Qed.

Lemma ensureDNSNamespace_installs :
  provides namespace_keys (λ e, e = None) (ensureDNSNamespace (W := W) r)
  ∧ grows (ensureDNSNamespace (W := W) r).
Proof.
  unfold ensureDNSNamespace. apply (provides_first_error (map (λ kn, [kn]) namespace_keys)).
  apply Forall2_cons. split; [exact ensure_namespace_installs|]. apply Forall2_cons. split.
  { split.
    - eapply provides_before; [apply provides_ensureDNSClusterRole|by intros []; apply grows_ret|].
      intros [x [e|]]; [by apply returns_ret|done].
    - apply grows_bind; [apply grows_ensureDNSClusterRole|by intros []; apply grows_ret]. }
  repeat (apply Forall2_cons; split; [apply get_or_create_installs|]). constructor.
Qed.

Definition metrics_keys (dns : DNS) : list (Kind * NamespacedName) :=
  [(KClusterRole, mkNN "" "dns-monitoring"); (KClusterRoleBinding, mkNN "" "dns-monitoring");
   (KRole, mkNN "openshift-dns" "prometheus-k8s"); (KRoleBinding, mkNN "openshift-dns" "prometheus-k8s");
   (KServiceMonitor, DNSServiceMonitorName dns)].

Lemma ensureMetricsIntegration_installs dns svc ref :
  provides (metrics_keys dns) (λ e, e = None) (ensureMetricsIntegration (W := W) dns svc ref)
  ∧ grows (ensureMetricsIntegration (W := W) dns svc ref).
Proof.
  unfold ensureMetricsIntegration. apply (provides_first_error (map (λ kn, [kn]) (metrics_keys dns))).
  do 4 (apply Forall2_cons; split; [apply get_or_create_installs|]).
  apply Forall2_cons. split; [|constructor]. split.
  - eapply provides_before; [apply provides_ensureServiceMonitor|by intros []; apply grows_ret|].
    intros [x [e|]]; [by apply returns_ret|done].
  - apply grows_bind; [apply grows_ensureServiceMonitor|by intros []; apply grows_ret].
Qed.

Definition operands_keys (dns : DNS) : list (Kind * NamespacedName) :=
  [(KConfigMap, DNSConfigMapName dns); (KNetworkPolicy, DNSNetworkPolicyName dns);
   (KNetworkPolicy, mkNN "openshift-dns" "openshift-dns-deny-all");
   (KService, DNSServiceName dns)] ++ metrics_keys dns.

(** No error was collected. *)
Definition no_errs (res : error + (list error * string)) : Prop := ∃ ip, res = inr ([], ip).

Lemma grows_ensureMetricsIntegration dns svc ref : grows (ensureMetricsIntegration (W := W) dns svc ref).
Proof. apply ensureMetricsIntegration_installs. Qed.

#[local] Hint Resolve grows_ensureDNSConfigMap grows_ensureDNSNetworkPolicy grows_ensureDenyAllNetworkPolicy
  grows_ensureDNSService grows_ensureMetricsIntegration grows_ensureNodeResolverDaemonSet
  grows_syncDNSStatus : dnsop_grow.

(** Walk through a handler, to the values it returns. *)
Ltac walk_returns :=
  repeat (intros; first
    [ apply returns_ret
    | apply (returns_bind (λ _, True)); [apply returns_true|intros ? _]
    | match goal with |- returns _ (match ?x with _ => _ end) => destruct x end ]).

Ltac errs_empty :=
  walk_returns; intros [? Hx]; simplify_eq/=; try done;
  repeat match goal with H : context [match ?x with _ => _ end] |- _ => destruct x; simplify_eq/= end; done.

Lemma provides_ensure_operands dns ds ip cd m :
  provides (operands_keys dns) no_errs (ensure_operands (W := W) r dns ds ip cd m).
Proof.
  unfold ensure_operands, no_errs.
  apply (provides_bind [_] _ (λ res, res.2 = None));
    [apply provides_ensureDNSConfigMap|grow|intros [? [|]]; errs_empty|]. intros [? e1].
  apply (provides_bind [_] _ (λ res, res.2 = None));
    [apply provides_ensureDNSNetworkPolicy|grow|intros [? [|]]; errs_empty|]. intros [? e2].
  apply (provides_bind [_] _ (λ res, res.2 = None));
    [apply provides_ensureDenyAllNetworkPolicy|grow|intros [? [|]]; errs_empty|]. intros [? [e3|]].
  { apply provides_fail. by intros [? ?]. }
  apply (provides_bind [_] _ (λ res, res.2 = None));
    [apply provides_ensureDNSService|grow|intros [? [|]]; errs_empty|]. intros [[svc|] [e4|]];
    try (apply provides_fail; intros [? Hx]; simplify_eq/=;
         repeat match goal with H : context [match ?x with _ => _ end] |- _ => destruct x; simplify_eq/= end; done).
  eapply (provides_before _ (λ e, e = None));
    [apply ensureMetricsIntegration_installs|grow|intros [|]; errs_empty].
Qed.

(** *** Errors that are not retryable *)

Definition plain (e : error) : Prop := retryable.After e = None.

(** No error, or a retryable one, which only the status gives. *)
Definition tolerable (out : option error * Result) : Prop := ∀ e, out.1 = Some e → ¬ plain e.

Lemma tolerable_None out : out.1 = None → tolerable out.
Proof. intros Hn e He. congruence. Qed.

Lemma plain_api_error e : plain (api_error e).
Proof. by destruct e. Qed.

(** Walk through a handler, to the errors it returns. *)
Ltac plain_errors :=
  repeat (intros; first
    [ solve [apply returns_ret; simpl; intros; simplify_eq/=; first [done|apply plain_api_error]]
    | solve [auto with dnsop_grow]
    | apply (returns_bind (λ _, True)); [done|intros ? _]
    | match goal with |- returns _ (match ?x with _ => _ end) => destruct x end ]).

Lemma plain_lookup k n : returns (λ out, ∀ e, out.2 = Some e → plain e) (lookup k n).
Proof. unfold lookup. plain_errors. Qed.

Lemma plain_updateNodeResolverDaemonSet a b :
  returns (λ out, ∀ e, out = inl e → plain e) (updateNodeResolverDaemonSet (W := W) a b).
Proof. unfold updateNodeResolverDaemonSet. plain_errors. Qed.

Lemma plain_updateDNSNetworkPolicy a b :
  returns (λ out, ∀ e, out = inl e → plain e) (updateDNSNetworkPolicy (W := W) a b).
Proof. unfold updateDNSNetworkPolicy. destruct (networkPolicyChanged a b) as [[] ?]; cbn [negb]; plain_errors. Qed.

Lemma plain_createNodeResolverDaemonSet ds :
  returns (λ out, ∀ e, out = Some e → plain e) (createNodeResolverDaemonSet (W := W) ds).
Proof. unfold createNodeResolverDaemonSet. plain_errors. Qed.

Lemma plain_ensureNodeResolverDaemonSet dns ip cd :
  returns (λ out, ∀ e, out.2 = Some e → plain e) (ensureNodeResolverDaemonSet (W := W) r dns ip cd).
Proof.
  eapply returns_bind; [apply (plain_lookup KDaemonSet)|]. intros [cur [e|]] Hp; [apply returns_ret; naive_solver|].
  cbn [desiredNodeResolverDaemonSet]. destruct cur as [cur|].
  - eapply returns_bind; [apply plain_updateNodeResolverDaemonSet|]. intros [e|[]] He;
      [apply returns_ret; naive_solver|apply (plain_lookup KDaemonSet)|by apply returns_ret].
  - eapply returns_bind; [apply plain_createNodeResolverDaemonSet|]. intros [e|] He;
      [apply returns_ret; naive_solver|apply (plain_lookup KDaemonSet)].
Qed.

Lemma plain_ensureDenyAllNetworkPolicy :
  returns (λ out, ∀ e, out.2 = Some e → plain e) (ensureDenyAllNetworkPolicy (W := W)).
Proof.
  eapply returns_bind; [apply (plain_lookup KNetworkPolicy)|]. intros [[cur|] [e|]] Hp;
    [apply returns_ret; naive_solver| |apply returns_ret; naive_solver|].
  - eapply returns_bind; [apply plain_updateDNSNetworkPolicy|]. intros [e|[]] He;
      [apply returns_ret; naive_solver|apply (plain_lookup KNetworkPolicy)|by apply returns_ret].
  - apply (returns_bind (λ _, True)); [done|]. intros [e|o] _; [apply returns_ret; by intros ? [= <-]|].
    apply (plain_lookup KNetworkPolicy).
Qed.

(** The node resolver and the status: no error is lost on the way. *)
Lemma ensure_status_installs dns ip cd ods errs res :
  provides [(KDaemonSet, mkNN "openshift-dns" "node-resolver")] tolerable
    (ensure_status (W := W) r dns ip cd ods errs res)
  ∧ grows (ensure_status (W := W) r dns ip cd ods errs res)
  ∧ returns (λ out, tolerable out → Forall (λ e, ¬ plain e) errs) (ensure_status (W := W) r dns ip cd ods errs res).
Proof.
  assert (∀ es, (∀ e, retryable.NewMaybeRetryableAggregate (Some <$> es) = Some e → ¬ plain e) →
    Forall (λ e, ¬ plain e) es) as Hagg.
  { intros es Hes. eapply Forall_impl; [apply NewMaybeRetryableAggregate_After|].
    - intros e He. specialize (Hes e He). unfold plain in Hes. destruct (retryable.After e); [by eexists|done].
    - intros e [a Ha]. unfold plain. congruence. }
  unfold ensure_status. split; [|split].
  - intros w. apply wlp_bind. pose proof (plain_ensureNodeResolverDaemonSet dns ip cd w) as Hplain.
    pose proof (provides_ensureNodeResolverDaemonSet dns ip cd w) as Hp. unfold wlp at 1. unfold wlp in Hp at 1.
    destruct (ensureNodeResolverDaemonSet r dns ip cd w) as [[[o e]|] w1]; [|done].
    specialize (Hplain (o, e) w1 eq_refl). destruct e as [e|].
    { revert w1 Hp Hplain. intros w1 _ Hplain. revert w1. apply provides_never.
      apply (returns_bind (λ _, True)); [done|]. intros [e' res'] _. apply returns_ret. intros Hx.
      apply Hagg in Hx. rewrite !Forall_app in Hx. destruct Hx as [[_ Hx] _].
      rewrite Forall_singleton in Hx. by apply Hx, Hplain. }
    specialize (Hp eq_refl).
    match goal with |- wlp ?m _ _ => assert (grows m) as Hg by grow end.
    unfold wlp. match goal with |- context [?m w1] => specialize (Hg w1); destruct (m w1) as [[x|] w2]; [|done] end.
    intros _. eapply Forall_impl; [exact Hp|]. intros kn. apply Hg.
  - grow.
  - apply (returns_bind (λ _, True)); [done|]. intros [o e] _.
    apply (returns_bind (λ _, True)); [done|]. intros [e' res'] _. apply returns_ret. intros Hx.
    apply Hagg in Hx. rewrite !Forall_app in Hx. by destruct Hx as [[Hx _] _].
Qed.

(** With a plain error collected before it, the step never reports success. *)
Lemma ensure_status_errs dns ip ods errs res (P : Prop) :
  Exists plain errs → returns (λ out, tolerable out → P) (ensure_status (W := W) r dns ip "cluster.local" ods errs res).
Proof.
  intros Hex w out w' Hout Hok. exfalso.
  pose proof (proj2 (proj2 (ensure_status_installs dns ip "cluster.local" ods errs res)) w out w' Hout Hok) as Hall.
  apply Exists_exists in Hex as (e & He & Hp). rewrite Forall_forall in Hall. by apply (Hall e).
Qed.

(** The errors collected by the operands are plain. *)
Lemma ensure_operands_plain dns ds ip cd m :
  returns (λ out, match out with inl e => plain e | inr (errs, _) => Forall plain errs end)
    (ensure_operands (W := W) r dns ds ip cd m).
Proof.
  unfold ensure_operands. apply (returns_bind (λ _, True)); [done|]. intros [x1 e1] _.
  apply (returns_bind (λ _, True)); [done|]. intros [x2 e2] _.
  eapply returns_bind; [apply plain_ensureDenyAllNetworkPolicy|]. intros [x3 [e3|]] Hp3;
    [apply returns_ret; by apply Hp3|].
  apply (returns_bind (λ _, True)); [done|]. intros [svc [e4|]] _; [|destruct svc as [svc|]].
  3:{ apply returns_ret. rewrite !Forall_app. destruct e1, e2; repeat constructor. }
  1:{ apply returns_ret. rewrite !Forall_app. destruct e1, e2; repeat constructor. }
  apply (returns_bind (λ _, True)); [done|]. intros e5 _. apply returns_ret.
  rewrite !Forall_app. destruct e1, e2, e5; repeat constructor.
Qed.

Definition ensureDNS_keys (dns : DNS) : list (Kind * NamespacedName) :=
  (KDaemonSet, DNSDaemonSetName dns) :: operands_keys dns ++
  [(KDaemonSet, mkNN "openshift-dns" "node-resolver")].

Lemma provides_ensureDNS dns res :
  provides (ensureDNS_keys dns) tolerable (ensureDNS (W := W) r dns res).
Proof.
  unfold ensureDNS. apply provides_after. intros [e|ip]; [apply provides_fail; intros Hx; by destruct (Hx _ eq_refl)|].
  apply provides_after. intros e1. apply provides_after. intros m. apply provides_after. intros api.
  match goal with |- context [match ?x with inl _ => _ | inr _ => _ end] => destruct x as [e|tsp] end.
  { apply provides_fail. intros Hx. destruct e1; by destruct (Hx _ eq_refl). }
  apply (provides_bind [_] _ (λ out, out.2 = None)); [apply provides_ensureDNSDaemonSet| | |].
  - intros [[ds|] [e|]]; try apply ensure_status_installs. apply grows_bind; [unfold ensure_operands; grow|].
    intros [e|[errs ip']]; [grow|apply ensure_status_installs].
  - intros [ods [e|]]; [|done]. apply (ensure_status_errs dns ip ods), Exists_app. right. by constructor.
  - intros [ods [e|]].
    { apply provides_never, (ensure_status_errs dns ip ods), Exists_app. right. by constructor. }
    destruct ods as [ds|];
      [|apply provides_never, (ensure_status_errs dns ip None), Exists_app; right; by constructor].
    intros w. apply wlp_bind. pose proof (ensure_operands_plain dns ds ip "cluster.local" m w) as Hplain.
    pose proof (provides_ensure_operands dns ds ip "cluster.local" m w) as Hp. unfold wlp at 1. unfold wlp in Hp at 1.
    destruct (ensure_operands r dns ds ip "cluster.local" m w) as [[out|] w1]; [|done].
    specialize (Hplain out w1 eq_refl). destruct out as [e|[errs ip']].
    { apply (provides_fail (operands_keys dns ++ _)). intros Hx. by destruct (Hx e eq_refl). }
    match goal with |- context [ensure_status r dns ip' "cluster.local" (Some ds) ?es res] =>
      pose proof (ensure_status_installs dns ip' "cluster.local" (Some ds) es res) as (Hprov & Hg & Hr) end.
    specialize (Hprov w1). specialize (Hg w1). specialize (Hr w1). unfold wlp in *.
    destruct (ensure_status r dns ip' "cluster.local" (Some ds) _ res w1) as [[out|] w2]; [|done].
    intros Hok. specialize (Hr out w2 eq_refl Hok). apply Forall_app in Hr as [_ Hr].
    assert (errs = []) as -> by (destruct errs as [|x errs]; [done|]; inversion Hplain; inversion Hr; done).
    apply Forall_app. split; [|by apply Hprov].
    eapply Forall_impl; [by apply Hp; eexists|]. intros kn. apply Hg.
Qed.

Definition managed_keys (dns : DNS) : list (Kind * NamespacedName) :=
  ensureDNS_keys dns ++ [(KService, mkNN "default" "openshift")].

Lemma grows_enforceDNSFinalizer dns : grows (enforceDNSFinalizer (W := W) dns).
Proof.
  unfold enforceDNSFinalizer. case_match; [|grow].
  apply grows_bind; [apply (grows_Update KDNS), released_add_finalizer|grow].
Qed.

Lemma provides_reconcile_managed dns errs res :
  provides (managed_keys dns) (λ out, ∃ res', out = inr ([], res')) (reconcile_managed (W := W) r dns errs res).
Proof.
  unfold reconcile_managed. intros w. apply wlp_bind.
  pose proof (returns_enforceDNSFinalizer (key_of KDNS dns) dns eq_refl w) as Hkey. unfold wlp at 1.
  destruct (enforceDNSFinalizer dns w) as [[[e|dns']|] w1]; [| |done].
  { apply provides_fail. intros [? ?]. simplify_eq. by destruct errs. }
  specialize (Hkey _ _ eq_refl dns' eq_refl).
  assert (dns_Name dns' = dns_Name dns) as Hname by (injection Hkey; done).
  assert (managed_keys dns = managed_keys dns') as ->.
  { unfold managed_keys, ensureDNS_keys, operands_keys, metrics_keys, DNSDaemonSetName, DNSConfigMapName,
      DNSNetworkPolicyName, DNSServiceName, DNSServiceMonitorName. by rewrite Hname. }
  revert w1. apply (provides_bind _ _ (λ out, out.1 = None));
    [eapply provides_weaken; [apply provides_ensureDNS|apply tolerable_None]| | |].
  - intros [[e|] res']; [destruct (retryable.After e); grow|]. unfold ensureExternalNameForOpenshiftService.
    apply grows_bind; [apply grows_get_or_create|grow].
  - intros [[e|] res']; [|done].
    destruct (retryable.After e); apply returns_ret; intros [? ?]; simplify_eq; by destruct errs.
  - intros [[e|] res'].
    { destruct (retryable.After e); apply provides_fail; intros [? ?]; simplify_eq; by destruct errs. }
    eapply (provides_before _ (λ e, e = None)); [apply provides_get_or_create|grow|].
    intros [e|]; [|done]. apply returns_ret. intros [? ?]. simplify_eq. by destruct errs.
Qed.

(** The branch also ends without an error to report when the only error is that of the
    status, which is retryable: then too the operands are there. *)
Definition nothing_failed (out : Result + (list error * Result)) : Prop :=
  match out with inl _ => True | inr (errs, _) => errs = [] end.

Lemma provides_reconcile_managed_early dns errs res :
  provides (ensureDNS_keys dns) nothing_failed (reconcile_managed (W := W) r dns errs res).
Proof.
  unfold reconcile_managed. intros w. apply wlp_bind.
  pose proof (returns_enforceDNSFinalizer (key_of KDNS dns) dns eq_refl w) as Hkey. unfold wlp at 1.
  destruct (enforceDNSFinalizer dns w) as [[[e|dns']|] w1]; [| |done].
  { apply (provides_fail (ensureDNS_keys dns)). simpl. by destruct errs. }
  specialize (Hkey _ _ eq_refl dns' eq_refl).
  assert (dns_Name dns' = dns_Name dns) as Hname by (injection Hkey; done).
  assert (ensureDNS_keys dns = ensureDNS_keys dns') as ->.
  { unfold ensureDNS_keys, operands_keys, metrics_keys, DNSDaemonSetName, DNSConfigMapName,
      DNSNetworkPolicyName, DNSServiceName, DNSServiceMonitorName. by rewrite Hname. }
  revert w1. eapply provides_before; [apply provides_ensureDNS| |].
  - intros [[e|] res']; [destruct (retryable.After e); grow|]. unfold ensureExternalNameForOpenshiftService.
    apply grows_bind; [apply grows_get_or_create|grow].
  - intros [[e|] res']; [|intros ???? _; by apply tolerable_None].
    destruct (retryable.After e) as [a|] eqn:Ea; apply returns_ret.
    + intros _ e' [= <-]. unfold plain. congruence.
    + simpl. by destruct errs.
Qed.

(** The managed branch deletes configmaps only: every other object stays. *)
Definition keeps {A} (kn : Kind * NamespacedName) (m : M W A) : Prop := ∀ w, present w kn → present (m w).2 kn.

Lemma keeps_grows {A} kn (m : M W A) : grows m → keeps kn m.
Proof. intros Hm w. apply Hm. Qed.

Lemma keeps_bind {A B} kn (m : M W A) (f : A → M W B) :
  keeps kn m → (∀ a, keeps kn (f a)) → keeps kn (m ≫= f).
Proof.
  intros Hm Hf w Hp. unfold mbind, M_bind. specialize (Hm w Hp).
  destruct (m w) as [[a|] w']; [by apply Hf|done].
Qed.

Lemma keeps_ensureDNS kn dns res : kn.1 ≠ KConfigMap → keeps kn (ensureDNS (W := W) r dns res).
Proof.
  intros Hk. unfold ensureDNS.
  apply keeps_bind; [apply keeps_grows, grows_touches, touches_getClusterIP|].
  intros [e|ip]; [apply keeps_grows; grow|]. apply keeps_bind.
  { intros w Hp. unfold present. rewrite (touches_ensureCABundleConfigMaps
      {[ x : Kind * NamespacedName | x.1 = KConfigMap ]} dns); [done|set_solver|].
    destruct kn. simpl in *. set_solver. }
  intros e1. apply keeps_grows. apply grows_bind; [apply grows_touches, touches_caBundleRevisionMap|].
  intros m. apply grows_bind; [grow|]. intros api.
  match goal with |- context [match ?x with inl _ => _ | inr _ => _ end] => destruct x as [e|tsp] end; [grow|].
  apply grows_bind.
  { apply (grows_ensure KDaemonSet); unfold createDNSDaemonSet, currentDNSDaemonSet; grow. }
  intros [[ds|] [e|]]; try apply ensure_status_installs. apply grows_bind; [unfold ensure_operands; grow|].
  intros [e|[errs ip']]; [grow|apply ensure_status_installs].
Qed.

Lemma keeps_reconcile_managed kn dns errs res :
  kn.1 ≠ KConfigMap → keeps kn (reconcile_managed (W := W) r dns errs res).
Proof.
  intros Hk. unfold reconcile_managed.
  apply keeps_bind; [apply keeps_grows, grows_enforceDNSFinalizer|].
  intros [e|d]; [apply keeps_grows; grow|]. apply keeps_bind; [by apply keeps_ensureDNS|].
  intros [[e|] res']; apply keeps_grows; [destruct (retryable.After e); grow|].
  apply grows_bind; [apply grows_get_or_create|grow].
Qed.

(** The operands after the scaffolding and the managed branch. *)
Lemma managed_present dns (w w1 w2 : W) res :
  ensureDNSNamespace r w = (Some None, w1) →
  reconcile_managed r dns [] result0 w1 = (Some (inr ([], res)), w2) →
  Forall (present w2) ((KConfigMap, DNSConfigMapName dns) :: operand_keys (dns_Name dns)).
Proof.
  intros Hns Hman.
  pose proof (wlp_run _ _ _ _ _ (proj1 ensureDNSNamespace_installs w) Hns eq_refl) as Hn.
  pose proof (wlp_run _ _ _ _ _ (provides_reconcile_managed dns [] result0 w1) Hman
    ltac:(by eexists)) as Hm.
  assert (Forall (present w2) namespace_keys) as Hn2.
  { rewrite Forall_forall in Hn |- *. intros kn Hkn.
    pose proof (keeps_reconcile_managed kn dns [] result0) as Hkeep. specialize (Hn kn Hkn).
    assert (kn.1 ≠ KConfigMap) as Hkind.
    { revert Hkn. unfold namespace_keys. rewrite !elem_of_cons. intros Hkn.
      repeat destruct Hkn as [->|Hkn]; try done. by apply elem_of_nil in Hkn. }
    specialize (Hkeep Hkind w1 Hn). by rewrite Hman in Hkeep. }
  unfold managed_keys, ensureDNS_keys, operands_keys, metrics_keys, namespace_keys, operand_keys in *.
  simpl in Hm. rewrite !Forall_cons in *. tauto.
Qed.

(** C2: a reconciliation that reports no error has installed everything.  When the
    scaffolding step succeeds and the managed branch then ends with no error collected,
    every operand of the DNS is in the cluster: the namespace, roles, bindings and service
    accounts, both daemonsets, the Corefile, the network policies, the DNS service, the
    metrics objects and the external name service. *)
Theorem reconcile_managed_installs dns (w w1 w2 : W) res :
  ensureDNSNamespace r w = (Some None, w1) →
  reconcile_managed r dns [] result0 w1 = (Some (inr ([], res)), w2) →
  Forall (present w2) ((KConfigMap, DNSConfigMapName dns) :: operand_keys (dns_Name dns)).
Proof. apply managed_present. Qed.

End handlers.
