(* ===== verification/ControllerRuns.v ===== *)
(** * The DNS controller: pure decisions and runs

    The cluster IP, the namespace labels, the watch on nodes, the finalizer, and
    Reconcile run on concrete clusters. *)

From S2P Require Import Prelude GoLib Types Util Labels Numbers Net NetProps NetText Client Mem Names.
From S2P Require Import Manifests Samples Tls DaemonSet DaemonSetProps DNSStatus Corefile.
From S2P Require Import CorefileGolden CorefileProps Service NodeResolver NetworkPolicies CABundle.
From S2P Require Import StatusController Operator Controller ControllerProps Installed.

(** ** The cluster IP *)

(** C25: the cluster IP of the DNS service is the tenth address of the first service
    network: when the network has more than ten addresses, the text is the address whose
    number is that of the network plus ten, which belongs to the network and which
    net.ParseIP reads back from the text; a smaller network is an error.  IPv4-mapped IPv6 networks are
    excluded. *)
Theorem clusterIP_of_network_spec cidr rest net :
  ParseCIDR cidr = inr net → is_4in6 (ipnet_IP net) = false →
  if bool_decide (10 < 2 ^ (bits (ipnet_IP net) - ipnet_PrefixLen net))%Z
  then ∃ ip, clusterIP_of_network (cidr :: rest) = inr (IP_String ip) ∧
             bytes_to_Z ip = (bytes_to_Z (ipnet_IP net) + 10)%Z ∧ in_net net ip ∧
             ParseIP (IP_String ip) = Some (As16 ip)
  else ∃ err, clusterIP_of_network (cidr :: rest) = inl err.
Proof.
  intros Hcidr H46. pose proof (cidr_Host_value net 10 (ParseCIDR_wf _ _ Hcidr) ltac:(lia) H46) as Hh.
  unfold clusterIP_of_network. rewrite Hcidr. destruct (bool_decide _).
  - destruct Hh as (ip & -> & Hwf & Hv & Hin). exists ip. do 3 (split; [done|]).
    by apply ParseIP_String.
  - destruct Hh as [err ->]. by eexists.
Qed.

Lemma clusterIP_of_network_spec_witness :
  ∃ ip, clusterIP_of_network ["fd02::/112"] = inr (IP_String ip) ∧ ParseIP (IP_String ip) = Some (As16 ip).
Proof.
  pose proof (clusterIP_of_network_spec "fd02::/112" [] (mkIPNet (253 :: 2 :: replicate 14 0)%Z 112) eq_refl eq_refl)
    as Hc.
  rewrite bool_decide_true in Hc by (vm_compute; reflexivity).
  destruct Hc as (ip & Hip & _ & _ & Hp). exists ip. split; [exact Hip|exact Hp].
Defined.

(** ** Namespace labels *)

(** The labels after the merge, and whether it changed anything. *)
Definition merged_label (existing desired : gmap string string) (ks : list string) (k : string)
    : option string :=
  if bool_decide (k ∈ ks) then match desired !! k with Some v => Some v | None => existing !! k end
  else existing !! k.

Lemma merge_labels_spec (existing desired : gmap string string) ks :
  let '(labels, changed) :=
    foldl (λ (st : gmap string string * bool) k,
             match desired !! k with
             | Some desiredVal =>
                 if match existing !! k with
                    | None => true
                    | Some existingVal => negb (existingVal =s desiredVal)
                    end
                 then (<[ k := desiredVal ]> st.1, true) else st
             | None => st
             end) (existing, false) ks in
  (∀ k, labels !! k = merged_label existing desired ks k) ∧
  (changed = true ↔ ∃ k, k ∈ ks ∧ ∃ v, desired !! k = Some v ∧ existing !! k ≠ Some v).
Proof.
  induction ks as [|x ks IH] using rev_ind; simpl; [split; [done|set_solver]|].
  rewrite foldl_snoc. destruct (foldl _ _ ks) as [labels changed]. destruct IH as [IHl IHc].
  unfold merged_label in *.
  assert (∀ c : bool, (existing !! x = desired !! x ∨ desired !! x = None) →
    c = changed → (∀ k, labels !! k = if bool_decide (k ∈ ks ++ [x]) then
      match desired !! k with Some v => Some v | None => existing !! k end else existing !! k) ∧
    (c = true ↔ ∃ k, k ∈ ks ++ [x] ∧ ∃ v, desired !! k = Some v ∧ existing !! k ≠ Some v)) as Hkeep.
  { intros c Hx ->. split.
    - intros k. rewrite IHl. clear IHl IHc. repeat case_bool_decide; try done; [set_solver|].
      assert (k = x) as -> by set_solver. destruct Hx as [<- | -> ]; [|done]. by destruct (existing !! x).
    - rewrite IHc. split; intros (k & Hk & v & Hv & He); exists k; (split; [|eauto]).
      + apply elem_of_app. by left.
      + apply elem_of_app in Hk as [ | ->%list_elem_of_singleton]; [done|].
        destruct Hx; congruence. }
  destruct (desired !! x) as [v|] eqn:Ed; [|by apply Hkeep; auto].
  match goal with |- context [if ?b then _ else _] => destruct b eqn:Eb end.
  - split.
    + intros k. simpl. destruct (decide (k = x)) as [->|Hne].
      * rewrite lookup_insert_eq, bool_decide_true, Ed; [done|clear; set_solver].
      * rewrite lookup_insert_ne, IHl by done. clear IHl IHc Hkeep.
        repeat case_bool_decide; set_solver.
    + split; [|done]. intros _. exists x. split; [clear; set_solver|]. exists v. split; [done|].
      intros E. rewrite E in Eb. to_prop. done.
  - apply Hkeep; [|done]. left. destruct (existing !! x); to_prop; [congruence|done].
Qed.

(** NamespaceLabelsChanged changes exactly the managed labels: it gives each managed
    label its desired value and keeps every other label and the rest of the namespace,
    it reports a change exactly when some managed label differs, and after the update
    there is nothing left to change. *)
Lemma namespaceLabelsChanged_spec existing desired :
  let '(changed, updated) := namespaceLabelsChanged existing desired in
  (∀ k, om_Labels (ns_meta updated) !! k =
        merged_label (om_Labels (ns_meta existing)) (om_Labels (ns_meta desired)) managedDNSNamespaceLabels k) ∧
  key_of KNamespace updated = key_of KNamespace existing ∧
  om_Annotations (ns_meta updated) = om_Annotations (ns_meta existing) ∧
  (changed = false ↔ updated = existing) ∧
  namespaceLabelsChanged updated desired = (false, updated).
Proof.
  unfold namespaceLabelsChanged at 1.
  pose proof (merge_labels_spec (om_Labels (ns_meta existing)) (om_Labels (ns_meta desired))
                managedDNSNamespaceLabels) as Hm.
  destruct (foldl _ _ _) as [labels changed]. destruct Hm as [Hl Hc]. cbn [ns_meta om_Labels].
  split; [done|]. split; [done|]. split; [done|]. split.
  - set (dl := om_Labels (ns_meta desired)) in *.
    destruct existing as [[n ns uid rv el ann own fin del]]; cbn in *. split.
    + intros ->. do 2 f_equal. apply map_eq. intros k. rewrite Hl. unfold merged_label.
      case_bool_decide as Hin; [|done]. destruct (dl !! k) as [v|] eqn:Ed; [|done].
      destruct (decide (el !! k = Some v)) as [->|Hne]; [done|].
      exfalso. by assert (false = true) by (apply Hc; eauto).
    + intros [= ->]. apply not_true_is_false. intros (k & Hk & v & Hv & Hne)%Hc.
      apply Hne. rewrite Hl. unfold merged_label. by rewrite bool_decide_true, Hv.
  - unfold namespaceLabelsChanged. cbn [ns_meta om_Labels].
    pose proof (merge_labels_spec labels (om_Labels (ns_meta desired)) managedDNSNamespaceLabels) as Hm.
    destruct (foldl _ _ _) as [labels' changed']. destruct Hm as [Hl' Hc'].
    assert (∀ k v, k ∈ managedDNSNamespaceLabels → om_Labels (ns_meta desired) !! k = Some v →
      labels !! k = Some v) as Hdone.
    { intros k v Hk Hv. rewrite Hl. unfold merged_label. by rewrite bool_decide_true, Hv. }
    assert (changed' = false) as ->.
    { apply not_true_is_false. intros (k & Hk & v & Hv & Hne)%Hc'. eauto. }
    do 2 f_equal. f_equal. apply map_eq. intros k. rewrite Hl'. unfold merged_label.
    case_bool_decide; [|done]. destruct (om_Labels (ns_meta desired) !! k) eqn:E; [|done].
    symmetry. eauto.
Qed.

(** ** The watch on nodes *)

Lemma hints_loop_swap pre old nu post zones :
  (∀ zones, hints_loop (old :: post) zones = hints_loop (nu :: post) zones) →
  hints_loop (pre ++ old :: post) zones = hints_loop (pre ++ nu :: post) zones.
Proof.
  intros Hpost. revert zones. induction pre as [|x pre IH]; intros zones; [apply Hpost|].
  simpl. by rewrite !IH.
Qed.

(** The node events the watch drops are irrelevant to topology-aware hints, for a
    node whose zone is unchanged (or that is ignored): whatever the other nodes are, the
    decision on hints is the same before and after the dropped update. *)
Lemma nodeUpdatePredicate_sound old nu pre post :
  nodeUpdatePredicate old nu = false →
  (ignoreNodeForTopologyAwareHints nu = true ∨ node_zone old = node_zone nu) →
  hints_loop (pre ++ old :: post) ∅ = hints_loop (pre ++ nu :: post) ∅.
Proof.
  intros Hp Hz. apply hints_loop_swap. intros zones. unfold nodeUpdatePredicate in Hp. simpl.
  destruct (ignoreNodeForTopologyAwareHints old), (ignoreNodeForTopologyAwareHints nu); try done.
  destruct (nodeIsValidForTopologyAwareHints old), (nodeIsValidForTopologyAwareHints nu); try done.
  destruct Hz as [? | -> ]; done.
Qed.

(** A ready worker node in a zone. *)
Definition sample_node (name zone : string) : Node :=
  mkNode (mkObjectMeta name "" "" "" {[ LabelTopologyZone := zone ]} ∅ [] [] None)
    false [] [mkNodeCondition "Ready" "True"] 4000.

Lemma nodeUpdatePredicate_sound_witness :
  hints_loop [sample_node "a" "zone-1"] ∅ = hints_loop [sample_node "a" "zone-1"] ∅.
Proof.
  apply (nodeUpdatePredicate_sound (sample_node "a" "zone-1") (sample_node "a" "zone-1") [] []);
    [vm_compute; reflexivity|right; reflexivity].
Defined.

(** The condition on the zone is needed.  The watch drops the update of a node that
    only moves it to another zone, although this update turns hints on. *)
Lemma nodeUpdatePredicate_zone_missed :
  ∃ old nu other, nodeUpdatePredicate old nu = false ∧ node_zone old ≠ node_zone nu ∧
    hints_loop [old; other] ∅ = false ∧ hints_loop [nu; other] ∅ = true.
Proof.
  exists (sample_node "a" "zone-1"), (sample_node "a" "zone-2"), (sample_node "b" "zone-1").
  vm_compute. repeat split; try done.
Qed.

(** ** The finalizer *)

(** C13: enforceDNSFinalizer returns either an error with the stored DNS unchanged or
    holding the finalizer, or a DNS that has the finalizer and the spec it was given; a
    DNS that has it already costs no call; and removing the finalizer it added gives the
    original list back. *)
Theorem enforceDNSFinalizer_spec {W} `{ClientLaws W} dns (w : W) :
  let had := slice.ContainsString (om_Finalizers (dns_meta dns)) DNSControllerFinalizer in
  match enforceDNSFinalizer dns w with
  | (Some (inr dns'), w') =>
      slice.ContainsString (om_Finalizers (dns_meta dns')) DNSControllerFinalizer = true ∧
      dns_Spec dns' = dns_Spec dns ∧ key_of KDNS dns' = key_of KDNS dns ∧
      (had = true → dns' = dns ∧ w' = w) ∧
      (had = false → view w' KDNS (key_of KDNS dns) = Some dns' ∧
         default [] (slice.RemoveString (om_Finalizers (dns_meta dns')) DNSControllerFinalizer)
         = om_Finalizers (dns_meta dns))
  | (Some (inl _), w') => had = false ∧
      (∀ k n, (k, n) ≠ (KDNS, key_of KDNS dns) → view w' k n = view w k n) ∧
      (view w' KDNS (key_of KDNS dns) = view w KDNS (key_of KDNS dns) ∨
       ∃ dns', view w' KDNS (key_of KDNS dns) = Some dns' ∧
         slice.ContainsString (om_Finalizers (dns_meta dns')) DNSControllerFinalizer = true)
  | (None, _) => False
  end.
Proof.
  cbv zeta. unfold enforceDNSFinalizer.
  destruct (slice.ContainsString _ _) eqn:Ec; cbn [negb]; [by simpl; rewrite Ec|].
  unfold mbind, M_bind, call. set (u := dns_set_finalizers _ _).
  assert (∀ d, om_Finalizers (dns_meta d) = om_Finalizers (dns_meta u) →
    slice.ContainsString (om_Finalizers (dns_meta d)) DNSControllerFinalizer = true) as Hadd.
  { intros d ->. apply ContainsString_elem. simpl. clear. set_solver. }
  destruct (update_law KDNS u w (released_add_finalizer _ _)) as (Hother & Hthis & Hok).
  destruct (client_Update KDNS u w) as [[e|d] w1]; simpl in *.
  { split; [done|]. split; [done|]. destruct Hthis as [|(d & (_ & _ & Hf) & Hd)]; eauto. }
  destruct (Hok d eq_refl) as [(Hk & Hs & Hf) Hv].
  change (om_Finalizers (dns_meta u)) with (om_Finalizers (dns_meta dns) ++ [DNSControllerFinalizer]) in Hf.
  split; [by apply Hadd|]. rewrite Hf. split; [done|]. split; [done|]. split; [done|]. intros _. split; [done|]. by apply append_RemoveString.
Qed.

(** ** Reconcile on concrete clusters *)

(** The environment of the operator's deployment. *)
Definition sample_env (name : string) : string :=
  if name =s "RELEASE_VERSION" then "v1" else if name =s "IMAGE" then "coredns:v1"
  else if name =s "OPENSHIFT_CLI_IMAGE" then "cli:v1"
  else if name =s "KUBE_RBAC_PROXY_IMAGE" then "kube-rbac-proxy:v1" else "".

Definition started_reconciler : reconciler :=
  match collect_config sample_env with
  | inr config => operator_reconciler config false
  | inl _ => sample_reconciler
  end.

(** A cluster with a service network and nothing else, in which the operator has started:
    it has created the default DNS. *)
Definition fresh_cluster : Mem :=
  (ensureDefaultDNS (mem_add KNetwork (mkNetwork (named "" "cluster") ["172.30.0.0/16"]) mem0)).2.

Definition run (m : Mem) : option (Result * option error) * Mem :=
  Reconcile started_reconciler DefaultDNSNamespaceName m.

(** Give a daemonset the given counters: wanted, available and updated pods. *)
Definition set_pods (name : string) (n : Z) (m : Mem) : Mem :=
  match store_get (mem_store m) KDaemonSet (mkNN "openshift-dns" name) with
  | Some ds => mem_add KDaemonSet (mkDaemonSet (ds_meta ds) (ds_Spec ds) (mkDaemonSetStatus n n n)) m
  | None => m
  end.

Definition with_faults (fs : list (option APIError)) (m : Mem) : Mem :=
  mkMem (mem_store m) fs (mem_clock m) (mem_trace m).

(** The cluster after the first reconciliation, and once the pods of both daemonsets run. *)
Definition installed_cluster : Mem := (run fresh_cluster).2.
Definition running_cluster : Mem := set_pods "node-resolver" 3 (set_pods "dns-default" 3 installed_cluster).



(** The cluster at rest, and a call of a reconciliation that fails. *)
Definition settled_cluster : Mem := (run running_cluster).2.
Definition failing_call (n : nat) (m : Mem) : Mem :=
  with_faults (replicate n None ++ [Some (OtherError "timeout")]) m.

(** The environment of the node resolver. *)
Definition resolver_env (m : Mem) : list (string * string) :=
  match view m KDaemonSet NodeResolverDaemonSetName with
  | Some ds => (λ e, (ev_Name e, ev_Value e)) <$> (ps_Containers (ds_podspec ds) ≫= c_Env)
  | None => []
  end.


(** ** The theorems of the controller at concrete inputs *)

Definition unmanaged_dns : DNS :=
  mkDNS (dns_meta sample_dns)
    (mkDNSSpec [] (mkUpstreamResolvers [] "" (mkDNSTransportConfig "" None) "")
       (mkDNSNodePlacement ∅ []) Unmanaged "" "" (mkDNSCache 0 0)) (dns_Status sample_dns).

Lemma Reconcile_footprint_witness :
  view (run fresh_cluster).2 KNetwork (mkNN "" "cluster") = view fresh_cluster KNetwork (mkNN "" "cluster") ∧
  Reconcile started_reconciler (mkNN "" "other") fresh_cluster = (Some (result0, None), fresh_cluster).
Proof.
  split.
  - apply (Reconcile_footprint started_reconciler DefaultDNSNamespaceName fresh_cluster).
    assert ((KNetwork, mkNN "" "cluster") ∉ operand_keys "default") as Hop by (unfold operand_keys; set_solver).
    intros [Hin|[[Hk _]|Hk]]; [exact (Hop Hin)|discriminate..].
  - apply (Reconcile_footprint started_reconciler (mkNN "" "other") fresh_cluster). discriminate.
Defined.


(** The default DNS with the finalizer, being deleted. *)
Definition deleted_dns : DNS :=
  mkDNS (mkObjectMeta "default" "" "uid-1" "" ∅ ∅ [] [DNSControllerFinalizer] (Some 1%Z)) sample_spec
    (mkDNSStatus "" "" []).

Lemma reconcile_deletion_finalizer_witness :
  let w := mem_add KDNS deleted_dns mem0 in
  view (reconcile_deletion deleted_dns [ErrNew "failed"] w).2 KDNS (mkNN "" "default") = Some deleted_dns.
Proof.
  pose proof (reconcile_deletion_finalizer deleted_dns [ErrNew "failed"] (mem_add KDNS deleted_dns mem0)
    eq_refl) as Hd.
  destruct (ensureOpenshiftExternalNameServiceDeleted _) as [e1 w1]. destruct (ensureDNSDeleted _ w1) as [e2 w2].
  apply Hd. left. discriminate.
Defined.

Lemma reconcile_managed_installs_witness :
  let w1 := (ensureDNSNamespace sample_reconciler running_cluster).2 in
  let w2 := (reconcile_managed sample_reconciler sample_dns [] result0 w1).2 in
  present w2 (KService, mkNN "openshift-dns" "dns-default").
Proof.
  cbv zeta. set (m1 := ensureDNSNamespace sample_reconciler running_cluster).
  set (m2 := reconcile_managed sample_reconciler sample_dns [] result0 m1.2).
  assert (m1.1 = Some None) as E1 by (vm_compute; reflexivity).
  assert (m2.1 = Some (inr ([], result0))) as E2 by (vm_compute; reflexivity).
  pose proof (reconcile_managed_installs sample_reconciler sample_dns running_cluster m1.2 m2.2 result0) as Hall.
  rewrite <- E1, <- E2 in Hall. specialize (Hall (surjective_pairing _) (surjective_pairing _)).
  rewrite Forall_forall in Hall. apply Hall. clear. set_solver.
Defined.
