(* ===== verification/Calm.v ===== *)
(** * Worlds in which calls do not fail

    A set of worlds closed under every call of the operator, and that the handlers of the
    DNS controller stay in it. *)

From S2P Require Import Prelude GoLib Types Util Labels Numbers Net Client Mem Names Manifests.
From S2P Require Import Samples Tls DaemonSet DaemonSetProps DNSStatus Corefile CorefileGolden.
From S2P Require Import CorefileProps Service NodeResolver NetworkPolicies CABundle Controller.
From S2P Require Import ControllerProps.

(** [G] is closed under the calls. *)
Class Closed {W : Type} `{Client W} `{Runtime W} (G : W → Prop) : Prop := {
  closed_Get : ∀ k n w, G w → G (client_Get k n w).2;
  closed_Create : ∀ k o w, G w → G (client_Create k o w).2;
  closed_Update : ∀ k o w, G w → G (client_Update k o w).2;
  closed_Delete : ∀ k n w, G w → G (client_Delete k n w).2;
  closed_StatusUpdate : ∀ k o w, G w → G (client_StatusUpdate k o w).2;
  closed_cache_Get : ∀ k n w, G w → G (cache_Get k n w).2;
  closed_cache_List : ∀ k l w, G w → G (cache_List k l w).2;
  closed_Now : ∀ w, G w → G (time_Now w).2;
  closed_SetLevel : ∀ l w, G w → G (logrus_SetLevel l w).2 }.

(** In [G], reading an object fails only when the object is missing, and an object without
    finalizers is gone when it is deleted. *)
Class Calm {W : Type} `{ClientLaws W} `{!Runtime W} (G : W → Prop) : Prop := {
  calm_closed :: Closed G;
  calm_Get : ∀ k n w t, G w → (client_Get k n w).1 ≠ inl (OtherError t);
  calm_Delete : ∀ k n w o, G w → view w k n = Some o → om_Finalizers (meta_of k o) = [] →
    view (client_Delete k n w).2 k n = None }.

#[export] Instance closed_all {W} `{Client W} `{Runtime W} : Closed (λ _ : W, True).
Proof. by split. Qed.

(** The in-memory server with no failure scheduled. *)
Definition no_faults (m : Mem) : Prop := mem_faults m = [].

#[export] Instance Mem_calm : Calm no_faults.
Proof.
  assert (∀ m : Mem, no_faults m → mem_fault m = (None, m)) as Hf by (intros m Hm; unfold mem_fault; by rewrite Hm).
  split; [split|..].
  - intros k n m Hm. simpl. unfold mem_Get. by rewrite Hf.
  - intros k o m Hm. simpl. unfold mem_Create. rewrite Hf by done. by repeat case_match.
  - intros k o m Hm. simpl. unfold mem_Update. rewrite Hf by done. by repeat case_match.
  - intros k n m Hm. simpl. unfold mem_Delete. rewrite Hf by done. by repeat case_match.
  - intros k o m Hm. simpl. unfold mem_StatusUpdate. rewrite Hf by done. by repeat case_match.
  - intros k n m Hm. simpl. unfold mem_Get. by rewrite Hf.
  - intros k l m Hm. simpl. unfold mem_List. by rewrite Hf.
  - done.
  - done.
  - intros k n m t Hm. simpl. unfold mem_Get. rewrite Hf by done. simpl. by case_match.
  - intros k n m o Hm Hv _. simpl in *. unfold mem_Delete. rewrite Hf by done. rewrite Hv. apply live_set_None.
Qed.

Section preserves.
Context {W : Type} `{Client W} `{Runtime W} {G : W → Prop} `{!Closed G}.

(** Running [m] stays in [G], whether or not it panics. *)
Definition preserves {A} (m : M W A) : Prop := ∀ w, G w → G (m w).2.

Lemma preserves_ret {A} (a : A) : preserves (mret a).
Proof. by intros w Hw. Qed.

Lemma preserves_lift {A} (o : option A) : preserves (lift_option o).
Proof. by intros w Hw. Qed.

Lemma preserves_gets {A} (f : W → A) : preserves (gets f).
Proof. by intros w Hw. Qed.

Lemma preserves_bind {A B} (m : M W A) (f : A → M W B) :
  preserves m → (∀ a, preserves (f a)) → preserves (m ≫= f).
Proof.
  intros Hm Hf w Hw. unfold mbind, M_bind. specialize (Hm w Hw). destruct (m w) as [[a|] w1]; [|done]. by apply Hf.
Qed.

Lemma preserves_call {A} (op : Op W A) : (∀ w, G w → G (op w).2) → preserves (call op).
Proof. intros Hop w Hw. unfold call. specialize (Hop w Hw). by destruct (op w). Qed.

Lemma preserves_Get k n : preserves (call (client_Get k n)).
Proof. apply preserves_call, closed_Get. Qed.
Lemma preserves_Create k o : preserves (call (client_Create k o)).
Proof. apply preserves_call, closed_Create. Qed.
Lemma preserves_Update k o : preserves (call (client_Update k o)).
Proof. apply preserves_call, closed_Update. Qed.
Lemma preserves_Delete k n : preserves (call (client_Delete k n)).
Proof. apply preserves_call, closed_Delete. Qed.
Lemma preserves_StatusUpdate k o : preserves (call (client_StatusUpdate k o)).
Proof. apply preserves_call, closed_StatusUpdate. Qed.
Lemma preserves_cache_List k l : preserves (call (cache_List k l)).
Proof. apply preserves_call, closed_cache_List. Qed.
Lemma preserves_Now : preserves (call time_Now).
Proof. apply preserves_call, closed_Now. Qed.
Lemma preserves_SetLevel l : preserves (call (logrus_SetLevel l)).
Proof. apply preserves_call, closed_SetLevel. Qed.

End preserves.

Create HintDb dnsop_calm.
#[export] Hint Resolve preserves_ret preserves_lift preserves_gets : dnsop_calm.

(** Walk through a handler. *)
Ltac calm :=
  repeat (intros; first
    [ solve [auto with dnsop_calm]
    | match goal with
      | |- preserves (call (client_Get ?k ?n)) => exact (preserves_Get k n)
      | |- preserves (call (client_Create ?k ?n)) => exact (preserves_Create k n)
      | |- preserves (call (client_Update ?k ?n)) => exact (preserves_Update k n)
      | |- preserves (call (client_Delete ?k ?n)) => exact (preserves_Delete k n)
      | |- preserves (call (client_StatusUpdate ?k ?n)) => exact (preserves_StatusUpdate k n)
      | |- preserves (call (cache_List ?k ?l)) => exact (preserves_cache_List k l)
      | |- preserves (call time_Now) => exact preserves_Now
      | |- preserves (call (logrus_SetLevel ?l)) => exact (preserves_SetLevel l)
      end
    | apply preserves_bind
    | match goal with
      | |- preserves (match ?x with _ => _ end) => destruct x
      end ]).

(** ** The handlers *)

Section handlers.
Context `{UnicodeTables} `{FloatConversion} `{Assets}.
Context {W : Type} `{Client W} `{Runtime W} {G : W → Prop} `{!Closed G} (r : reconciler).
Notation safe := (preserves (W := W) (G := G)).

Lemma preserves_ensureDNSClusterRole : safe (ensureDNSClusterRole r).
Proof. unfold ensureDNSClusterRole, currentDNSClusterRole, updateDNSClusterRole. calm. Qed.

Lemma preserves_get_or_create k o errorf what : safe (get_or_create k o errorf what).
Proof. unfold get_or_create. calm. Qed.

Lemma preserves_first_error (steps : list (M W (option error))) : Forall safe steps → safe (first_error steps).
Proof. induction 1; simpl; calm. Qed.

Lemma preserves_ensure_namespace : safe ensure_namespace.
Proof. unfold ensure_namespace. calm. Qed.

Lemma preserves_ensureDNSNamespace : safe (ensureDNSNamespace r).
Proof.
  unfold ensureDNSNamespace. apply preserves_first_error. repeat apply Forall_cons_2; [..|constructor].
  - apply preserves_ensure_namespace.
  - apply preserves_bind; [apply preserves_ensureDNSClusterRole|calm].
  - apply preserves_get_or_create.
  - apply preserves_get_or_create.
  - apply preserves_get_or_create.
Qed.

Lemma preserves_ensureDNSConfigMap dns cd m : safe (ensureDNSConfigMap r dns cd m).
Proof. unfold ensureDNSConfigMap, currentDNSConfigMap, updateDNSConfigMap. calm. Qed.

Lemma preserves_ensureDNSNetworkPolicy dns : safe (ensureDNSNetworkPolicy dns).
Proof. unfold ensureDNSNetworkPolicy, currentDNSNetworkPolicy, updateDNSNetworkPolicy. calm. Qed.

Lemma preserves_ensureDenyAllNetworkPolicy : safe ensureDenyAllNetworkPolicy.
Proof. unfold ensureDenyAllNetworkPolicy, currentDenyAllNetworkPolicy, updateDNSNetworkPolicy. calm. Qed.

Lemma preserves_ensureServiceMonitor dns svc ref : safe (ensureServiceMonitor dns svc ref).
Proof. unfold ensureServiceMonitor, currentServiceMonitor, updateDNSServiceMonitor. calm. Qed.

Lemma preserves_ensureDNSService dns ip ref : safe (ensureDNSService dns ip ref).
Proof. unfold ensureDNSService, currentDNSService, shouldEnableTopologyAwareHints, updateDNSService. calm. Qed.

Lemma preserves_ensureDNSDaemonSet dns m tsp : safe (ensureDNSDaemonSet r dns m tsp).
Proof.
  unfold ensureDNSDaemonSet, currentDNSDaemonSet, createDNSDaemonSet, updateDNSDaemonSet, daemonsetUpdateIsSafe. calm.
Qed.

Lemma preserves_ensureNodeResolverDaemonSet dns ip cd : safe (ensureNodeResolverDaemonSet r dns ip cd).
Proof.
  unfold ensureNodeResolverDaemonSet, currentNodeResolverDaemonSet, createNodeResolverDaemonSet,
    updateNodeResolverDaemonSet. calm.
Qed.

Lemma preserves_for_errs {A} (body : A → M W (list error)) l : (∀ a, safe (body a)) → safe (for_errs body l).
Proof. intros Hb. induction l; simpl; calm. Qed.

Lemma preserves_ensureCABundleConfigMaps dns : safe (ensureCABundleConfigMaps dns).
Proof.
  unfold ensureCABundleConfigMaps. apply preserves_bind.
  - apply preserves_for_errs. intros name.
    unfold sync_ca_bundle, currentCABundleConfigMap, updateCABundleConfigMap, deleteConfigMap. calm.
  - intros errs. apply preserves_bind; [calm|]. intros [e|items]; (apply preserves_bind; [|calm]);
      apply preserves_for_errs; intros cm; unfold prune_ca_bundle, deleteConfigMap; calm.
Qed.

Lemma preserves_caBundleRevisionMap dns : safe (caBundleRevisionMap dns).
Proof.
  unfold caBundleRevisionMap. generalize (∅ : gmap string string) as m.
  induction (_ :: _) as [|tc tcs IH]; intros m; simpl; [calm|].
  apply preserves_bind; [unfold ca_bundle_revision; calm|done].
Qed.

Lemma preserves_syncDNSStatus dns ip cd ods onr tol res : safe (syncDNSStatus dns ip cd ods onr tol res).
Proof.
  unfold syncDNSStatus, computeDNSStatusConditions, computeDNSProgressingCondition, computeDNSAvailableCondition,
    computeDNSUpgradeableCondition, computeDNSDegradedCondition, setDNSLastTransitionTime. calm.
Qed.

Lemma preserves_getClusterIP : safe getClusterIPFromNetworkConfig.
Proof. unfold getClusterIPFromNetworkConfig. calm. Qed.

Lemma preserves_enforceDNSFinalizer dns : safe (enforceDNSFinalizer dns).
Proof. unfold enforceDNSFinalizer. calm. Qed.

End handlers.
