(* ===== verification/Ensure.v ===== *)
(** * What an operand handler implements

    The abstract specification of ensureDNSDaemonSet, ensureNodeResolverDaemonSet,
    ensureDNSConfigMap, ensureDNSService, ensureDNSNetworkPolicy,
    ensureDenyAllNetworkPolicy, ensureDNSClusterRole and ensureServiceMonitor (one file
    each under pkg/operator/controller): a transition of the one object the handler is
    responsible for.  Each handler refines it, with the desired object and the comparison
    of its own file. *)

From S2P Require Import Prelude GoLib Types Util Labels Numbers Net Client Mem Names Manifests.
From S2P Require Import Samples Tls DaemonSet DaemonSetProps DNSStatus Corefile CorefileGolden.
From S2P Require Import CorefileProps Service NodeResolver NetworkPolicies CABundle Controller.
From S2P Require Import ControllerProps Installed ControllerRuns.

(** ** The specification *)

(** From the stored object to the stored object, for a handler that wants one of the
    objects [want] and changes [c] to [u] when [fixes c (Some u)].  The flag tells whether
    the handler reports an error; an error may be reported after the write. *)
Inductive sync {k} (acc : obj k → obj k → Prop) (want : obj k → Prop) (fixes : obj k → option (obj k) → Prop)
  : option (obj k) → bool → option (obj k) → Prop :=
| sync_failed before : sync acc want fixes before true before
| sync_created d o failed : want d → acc d o → sync acc want fixes None failed (Some o)
| sync_kept c : fixes c None → sync acc want fixes (Some c) false (Some c)
| sync_updated c u o failed : fixes c (Some u) → acc u o → sync acc want fixes (Some c) failed (Some o).

Section implements.
Context {W : Type} `{ClientLaws W} {acc : ∀ k, obj k → obj k → Prop} `{!Stores W acc}.

Definition Handler (k : Kind) : Type := M W (option (obj k) * option error).

(** From [w], the handler leaves every other object alone, performs a transition of the
    specification on its own, and returns the stored object if it reports no error.  If it
    panics, it does so before any write. *)
Definition implements_at (k : Kind) (n : NamespacedName) (want : obj k → Prop)
    (fixes : obj k → option (obj k) → Prop) (m : Handler k) (w : W) : Prop :=
  (∀ k' n', (k', n') ≠ (k, n) → view (m w).2 k' n' = view w k' n') ∧
  match (m w).1 with
  | None => view (m w).2 k n = view w k n
  | Some (cur, err) =>
      sync (acc k) want fixes (view w k n) (bool_decide (is_Some err)) (view (m w).2 k n) ∧
      (err = None → cur = view (m w).2 k n)
  end.

Definition implements k n want fixes m : Prop := ∀ w, implements_at k n want fixes m w.

(** The same cluster. *)
Definition same_view (w w' : W) : Prop := ∀ k n, view w' k n = view w k n.

#[global] Instance same_view_preorder : PreOrder same_view.
Proof. split; [by intros w k n|]. intros w1 w2 w3 H12 H23 k n. by rewrite H23. Qed.

(** The same cluster, the objects [D] aside. *)
Definition same_but (D : propset (Kind * NamespacedName)) (w w' : W) : Prop :=
  ∀ k n, (k, n) ∉ D → view w' k n = view w k n.

#[global] Instance same_but_equivalence D : Equivalence (same_but D).
Proof.
  split; [by intros w k n|intros w1 w2 H12 k n Hk; by rewrite H12|].
  intros w1 w2 w3 H12 H23 k n Hk. by rewrite H23, H12.
Qed.

Lemma same_view_but D w w' : same_view w w' → same_but D w w'.
Proof. intros Hw k n _. apply Hw. Qed.

(** What no decision on another operand depends on: the DNSes, once read, and the node
    resolver. *)
Definition only_dns : propset (Kind * NamespacedName) := {[ kn | kn.1 = KDNS ]}.
Definition volatile : propset (Kind * NamespacedName) :=
  {[ kn | kn.1 = KDNS ∨ kn = (KDaemonSet, NodeResolverDaemonSetName) ]}.

Definition same_operands : W → W → Prop := same_but volatile.

(** ** Rules *)

Section rules.
Context {k : Kind} {n : NamespacedName} {want : obj k → Prop} {fixes : obj k → option (obj k) → Prop}.
Notation ok := (implements_at k n want fixes).

Lemma implements_error x e w : ok (mret (x, Some e)) w.
Proof. split; [done|]. simpl. split; [constructor|done]. Qed.

Lemma implements_keep c w : view w k n = Some c → fixes c None → ok (mret (Some c, None)) w.
Proof. intros Hc Hf. split; [done|]. simpl. rewrite Hc. split; [by constructor|done]. Qed.

(** A step that only reads. *)
Lemma implements_read {A} (m : M W A) (f : A → Handler k) w :
  touches ∅ m →
  (∀ a w', m w = (Some a, w') → same_view w w' → ok (f a) w') → ok (m ≫= f) w.
Proof.
  intros Ht Hf. unfold implements_at, mbind, M_bind in *.
  assert (∀ k' n', view (m w).2 k' n' = view w k' n') as Hv by (intros; apply Ht; set_solver).
  destruct (m w) as [[a|] w1]; cbn [fst snd] in *; [|by split].
  specialize (Hf a w1 eq_refl Hv). rewrite <- (Hv k n).
  split; [|by apply Hf]. intros k' n' Hne. by rewrite <- Hv, (proj1 Hf).
Qed.

(** The lookup a handler starts with. *)
Lemma implements_lookup (f : option (obj k) * option error → Handler k) w :
  (∀ x e w', ok (f (x, Some e)) w') →
  (∀ w', same_view w w' → view w' k n = None → ok (f (None, None)) w') →
  (∀ c w', same_view w w' → view w' k n = Some c → ok (f (Some c, None)) w') →
  ok (lookup k n ≫= f) w.
Proof.
  intros Herr Hnone Hsome. apply implements_read; [unfold lookup; footprint; exact (touches_Get ∅ k n)|].
  intros [cur err] w1. unfold lookup, mbind, M_bind, call.
  pose proof (get_found k n w) as Hfound. pose proof (get_missing k n w) as Hmiss. pose proof (get_frame k n w k n) as Hfr.
  destruct (client_Get k n w) as [[e|o] w2]; cbn [fst snd] in *.
  - destruct e as [t|t]; intros [= <- <- <-] Hv; [|apply Herr]. apply Hnone; [done|]. rewrite Hfr. by eapply Hmiss.
  - intros [= <- <- <-] Hv. apply Hsome; [done|]. rewrite Hfr. by apply Hfound.
Qed.

(** A write of the object, after which an object [stored] is there when the write is
    [good], and maybe otherwise. *)
Definition writes_at {A} (good : A → bool) (stored : obj k → Prop) (m : M W A) (w : W) : Prop :=
  (∀ k' n', (k', n') ≠ (k, n) → view (m w).2 k' n' = view w k' n') ∧
  ∃ a, (m w).1 = Some a ∧
    ((good a = false ∧ view (m w).2 k n = view w k n) ∨ ∃ o, stored o ∧ view (m w).2 k n = Some o).

(** The call succeeded. *)
Definition succeeded {A B} (res : A + B) : bool := if res then false else true.

Lemma writes_spec_at (m : Op W (APIError + obj k)) o stored w :
  write_spec k o stored (view w) (view (m w).2) (m w).1 → key_of k o = n → writes_at succeeded stored (call m) w.
Proof.
  intros (Hframe & Hthis & Hok) Hk. rewrite Hk in *. unfold writes_at, call.
  destruct (m w) as [[e|o'] w']; cbn [fst snd] in *; (split; [done|]); eexists; (split; [done|]).
  - destruct Hthis as [->|(o' & ? & ?)]; [by left|right; by exists o'].
  - right. exists o'. by apply Hok.
Qed.

Lemma writes_create d w : key_of k d = n → writes_at succeeded (acc k d) (call (client_Create k d)) w.
Proof. intros Hk. exact (writes_spec_at _ d _ w (stores_create k d w) Hk). Qed.

Lemma writes_update u w :
  key_of k u = n → released k u = false → writes_at succeeded (acc k u) (call (client_Update k u)) w.
Proof. intros Hk Hr. exact (writes_spec_at _ u _ w (stores_update k u w Hr) Hk). Qed.

Lemma writes_map {A B} (good : A → bool) (good' : B → bool) stored (m : M W A) (f : A → M W B) (g : A → B) w :
  writes_at good stored m w → (∀ a, f a = mret (g a)) → (∀ a, good' (g a) = good a) →
  writes_at good' stored (m ≫= f) w.
Proof.
  intros (Hframe & a & Ha & Hw) Hf Hg. unfold writes_at, mbind, M_bind in *.
  destruct (m w) as [[a'|] w']; cbn [fst snd] in *; [|done]. injection Ha as ->. rewrite Hf. cbn [mret M_ret fst snd].
  split; [done|]. exists (g a). by rewrite Hg.
Qed.

Lemma implements_write {A} (good : A → bool) stored (m : M W A) (f : A → Handler k) w :
  writes_at good stored m w →
  (∀ a, if good a then f a = lookup k n else ∃ x e, f a = mret (x, Some e)) →
  (∀ o failed, stored o → sync (acc k) want fixes (view w k n) failed (Some o)) → ok (m ≫= f) w.
Proof.
  intros (Hframe & a & Ha & Hw) Hf Hsync. unfold implements_at, mbind, M_bind in *.
  destruct (m w) as [[a'|] w1]; cbn [fst snd] in *; [|done]. injection Ha as ->. specialize (Hf a).
  destruct (good a).
  - rewrite Hf. destruct Hw as [[? _]|(o & Ho & Hv)]; [done|]. unfold lookup, mbind, M_bind, call.
    pose proof (get_found k n w1) as Hfound. pose proof (get_missing k n w1) as Hmiss. pose proof (get_frame k n w1) as Hfr.
    destruct (client_Get k n w1) as [[e|o'] w2]; cbn [fst snd] in *.
    + destruct e as [t|t]; [by rewrite (Hmiss t eq_refl) in Hv|]. cbn [IsNotFound mret M_ret fst snd].
      rewrite Hfr, Hv. split; [intros; by rewrite Hfr, Hframe|]. split; [by apply Hsync|done].
    + cbn [mret M_ret fst snd]. rewrite Hfr, Hv. split; [intros; by rewrite Hfr, Hframe|].
      split; [by apply Hsync|]. intros _. rewrite <- (Hfound o' eq_refl). by rewrite Hv.
  - destruct Hf as (x & e & ->). cbn [mret M_ret fst snd]. split; [done|]. split; [|done].
    destruct Hw as [[_ ->]|(o & Ho & ->)]; [constructor|by apply Hsync].
Qed.

(** The three ways on from the lookup. *)
Lemma implements_create d (err : APIError → error) w :
  view w k n = None → want d → key_of k d = n →
  ok (res ← call (client_Create k d);
      match res with inl e => mret (None, Some (err e)) | inr _ => lookup k n end) w.
Proof.
  intros Hv Hd Hk. eapply implements_write; [by apply writes_create| |].
  - intros [e|o]; [by eexists _, _|done].
  - intros o failed Ho. rewrite Hv. by eapply sync_created.
Qed.

(** What a handler does with the result of its update. *)
Definition after_update (c : obj k) (res : error + bool) : Handler k :=
  match res with
  | inl err => mret (Some c, Some err)
  | inr true => lookup k n
  | inr false => mret (Some c, None)
  end.

Lemma implements_assoc {A B} (m : M W A) (f : A → M W B) (g : B → Handler k) w :
  ok (m ≫= λ a, f a ≫= g) w → ok ((m ≫= f) ≫= g) w.
Proof.
  unfold implements_at. replace (((m ≫= f) ≫= g) w) with ((m ≫= λ a, f a ≫= g) w); [done|].
  unfold mbind, M_bind. by destruct (m w) as [[a|] w1].
Qed.

Lemma implements_update c u (err : APIError → error) w :
  view w k n = Some c → fixes c (Some u) → key_of k u = n → released k u = false →
  ok ((res ← call (client_Update k u);
       match res with inl e => mret (inl (err e)) | inr _ => mret (inr true) end) ≫= after_update c) w.
Proof.
  intros Hv Hu Hk Hr. apply implements_assoc. eapply implements_write; [by apply writes_update| |].
  - intros [e|o]; [by eexists _, _|done].
  - intros o failed Ho. rewrite Hv. by eapply sync_updated.
Qed.

Lemma implements_no_update c w :
  view w k n = Some c → fixes c None → ok (mret (inr false) ≫= after_update c) w.
Proof. intros Hv Hf. exact (implements_keep c w Hv Hf). Qed.

(** An update handler: nothing to change, or one Update. *)
Definition update_with (change : option (obj k)) (err : obj k → APIError → error) : M W (error + bool) :=
  match change with
  | None => mret (inr false)
  | Some u => res ← call (client_Update k u);
      match res with inl e => mret (inl (err u e)) | inr _ => mret (inr true) end
  end.

(** The change is one of the same object. *)
Definition same_object (c : obj k) (change : option (obj k)) : Prop :=
  ∀ u, change = Some u → key_of k u = key_of k c ∧ released k u = released k c.

Lemma implements_update_with c change err w :
  view w k n = Some c → fixes c change → same_object c change → ok (update_with change err ≫= after_update c) w.
Proof.
  intros Hv Hf Hsame. pose proof (view_key _ _ _ _ Hv) as Hk. pose proof (view_live _ _ _ _ Hv) as Hl.
  destruct change as [u|]; [|by apply implements_no_update].
  destruct (Hsame u eq_refl) as [Hku Hru]. apply implements_update; congruence.
Qed.

Lemma implements_update_same c u (err : APIError → error) w :
  view w k n = Some c → fixes c (Some u) → same_object c (Some u) →
  ok ((res ← call (client_Update k u);
       match res with inl e => mret (inl (err e)) | inr _ => mret (inr true) end) ≫= after_update c) w.
Proof. exact (implements_update_with c (Some u) (λ _, err) w). Qed.

End rules.
End implements.

#[global] Arguments implements {W H H0} acc k n want fixes m.

(** A weaker specification. *)
Lemma implements_at_mono {W} `{ClientLaws W} acc k n want fixes (want' : obj k → Prop) fixes' (m : Handler (W := W) k) w :
  (∀ d, want d → want' d) → (∀ c u, fixes c u → fixes' c u) →
  implements_at (acc := acc) k n want fixes m w → implements_at (acc := acc) k n want' fixes' m w.
Proof.
  intros Hw Hf [Hframe Hrun]. split; [done|]. destruct ((m w).1) as [[cur err]|]; [|done].
  destruct Hrun as [Hs Hcur]. split; [|done]. destruct Hs; econstructor; eauto.
Qed.

(** ** The handlers *)

Section handlers.
Context `{UnicodeTables} `{FloatConversion} `{Assets}.
Context {W : Type} `{RuntimeLaws W} {acc : ∀ k, obj k → obj k → Prop} `{!Stores W acc} (r : reconciler).

(** The object a comparison asks for. *)
Definition policy_change (current desired : NetworkPolicy) : option NetworkPolicy :=
  let '(changed, updated) := networkPolicyChanged current desired in if changed then Some updated else None.

Lemma policy_change_same c d : same_object (k := KNetworkPolicy) c (policy_change c d).
Proof. intros u. unfold policy_change, networkPolicyChanged. repeat case_match; intros; simplify_eq/=; done. Qed.

Lemma updateDNSNetworkPolicy_change c d :
  updateDNSNetworkPolicy (W := W) c d =
  update_with (k := KNetworkPolicy) (policy_change c d) (λ u err, ErrWrap ("failed to update dns networkpolicy "
          +:+ nn_String (key_of KNetworkPolicy u) +:+ ": ") (api_error err)).
Proof. unfold updateDNSNetworkPolicy, policy_change. by destruct (networkPolicyChanged c d) as [[] u]. Qed.

Lemma implements_DNSNetworkPolicy dns :
  implements acc KNetworkPolicy (DNSNetworkPolicyName dns) (λ d, d = desiredDNSNetworkPolicy dns)
    (λ c u, policy_change c (desiredDNSNetworkPolicy dns) = u) (ensureDNSNetworkPolicy (W := W) dns).
Proof.
  intros w. apply (implements_lookup (k := KNetworkPolicy)).
  - intros [x|] e w'; apply (implements_error (k := KNetworkPolicy)).
  - intros w' _ Hv. by apply (implements_create (k := KNetworkPolicy)).
  - intros c w' _ Hv. rewrite updateDNSNetworkPolicy_change.
    by apply (implements_update_with (k := KNetworkPolicy)); [| |apply policy_change_same].
Qed.

Lemma implements_DenyAllNetworkPolicy :
  implements acc KNetworkPolicy (key_of KNetworkPolicy NetworkPolicyDenyAll) (λ d, d = NetworkPolicyDenyAll)
    (λ c u, policy_change c NetworkPolicyDenyAll = u) (ensureDenyAllNetworkPolicy (W := W)).
Proof.
  intros w. apply (implements_lookup (k := KNetworkPolicy)).
  - intros [x|] e w'; apply (implements_error (k := KNetworkPolicy)).
  - intros w' _ Hv. by apply (implements_create (k := KNetworkPolicy)).
  - intros c w' _ Hv. rewrite updateDNSNetworkPolicy_change.
    by apply (implements_update_with (k := KNetworkPolicy)); [| |apply policy_change_same].
Qed.

Lemma implements_DNSClusterRole :
  let desired := desiredDNSClusterRole (r_dnsNameResolverEnabled r) in
  implements acc KClusterRole dns_clusterrole_key (λ d, d = desired) (λ c u, clusterRoleChanged c desired = u)
    (ensureDNSClusterRole (W := W) r).
Proof.
  intros desired w. apply (implements_lookup (k := KClusterRole)).
  - intros [x|] e w'; apply (implements_error (k := KClusterRole)).
  - intros w' _ Hv. apply (implements_create (k := KClusterRole)); [done|done|].
    unfold desired, desiredDNSClusterRole. by case_match.
  - intros c w' _ Hv. apply (implements_update_with (k := KClusterRole)); [done|done|].
    intros u. unfold clusterRoleChanged. case_match; [done|]. by intros [= <-].
Qed.

Lemma implements_ServiceMonitor dns svc ref :
  let desired := desiredServiceMonitor dns svc ref in
  implements acc KServiceMonitor (DNSServiceMonitorName dns) (λ d, d = desired) (λ c u, serviceMonitorChanged c desired = u)
    (ensureServiceMonitor (W := W) dns svc ref).
Proof.
  intros desired w. apply (implements_lookup (k := KServiceMonitor)).
  - intros [x|] e w'; apply (implements_error (k := KServiceMonitor)).
  - intros w' _ Hv. by apply (implements_create (k := KServiceMonitor)).
  - intros c w' _ Hv. apply (implements_update_with (k := KServiceMonitor)); [done|done|].
    intros u. unfold serviceMonitorChanged. case_match; [done|]. by intros [= <-].
Qed.

Lemma implements_DNSConfigMap dns cd m :
  let desired := desiredDNSConfigMap dns cd m (r_dnsNameResolverEnabled r) (r_dnsNameResolverNamespaces r) in
  implements acc KConfigMap (DNSConfigMapName dns) (λ d, desired = inr d)
    (λ c u, ∃ d, desired = inr d ∧ corefileChanged c d = u) (ensureDNSConfigMap (W := W) r dns cd m).
Proof.
  intros desired w. apply (implements_lookup (k := KConfigMap)).
  - intros [x|] e w'; apply (implements_error (k := KConfigMap)).
  - intros w' _ Hv. fold desired. destruct desired as [e|d] eqn:Ed; [apply (implements_error (k := KConfigMap))|].
    apply (implements_create (k := KConfigMap)); [done|done|]. by eapply desiredDNSConfigMap_key.
  - intros c w' _ Hv. fold desired. destruct desired as [e|d] eqn:Ed; [apply (implements_error (k := KConfigMap))|].
    apply (implements_update_with (k := KConfigMap)); [done|by exists d|].
    intros u. unfold corefileChanged. case_match; [done|]. by intros [= <-].
Qed.

(** The hints are among those the list of nodes gives in this cluster. *)
Definition possible_hints (w : W) (dns : DNS) (hints : bool) : Prop :=
  ∃ w0 w1, same_operands w w0 ∧ shouldEnableTopologyAwareHints dns w0 = (Some (inr hints), w1).

Lemma implements_DNSService dns ip ref w :
  let desired hints := desiredDNSService dns ip hints ref in
  implements_at (acc := acc) KService (DNSServiceName dns) (λ d, ∃ hints, possible_hints w dns hints ∧ d = desired hints)
    (λ c u, ∃ hints, possible_hints w dns hints ∧ serviceChanged c (desired hints) = u)
    (ensureDNSService (W := W) dns ip ref) w.
Proof.
  intros desired. assert (touches ∅ (shouldEnableTopologyAwareHints (W := W) dns)) as Ht
    by (unfold shouldEnableTopologyAwareHints; footprint).
  apply (implements_lookup (k := KService)).
  - intros [x|] e w'; apply (implements_error (k := KService)).
  - intros w' Hw Hv. apply (implements_read (k := KService)); [done|]. intros [e|hints] w'' Hrun Hv';
      [apply (implements_error (k := KService))|].
    apply (implements_create (k := KService)); [by rewrite Hv'|exists hints; split; [exists w', w''; split; [by apply same_view_but|done]|done]|done].
  - intros c w' Hw Hv. apply (implements_read (k := KService)); [done|]. intros [e|hints] w'' Hrun Hv';
      [apply (implements_error (k := KService))|].
    apply (implements_update_with (k := KService)); [by rewrite Hv'|exists hints; split; [exists w', w''; split; [by apply same_view_but|done]|done]|].
    intros u. unfold serviceChanged. repeat case_match; intros; simplify_eq/=; done.
Qed.

(** Changing a daemonset keeps its metadata, but for annotations and labels. *)
Lemma lift_option_run {A} (o : option A) (w : W) a w' : lift_option o w = (Some a, w') → o = Some a ∧ w' = w.
Proof. unfold lift_option. destruct o; [by intros [= -> ->]|done]. Qed.

Lemma same_daemonset c x : (∀ u, x = Some u → ds_meta u = ds_meta c) → same_object (k := KDaemonSet) c x.
Proof.
  intros Hx u Hu. specialize (Hx u Hu). unfold key_of. simpl. rewrite Hx. split; reflexivity.
Qed.

Lemma implements_NodeResolver dns ip cd :
  let desired := desiredNodeResolverDaemonSet dns ip cd (cfg_OpenshiftCLIImage (r_Config r)) in
  implements acc KDaemonSet NodeResolverDaemonSetName (λ d, desired = inr (Some d))
    (λ c u, ∃ d, desired = inr (Some d) ∧ nodeResolverDaemonSetConfigChanged c d = Some u)
    (ensureNodeResolverDaemonSet (W := W) r dns ip cd).
Proof.
  intros desired w. assert (∃ d, desired = inr (Some d) ∧ key_of KDaemonSet d = NodeResolverDaemonSetName) as (d & Hd & Hk)
    by (by eexists). apply (implements_lookup (k := KDaemonSet)).
  - intros [x|] e w'; apply (implements_error (k := KDaemonSet)).
  - intros w' _ Hv. fold desired. rewrite Hd.
    apply (implements_assoc (k := KDaemonSet)). eapply (implements_write (k := KDaemonSet)).
    + by apply (writes_create (k := KDaemonSet) d).
    + intros [e|o]; [by eexists _, _|done].
    + intros o failed Ho. rewrite Hv. by apply (sync_created (k := KDaemonSet) _ _ _ d).
  - intros c w' _ Hv. fold desired. rewrite Hd.
    apply (implements_assoc (k := KDaemonSet)). apply (implements_read (k := KDaemonSet)); [apply touches_lift|].
    intros change w'' Hrun Hv'. apply lift_option_run in Hrun as [Hc ->].
    apply (implements_update_with (k := KDaemonSet)); [done|by exists d|]. apply same_daemonset.
    intros u ->. by apply nodeResolverDaemonSetConfigChanged_meta in Hc.
Qed.

(** An update of the DNS daemonset that is not safe keeps the placement. *)
Definition keep_placement (current updated : DaemonSet) : DaemonSet :=
  ds_set_nodeSelector (ds_set_tolerations updated (ps_Tolerations (ds_podspec current)))
    (ps_NodeSelector (ds_podspec current)).

(** The verdicts on an update that the lists of pods and nodes allow in this cluster. *)
Definition possible_verdict (w : W) (c u : DaemonSet) (safe : bool) : Prop :=
  ∃ w0 w1, same_operands w w0 ∧ daemonsetUpdateIsSafe c u w0 = (Some (inr safe), w1).

(** The change of the DNS daemonset: the one the comparison asks for, or that with the
    placement kept, if there is still something to change. *)
Inductive placed (verdict : DaemonSet → DaemonSet → bool → Prop) (desired c : DaemonSet) : option DaemonSet → Prop :=
| placed_none : daemonsetConfigChanged c desired = Some None → placed verdict desired c None
| placed_safe u : daemonsetConfigChanged c desired = Some (Some u) → verdict c u true → placed verdict desired c (Some u)
| placed_unsafe u x : daemonsetConfigChanged c desired = Some (Some u) → verdict c u false →
    daemonsetConfigChanged c (keep_placement c u) = Some x →
    placed verdict desired c (match x with None => None | Some _ => Some (keep_placement c u) end).

Lemma implements_DNSDaemonSet dns m tsp w :
  let desired := desiredDNSDaemonSet dns (cfg_CoreDNSImage (r_Config r)) (cfg_KubeRBACProxyImage (r_Config r)) m tsp in
  implements_at (acc := acc) KDaemonSet (DNSDaemonSetName dns) (λ d, desired = Some (inr d))
    (λ c u, ∃ d, desired = Some (inr d) ∧ placed (possible_verdict w) d c u) (ensureDNSDaemonSet (W := W) r dns m tsp) w.
Proof.
  intros desired. apply (implements_lookup (k := KDaemonSet)).
  - intros [x|] e w'; apply (implements_error (k := KDaemonSet)).
  - intros w' _ Hv. fold desired. apply (implements_read (k := KDaemonSet)); [apply touches_lift|].
    intros [e|d] w'' Hrun Hv'; [apply (implements_error (k := KDaemonSet))|]. apply lift_option_run in Hrun as [Hd ->].
    apply (implements_assoc (k := KDaemonSet)). eapply (implements_write (k := KDaemonSet)).
    + apply (writes_create (k := KDaemonSet) d). by eapply desiredDNSDaemonSet_key.
    + intros [e|o]; [by eexists _, _|done].
    + intros o failed Ho. rewrite Hv. by apply (sync_created (k := KDaemonSet) _ _ _ d).
  - intros c w' Hw Hv. fold desired. apply (implements_read (k := KDaemonSet)); [apply touches_lift|].
    intros [e|d] w'' Hrun Hv'; [apply (implements_error (k := KDaemonSet))|]. apply lift_option_run in Hrun as [Hd ->].
    apply (implements_assoc (k := KDaemonSet)). apply (implements_read (k := KDaemonSet)); [apply touches_lift|].
    intros [u|] w1 Hrun Hv1; apply lift_option_run in Hrun as [Hc ->];
      [|apply (implements_no_update (k := KDaemonSet)); [done|by exists d; split; [|by constructor]]].
    pose proof (daemonsetConfigChanged_meta _ _ _ Hc) as Hmeta.
    apply (implements_assoc (k := KDaemonSet)). apply (implements_read (k := KDaemonSet)); [apply touches_daemonsetUpdateIsSafe|].
    intros [e|safe] w1 Hverdict Hv2; [apply (implements_error (k := KDaemonSet))|].
    assert (possible_verdict w c u safe) as Hsafe
      by (exists w', w1; split; [by apply same_view_but|done]). rewrite <- Hv2 in Hv. destruct safe.
    + apply (implements_update_same (k := KDaemonSet) c u); [done|by exists d; split; [|by constructor]|].
      apply same_daemonset. by intros ? [= <-].
    + apply (implements_assoc (k := KDaemonSet)). apply (implements_read (k := KDaemonSet)); [apply touches_lift|].
      fold (keep_placement c u). intros x w3 Hrun Hv3. apply lift_option_run in Hrun as [Hx ->].
      pose proof (placed_unsafe _ d c u x Hc Hsafe Hx) as Hp.
      destruct x as [x|]; [|by apply (implements_no_update (k := KDaemonSet)); [|exists d]].
      apply (implements_update_same (k := KDaemonSet) c (keep_placement c u)); [done|by exists d|].
      apply same_daemonset. by intros ? [= <-].
Qed.

End handlers.

Section refinement.
Context `{UnicodeTables} `{FloatConversion} `{Assets}.
Context {W : Type} `{RuntimeLaws W} (r : reconciler).

Lemma implements_any_hints dns ip ref :
  implements accepted KService (DNSServiceName dns) (λ d, ∃ hints, d = desiredDNSService dns ip hints ref)
    (λ c u, ∃ hints, serviceChanged c (desiredDNSService dns ip hints ref) = u) (ensureDNSService (W := W) dns ip ref).
Proof.
  intros w. eapply implements_at_mono; [..|by apply implements_DNSService]; [intros d (h & _ & ->)|intros c u (h & _ & <-)]; eauto.
Qed.

(** Any verdict on the safety of an update. *)
Definition any_verdict (c u : DaemonSet) (safe : bool) : Prop := True.

Lemma implements_any_verdict dns m tsp :
  let desired := desiredDNSDaemonSet dns (cfg_CoreDNSImage (r_Config r)) (cfg_KubeRBACProxyImage (r_Config r)) m tsp in
  implements accepted KDaemonSet (DNSDaemonSetName dns) (λ d, desired = Some (inr d))
    (λ c u, ∃ d, desired = Some (inr d) ∧ placed any_verdict d c u) (ensureDNSDaemonSet (W := W) r dns m tsp).
Proof.
  intros desired w. eapply implements_at_mono; [..|by apply implements_DNSDaemonSet]; [done|].
  intros c u (d & Hd & Hp). exists d. split; [done|]. destruct Hp; by econstructor.
Qed.


End refinement.

(** ** Convergence *)

(** What is stored after a successful run needs no change. *)
Definition settles {k} (acc : obj k → obj k → Prop) (want : obj k → Prop) (fixes : obj k → option (obj k) → Prop) : Prop :=
  (∀ u o x, (want u ∨ ∃ c, fixes c (Some u)) → acc u o → fixes o x → x = None) ∧
  (∀ c u, fixes c None → fixes c (Some u) → False).

(** *** A server that stores what it is sent

    The server may assign the UID and the resource version, default what the comparison
    of services passes over, and keep the status: nothing else differs from what was
    sent. *)

Definition same_meta (m m' : ObjectMeta) : Prop :=
  om_Name m' = om_Name m ∧ om_Namespace m' = om_Namespace m ∧ om_Labels m' = om_Labels m ∧
  om_Annotations m' = om_Annotations m ∧ om_OwnerReferences m' = om_OwnerReferences m ∧
  om_Finalizers m' = om_Finalizers m ∧ om_DeletionTimestamp m' = om_DeletionTimestamp m.

Definition same_content (k : Kind) : obj k → obj k → Prop :=
  match k return obj k → obj k → Prop with
  | KDNS => λ u o, dns_Spec o = dns_Spec u
  | KDaemonSet => λ u o, ds_Spec o = ds_Spec u
  | KService => λ u o, service_spec_eqb (svc_Spec o) (svc_Spec u) = true
  | KConfigMap => λ u o, cm_Data o = cm_Data u
  | KNetworkPolicy => λ u o, netpol_Spec o = netpol_Spec u
  | KNamespace | KServiceAccount => λ _ _, True
  | KClusterRole => λ u o, cr_Rules o = cr_Rules u
  | KClusterRoleBinding => λ u o, crb_Subjects o = crb_Subjects u ∧ crb_RoleRef o = crb_RoleRef u
  | KRole => λ u o, role_Rules o = role_Rules u
  | KRoleBinding => λ u o, rb_Subjects o = rb_Subjects u ∧ rb_RoleRef o = rb_RoleRef u
  | KServiceMonitor => λ u o, sm_spec o = sm_spec u
  | _ => λ _ _, True
  end.

Definition verbatim (k : Kind) (u o : obj k) : Prop := same_meta (meta_of k u) (meta_of k o) ∧ same_content k u o.

Lemma verbatim_with_status k (o st : obj k) : verbatim k o (with_status k o st).
Proof.
  split; [by destruct k|]. destruct k; simpl; try done. pose proof (serviceChanged_refl o) as Hr.
  unfold serviceChanged in Hr. destruct (service_spec_eqb _ _); [done|]. simpl in Hr. discriminate Hr.
Qed.

Lemma verbatim_clear_status k (o : obj k) : verbatim k o (clear_status k o).
Proof.
  assert (clear_status k o = with_status k o (clear_status k o)) as Hc by (by destruct k).
  rewrite Hc. apply verbatim_with_status.
Qed.

#[export] Instance Mem_verbatim : Stores Mem verbatim.
Proof.
  split.
  - mem_law. rewrite <- H.
    apply write_spec_ok; [apply verbatim_clear_status|by rewrite released_clear_status|apply key_clear_status].
  - mem_law. rewrite <- H0.
    apply write_spec_ok; [apply verbatim_with_status|by rewrite released_with_status|apply key_with_status].
Qed.

Section rest.
Context `{UnicodeTables} `{FloatConversion} `{Assets}.
Context {W : Type} `{RuntimeLaws W} (r : reconciler).

Lemma settles_corefile (desired : error + ConfigMap) :
  settles (accepted KConfigMap) (λ d, desired = inr d) (λ c u, ∃ d, desired = inr d ∧ corefileChanged c d = u).
Proof.
  split; [|intros c u (d & Hd & Hn) (d' & Hd' & Hs); congruence].
  intros u o z Hu Ho (d & Hd & <-). unfold corefileChanged. rewrite bool_decide_true; [done|].
  destruct Ho as [_ ->]. destruct Hu as [Hu|(c & d' & Hd' & Hc)]; [congruence|].
  assert (d' = d) as -> by congruence. revert Hc. unfold corefileChanged. case_bool_decide; [done|].
  by intros [= <-].
Qed.

Lemma settles_role d : settles (accepted KClusterRole) (λ d', d' = d) (λ c u, clusterRoleChanged c d = u).
Proof.
  split; [|congruence]. intros u o z Hu Ho <-. unfold clusterRoleChanged. rewrite bool_decide_true; [done|].
  destruct Ho as [_ ->]. destruct Hu as [->|(c & Hc)]; [done|]. revert Hc. unfold clusterRoleChanged.
  case_bool_decide; [done|]. by intros [= <-].
Qed.

(** A comparison that is silent on what is stored of the desired object and of what it
    asked for. *)
Lemma settles_compared {k} (d : obj k) (change : obj k → option (obj k)) :
  (∀ o, verbatim k d o → change o = None) →
  (∀ c u o, change c = Some u → verbatim k u o → change o = None) →
  settles (verbatim k) (λ d', d' = d) (λ c u, change c = u).
Proof.
  intros Hd Hu. split; [|congruence]. intros u o z Hin Ho <-.
  destruct Hin as [->|[c Hc]]; [by apply Hd|by eapply Hu].
Qed.

Lemma policy_change_None c d :
  policy_change c d = None ↔ netpol_Spec c = netpol_Spec d ∧
    om_Labels (netpol_meta c) = om_Labels (netpol_meta d) ∧
    om_OwnerReferences (netpol_meta c) = om_OwnerReferences (netpol_meta d).
Proof.
  unfold policy_change. pose proof (networkPolicyChanged_spec c d) as Hs.
  destruct (networkPolicyChanged c d) as [[] u]; destruct Hs as [Hs _]; rewrite <- Hs; naive_solver.
Qed.

Lemma settles_policy d : settles (verbatim KNetworkPolicy) (λ d', d' = d) (λ c u, policy_change c d = u).
Proof.
  apply (settles_compared (k := KNetworkPolicy)).
  - intros o [(_ & _ & Hl & _ & Ho & _) Hs]. apply policy_change_None. done.
  - intros c u o Hc [(_ & _ & Hl & _ & Ho & _) Hs]. simpl in *. apply policy_change_None. rewrite Hs, Hl, Ho.
    revert Hc. unfold policy_change. pose proof (networkPolicyChanged_spec c d) as Hsp.
    destruct (networkPolicyChanged c d) as [[] u']; [|done]. intros [= ->]. tauto.
Qed.

Lemma settles_monitor dns svc ref : let d := desiredServiceMonitor dns svc ref in
  settles (verbatim KServiceMonitor) (λ d', d' = d) (λ c u, serviceMonitorChanged c d = u).
Proof.
  intros d. assert (∀ o, sm_spec o = sm_spec d → serviceMonitorChanged o d = None) as Hself.
  { intros [m sp]. simpl. intros ->. unfold serviceMonitorChanged, d. simpl. by rewrite !bool_decide_true. }
  apply (settles_compared (k := KServiceMonitor)); [intros o [_ Ho]; by apply Hself|].
  intros c u o Hc [_ Ho]. apply Hself. simpl in Ho. rewrite Ho. revert Hc.
  unfold serviceMonitorChanged at 1. case_match; [done|]. by intros [= <-].
Qed.

(** Services compared as equal are equal in what is compared. *)
Lemma service_spec_eqb_trans a b c :
  service_spec_eqb a b = true → service_spec_eqb b c = true → service_spec_eqb a c = true.
Proof.
  unfold service_spec_eqb, cmpServiceType, cmpServiceAffinity, cmpServiceInternalTrafficPolicyType.
  rewrite !andb_true_iff, !bool_decide_eq_true. naive_solver congruence.
Qed.

Lemma serviceChanged_stored u o d :
  serviceChanged u d = None → verbatim KService u o → serviceChanged o d = None.
Proof.
  intros Hu [(_ & _ & _ & Ha & _) Hs]. simpl in *. revert Hu. unfold serviceChanged. rewrite Ha.
  destruct (service_spec_eqb (svc_Spec u) (svc_Spec d)) eqn:E; [|done].
  rewrite (service_spec_eqb_trans _ _ _ Hs E). simpl. by case_match.
Qed.

Lemma settles_service d : settles (verbatim KService) (λ d', d' = d) (λ c u, serviceChanged c d = u).
Proof.
  apply (settles_compared (k := KService)).
  - intros o Ho. eapply serviceChanged_stored; [apply serviceChanged_refl|done].
  - intros c u o Hc Ho. eapply serviceChanged_stored; [by eapply serviceChanged_stable|done].
Qed.

Lemma settles_resolver (desired : error + option DaemonSet) :
  settles (verbatim KDaemonSet) (λ d, desired = inr (Some d))
    (λ c u, ∃ d, desired = inr (Some d) ∧ nodeResolverDaemonSetConfigChanged c d = Some u).
Proof.
  split; [|intros c u (d & Hd & Hn) (d' & Hd' & Hs); congruence].
  intros u o z Hu [_ Ho] (d & Hd & Hz). apply (nodeResolverDaemonSetConfigChanged_spec u) in Hz as (y & Hy & Hyz); [|done].
  apply Hyz. destruct Hu as [Hu|(c & d' & Hd' & Hc)].
  - assert (u = d) as -> by congruence. by eapply nodeResolverDaemonSetConfigChanged_refl.
  - assert (d' = d) as -> by congruence. apply nodeResolverDaemonSetConfigChanged_stable in Hc. congruence.
Qed.

End rest.
