(* ===== verification/Settled.v ===== *)
(** * The settled cluster

    The state of the cluster the DNS controller works towards: every operand is as its
    handler wants it.  In such a cluster Reconcile (pkg/operator/controller/controller.go)
    writes nothing but the status of the DNS, whatever its calls return. *)

From S2P Require Import Prelude GoLib Types Util Labels Numbers Net Client Mem Names Manifests.
From S2P Require Import Samples Tls DaemonSet DaemonSetProps DNSStatus Corefile CorefileGolden.
From S2P Require Import CorefileProps Service NodeResolver NetworkPolicies CABundle Controller.
From S2P Require Import ControllerProps Installed ControllerRuns Calm Ensure.

(** ** Computations that leave the cluster alone *)

Section still.
Context {W : Type} `{RuntimeLaws W} (D : propset (Kind * NamespacedName)) (G : W → Prop) `{!Closed G}.
Notation safe := (preserves (W := W) (G := G)).

(** From every world of [G] with the cluster of [w], [m] changes nothing but objects of
    [D], stays in [G], and returns a value that satisfies [Q] unless it panics. *)
Definition still (w : W) {A} (m : M W A) (Q : A → Prop) : Prop :=
  ∀ w0, same_but D w w0 → G w0 →
    (same_but D w (m w0).2 ∧ G (m w0).2) ∧ match (m w0).1 with Some a => Q a | None => True end.

Lemma still_ret w {A} (a : A) (Q : A → Prop) : Q a → still w (mret a) Q.
Proof. by intros Ha w0 Hw. Qed.

Lemma still_mono w {A} (m : M W A) (Q Q' : A → Prop) : still w m Q → (∀ a, Q a → Q' a) → still w m Q'.
Proof.
  intros Hm HQ w0 Hw HG. destruct (Hm w0 Hw HG) as [Hv Ha]. split; [done|]. destruct ((m w0).1); auto.
Qed.

Lemma still_bind w {A B} (m : M W A) (f : A → M W B) Q R :
  still w m Q → (∀ a, Q a → still w (f a) R) → still w (m ≫= f) R.
Proof.
  intros Hm Hf w0 Hw HG. unfold mbind, M_bind. destruct (Hm w0 Hw HG) as [[Hv HG1] Ha].
  destruct (m w0) as [[a|] w1]; cbn [fst snd] in *; [|by split]. by apply (Hf a Ha).
Qed.

Lemma touches_still w {A} (m : M W A) (Q : A → Prop) :
  touches D m → safe m → (∀ w0 a w1, same_but D w w0 → G w0 → m w0 = (Some a, w1) → Q a) → still w m Q.
Proof.
  intros Ht Hs HQ w0 Hw HG. split; [split; [|by apply Hs]|].
  - intros k n Hk. rewrite <- Hw by done. by apply Ht.
  - destruct (m w0) as [[a|] w1] eqn:Em; [|done]. simpl. by eapply HQ.
Qed.

Lemma still_Get w k n :
  (k, n) ∉ D →
  still w (call (client_Get k n)) (λ res, match res with
    | inr o => view w k n = Some o
    | inl (NotFound _) => view w k n = None
    | inl _ => True
    end).
Proof.
  intros Hk. apply touches_still; [apply touches_Get|apply preserves_Get|]. intros w0 res w1 Hw HG. unfold call.
  pose proof (get_found k n w0) as Hf. pose proof (get_missing k n w0) as Hm.
  destruct (client_Get k n w0) as [x w2]. intros [= <- <-]. rewrite <- Hw by done.
  destruct x as [[t|t]|o]; [by eapply Hm|done|by apply Hf].
Qed.

(** An object that the handler with these changes leaves alone. *)
Definition at_rest (w : W) {k} (n : NamespacedName) (fixes : obj k → option (obj k) → Prop) : Prop :=
  ∃ c, view w k n = Some c ∧ ∀ u, ¬ fixes c (Some u).

(** A handler whose object is at rest writes nothing. *)
Lemma still_implements acc w k n want fixes (m : Handler (W := W) k) :
  (k, n) ∉ D → safe m →
  (∀ w0, same_but D w w0 → implements_at (acc := acc) k n want fixes m w0) → at_rest w n fixes →
  still w m (λ out, out.2 = None → out.1 = view w k n).
Proof.
  intros Hk Hs Hm (c & Hc & Hrest) w0 Hw HG. destruct (Hm w0 Hw) as [Hframe Hrun].
  rewrite (Hw k n Hk), Hc in Hrun.
  assert (view (m w0).2 k n = Some c) as Hsame.
  { destruct ((m w0).1) as [[cur err]|]; [|done]. destruct Hrun as [Hsy _]. revert Hsy.
    generalize (view (m w0).2 k n). intros after Hsy. remember (Some c) as before eqn:Hb.
    destruct Hsy as [| | |? u]; simplify_eq; try done. by destruct (Hrest u). }
  split; [split; [|by apply Hs]|].
  - intros k' n' Hk'. destruct (decide ((k', n') = (k, n))) as [[= -> ->]|Hne]; [congruence|].
    rewrite Hframe by done. by apply Hw.
  - destruct ((m w0).1) as [[cur err]|]; [|done]. simpl. intros He. rewrite Hc, <- Hsame. by apply Hrun.
Qed.

(** An object that is only created. *)
Lemma still_get_or_create w k o errorf what :
  (k, key_of k o) ∉ D → is_Some (view w k (key_of k o)) → still w (get_or_create (W := W) k o errorf what) (λ _, True).
Proof.
  intros Hk [c Hc]. unfold get_or_create. eapply still_bind; [by apply still_Get|].
  intros [[t|t]|o'] Hres; [congruence|by apply still_ret..].
Qed.

Lemma still_first_error w (steps : list (M W (option error))) :
  Forall (λ m, still w m (λ _, True)) steps → still w (first_error steps) (λ _, True).
Proof.
  induction 1 as [|m steps Hm _ IH]; simpl; [by apply still_ret|]. eapply still_bind; [done|].
  intros [e|] _; [by apply still_ret|done].
Qed.

End still.

#[global] Arguments still {W _ _} D G w {A} m Q.

(** ** The settled cluster *)

Section settled.
Context `{UnicodeTables} `{FloatConversion} `{Assets}.
Context {W : Type} `{RuntimeLaws W} (r : reconciler) (G : W → Prop).

(** The copy of a CA bundle has the data of its source, if there is a source. *)
Definition copied (w : W) (name : string) : Prop :=
  ∀ src, view w KConfigMap (source_key name) = Some src →
    ∃ cm, view w KConfigMap (CABundleConfigMapName name) = Some cm ∧ cm_Data cm = cm_Data src.

(** Every copy that may be listed is referred to. *)
Definition pruned (w : W) (dns : DNS) : Prop :=
  ∀ w0 items cm, same_operands w w0 →
    (cache_List KConfigMap (mkListOptions (Some DefaultOperandNamespace) (Some cmSelector)) w0).1 = inr items →
    cm ∈ items → ∃ name, name ∈ configmapNames dns ∧ om_Name (cm_meta cm) = nn_Name (CABundleConfigMapName name).

(** The revisions of the CA bundles that may be read from a world of [G]. *)
Definition possible_revisions (w : W) (dns : DNS) (m : gmap string string) : Prop :=
  ∃ w0 w1, same_operands w w0 ∧ G w0 ∧ caBundleRevisionMap dns w0 = (Some m, w1).

(** The TLS profile of the API server. *)
Definition profile_of (w : W) : option TLSSecurityProfile :=
  view w KAPIServer (mkNN "" "cluster") ≫= as_TLSSecurityProfile.

(** The cluster IP of the network config. *)
Definition cluster_ip (w : W) (ip : string) : Prop :=
  ∃ net, view w KNetwork (mkNN "" "cluster") = Some net ∧ clusterIP_of_network (net_ServiceNetwork net) = inr ip.

(** The objects that are created and never changed. *)
Definition fixed_keys : list (Kind * NamespacedName) :=
  [(KClusterRoleBinding, mkNN "" "openshift-dns"); (KServiceAccount, mkNN "openshift-dns" "dns");
   (KServiceAccount, mkNN "openshift-dns" "node-resolver");
   (KClusterRole, mkNN "" "dns-monitoring"); (KClusterRoleBinding, mkNN "" "dns-monitoring");
   (KRole, mkNN "openshift-dns" "prometheus-k8s"); (KRoleBinding, mkNN "openshift-dns" "prometheus-k8s");
   (KService, mkNN "default" "openshift")].

(** Every operand is as its handler wants it. *)
Record Settled (w : W) (dns : DNS) : Prop := mkSettled {
  settled_fixed : Forall (present w) fixed_keys;
  settled_namespace : ∃ ns, view w KNamespace DefaultDNSOperandNamespaceName = Some ns ∧
    (namespaceLabelsChanged ns DNSNamespace).1 = false;
  settled_clusterrole : at_rest (k := KClusterRole) w dns_clusterrole_key
    (λ c u, clusterRoleChanged c (desiredDNSClusterRole (r_dnsNameResolverEnabled r)) = u);
  settled_copies : ∀ name, name ∈ configmapNames dns → copied w name;
  settled_pruned : pruned w dns;
  settled_daemonset : ∀ m, possible_revisions w dns m →
    at_rest (k := KDaemonSet) w (DNSDaemonSetName dns) (λ c u, ∃ d,
      desiredDNSDaemonSet dns (cfg_CoreDNSImage (r_Config r)) (cfg_KubeRBACProxyImage (r_Config r)) m (profile_of w)
        = Some (inr d) ∧ placed (possible_verdict w) d c u);
  settled_corefile : ∀ m, possible_revisions w dns m →
    at_rest (k := KConfigMap) w (DNSConfigMapName dns) (λ c u, ∃ d,
      desiredDNSConfigMap dns "cluster.local" m (r_dnsNameResolverEnabled r) (r_dnsNameResolverNamespaces r) = inr d ∧
      corefileChanged c d = u);
  settled_policy : at_rest (k := KNetworkPolicy) w (DNSNetworkPolicyName dns)
    (λ c u, policy_change c (desiredDNSNetworkPolicy dns) = u);
  settled_denyall : at_rest (k := KNetworkPolicy) w (key_of KNetworkPolicy NetworkPolicyDenyAll)
    (λ c u, policy_change c NetworkPolicyDenyAll = u);
  settled_service : ∀ ip ds, cluster_ip w ip → view w KDaemonSet (DNSDaemonSetName dns) = Some ds →
    at_rest (k := KService) w (DNSServiceName dns) (λ c u, ∃ hints, possible_hints w dns hints ∧
      serviceChanged c (desiredDNSService dns ip hints (daemonset_owner_ref ds)) = u);
  settled_monitor : ∀ svc ds, view w KService (DNSServiceName dns) = Some svc →
    view w KDaemonSet (DNSDaemonSetName dns) = Some ds →
    at_rest (k := KServiceMonitor) w (DNSServiceMonitorName dns)
      (λ c u, serviceMonitorChanged c (desiredServiceMonitor dns svc (daemonset_owner_ref ds)) = u);
  settled_resolver : ∀ ip, cluster_ip w ip →
    at_rest (k := KDaemonSet) w NodeResolverDaemonSetName (λ c u, ∃ d,
      desiredNodeResolverDaemonSet dns ip "cluster.local" (cfg_OpenshiftCLIImage (r_Config r)) = inr (Some d) ∧
      nodeResolverDaemonSetConfigChanged c d = Some u)
}.

End settled.

(** ** A settled cluster is left alone *)

Ltac fixed_key := repeat first [apply list_elem_of_here | apply list_elem_of_further].

Section rest.
Context `{UnicodeTables} `{FloatConversion} `{Assets}.
Context {W : Type} `{RuntimeLaws W} (r : reconciler) (G : W → Prop) `{!Closed G} (w : W) (dns : DNS) (HS : Settled r G w dns).
Context (D : propset (Kind * NamespacedName)) (Hdns : only_dns ⊆ D) (HD : D ⊆ volatile).

(** An operand other than the node resolver. *)
Lemma stable_key k n : k ≠ KDNS → (k, n) ≠ (KDaemonSet, NodeResolverDaemonSetName) → (k, n) ∉ D.
Proof. intros Hk Hn Hin. apply HD in Hin. unfold volatile in Hin. set_unfold in Hin. naive_solver. Qed.

Lemma same_but_mono D' w0 w1 : D ⊆ D' → same_but D w0 w1 → same_but D' w0 w1.
Proof. intros HD' Hw k n Hkn. apply Hw. set_solver. Qed.

Lemma same_D w0 w1 : same_but D w0 w1 → same_operands w0 w1.
Proof. by apply same_but_mono. Qed.

Lemma still_keep {A} (m : M W A) :
  touches ∅ m → preserves (G := G) m →
  still D G w m (λ a, ∃ w0 w1, same_operands w w0 ∧ G w0 ∧ m w0 = (Some a, w1)).
Proof.
  intros Ht Hs. apply (touches_still D G); [apply (touches_weaken ∅); [done|set_solver]|done|]. intros w0 a w1 Hw HG Hm.
  exists w0, w1. split; [by apply same_D|done].
Qed.

Lemma fixed_present k o : (k, key_of k o) ∈ fixed_keys → k ≠ KDNS →
  (k, key_of k o) ≠ (KDaemonSet, NodeResolverDaemonSetName) →
  ∀ errorf what, still D G w (get_or_create (W := W) k o errorf what) (λ _, True).
Proof.
  intros Hin Hk Hn errorf what. apply (still_get_or_create D G); [by apply stable_key|].
  pose proof (settled_fixed _ _ _ _ HS) as Hall. rewrite Forall_forall in Hall. exact (Hall _ Hin).
Qed.

Lemma still_namespace : still D G w (ensure_namespace (W := W)) (λ _, True).
Proof.
  unfold ensure_namespace. eapply still_bind; [refine (still_Get D G w KNamespace _ _); by apply stable_key|].
  destruct (settled_namespace _ _ _ _ HS) as (ns & Hns & Hlabels).
  intros [[t|t]|o] Hres; [congruence|by apply still_ret|]. assert (o = ns) as -> by congruence.
  destruct (namespaceLabelsChanged ns DNSNamespace) as [ch u]. simpl in Hlabels. subst ch. by apply still_ret.
Qed.

Lemma still_scaffolding : still D G w (ensureDNSNamespace (W := W) r) (λ _, True).
Proof.
  unfold ensureDNSNamespace. apply still_first_error. repeat apply Forall_cons_2; [..|constructor].
  - apply still_namespace.
  - eapply still_bind; [|by intros [? ?] _; apply still_ret].
    eapply (still_implements D G accepted w KClusterRole); [by apply stable_key|apply preserves_ensureDNSClusterRole|intros w0 _; apply implements_DNSClusterRole|].
    apply HS.
  - apply fixed_present; [fixed_key|done..].
  - apply fixed_present; [fixed_key|done..].
  - apply fixed_present; [fixed_key|done..].
Qed.

Lemma still_metrics svc ds :
  view w KService (DNSServiceName dns) = Some svc → view w KDaemonSet (DNSDaemonSetName dns) = Some ds →
  still D G w (ensureMetricsIntegration (W := W) dns svc (daemonset_owner_ref ds)) (λ _, True).
Proof.
  intros Hsvc Hds. unfold ensureMetricsIntegration. apply still_first_error. repeat apply Forall_cons_2; [..|constructor].
  1-4: apply fixed_present; [fixed_key|done..].
  eapply still_bind; [|by intros [? ?] _; apply still_ret].
  eapply (still_implements D G accepted w KServiceMonitor);
    [by apply stable_key|apply preserves_ensureServiceMonitor|intros w0 _; apply implements_ServiceMonitor|]. by apply HS.
Qed.

Lemma still_clusterIP : still D G w (getClusterIPFromNetworkConfig (W := W)) (λ res, ∀ ip, res = inr ip → cluster_ip w ip).
Proof.
  unfold getClusterIPFromNetworkConfig. eapply still_bind; [refine (still_Get D G w KNetwork _ _); by apply stable_key|].
  intros [e|net] Hnet; apply still_ret; [done|]. intros ip Hip. by exists net.
Qed.

(** ** CA bundles *)

Lemma still_for_errs {A} (body : A → M W (list error)) l :
  (∀ a, a ∈ l → still D G w (body a) (λ _, True)) → still D G w (for_errs body l) (λ _, True).
Proof.
  induction l as [|a l IH]; intros Hb; simpl; [by apply still_ret|].
  eapply still_bind; [apply Hb; set_solver|]. intros errs _.
  eapply still_bind; [apply IH; set_solver|]. intros errs' _. by apply still_ret.
Qed.

Lemma still_current_bundle name :
  nn_Name name ≠ "" →
  still D G w (currentCABundleConfigMap (W := W) name) (λ res, ∀ o, res = inr o → view w KConfigMap name = o).
Proof.
  intros Hne. unfold currentCABundleConfigMap. destruct (nn_Name name); [done|]. cbn [String.length Nat.eqb].
  eapply still_bind; [refine (still_Get D G w KConfigMap _ _); by apply stable_key|].
  intros [[t|t]|o] Hres; cbn [IsNotFound]; apply still_ret; intros ? [= <-]; done.
Qed.

Lemma still_copy name :
  om_DeletionTimestamp (dns_meta dns) = None → name ∈ configmapNames dns →
  still D G w (sync_ca_bundle (W := W) dns name) (λ _, True).
Proof.
  intros Hdel Hin. unfold sync_ca_bundle.
  eapply still_bind; [by eapply still_current_bundle, configmapNames_nonempty|].
  intros [e|[src|]] Hsrc; [by apply still_ret| |by apply still_ret]. specialize (Hsrc _ eq_refl).
  assert (om_Name (cm_meta src) = name) as -> by (pose proof (view_key _ _ _ _ Hsrc) as Hk; by inversion Hk).
  eapply still_bind; [by apply still_current_bundle|]. intros [e|cur] Hcur; [by apply still_ret|].
  specialize (Hcur _ eq_refl). destruct (settled_copies _ _ _ _ HS name Hin src Hsrc) as (cm & Hcm & Hdata).
  assert (cur = Some cm) as -> by congruence. unfold desiredCABundleConfigMap. rewrite Hdel. cbn [negb].
  unfold updateCABundleConfigMap, caBundleConfigmapsEqual. rewrite bool_decide_true by done.
  eapply still_bind; [by apply (still_ret _ _ _ _ (λ _, True))|]. intros [e|b] _; by apply still_ret.
Qed.

Lemma still_bundles :
  om_DeletionTimestamp (dns_meta dns) = None → still D G w (ensureCABundleConfigMaps (W := W) dns) (λ _, True).
Proof.
  intros Hdel. unfold ensureCABundleConfigMaps.
  eapply still_bind; [by apply still_for_errs; intros name Hin; apply still_copy|]. intros errs _.
  eapply still_bind; [apply still_keep; [exact (touches_cache_List ∅ KConfigMap _)|exact (preserves_cache_List KConfigMap _)]|].
  intros res (w0 & w1 & Hw & _ & Hrun).
  assert (∀ items cm, res = inr items → cm ∈ items →
    ∃ name, name ∈ configmapNames dns ∧ om_Name (cm_meta cm) = nn_Name (CABundleConfigMapName name)) as Hpr.
  { intros items cm -> Hcm. pose proof (settled_pruned _ _ _ _ HS w0 items cm Hw) as Hp. apply Hp; [|done].
    revert Hrun. unfold call. destruct (cache_List _ _ w0) as [x y]. by intros [= -> _]. }
  destruct res as [e|items]; (eapply still_bind; [|intros errs' _; by apply still_ret]);
    [by apply (still_ret _ _ _ _ (λ _, True))|].
  apply still_for_errs. intros cm Hcm. unfold prune_ca_bundle.
  destruct (Hpr items cm eq_refl Hcm) as (name & Hin & Hname).
  replace (existsb _ _) with true; [by apply still_ret|]. symmetry. apply existsb_elem.
  exists name. split; [done|]. by apply bool_decide_true.
Qed.
(** ** The handlers that decide by lists *)

Lemma still_daemonset m :
  possible_revisions G w dns m →
  still D G w (ensureDNSDaemonSet (W := W) r dns m (profile_of w))
    (λ out, out.2 = None → out.1 = view w KDaemonSet (DNSDaemonSetName dns)).
Proof.
  intros Hm. apply (still_implements D G accepted w KDaemonSet) with
    (want := λ d, desiredDNSDaemonSet dns (cfg_CoreDNSImage (r_Config r)) (cfg_KubeRBACProxyImage (r_Config r)) m
                    (profile_of w) = Some (inr d)) (4 := settled_daemonset _ _ _ _ HS m Hm);
    [by apply stable_key|apply preserves_ensureDNSDaemonSet|].
  intros w0 Hw. eapply implements_at_mono; [..|apply implements_DNSDaemonSet]; [done|].
  intros c u (d & Hd & Hp). exists d. split; [done|].
  assert (∀ c u b, possible_verdict w0 c u b → possible_verdict w c u b) as Hverdict.
  { intros c' u' b (w1 & w2 & Hw1 & Hrun). exists w1, w2. split; [|done].
    etransitivity; [by apply same_D|done]. }
  destruct Hp; econstructor; eauto.
Qed.

Lemma still_service ip ds :
  cluster_ip w ip → view w KDaemonSet (DNSDaemonSetName dns) = Some ds →
  still D G w (ensureDNSService (W := W) dns ip (daemonset_owner_ref ds))
    (λ out, out.2 = None → out.1 = view w KService (DNSServiceName dns)).
Proof.
  intros Hip Hds. apply (still_implements D G accepted w KService) with
    (want := λ d, ∃ hints, possible_hints w dns hints ∧ d = desiredDNSService dns ip hints (daemonset_owner_ref ds))
    (4 := settled_service _ _ _ _ HS ip ds Hip Hds); [by apply stable_key|apply preserves_ensureDNSService|].
  intros w0 Hw. assert (∀ h, possible_hints w0 dns h → possible_hints w dns h) as Hhints.
  { intros h (w1 & w2 & Hw1 & Hrun). exists w1, w2. split; [|done]. etransitivity; [by apply same_D|done]. }
  eapply implements_at_mono; [..|apply implements_DNSService];
    [intros d (h & Hh & ->)|intros c u (h & Hh & <-)]; exists h; auto.
Qed.

(** The step on the service does not fail in this cluster. *)
Definition service_works : Prop :=
  ∀ ip ds w0 out w1, cluster_ip w ip → view w KDaemonSet (DNSDaemonSetName dns) = Some ds → same_but D w w0 → G w0 →
    ensureDNSService (W := W) dns ip (daemonset_owner_ref ds) w0 = (Some out, w1) → out.2 = None.

Lemma still_operands ds ip m :
  cluster_ip w ip → possible_revisions G w dns m → view w KDaemonSet (DNSDaemonSetName dns) = Some ds →
  still D G w (ensure_operands (W := W) r dns ds ip "cluster.local" m)
    (λ out, service_works → ∀ errs ip', out = inr (errs, ip') → ip' = ip).
Proof.
  intros Hip Hm Hds. unfold ensure_operands.
  eapply still_bind.
  { refine (still_implements D G accepted w KConfigMap _ _ _ _ _ _ _ (settled_corefile _ _ _ _ HS m Hm));
      [by apply stable_key|apply preserves_ensureDNSConfigMap|intros w0 _; apply implements_DNSConfigMap]. }
  intros [x1 e1] _. eapply still_bind.
  { refine (still_implements D G accepted w KNetworkPolicy _ _ _ _ _ _ _ (settled_policy _ _ _ _ HS));
      [by apply stable_key|apply preserves_ensureDNSNetworkPolicy|intros w0 _; apply implements_DNSNetworkPolicy]. }
  intros [x2 e2] _. eapply still_bind.
  { refine (still_implements D G accepted w KNetworkPolicy _ _ _ _ _ _ _ (settled_denyall _ _ _ _ HS));
      [by apply stable_key|apply preserves_ensureDenyAllNetworkPolicy|intros w0 _; apply implements_DenyAllNetworkPolicy]. }
  intros [x3 [e3|]] _; [by apply still_ret|].
  eapply (still_bind _ _ _ _ _ (λ out, (out.2 = None → out.1 = view w KService (DNSServiceName dns)) ∧
                               (service_works → out.2 = None))).
  { pose proof (still_service ip ds Hip Hds) as Hsvc. intros w0 Hw HG. destruct (Hsvc w0 Hw HG) as [Hv Hout].
    split; [done|]. destruct (ensureDNSService dns ip (daemonset_owner_ref ds) w0) as [[out|] w1] eqn:Erun; [|done].
    split; [done|]. intros Hworks. exact (Hworks _ _ _ _ _ Hip Hds Hw HG Erun). }
  intros [svc [e4|]] [Hsvc Hworks]; cbn [fst snd] in *.
  { apply still_ret. intros Hx. by specialize (Hworks Hx). }
  destruct svc as [svc|]; [|apply still_ret; intros _ errs ip' Heq; by simplify_eq].
  eapply still_bind; [apply (still_metrics svc ds); [symmetry; by apply Hsvc|done]|].
  intros e5 _. apply still_ret. intros _ errs ip' Heq. by simplify_eq.
Qed.

(** What remains of [ensureDNS] leaves the operands alone, the node resolver if it is
    told the cluster IP. *)
Lemma still_status ip ods errs res :
  (KDaemonSet, NodeResolverDaemonSetName) ∈ D ∨ (KDaemonSet, NodeResolverDaemonSetName) ∉ D ∧ cluster_ip w ip →
  still D G w (ensure_status (W := W) r dns ip "cluster.local" ods errs res) (λ _, True).
Proof.
  intros Hip. unfold ensure_status. eapply (still_bind _ _ _ _ _ (λ _, True)).
  - destruct Hip as [Hin|[Hout Hip]].
    + apply (touches_still D G); [by apply touches_ensureNodeResolverDaemonSet|apply preserves_ensureNodeResolverDaemonSet|done].
    + eapply still_mono; [|done].
      refine (still_implements D G accepted w KDaemonSet _ _ _ _ Hout _ _ (settled_resolver _ _ _ _ HS ip Hip)).
      * apply preserves_ensureNodeResolverDaemonSet.
      * intros w0 _. apply implements_NodeResolver.
  - intros [x e] _. eapply (still_bind _ _ _ _ _ (λ _, True)); [|intros [? ?] _; by apply still_ret].
    apply (touches_still D G); [|apply preserves_syncDNSStatus|done]. apply touches_syncDNSStatus. by apply Hdns.
Qed.
Context (Hresolver : (KDaemonSet, NodeResolverDaemonSetName) ∈ D ∨
                     (KDaemonSet, NodeResolverDaemonSetName) ∉ D ∧ service_works).

Lemma still_ensureDNS res :
  om_DeletionTimestamp (dns_meta dns) = None → still D G w (ensureDNS (W := W) r dns res) (λ _, True).
Proof.
  intros Hdel. unfold ensureDNS. eapply still_bind; [apply still_clusterIP|].
  intros [e|ip] Hip; [by apply still_ret|]. specialize (Hip ip eq_refl).
  assert (∀ ip', (service_works → ip' = ip) → (KDaemonSet, NodeResolverDaemonSetName) ∈ D ∨
    (KDaemonSet, NodeResolverDaemonSetName) ∉ D ∧ cluster_ip w ip') as Hres.
  { intros ip' Hip'. destruct Hresolver as [?|[? Hworks]]; [by left|right]. by rewrite (Hip' Hworks). }
  eapply still_bind; [by apply still_bundles|]. intros e1 _.
  eapply still_bind; [apply still_keep; [apply touches_caBundleRevisionMap|apply preserves_caBundleRevisionMap]|]. intros m Hm.
  change (possible_revisions G w dns m) in Hm.
  eapply still_bind; [refine (still_Get D G w KAPIServer _ _); by apply stable_key|]. intros api Hapi.
  match goal with |- still _ _ _ (match ?x with inl _ => _ | inr _ => _ end) _ =>
    assert (∀ tsp, x = inr tsp → tsp = profile_of w) as Htsp; [|destruct x as [e|tsp]] end.
  { unfold profile_of. destruct api as [[t|t]|a]; simpl; intros tsp [= <-]; by rewrite Hapi. }
  { by apply still_ret. }
  rewrite (Htsp tsp eq_refl). eapply still_bind; [by apply still_daemonset|].
  intros [ods [e|]] Hods; [by apply still_status, Hres|]. specialize (Hods eq_refl). simpl in Hods.
  destruct ods as [ds|]; [|by apply still_status, Hres].
  eapply still_bind; [by apply still_operands|].
  intros [e|[errs ip']] Hip'; [by apply still_ret|]. apply still_status, Hres. intros Hworks. by eapply Hip'.
Qed.

Lemma still_managed errs res :
  om_DeletionTimestamp (dns_meta dns) = None → DNSControllerFinalizer ∈ om_Finalizers (dns_meta dns) →
  still D G w (reconcile_managed (W := W) r dns errs res) (λ _, True).
Proof.
  intros Hdel Hfin. unfold reconcile_managed, enforceDNSFinalizer.
  rewrite (proj2 (ContainsString_elem _ _) Hfin). cbn [negb].
  eapply still_bind; [by apply (still_ret _ _ _ _ (λ x, x = inr dns))|]. intros ? ->.
  eapply still_bind; [by apply still_ensureDNS|]. intros [[e|] res'] _.
  { destruct (retryable.After e); by apply still_ret. }
  eapply still_bind; [|intros e _; by apply still_ret]. apply fixed_present; [fixed_key|done..].
Qed.

(** Reconcile of a managed DNS that has its finalizer. *)
Lemma still_Reconcile request w0 :
  same_but D w w0 → G w0 → view w0 KDNS request = Some dns → nn_Name request = DefaultDNSController →
  spec_ManagementState (dns_Spec dns) ≠ Unmanaged →
  om_DeletionTimestamp (dns_meta dns) = None → DNSControllerFinalizer ∈ om_Finalizers (dns_meta dns) →
  same_but D w (Reconcile r request w0).2.
Proof.
  intros Hw HG Hv Hname Hman Hdel Hfin. unfold Reconcile. rewrite Hname, bool_decide_true by done. cbn [negb].
  unfold mbind at 1, M_bind at 1, call at 1.
  pose proof (get_found KDNS request w0) as Hfound. pose proof (get_frame KDNS request w0) as Hfr.
  pose proof (closed_Get KDNS request w0 HG) as HG1. destruct (client_Get KDNS request w0) as [[e|d] w1]; cbn [fst snd] in *.
  { cbn. intros k n Hk. rewrite Hfr. by apply Hw. }
  assert (d = dns) as -> by (specialize (Hfound d eq_refl); congruence).
  match goal with |- same_but D w (?m w1).2 => assert (still D G w m (λ _, True)) as Hm end;
    [|by apply Hm; [intros k n Hk; rewrite Hfr; apply Hw|]].
  eapply still_bind; [apply (touches_still _ _ _ _ (λ _, True)); [apply touches_call; intros; apply setlevel_frame|apply preserves_SetLevel|done]|].
  intros [] _. rewrite bool_decide_false by done.
  eapply still_bind; [apply still_scaffolding|]. intros e _. rewrite Hdel.
  eapply still_bind; [by apply still_managed|]. intros [early|[errs res]] _; by apply still_ret.
Qed.
End rest.

(** ** What a settled cluster depends on *)

Section other_dns.
Context `{UnicodeTables} `{FloatConversion} `{Assets}.
Context {W : Type} `{RuntimeLaws W} {G : W → Prop} (r : reconciler).
Context (dns dns' : DNS) (Hspec : dns_Spec dns' = dns_Spec dns) (Hname : dns_Name dns' = dns_Name dns).
Context (Huid : om_UID (dns_meta dns') = om_UID (dns_meta dns)).

Ltac open_dns :=
  unfold dns_Name in Hname;
  destruct dns as [[name ns uid rv ls an ors fin del] sp st], dns' as [[name' ns' uid' rv' ls' an' ors' fin' del'] sp' st'];
  cbn [dns_Spec dns_meta om_Name om_UID] in Hspec, Hname, Huid; subst.

Lemma same_desired_daemonset im1 im2 m tsp : desiredDNSDaemonSet dns' im1 im2 m tsp = desiredDNSDaemonSet dns im1 im2 m tsp.
Proof. rewrite !desiredDNSDaemonSet_eq. by open_dns. Qed.

Lemma same_desired_corefile cd m b nss : desiredDNSConfigMap dns' cd m b nss = desiredDNSConfigMap dns cd m b nss.
Proof.
  unfold desiredDNSConfigMap, sanitizeTLSSettings. open_dns. cbn [dns_Spec].
  destruct (sanitize_servers _); [done|]. cbv zeta. 
  destruct (tc_Transport _ =s TLSTransport); [|reflexivity]. destruct (no_server_name _); [done|].
  destruct (_ <? 1)%nat; [done|]. destruct (existsb _ _); [done|]. reflexivity.
Qed.

Lemma same_revisions (w : W) m : possible_revisions G w dns' m → possible_revisions G w dns m.
Proof. by open_dns. Qed.

(** What the cluster has to be like depends on the spec, the name and the UID of the DNS. *)
Lemma Settled_same (w : W) : Settled r G w dns → Settled r G w dns'.
Proof.
  intros [Hfixed Hns Hrole Hcopies Hpruned Hds Hcm Hnp Hdeny Hsvc Hsm Hnr]. split; [done|done|done| | | | | |done| | |].
  - clear -Hcopies Hspec Hname Huid. by open_dns.
  - clear -Hpruned Hspec Hname Huid. by open_dns.
  - intros m Hm%same_revisions. destruct (Hds m Hm) as (c & Hc & Hrest). exists c. split.
    + clear -Hc Hspec Hname Huid. by open_dns.
    + intros u (d & Hd & Hp). rewrite same_desired_daemonset in Hd. apply (Hrest u). eauto.
  - intros m Hm%same_revisions. destruct (Hcm m Hm) as (c & Hc & Hrest). exists c. split.
    + clear -Hc Hspec Hname Huid. by open_dns.
    + intros u (d & Hd & Hp). rewrite same_desired_corefile in Hd. apply (Hrest u). eauto.
  - clear -Hnp Hspec Hname Huid. by open_dns.
  - clear -Hsvc Hspec Hname Huid. by open_dns.
  - clear -Hsm Hspec Hname Huid. by open_dns.
  - clear -Hnr Hspec Hname Huid. by open_dns.
Qed.
End other_dns.
