(* ===== verification/Converge.v ===== *)
(** * One pass settles the cluster

    A pass of the managed branch of Reconcile (pkg/operator/controller/controller.go) that
    reports no error leaves the cluster settled in the sense of [Settled], so that the
    next pass writes no operand. *)

From S2P Require Import Prelude GoLib Types Util Labels Numbers Net Client Mem Names Manifests.
From S2P Require Import Samples Tls DaemonSet DaemonSetProps DNSStatus Corefile CorefileGolden.
From S2P Require Import CorefileProps Service NodeResolver NetworkPolicies CABundle Controller.
From S2P Require Import ControllerProps Installed ControllerRuns Calm Ensure Settled.

(** ** The DNS daemonset at rest *)

(** The comparison looks at the specs only. *)
Lemma daemonsetConfigChanged_spec c c' d u' :
  ds_Spec c' = ds_Spec c → daemonsetConfigChanged c' d = Some (Some u') →
  ∃ u, daemonsetConfigChanged c d = Some (Some u).
Proof.
  destruct c as [m sp st], c' as [m' sp' st']. simpl. intros ->. rewrite !daemonsetConfigChanged_fields.
  change (ds_podspec (mkDaemonSet m' sp st')) with (ds_podspec (mkDaemonSet m sp st)).
  destruct (compare_containers _ _) as [[cs cc]|]; [|done]. destruct (tolerations_eqb _ _) as [te|]; [|done]. simpl.
  change (fields_changed (mkDaemonSet m' sp st') d cc te) with (fields_changed (mkDaemonSet m sp st) d cc te).
  destruct (fields_changed _ _ _ _); [|done]. intros _. by eexists.
Qed.

(** The selector is never changed. *)
Lemma daemonsetConfigChanged_selector c d u :
  daemonsetConfigChanged c d = Some (Some u) → dss_Selector (ds_Spec u) = dss_Selector (ds_Spec c).
Proof.
  rewrite daemonsetConfigChanged_fields. destruct (compare_containers _ _) as [[cs cc]|]; [|done].
  destruct (tolerations_eqb _ _) as [te|]; [|done]. simpl. case_match; [|done]. by intros [= <-].
Qed.

Lemma tolerations_self l b : tolerations_eqb l l = Some b → b = true.
Proof.
  intros Hb. assert (tolerations_eqb l l = Some true) as Ht; [|congruence].
  eapply cmp_Equal_SortSlices_self; [|exact Hb]. intros a. by apply bool_decide_true.
Qed.

(** A comparison that does not panic has compared the tolerations. *)
Lemma changed_tolerations c d x :
  daemonsetConfigChanged c d = Some x →
  is_Some (tolerations_eqb (ps_Tolerations (ds_podspec c)) (ps_Tolerations (ds_podspec d))).
Proof.
  rewrite daemonsetConfigChanged_fields. destruct (compare_containers _ _) as [[cs cc]|]; [|done]. simpl.
  destruct (tolerations_eqb _ _) as [te|]; [by eexists|done].
Qed.

(** Containers that have been compared once and are compared with themselves. *)
Lemma containers_self cs es : containers_in_sync cs es → containers_in_sync cs cs.
Proof.
  intros [_ Hn]. split; [|intros name Hin; by destruct (Hn name Hin)].
  clear Hn. induction cs; by constructor.
Qed.

(** The daemonset the operator wants: its containers and their images. *)
Definition wanted (d : DaemonSet) : Prop :=
  two_containers d ∧ ∀ c, c ∈ ps_Containers (ds_podspec d) → c_Image c ≠ "".

Lemma wanted_self d x : wanted d → daemonsetConfigChanged d d = Some x → x = None.
Proof.
  intros [Htwo Himg] Hx. destruct (changed_tolerations _ _ _ Hx) as [b Hb].
  assert (daemonsetConfigChanged d d = Some None) as Hd; [|congruence].
  apply daemonsetConfigChanged_unchanged. unfold in_sync. rewrite Hb, (tolerations_self _ _ Hb), volumes_eqb_refl.
  destruct (containers_shape _ Htwo) as (c1 & c2 & Hc & H1 & H2). rewrite Hc in *.
  repeat (split; [done|]). split; [apply Z.eqb_refl|]. do 2 (split; [done|]).
  apply two_containers_in_sync; try done; [apply Himg; set_solver..|].
  intros u e Hin. set_unfold in Hin. naive_solver.
Qed.

Section placement.
Context (c d u : DaemonSet) (Hc : two_containers c) (Hd : wanted d).
Context (Hu : daemonsetConfigChanged c d = Some (Some u)).

(** What the comparison asked for is in sync, and has this placement. *)
Lemma asked_in_sync : in_sync u d.
Proof.
  destruct Hd as [Htwo Himg]. destruct (daemonsetConfigChanged_stable c d Hc Htwo Himg) as (ch & Hch & Hs).
  - by eapply changed_tolerations.
  - apply Hs. congruence.
Qed.

(** A stored daemonset with the current placement and otherwise what was asked for. *)
Context (o : DaemonSet) (Ho : ds_Spec o = ds_Spec (keep_placement c u)).

Lemma kept_fields :
  ds_podspec o = ds_podspec (keep_placement c u) ∧ ds_template o = ds_template (keep_placement c u).
Proof. unfold ds_podspec, ds_template. by rewrite Ho. Qed.

(** Compared again, only the placement differs: the comparison asks for the same placement
    as before, and with the placement kept for nothing. *)
Lemma kept_compared u2 :
  daemonsetConfigChanged o d = Some (Some u2) →
  ps_NodeSelector (ds_podspec u2) = ps_NodeSelector (ds_podspec u) ∧
  ps_Tolerations (ds_podspec u2) = ps_Tolerations (ds_podspec u) ∧
  ∀ x, daemonsetConfigChanged o (keep_placement o u2) = Some x → x = None.
Proof.
  destruct kept_fields as [Hp Ht]. pose proof asked_in_sync as (Hmr & Hst & Hann & Hns & Hgr & Htol & Hvol & Hdiff & Hnames).
  assert (compare_containers (ps_Containers (ds_podspec o)) (ps_Containers (ds_podspec d))
          = Some (ps_Containers (ds_podspec o), false)) as Hcmp.
  { apply compare_containers_unchanged. rewrite Hp. split; [done|]. exact Hnames. }
  assert (containers_differ (ps_Containers (ds_podspec o)) (ps_Containers (ds_podspec d)) = false) as Hcd.
  { apply containers_differ_false. rewrite Hp. exact Hdiff. }
  assert (ps_Tolerations (ds_podspec o) = ps_Tolerations (ds_podspec c)) as Hot by (by rewrite Hp).
  assert (ps_NodeSelector (ds_podspec o) = ps_NodeSelector (ds_podspec c)) as Hon by (by rewrite Hp).
  pose proof Hu as Hu'. rewrite daemonsetConfigChanged_fields in Hu'. rewrite daemonsetConfigChanged_fields, Hcmp, Hot.
  destruct (compare_containers (ps_Containers (ds_podspec c)) _) as [[cs cc]|]; [|done]. simpl in Hu' |- *.
  destruct (tolerations_eqb (ps_Tolerations (ds_podspec c)) _) as [te|]; [|done]. simpl in Hu' |- *.
  destruct (fields_changed c d cc te); [|done]. apply (inj Some), (inj Some) in Hu'.
  destruct (fields_changed o d false te); [|done]. intros Heq%(inj Some)%(inj Some).
  split; [by rewrite <- Heq, <- Hu'; simpl; rewrite Hon|].
  split; [by rewrite <- Heq, <- Hu'; simpl; rewrite Hot|].
  intros x Hx. destruct (changed_tolerations _ _ _ Hx) as [b Hb].
  change (tolerations_eqb (ps_Tolerations (ds_podspec o)) (ps_Tolerations (ds_podspec o)) = Some b) in Hb.
  assert (daemonsetConfigChanged o (keep_placement o u2) = Some None) as Hn; [|congruence].
  apply daemonsetConfigChanged_unchanged. unfold in_sync. rewrite <- Heq.
  assert (dss_MinReadySeconds (ds_Spec o) = dss_MinReadySeconds (ds_Spec d)) as Hmr' by (by rewrite Ho).
  assert (dss_UpdateStrategy (ds_Spec o) = dss_UpdateStrategy (ds_Spec d)) as Hst' by (by rewrite Ho).
  split; [simpl; by rewrite Hmr', Z.eqb_refl|].
  split; [simpl; by rewrite Hst', bool_decide_true|].
  split.
  { intros k Hk. change (pt_Annotations (ds_template o) !! k = (annotations_merged o d).1 !! k).
    rewrite annotations_merged_lookup, Ht by done. by apply Hann. }
  split; [done|].
  split; [simpl; rewrite Hp; simpl; rewrite Hgr; apply Z.eqb_refl|].
  split; [by rewrite <- (tolerations_self _ _ Hb)|].
  split; [simpl; rewrite Hp; simpl; rewrite Hvol; apply volumes_eqb_refl|].
  change (containers_in_sync (ps_Containers (ds_podspec o))
    (if containers_differ (ps_Containers (ds_podspec o)) (ps_Containers (ds_podspec d))
     then ps_Containers (ds_podspec d) else ps_Containers (ds_podspec o))).
  rewrite Hcd. apply (containers_self _ (ps_Containers (ds_podspec d))). rewrite Hp. by split.
Qed.
End placement.

(** ** Decisions by lists

    With a cache that is up to date the decisions depend on the cluster only. *)

Section informed.
Context {W : Type} `{RuntimeLaws W} `{!Informed W}.

(** The objects of one kind are the same. *)
Definition same_kind (k : Kind) (w w' : W) : Prop := ∀ n, view w' k n = view w k n.

Lemma listed_same k l w w' os os' :
  same_kind k w w' → (cache_List k l w).1 = inr os → (cache_List k l w').1 = inr os' → ∀ o, o ∈ os ↔ o ∈ os'.
Proof.
  intros Hk Hos Hos' o. unfold same_kind in Hk. rewrite (listed _ _ _ _ Hos), (listed _ _ _ _ Hos'). by setoid_rewrite Hk.
Qed.

(** Kinds no step writes. *)
Lemma same_operands_kind k (w w' : W) : k ≠ KDNS → k ≠ KDaemonSet → same_operands w w' → same_kind k w w'.
Proof. intros Hd Hs Hw n. apply Hw. unfold volatile. set_unfold. naive_solver. Qed.

Lemma same_kind_answers k (w w' w0 w0' : W) :
  k ≠ KDNS → k ≠ KDaemonSet → same_kind k w w' → same_operands w w0 → same_operands w' w0' → same_kind k w0 w0'.
Proof.
  intros Hd Hs Hww Hw Hw' n.
  rewrite (same_operands_kind k w' w0') by done. rewrite Hww. symmetry. by apply same_operands_kind.
Qed.

Lemma hints_unique (w w' : W) dns h h' :
  same_kind KNode w w' → possible_hints w dns h → possible_hints w' dns h' → h = h'.
Proof.
  intros Hn (w0 & w1 & Hw & Hrun) (w0' & w1' & Hw' & Hrun').
  pose proof (same_kind_answers KNode w w' w0 w0' ltac:(done) ltac:(done) Hn Hw Hw') as Hsame.
  revert Hrun Hrun'. unfold shouldEnableTopologyAwareHints, mbind, M_bind, call.
  pose proof (listed_same KNode (mkListOptions None None) w0 w0') as Hl.
  destruct (cache_List KNode (mkListOptions None None) w0) as [[e|os] x]; [done|].
  destruct (cache_List KNode (mkListOptions None None) w0') as [[e|os'] x']; [done|].
  intros [= <- _] [= <- _]. apply hints_loop_elem. by apply (Hl os os').
Qed.

(** The verdict as a function of the two lists. *)
Lemma verdict_unique (w w' : W) c u b b' :
  same_kind KPod w w' → same_kind KNode w w' → possible_verdict w c u b → possible_verdict w' c u b' → b = b'.
Proof.
  intros Hp Hn (w0 & w1 & Hw & Hrun) (w0' & w1' & Hw' & Hrun').
  pose proof (same_kind_answers KPod w w' w0 w0' ltac:(done) ltac:(done) Hp Hw Hw') as Hpods.
  pose proof (same_kind_answers KNode w w' w0 w0' ltac:(done) ltac:(done) Hn Hw Hw') as Hnodes.
  revert Hrun Hrun'. unfold daemonsetUpdateIsSafe.
  destruct (LabelSelectorAsSelector (dss_Selector (ds_Spec c))) as [e|sel]; [by intros [= <- _] [= <- _]|].
  set (l := mkListOptions _ _). unfold mbind at 1 3, M_bind at 1 3, call at 1 3.
  pose proof (listed_same KPod l w0 w0') as Hl. pose proof (cache_list_frame KPod l w0) as Hf.
  pose proof (cache_list_frame KPod l w0') as Hf'.
  destruct (cache_List KPod l w0) as [[e|os] x]; [done|]. destruct (cache_List KPod l w0') as [[e|os'] x']; [done|].
  specialize (Hl os os' Hpods eq_refl eq_refl). cbn [snd] in Hf, Hf'.
  assert ((length os =? 0)%nat = (length os' =? 0)%nat) as ->.
  { destruct os as [|a os], os' as [|a' os']; try done; exfalso.
    - apply (not_elem_of_nil a'). rewrite Hl. apply list_elem_of_here.
    - apply (not_elem_of_nil a). rewrite <- Hl. apply list_elem_of_here. }
  destruct (length os' =? 0)%nat; [by intros [= <- _] [= <- _]|].
  destruct (LabelSelectorAsSelector _) as [e|nsel]; [by intros [= <- _] [= <- _]|].
  set (l2 := mkListOptions _ _). unfold mbind, M_bind, call.
  pose proof (listed_same KNode l2 x x') as Hl2.
  destruct (cache_List KNode l2 x) as [[e|ns] y]; [done|]. destruct (cache_List KNode l2 x') as [[e|ns'] y']; [done|].
  intros [= <- _] [= <- _]. apply Bool.eq_true_iff_eq. rewrite !existsb_elem.
  assert (∀ o, o ∈ ns ↔ o ∈ ns') as Hns; [|by setoid_rewrite Hns].
  apply (Hl2 ns ns'); [|done..]. intros n. by rewrite Hf, Hf'.
Qed.

(** The verdict depends on the selector, the namespace and the placement asked for. *)
Lemma verdict_same (w : W) c u c' u' b :
  dss_Selector (ds_Spec c') = dss_Selector (ds_Spec c) → om_Namespace (ds_meta c') = om_Namespace (ds_meta c) →
  ps_NodeSelector (ds_podspec u') = ps_NodeSelector (ds_podspec u) →
  ps_Tolerations (ds_podspec u') = ps_Tolerations (ds_podspec u) →
  possible_verdict w c' u' b → possible_verdict w c u b.
Proof. intros Hs Hm Hn Ht. unfold possible_verdict, daemonsetUpdateIsSafe. by rewrite Hs, Hm, Hn, Ht. Qed.

End informed.

(** The DNS daemonset that a handler without errors leaves behind. *)
Lemma daemonset_rests {W} `{RuntimeLaws W} `{!Informed W} (v w : W) (desired : option (error + DaemonSet)) before o :
  (∀ d, desired = Some (inr d) → wanted d) → (∀ c, before = Some c → two_containers c) →
  same_kind KPod v w → same_kind KNode v w →
  sync (verbatim KDaemonSet) (λ d, desired = Some (inr d))
    (λ c u, ∃ d, desired = Some (inr d) ∧ placed (possible_verdict v) d c u) before false (Some o) →
  ∀ u, ¬ ∃ d, desired = Some (inr d) ∧ placed (possible_verdict w) d o (Some u).
Proof.
  intros Hwant Htwo Hpods Hnodes Hsync u2 (d & Hd & Hp). specialize (Hwant d Hd).
  assert (∃ u, daemonsetConfigChanged o d = Some (Some u) ∧
    (possible_verdict w o u true ∨ possible_verdict w o u false ∧
       ∃ x, daemonsetConfigChanged o (keep_placement o u) = Some (Some x))) as (u & Hu & Hw).
  { remember (Some u2) as x eqn:Hx. destruct Hp as [|u|u [x|]]; [done|..|done]; simplify_eq; eauto 6. }
  clear Hp. remember (Some o) as after eqn:Hafter. remember false as failed eqn:Hfailed.
  destruct Hsync as [|d' o' ? Hd' [_ Ho]|c (d' & Hd' & Hc)|c u' o' ? (d' & Hd' & Hc) [Hm Ho]]; simplify_eq; simpl in *.
  - destruct (daemonsetConfigChanged_spec _ _ _ _ Ho Hu) as [x Hx]. by apply (wanted_self d) in Hx.
  - remember None as x eqn:Hx. destruct Hc as [|?|u' [?|] Hu' Hv Hk]; simplify_eq.
    destruct Hw as [Hw|[_ [x Hx]]]; [|congruence]. by pose proof (verdict_unique _ _ _ _ _ _ Hpods Hnodes Hv Hw).
  - specialize (Htwo c eq_refl). remember (Some u') as x eqn:Hx. destruct Hc as [|u0 Hu0|u0 [?|] Hu0 Hv Hk]; simplify_eq.
    + destruct (daemonsetConfigChanged_spec _ _ _ _ Ho Hu) as [x Hx].
      pose proof (asked_in_sync c d u' Htwo Hwant Hu0) as Hs. apply daemonsetConfigChanged_unchanged in Hs. congruence.
    + destruct (kept_compared c d u0 Htwo Hwant Hu0 o Ho u Hu) as (Hsel & Htol & Hnone).
      destruct Hw as [Hw|[_ [x Hx]]]; [|by apply Hnone in Hx].
      assert (possible_verdict w c u0 true) as Hw'; [|by pose proof (verdict_unique _ _ _ _ _ _ Hpods Hnodes Hv Hw')].
      revert Hw. apply verdict_same; [..|done|done].
      * rewrite Ho. simpl. by eapply daemonsetConfigChanged_selector.
      * destruct Hm as (_ & -> & _). simpl. by rewrite (daemonsetConfigChanged_meta _ _ _ Hu0).
Qed.

(** ** The revisions of the CA bundles *)

Section revisions.
Context {W : Type} `{RuntimeLaws W} {G : W → Prop} `{!Calm G}.

(** What a read in [G] returns. *)
Lemma calm_read k n w : G w →
  match (client_Get k n w).1 with inr o => view w k n = Some o | inl _ => view w k n = None end.
Proof.
  intros HG. pose proof (get_found k n w) as Hf. pose proof (get_missing k n w) as Hm.
  pose proof (λ t, calm_Get k n w t HG) as Hc. destruct ((client_Get k n w).1) as [[t|t]|o]; [by eapply Hm| |by apply Hf].
  by destruct (Hc t).
Qed.

(** The same copies. *)
Definition same_copies (w w' : W) : Prop :=
  ∀ name, view w' KConfigMap (CABundleConfigMapName name) = view w KConfigMap (CABundleConfigMapName name).

Lemma revisions_same tcs m (w w' : W) :
  G w → G w' → same_copies w w' → (ca_bundle_revisions m tcs w).1 = (ca_bundle_revisions m tcs w').1.
Proof.
  revert m w w'. induction tcs as [|tc tcs IH]; intros m w w' HG HG' Hs; [done|]. simpl. unfold ca_bundle_revision.
  destruct (ca_bundle_name tc) as [name|]; [|by apply IH]. unfold mbind, M_bind, call.
  pose proof (calm_read KConfigMap (CABundleConfigMapName name) w HG) as Hr.
  pose proof (calm_read KConfigMap (CABundleConfigMapName name) w' HG') as Hr'.
  pose proof (closed_Get KConfigMap (CABundleConfigMapName name) w HG) as HG1.
  pose proof (closed_Get KConfigMap (CABundleConfigMapName name) w' HG') as HG1'.
  pose proof (get_frame KConfigMap (CABundleConfigMapName name) w) as Hf.
  pose proof (get_frame KConfigMap (CABundleConfigMapName name) w') as Hf'.
  rewrite (Hs name) in Hr'.
  destruct (client_Get _ _ w) as [[e|cm] w1], (client_Get _ _ w') as [[e'|cm'] w1']; cbn [fst snd] in *; try congruence.
  - apply IH; [done|done|]. intros x. by rewrite Hf, Hf', Hs.
  - assert (cm' = cm) as -> by congruence. apply IH; [done|done|]. intros x. by rewrite Hf, Hf', Hs.
Qed.

Lemma revisions_unique (w w' : W) dns m m' :
  same_copies w w' → possible_revisions G w dns m → possible_revisions G w' dns m' → m = m'.
Proof.
  intros Hs (w0 & w1 & Hw & HG & Hrun) (w0' & w1' & Hw' & HG' & Hrun').
  assert (same_copies w0 w0') as Hc.
  { intros name. rewrite (Hw' KConfigMap), (Hw KConfigMap) by (unfold volatile; set_solver). apply Hs. }
  pose proof (revisions_same (ur_TransportConfig (spec_UpstreamResolvers (dns_Spec dns))
     :: map (λ s, fp_TransportConfig (srv_ForwardPlugin s)) (spec_Servers (dns_Spec dns))) ∅ w0 w0' HG HG' Hc) as Heq.
  unfold caBundleRevisionMap in Hrun, Hrun'.
  rewrite Hrun, Hrun' in Heq. by injection Heq.
Qed.
End revisions.

(** ** The copies of CA bundles *)

Section bundles.
Context {W : Type} `{RuntimeLaws W} {G : W → Prop} `{!Calm G} `{!Informed W} `{!Stores W verbatim}.

(** The configmaps of openshift-dns have no finalizers. *)
Definition unfinalized (w : W) : Prop :=
  ∀ n cm, nn_Namespace n = DefaultOperandNamespace → view w KConfigMap n = Some cm → om_Finalizers (cm_meta cm) = [].

Lemma unfinalized_write (w w' : W) o r :
  write_spec KConfigMap o (verbatim KConfigMap o) (view w) (view w') r →
  om_Finalizers (cm_meta o) = [] → unfinalized w → unfinalized w'.
Proof.
  intros (Hother & Hthis & _) Ho Hw n cm Hn Hcm. destruct (decide (n = key_of KConfigMap o)) as [->|Hne].
  - destruct Hthis as [Heq|(o' & [Hm _] & Heq)]; [rewrite Heq in Hcm; by eapply Hw|].
    assert (cm = o') as -> by congruence. destruct Hm as (_ & _ & _ & _ & _ & Hfin & _). simpl in Hfin. by rewrite Hfin.
  - rewrite Hother in Hcm by congruence. by eapply Hw.
Qed.

Lemma sync_ca_bundle_unfinalized dns name w :
  name ≠ "" → om_DeletionTimestamp (dns_meta dns) = None → unfinalized w →
  wlp (sync_ca_bundle dns name) (λ _ w', unfinalized w') w.
Proof.
  intros Hne Hdel Hw. assert (∀ w1 : W, (∀ k n, view w1 k n = view w k n) → unfinalized w1) as Hsame.
  { intros w1 Hv n cm. rewrite Hv. apply Hw. }
  unfold sync_ca_bundle. rewrite wlp_bind. eapply wlp_mono; [by apply currentCABundleConfigMap_spec|].
  intros [err|[source|]] w1 [Hf1 Hres]; [by rewrite wlp_ret; apply Hsame| |by rewrite wlp_ret; apply Hsame].
  destruct Hres as [_ Hkey]. specialize (Hkey source eq_refl).
  assert (om_Name (cm_meta source) = name) as -> by (by inversion Hkey).
  rewrite wlp_bind. eapply wlp_mono; [apply currentCABundleConfigMap_spec; done|].
  intros [err|current] w2 [Hf2 Hcur]; [rewrite wlp_ret; apply Hsame; intros; by rewrite Hf2|].
  assert (unfinalized w2) as Hw2 by (apply Hsame; intros; by rewrite Hf2).
  unfold desiredCABundleConfigMap. rewrite Hdel. cbn [negb]. destruct current as [current|]; destruct Hcur as [Hcur Hck].
  - rewrite wlp_bind. unfold updateCABundleConfigMap. case_match; [by rewrite !wlp_ret|].
    rewrite wlp_bind, wlp_call. set (u := mkConfigMap _ _).
    assert (released KConfigMap u = false) as Hr by (rewrite <- (view_live _ _ _ _ Hcur); by apply released_kept).
    assert (om_Finalizers (cm_meta u) = []) as Hfin.
    { refine (Hw (CABundleConfigMapName name) current eq_refl _). by rewrite <- Hf1. }
    pose proof (stores_update KConfigMap u w2 Hr) as Hspec.
    destruct (client_Update KConfigMap u w2) as [[err|o] w3]; cbn [fst snd] in *; rewrite !wlp_ret;
      by eapply unfinalized_write.
  - rewrite wlp_bind, wlp_call. set (d := mkConfigMap _ _). pose proof (stores_create KConfigMap d w2) as Hspec.
    destruct (client_Create KConfigMap d w2) as [[err|o] w3]; cbn [fst snd] in *; rewrite wlp_ret;
      by eapply unfinalized_write.
Qed.

(** A configmap that is referred to, or gone. *)
Definition kept_or_gone (dns : DNS) (cm : ConfigMap) (w : W) : Prop :=
  (∃ name, name ∈ configmapNames dns ∧ om_Name (cm_meta cm) = nn_Name (CABundleConfigMapName name)) ∨
  view w KConfigMap (key_of KConfigMap cm) = None.

(** What pruning does to the configmaps of [w0]: some are deleted. *)
Definition pruning (w0 w : W) : Prop :=
  G w ∧ ∀ n, view w KConfigMap n = view w0 KConfigMap n ∨ view w KConfigMap n = None.

Lemma prune_turn dns w0 w cm :
  unfinalized w0 → prunable cm → view w0 KConfigMap (key_of KConfigMap cm) = Some cm → pruning w0 w →
  wlp (prune_ca_bundle (configmapNames dns) cm) (λ errs w', errs = [] →
    pruning w0 w' ∧ kept_or_gone dns cm w' ∧ ∀ b, kept_or_gone dns b w → kept_or_gone dns b w') w.
Proof.
  intros Hw0 Hp Hcm [HG Hpr]. unfold prune_ca_bundle. destruct (existsb _ _) eqn:Ex.
  { rewrite wlp_ret. intros _. apply existsb_elem in Ex as (name & Hin & Hn). apply bool_decide_eq_true in Hn.
    split; [by split|]. split; [left; eauto|done]. }
  unfold deleteConfigMap. rewrite wlp_bind, wlp_call.
  pose proof (closed_Delete KConfigMap (key_of KConfigMap cm) w HG) as HG1.
  pose proof (delete_frame KConfigMap (key_of KConfigMap cm) w) as Hf.
  assert (view (client_Delete KConfigMap (key_of KConfigMap cm) w).2 KConfigMap (key_of KConfigMap cm) = None) as Hgone.
  { destruct (Hpr (key_of KConfigMap cm)) as [Heq|Heq].
    - rewrite Hcm in Heq. apply (calm_Delete KConfigMap _ _ cm HG Heq). by apply (Hw0 (key_of KConfigMap cm)).
    - destruct (view (client_Delete _ _ w).2 _ _) as [o|] eqn:Eo; [|done].
      apply delete_meta in Eo as (o' & Ho' & _). congruence. }
  destruct (client_Delete KConfigMap (key_of KConfigMap cm) w) as [err w1]; cbn [fst snd] in *.
  assert (pruning w0 w1 ∧ kept_or_gone dns cm w1 ∧ ∀ b, kept_or_gone dns b w → kept_or_gone dns b w1) as Hall.
  { assert (∀ n, view w1 KConfigMap n = view w KConfigMap n ∨ view w1 KConfigMap n = None) as Hv.
    { intros n. destruct (decide (n = key_of KConfigMap cm)) as [->|Hne]; [by right|left]. apply Hf. congruence. }
    split; [split; [done|]|split; [by right|]].
    - intros n. destruct (Hv n) as [->|]; [apply Hpr|by right].
    - intros b [Hb|Hb]; [by left|right]. destruct (Hv (key_of KConfigMap b)) as [->|]; done. }
  destruct err as [[t|t]|]; rewrite ?wlp_ret; cbn [IsNotFound]; rewrite ?wlp_ret; naive_solver.
Qed.

(** Every configmap with the label of the copies is referred to. *)
Definition copies_options : ListOptions := mkListOptions (Some DefaultOperandNamespace) (Some cmSelector).

Definition no_stale (w : W) (dns : DNS) : Prop :=
  ∀ n cm, view w KConfigMap n = Some cm → list_matches copies_options (cm_meta cm) = true →
    ∃ name, name ∈ configmapNames dns ∧ om_Name (cm_meta cm) = nn_Name (CABundleConfigMapName name).

Lemma no_stale_pruned w dns : no_stale w dns → pruned w dns.
Proof.
  intros Hn w0 items cm Hw0 Hlist Hcm. apply (listed _ _ _ _ Hlist) in Hcm as [[n Hcm] Hmatch].
  rewrite (Hw0 KConfigMap) in Hcm by (unfold volatile; set_solver). by eapply Hn.
Qed.

(** After a run without errors no copy is stale. *)
Lemma ensureCABundleConfigMaps_pruned dns w w' :
  G w → unfinalized w → om_DeletionTimestamp (dns_meta dns) = None →
  ensureCABundleConfigMaps dns w = (Some None, w') → no_stale w' dns.
Proof.
  intros HG Hfin Hdel Hrun.
  assert (wlp (ensureCABundleConfigMaps dns) (λ res w', res = None → no_stale w' dns) w) as Hwlp;
    [|by apply (wlp_run _ _ _ _ _ Hwlp Hrun)].
  unfold ensureCABundleConfigMaps. rewrite wlp_bind.
  eapply wlp_mono; [apply (for_errs_inv _ (λ w, G w ∧ unfinalized w) (λ _ _, True)); [done|]|].
  { intros name w0 Hin [HG0 Hf0]. pose proof (configmapNames_nonempty _ _ Hin) as Hne.
    pose proof (sync_ca_bundle_unfinalized dns name w0 Hne Hdel Hf0) as Hs.
    assert (preserves (G := G) (sync_ca_bundle (W := W) dns name)) as Hp
      by (unfold sync_ca_bundle, currentCABundleConfigMap, updateCABundleConfigMap, deleteConfigMap; calm).
    specialize (Hp w0 HG0). unfold wlp in *. destruct (sync_ca_bundle dns name w0) as [[errs|] w1]; auto. }
  intros errs w1 Hsync. rewrite wlp_bind, wlp_call.
  set (l := mkListOptions (Some DefaultOperandNamespace) (Some cmSelector)).
  pose proof (cache_list_frame KConfigMap l w1) as Hfl. pose proof (cmList_prunable w1) as Hpr.
  pose proof (listed KConfigMap l w1) as Hl. pose proof (closed_cache_List (G := G) KConfigMap l w1) as Hcl.
  fold l in Hpr. destruct (cache_List KConfigMap l w1) as [[err|items] w2]; cbn [fst snd] in *.
  { simpl. rewrite wlp_bind, !wlp_ret. intros Hn. exfalso. apply NewAggregate_somes in Hn. by destruct errs. }
  rewrite wlp_bind. destruct errs as [|e errs].
  2:{ apply wlp_true. intros errs' w3. rewrite wlp_ret. intros Hn. by apply NewAggregate_somes in Hn. }
  destruct (Hsync eq_refl) as [[HG1 Hf1] _]. specialize (Hpr items eq_refl). specialize (Hl items eq_refl).
  assert (unfinalized w2) as Hf2 by (intros n cm; rewrite Hfl; apply Hf1).
  assert (∀ cm, cm ∈ items → view w2 KConfigMap (key_of KConfigMap cm) = Some cm) as Hview.
  { intros cm [[n Hn] _]%Hl. rewrite Hfl. by rewrite (view_key _ _ _ _ Hn). }
  eapply wlp_mono; [apply (for_errs_inv _ (pruning w2) (kept_or_gone dns))|].
  - split; [by apply Hcl|by left].
  - intros cm w0 Hcm Hp0. eapply wlp_mono; [apply (prune_turn dns w2); [done|by apply Hpr|by apply Hview|done]|].
    naive_solver.
  - intros errs' w3 Hend. rewrite wlp_ret. intros Hn%NewAggregate_somes. simpl in Hn.
    destruct (Hend Hn) as [[_ Hp3] Hall]. intros n cm Hcm Hmatch.
    destruct (Hp3 n) as [Heq|Heq]; [|congruence]. rewrite Heq in Hcm.
    assert (cm ∈ items) as Hin by (apply Hl; split; [exists n; by rewrite <- Hfl|done]).
    destruct (Hall cm Hin) as [|Hgone]; [done|]. rewrite (view_key _ _ _ _ Hcm), Heq in Hgone. congruence.
Qed.
End bundles.
