(* ===== verification/Pass.v ===== *)
(** * Two passes of Reconcile

    The steps of a pass of the managed branch that reports no error, and what they leave
    in the cluster: a second pass writes no operand. *)

From S2P Require Import Prelude GoLib Types Util Labels Numbers Net Client Mem Names Manifests.
From S2P Require Import Samples Tls DaemonSet DaemonSetProps DNSStatus Corefile CorefileGolden.
From S2P Require Import CorefileProps Service NodeResolver NetworkPolicies CABundle Controller.
From S2P Require Import ControllerProps Installed ControllerRuns Calm Ensure Settled Converge.

(** ** Runs, step by step *)

Section inversion.
Context `{UnicodeTables} `{FloatConversion} `{Assets}.
Context {W : Type} `{RuntimeLaws W} (r : reconciler).

Lemma bind_inv {A B} (m : M W A) (f : A → M W B) w b w' :
  (m ≫= f) w = (Some b, w') → ∃ a w1, m w = (Some a, w1) ∧ f a w1 = (Some b, w').
Proof. unfold mbind, M_bind. destruct (m w) as [[a|] w1]; [|done]. intros Hf. eauto. Qed.

(** Steps that report no error, one after the other. *)
Inductive clean_steps : list (M W (option error)) → W → W → Prop :=
| clean_nil w : clean_steps [] w w
| clean_cons m steps w w1 w2 : m w = (Some None, w1) → clean_steps steps w1 w2 → clean_steps (m :: steps) w w2.

Lemma first_error_inv steps w w' : first_error steps w = (Some None, w') → clean_steps steps w w'.
Proof.
  revert w. induction steps as [|m steps IH]; intros w; simpl; [intros [= <-]; constructor|].
  intros ([e|] & w1 & Hm & Hf)%bind_inv; [done|]. econstructor; eauto.
Qed.

(** A handler whose error is wrapped. *)
Lemma wrapped_inv {A} (m : M W (A * option error)) (f : error → error) w w' :
  ('(_, err) ← m; mret (f <$> err)) w = (Some None, w') → ∃ x, m w = (Some (x, None), w').
Proof. intros ([x [e|]] & w1 & Hm & Hf)%bind_inv; [done|]. injection Hf as <-. by exists x. Qed.

Lemma ensure_status_inv dns ip cd ods errs res w res' w' :
  ensure_status r dns ip cd ods errs res w = (Some (None, res'), w') →
  errs = [] ∧ ∃ x w1 res1, ensureNodeResolverDaemonSet r dns ip cd w = (Some (x, None), w1) ∧
    syncDNSStatus dns ip cd ods x (2 * lameDuckDuration) res w1 = (Some (None, res1), w').
Proof.
  unfold ensure_status. intros ([x e] & w1 & Hm & Hf)%bind_inv. apply bind_inv in Hf as ([e' res1] & w2 & Hs & Hret).
  injection Hret as Hagg <- <-. apply NewMaybeRetryableAggregate_None in Hagg.
  destruct errs, e as [e|], e' as [e'|]; simpl in Hagg; try done;
    try (by destruct (retryable.After e')). split; [done|]. eauto 6.
Qed.

Lemma ensure_operands_inv dns ds ip cd m w ip' w' :
  ensure_operands r dns ds ip cd m w = (Some (inr ([], ip')), w') →
  ip' = ip ∧ ∃ x1 w1 x2 w2 x3 w3 svc w4,
    ensureDNSConfigMap r dns cd m w = (Some (x1, None), w1) ∧
    ensureDNSNetworkPolicy dns w1 = (Some (x2, None), w2) ∧
    ensureDenyAllNetworkPolicy w2 = (Some (x3, None), w3) ∧
    ensureDNSService dns ip (daemonset_owner_ref ds) w3 = (Some (Some svc, None), w4) ∧
    ensureMetricsIntegration dns svc (daemonset_owner_ref ds) w4 = (Some None, w').
Proof.
  unfold ensure_operands. intros ([x1 e1] & w1 & H1' & Hf)%bind_inv. apply bind_inv in Hf as ([x2 e2] & w2 & H2' & Hf).
  apply bind_inv in Hf as ([x3 [e3|]] & w3 & H3' & Hf); [done|].
  apply bind_inv in Hf as ([svc [e4|]] & w4 & H4' & Hf).
  { injection Hf as Hnil _ _. by destruct e1, e2. }
  destruct svc as [svc|]; [|injection Hf as Hnil _ _; by destruct e1, e2].
  apply bind_inv in Hf as (e5 & w5 & H5' & Hret). injection Hret as Hnil <- <-.
  destruct e1, e2, e5; try done. split; [done|]. eauto 20.
Qed.
(** The profile that a read of the API server config gives. *)
Definition profile_read (res : APIError + obj KAPIServer) : APIError + option TLSSecurityProfile :=
  match res with
  | inl err => if negb (IsNotFound err) then inl err else inr None
  | inr apiServer => inr (as_TLSSecurityProfile apiServer)
  end.

Lemma ensureDNS_inv dns res w res' w' :
  ensureDNS r dns res w = (Some (None, res'), w') →
  ∃ ip w1 w2 m w3 api w4 tsp ds w5 w6,
    getClusterIPFromNetworkConfig w = (Some (inr ip), w1) ∧
    ensureCABundleConfigMaps dns w1 = (Some None, w2) ∧
    caBundleRevisionMap dns w2 = (Some m, w3) ∧
    call (client_Get KAPIServer (mkNN "" "cluster")) w3 = (Some api, w4) ∧ profile_read api = inr tsp ∧
    ensureDNSDaemonSet r dns m tsp w4 = (Some (Some ds, None), w5) ∧
    ensure_operands r dns ds ip "cluster.local" m w5 = (Some (inr ([], ip)), w6) ∧
    ensure_status r dns ip "cluster.local" (Some ds) [] res w6 = (Some (None, res'), w').
Proof.
  unfold ensureDNS. intros ([e|ip] & w1 & Hip & Hf)%bind_inv; [done|].
  apply bind_inv in Hf as (e1 & w2 & Hca & Hf). apply bind_inv in Hf as (m & w3 & Hm & Hf).
  apply bind_inv in Hf as (api & w4 & Hapi & Hf).
  match type of Hf with (match ?x with inl _ => _ | inr _ => _ end) w4 = _ => change x with (profile_read api) in Hf end.
  destruct (profile_read api) as [e|tsp] eqn:Etsp.
  { unfold mret, M_ret in Hf. apply (f_equal fst) in Hf. apply (inj Some) in Hf. apply (f_equal fst) in Hf.
    cbn [fst] in Hf. apply NewAggregate_somes in Hf. by destruct e1. }
  apply bind_inv in Hf as ([ods [e|]] & w5 & Hds & Hf).
  { apply ensure_status_inv in Hf as [Hnil _]. by destruct e1. }
  destruct ods as [ds|]; [|apply ensure_status_inv in Hf as [Hnil _]; by destruct e1].
  apply bind_inv in Hf as ([e|[errs ip']] & w6 & Hop & Hf); [done|].
  pose proof Hf as Hst. apply ensure_status_inv in Hf as [Hnil _].
  assert (e1 = None ∧ errs = []) as [-> ->] by (destruct e1; by destruct errs).
  pose proof Hop as Hop'. apply ensure_operands_inv in Hop' as [-> _]. simpl in Hst. eauto 20.
Qed.

Lemma reconcile_managed_inv dns res w res' w' :
  reconcile_managed r dns [] res w = (Some (inr ([], res')), w') →
  ∃ dns1 w1 w2, enforceDNSFinalizer dns w = (Some (inr dns1), w1) ∧
    ensureDNS r dns1 res w1 = (Some (None, res'), w2) ∧
    ensureExternalNameForOpenshiftService w2 = (Some None, w').
Proof.
  unfold reconcile_managed. intros ([e|dns1] & w1 & Hfin & Hf)%bind_inv; [done|].
  apply bind_inv in Hf as ([[e|] res1] & w2 & Hdns & Hf); [by destruct (retryable.After e)|].
  apply bind_inv in Hf as ([e|] & w3 & Hext & Hret); [done|]. injection Hret as <- <-. eauto 8.
Qed.
End inversion.

(** ** What each step leaves alone *)

Section frames.
Context {W : Type} `{RuntimeLaws W}.

(** [w'] differs from [w] in the objects [S] at most. *)
Lemma run_frame {A} S (m : M W A) w a w' : touches S m → m w = (Some a, w') → same_but S w w'.
Proof. intros Ht Hm k n Hk. specialize (Ht w k n Hk). by rewrite Hm in Ht. Qed.

Lemma run_preserves {A} (G : W → Prop) (m : M W A) w a w' : preserves (G := G) m → m w = (Some a, w') → G w → G w'.
Proof. intros Hp Hm HG. specialize (Hp w HG). by rewrite Hm in Hp. Qed.
End frames.

Section runs.
Context `{UnicodeTables} `{FloatConversion} `{Assets}.
Context {W : Type} `{RuntimeLaws W} (r : reconciler).

(** The objects of [w'] are those of [w], but for the listed keys. *)
Definition but (keys : list (Kind * NamespacedName)) (w w' : W) : Prop :=
  ∀ k n, (k, n) ∉ keys → view w' k n = view w k n.

Lemma but_trans ks ks' w w1 w2 : but ks w w1 → but ks' w1 w2 → but (ks ++ ks') w w2.
Proof. intros H1' H2' k n Hk. rewrite elem_of_app in Hk. rewrite H2', H1'; tauto. Qed.

(** A handler that reports no error: its object is at rest, and is what it returns. *)
Lemma handler_run acc k n want fixes (m : Handler (W := W) k) w x w' :
  implements_at (acc := acc) k n want fixes m w → m w = (Some (x, None), w') →
  but [(k, n)] w w' ∧ sync (acc k) want fixes (view w k n) false (view w' k n) ∧ x = view w' k n.
Proof.
  intros [Hframe Hrun] Hm. rewrite Hm in Hframe, Hrun. cbn [fst snd] in *. destruct Hrun as [Hs Hx].
  split; [|by split; [|apply Hx]]. intros k' n' Hk. apply Hframe. set_solver.
Qed.

Lemma sync_rest {k} acc want fixes (before after : option (obj k)) :
  settles acc want fixes → sync acc want fixes before false after →
  ∃ c, after = Some c ∧ ∀ u, ¬ fixes c (Some u).
Proof.
  intros [Hset Hdet] Hs. remember false as f eqn:Hf. destruct Hs as [|d o ? Hd Ho|c Hc|c u o ? Hu Ho]; [done|..].
  - exists o. split; [done|]. intros u Hu. by specialize (Hset d o _ (or_introl Hd) Ho Hu).
  - exists c. split; [done|]. intros u Hu. by eapply Hdet.
  - exists o. split; [done|]. intros u' Hu'. by specialize (Hset u o _ (or_intror (ex_intro _ c Hu)) Ho Hu').
Qed.

Lemma sync_clean {k} acc want fixes (before : option (obj k)) c :
  sync acc want fixes before false (Some c) →
  (∃ d, want d ∧ acc d c) ∨ before = Some c ∨ ∃ c0 u, before = Some c0 ∧ fixes c0 (Some u) ∧ acc u c.
Proof. inversion 1; simplify_eq; naive_solver. Qed.

Lemma handler_rests acc k n want fixes (m : Handler (W := W) k) w x w' :
  implements_at (acc := acc) k n want fixes m w → settles (acc k) want fixes → m w = (Some (x, None), w') →
  but [(k, n)] w w' ∧ (∃ c, view w' k n = Some c ∧ ∀ u, ¬ fixes c (Some u)) ∧ x = view w' k n.
Proof.
  intros Hi Hset Hm. destruct (handler_run _ _ _ _ _ _ _ _ _ Hi Hm) as (Hb & Hs & Hx).
  split; [done|]. split; [by eapply sync_rest|done].
Qed.

Lemma touches_but {A} keys (m : M W A) w a w' :
  (∀ S, (∀ kn, kn ∈ keys → kn ∈ S) → touches S m) → m w = (Some a, w') → but keys w w'.
Proof.
  intros Ht Hm k n Hk. set (S := ({[ kn | kn ∈ keys ]} : propset (Kind * NamespacedName))).
  assert (touches S m) as HS by (apply Ht; unfold S; set_solver).
  apply (run_frame S m _ _ _ HS Hm). unfold S. set_solver.
Qed.

Lemma get_or_create_run k o errorf what w e w' :
  get_or_create (W := W) k o errorf what w = (Some e, w') → but [(k, key_of k o)] w w'.
Proof. apply touches_but. intros S HS. apply touches_get_or_create, HS. set_solver. Qed.

Lemma metrics_run dns svc ref w w' :
  ensureMetricsIntegration (W := W) dns svc ref w = (Some None, w') →
  ∃ w1 x, but [(KClusterRole, mkNN "" "dns-monitoring"); (KClusterRoleBinding, mkNN "" "dns-monitoring");
     (KRole, mkNN "openshift-dns" "prometheus-k8s"); (KRoleBinding, mkNN "openshift-dns" "prometheus-k8s")] w w1 ∧
    ensureServiceMonitor dns svc ref w1 = (Some (x, None), w').
Proof.
  unfold ensureMetricsIntegration. intros Hc%first_error_inv.
  inversion_clear Hc as [|? ? ? w1 ? G1 Hc']. inversion_clear Hc' as [|? ? ? w2 ? G2 Hc]. inversion_clear Hc as [|? ? ? w3 ? G3 Hc'].
  inversion_clear Hc' as [|? ? ? w4 ? G4 Hc]. inversion_clear Hc as [|? ? ? w5 ? G5 Hc']. inversion Hc'. subst.
  apply wrapped_inv in G5 as [x Hx]. exists w4, x. split; [|done].
  apply get_or_create_run in G1, G2, G3, G4.
  exact (but_trans [_] [_; _; _] _ _ _ G1 (but_trans [_] [_; _] _ _ _ G2 (but_trans [_] [_] _ _ _ G3 G4))).
Qed.
(** ** The scaffolding *)

Lemma namespace_labels_only a b d :
  om_Labels (ns_meta a) = om_Labels (ns_meta b) → (namespaceLabelsChanged a d).1 = (namespaceLabelsChanged b d).1.
Proof. unfold namespaceLabelsChanged. intros ->. by destruct (foldl _ _ _). Qed.

Context `{!Stores W verbatim}.

Lemma namespace_run w w' :
  ensure_namespace (W := W) w = (Some None, w') →
  but [(KNamespace, mkNN "" "openshift-dns")] w w' ∧
  ∃ ns, view w' KNamespace DefaultDNSOperandNamespaceName = Some ns ∧ (namespaceLabelsChanged ns DNSNamespace).1 = false.
Proof.
  intros Hrun. split.
  { revert Hrun. apply touches_but. intros S HS. apply touches_ensure_namespace, HS. set_solver. }
  revert Hrun. unfold ensure_namespace. intros (res & w1 & Hget & Hf)%bind_inv. revert Hget. unfold call at 1.
  pose proof (get_found KNamespace DefaultDNSOperandNamespaceName w) as Hfound.
  pose proof (get_frame KNamespace DefaultDNSOperandNamespaceName w) as Hfr.
  destruct (client_Get _ _ w) as [x wx]. intros [= -> ->]. cbn [fst snd] in *. destruct res as [e|ns].
  - destruct (IsNotFound e); cbn [negb] in Hf; [|done]. apply bind_inv in Hf as (res & w2 & Hc & Hf).
    revert Hc. unfold call. pose proof (stores_create KNamespace DNSNamespace w1) as (_ & _ & Hok).
    destruct (client_Create _ _ w1) as [y wy]. intros [= -> ->]. cbn [fst snd] in *.
    destruct res as [e'|o]; [done|]. injection Hf as <-. destruct (Hok o eq_refl) as [[Hm _] Hv].
    exists o. split; [exact Hv|]. rewrite (namespace_labels_only o DNSNamespace); [by vm_compute|apply Hm].
  - specialize (Hfound ns eq_refl). pose proof (view_key _ _ _ _ Hfound) as Hkey.
    pose proof (view_live _ _ _ _ Hfound) as Hlive. pose proof (namespaceLabelsChanged_spec ns DNSNamespace) as Hspec.
    destruct (namespaceLabelsChanged ns DNSNamespace) as [[] u] eqn:Ech.
    + destruct Hspec as (_ & Hku & _ & _ & Hdone). apply bind_inv in Hf as (res & w2 & Hc & Hf).
      revert Hc. unfold call. pose proof (stores_update KNamespace u w1 eq_refl) as (_ & _ & Hok).
      destruct (client_Update _ _ w1) as [y wy]. intros [= -> ->]. cbn [fst snd] in *.
      destruct res as [e'|o]; [done|]. injection Hf as <-. destruct (Hok o eq_refl) as [[Hm _] Hv].
      exists o. split; [by rewrite Hku, Hkey in Hv|]. rewrite (namespace_labels_only o u); [by rewrite Hdone|apply Hm].
    + injection Hf as <-. exists ns. split; [by rewrite Hfr|]. by rewrite Ech.
Qed.

Lemma scaffolding_run w w' :
  ensureDNSNamespace (W := W) r w = (Some None, w') →
  but namespace_keys w w' ∧
  (∃ ns, view w' KNamespace DefaultDNSOperandNamespaceName = Some ns ∧ (namespaceLabelsChanged ns DNSNamespace).1 = false) ∧
  at_rest (k := KClusterRole) w' dns_clusterrole_key
    (λ c u, clusterRoleChanged c (desiredDNSClusterRole (r_dnsNameResolverEnabled r)) = u).
Proof.
  unfold ensureDNSNamespace. intros Hc%first_error_inv.
  inversion_clear Hc as [|? ? ? w1 ? G1 Hc']. inversion_clear Hc' as [|? ? ? w2 ? G2 Hc]. inversion_clear Hc as [|? ? ? w3 ? G3 Hc'].
  inversion_clear Hc' as [|? ? ? w4 ? G4 Hc]. inversion_clear Hc as [|? ? ? w5 ? G5 Hc']. inversion Hc'. subst.
  apply namespace_run in G1 as [B1 (ns & Hns & Hlabels)]. apply wrapped_inv in G2 as [x Hx].
  destruct (handler_rests _ _ _ _ _ _ _ _ _ (implements_DNSClusterRole (acc := accepted) r w1) (settles_role _) Hx)
    as (B2 & (c & Hrole & Hrest) & _).
  apply get_or_create_run in G3, G4, G5.
  pose proof (but_trans [_] [_; _] _ _ _ G3 (but_trans [_] [_] _ _ _ G4 G5)) as B3.
  split; [exact (but_trans [_] [_; _; _; _] _ _ _ B1 (but_trans [_] [_; _; _] _ _ _ B2 B3))|]. split.
  - exists ns. split; [|done]. rewrite B3, B2; [done|set_solver|]. cbn. rewrite !elem_of_cons, elem_of_nil. naive_solver.
  - exists c. split; [|done]. rewrite B3; [done|]. cbn. rewrite !elem_of_cons, elem_of_nil. naive_solver.
Qed.
End runs.

(** ** The pass as a whole *)

Section pass.
Context `{UnicodeTables} `{FloatConversion} `{Assets}.
Context {W : Type} `{RuntimeLaws W} {G : W → Prop} `{!Calm G} `{!Informed W} `{!Stores W verbatim} (r : reconciler).

(** A key that is not among those of a step. *)
Ltac elsewhere := cbn; rewrite ?elem_of_cons, ?elem_of_nil; naive_solver.

(** Reads leave everything as it is. *)
Lemma read_run {A} (m : M W A) w a w' : touches ∅ m → m w = (Some a, w') → but [] w w'.
Proof. intros Ht. apply touches_but. intros S _. apply (touches_weaken ∅); [done|set_solver]. Qed.

(** The DNS the pass works with after the finalizer. *)
Lemma finalizer_run dns w dns1 w' :
  enforceDNSFinalizer (W := W) dns w = (Some (inr dns1), w') →
  but [(KDNS, key_of KDNS dns)] w w' ∧ dns_Spec dns1 = dns_Spec dns ∧ dns_Name dns1 = dns_Name dns ∧
  om_DeletionTimestamp (dns_meta dns1) = om_DeletionTimestamp (dns_meta dns) ∧
  DNSControllerFinalizer ∈ om_Finalizers (dns_meta dns1) ∧
  (om_UID (dns_meta dns) ≠ "" → om_UID (dns_meta dns1) = om_UID (dns_meta dns)).
Proof.
  intros Hrun. split.
  { revert Hrun. apply touches_but. intros S HS. unfold enforceDNSFinalizer. case_match; [|footprint].
    apply touches_bind; [|footprint]. apply (touches_Update S KDNS), HS. set_solver. }
  revert Hrun. unfold enforceDNSFinalizer. destruct (slice.ContainsString _ _) eqn:Ec; cbn [negb].
  { intros [= -> ->]. apply ContainsString_elem in Ec. done. }
  set (u := dns_set_finalizers _ _). intros ([e|o] & w1 & Hc & Hf)%bind_inv; [done|]. injection Hf as -> ->.
  revert Hc. unfold call. pose proof (stores_update KDNS u w (released_add_finalizer _ _)) as (_ & _ & Hok).
  pose proof (update_uid KDNS u w) as Huid.
  destruct (client_Update KDNS u w) as [y wy]. intros [= -> ->]. destruct (Hok dns1 eq_refl) as [[Hm Hs] _].
  destruct Hm as (Hn & _ & _ & _ & _ & Hfin & Hdel). simpl in *. unfold dns_Name. rewrite Hs, Hn, Hdel, Hfin.
  repeat split; try done; [apply elem_of_app; right; set_solver|by apply Huid].
Qed.
(** The worlds of a pass, from the scaffolding on, and what each step leaves alone. *)
Lemma pass_frames dns w res res' w' :
  reconcile_managed (W := W) r dns [] res w = (Some (inr ([], res')), w') →
  ∃ dns1 ip m tsp ds svc a0 a1 a2 a3 a4 a5 b1 b2 b3 b4 b5 b6 c1 c2 x1 x2 x3 x4 x5,
    enforceDNSFinalizer dns w = (Some (inr dns1), a0) ∧
    getClusterIPFromNetworkConfig a0 = (Some (inr ip), a1) ∧
    ensureCABundleConfigMaps dns1 a1 = (Some None, a2) ∧
    caBundleRevisionMap dns1 a2 = (Some m, a3) ∧
    (view a3 KAPIServer (mkNN "" "cluster") ≫= as_TLSSecurityProfile = tsp ∧ but [] a3 a4) ∧
    ensureDNSDaemonSet r dns1 m tsp a4 = (Some (Some ds, None), a5) ∧
    ensureDNSConfigMap r dns1 "cluster.local" m a5 = (Some (x1, None), b1) ∧
    ensureDNSNetworkPolicy dns1 b1 = (Some (x2, None), b2) ∧
    ensureDenyAllNetworkPolicy b2 = (Some (x3, None), b3) ∧
    ensureDNSService dns1 ip (daemonset_owner_ref ds) b3 = (Some (Some svc, None), b4) ∧
    but [(KClusterRole, mkNN "" "dns-monitoring"); (KClusterRoleBinding, mkNN "" "dns-monitoring");
         (KRole, mkNN "openshift-dns" "prometheus-k8s"); (KRoleBinding, mkNN "openshift-dns" "prometheus-k8s")] b4 b5 ∧
    ensureServiceMonitor dns1 svc (daemonset_owner_ref ds) b5 = (Some (x4, None), b6) ∧
    ensureNodeResolverDaemonSet r dns1 ip "cluster.local" b6 = (Some (x5, None), c1) ∧
    but [(KDNS, key_of KDNS dns1)] c1 c2 ∧ but [(KService, mkNN "default" "openshift")] c2 w'.
Proof.
  intros (dns1 & a0 & c2 & Hfin & Hdns & Hext)%reconcile_managed_inv. apply get_or_create_run in Hext.
  apply ensureDNS_inv in Hdns as (ip & a1 & a2 & m & a3 & api & a4 & tsp & ds & a5 & b6 & Hip & Hca & Hm & Hapi & Htsp & Hds & Hop & Hst).
  apply ensure_operands_inv in Hop as (_ & x1 & b1 & x2 & b2 & x3 & b3 & svc & b4 & Hcm & Hnp & Hdeny & Hsvc & Hmet).
  apply metrics_run in Hmet as (b5 & x4 & Hroles & Hsm).
  apply ensure_status_inv in Hst as (_ & x5 & c1 & res1 & Hnr & Hstatus).
  assert (but [(KDNS, key_of KDNS dns1)] c1 c2) as Hst.
  { revert Hstatus. apply touches_but. intros S HS. apply touches_syncDNSStatus, HS. set_solver. }
  assert (view a3 KAPIServer (mkNN "" "cluster") ≫= as_TLSSecurityProfile = tsp ∧ but [] a3 a4) as Hprof.
  { split; [|by eapply read_run; [apply (touches_Get ∅ KAPIServer)|]]. revert Hapi Htsp. unfold call.
    pose proof (get_found KAPIServer (mkNN "" "cluster") a3) as Hf. pose proof (get_missing KAPIServer (mkNN "" "cluster") a3) as Hmi.
    destruct (client_Get _ _ a3) as [y wy]. intros [= -> ->]. cbn [fst] in *.
    destruct api as [[t|t]|o]; cbn; [|done|]; intros [= <-]; [by rewrite (Hmi t eq_refl)|by rewrite (Hf o eq_refl)]. }
  exists dns1, ip, m, tsp, ds, svc, a0, a1, a2, a3, a4, a5, b1, b2, b3, b4, b5, b6, c1, c2, x1, x2, x3, x4, x5.
  repeat (split; [done|]). done.
Qed.

(** The operator is given images. *)
Definition images : Prop := cfg_CoreDNSImage (r_Config r) ≠ "" ∧ cfg_KubeRBACProxyImage (r_Config r) ≠ "".

Lemma desired_wanted dns m tsp d :
  images → desiredDNSDaemonSet dns (cfg_CoreDNSImage (r_Config r)) (cfg_KubeRBACProxyImage (r_Config r)) m tsp = Some (inr d) →
  wanted d.
Proof.
  intros [Hi1 Hi2]. rewrite desiredDNSDaemonSet_eq. destruct (kubeRBACProxyArgs tsp) as [args|]; [|done].
  intros [= <-]. split; [done|]. intros c Hc.
  cbn [ds_podspec ds_template ds_Spec dss_Template pt_Spec ps_Containers] in Hc.
  apply elem_of_cons in Hc as [->|[->|[]%not_elem_of_nil]%elem_of_cons]; done.
Qed.

(** The worlds of one pass, named after its steps. *)
Section chain.
Context (dns dns1 : DNS) (w1 a0 a1 a2 a3 a4 a5 b1 b2 b3 b4 b5 b6 c1 c2 w' : W).
Context (ip : string) (m : gmap string string) (ds : DaemonSet) (svc : Service).
Context (x1 : option ConfigMap) (x2 x3 : option NetworkPolicy) (x4 : option ServiceMonitor) (x5 : option DaemonSet).
Context (Himg : images) (HG : G w1) (Hfinz : unfinalized w1) (Hdel : om_DeletionTimestamp (dns_meta dns) = None).
Context (Htwo : ∀ c, view w1 KDaemonSet (DNSDaemonSetName dns) = Some c → two_containers c).
Context (Hfin : enforceDNSFinalizer dns w1 = (Some (inr dns1), a0)).
Context (Hip : getClusterIPFromNetworkConfig a0 = (Some (inr ip), a1)).
Context (Hca : ensureCABundleConfigMaps dns1 a1 = (Some None, a2)).
Context (Hm : caBundleRevisionMap dns1 a2 = (Some m, a3)) (Bapi : but [] a3 a4).
Context (Hds : ensureDNSDaemonSet r dns1 m (profile_of a3) a4 = (Some (Some ds, None), a5)).
Context (Hcm : ensureDNSConfigMap r dns1 "cluster.local" m a5 = (Some (x1, None), b1)).
Context (Hnp : ensureDNSNetworkPolicy dns1 b1 = (Some (x2, None), b2)).
Context (Hdeny : ensureDenyAllNetworkPolicy b2 = (Some (x3, None), b3)).
Context (Hsvc : ensureDNSService dns1 ip (daemonset_owner_ref ds) b3 = (Some (Some svc, None), b4)).
Context (Broles : but [(KClusterRole, mkNN "" "dns-monitoring"); (KClusterRoleBinding, mkNN "" "dns-monitoring");
         (KRole, mkNN "openshift-dns" "prometheus-k8s"); (KRoleBinding, mkNN "openshift-dns" "prometheus-k8s")] b4 b5).
Context (Hsm : ensureServiceMonitor dns1 svc (daemonset_owner_ref ds) b5 = (Some (x4, None), b6)).
Context (Hnr : ensureNodeResolverDaemonSet r dns1 ip "cluster.local" b6 = (Some (x5, None), c1)).
Context (Bst : but [(KDNS, key_of KDNS dns1)] c1 c2) (Bext : but [(KService, mkNN "default" "openshift")] c2 w').

(** What the handlers leave behind. *)
Lemma run_ds : but [(KDaemonSet, DNSDaemonSetName dns1)] a4 a5 ∧ Some ds = view a5 KDaemonSet (DNSDaemonSetName dns1).
Proof.
  destruct (handler_run _ _ _ _ _ _ _ _ _ (implements_DNSDaemonSet (acc := accepted) r dns1 m _ a4) Hds) as (? & _ & ?). done.
Qed.

Lemma run_cm : but [(KConfigMap, DNSConfigMapName dns1)] a5 b1 ∧
  ∃ c, view b1 KConfigMap (DNSConfigMapName dns1) = Some c ∧ ∀ u, ¬ ∃ d,
    desiredDNSConfigMap dns1 "cluster.local" m (r_dnsNameResolverEnabled r) (r_dnsNameResolverNamespaces r) = inr d ∧
    corefileChanged c d = Some u.
Proof.
  destruct (handler_rests _ _ _ _ _ _ _ _ _ (implements_DNSConfigMap (acc := accepted) r dns1 "cluster.local" m a5)
    (settles_corefile _) Hcm) as (? & ? & _). done.
Qed.

Lemma run_np : but [(KNetworkPolicy, DNSNetworkPolicyName dns1)] b1 b2 ∧
  ∃ c, view b2 KNetworkPolicy (DNSNetworkPolicyName dns1) = Some c ∧ ∀ u, policy_change c (desiredDNSNetworkPolicy dns1) ≠ Some u.
Proof.
  destruct (handler_rests _ _ _ _ _ _ _ _ _ (implements_DNSNetworkPolicy (acc := verbatim) dns1 b1)
    (settles_policy _) Hnp) as (? & ? & _). done.
Qed.

Lemma run_deny : but [(KNetworkPolicy, key_of KNetworkPolicy NetworkPolicyDenyAll)] b2 b3 ∧
  ∃ c, view b3 KNetworkPolicy (key_of KNetworkPolicy NetworkPolicyDenyAll) = Some c ∧
       ∀ u, policy_change c NetworkPolicyDenyAll ≠ Some u.
Proof.
  destruct (handler_rests _ _ _ _ _ _ _ _ _ (implements_DenyAllNetworkPolicy (acc := verbatim) b2)
    (settles_policy _) Hdeny) as (? & ? & _). done.
Qed.

Lemma run_svc : but [(KService, DNSServiceName dns1)] b3 b4 ∧ Some svc = view b4 KService (DNSServiceName dns1).
Proof.
  destruct (handler_run _ _ _ _ _ _ _ _ _ (implements_DNSService (acc := accepted) dns1 ip _ b3) Hsvc) as (? & _ & ?). done.
Qed.

Lemma run_sm : but [(KServiceMonitor, DNSServiceMonitorName dns1)] b5 b6 ∧
  ∃ c, view b6 KServiceMonitor (DNSServiceMonitorName dns1) = Some c ∧
       ∀ u, serviceMonitorChanged c (desiredServiceMonitor dns1 svc (daemonset_owner_ref ds)) ≠ Some u.
Proof.
  destruct (handler_rests _ _ _ _ _ _ _ _ _ (implements_ServiceMonitor (acc := verbatim) dns1 svc _ b5)
    (settles_monitor _ _ _) Hsm) as (? & ? & _). done.
Qed.

Lemma run_nr : but [(KDaemonSet, NodeResolverDaemonSetName)] b6 c1 ∧
  ∃ c, view c1 KDaemonSet NodeResolverDaemonSetName = Some c ∧ ∀ u, ¬ ∃ d,
    desiredNodeResolverDaemonSet dns1 ip "cluster.local" (cfg_OpenshiftCLIImage (r_Config r)) = inr (Some d) ∧
    nodeResolverDaemonSetConfigChanged c d = Some (Some u).
Proof.
  destruct (handler_rests _ _ _ _ _ _ _ _ _ (implements_NodeResolver (acc := verbatim) r dns1 ip "cluster.local" b6)
    (settles_resolver _) Hnr) as (? & ? & _). done.
Qed.
(** From each handler to the end of the pass. *)
Lemma tail_c1 : but [(KDNS, key_of KDNS dns1); (KService, mkNN "default" "openshift")] c1 w'.
Proof. exact (but_trans [_] [_] _ _ _ Bst Bext). Qed.

Lemma tail_b6 : but [(KDaemonSet, NodeResolverDaemonSetName); (KDNS, key_of KDNS dns1); (KService, mkNN "default" "openshift")] b6 w'.
Proof. exact (but_trans [_] [_; _] _ _ _ (proj1 run_nr) tail_c1). Qed.

Lemma tail_b4 : ∀ k n, k = KService ∨ k = KNode ∨ k = KDaemonSet → n ≠ mkNN "default" "openshift" →
  n ≠ NodeResolverDaemonSetName → view w' k n = view b4 k n.
Proof.
  intros k n Hk Hn Hr. rewrite tail_b6, (proj1 run_sm), Broles by elsewhere. done.
Qed.

Lemma tail_b2 k n : k = KNetworkPolicy → view w' k n = view b4 k n ∧ view b4 k n = view b3 k n.
Proof. intros ->. rewrite tail_b6, (proj1 run_sm), Broles, (proj1 run_svc) by elsewhere. done. Qed.

Lemma tail_a5 : but ((KConfigMap, DNSConfigMapName dns1) :: (KNetworkPolicy, DNSNetworkPolicyName dns1) ::
    (KNetworkPolicy, key_of KNetworkPolicy NetworkPolicyDenyAll) :: (KService, DNSServiceName dns1) ::
    [(KClusterRole, mkNN "" "dns-monitoring"); (KClusterRoleBinding, mkNN "" "dns-monitoring");
     (KRole, mkNN "openshift-dns" "prometheus-k8s"); (KRoleBinding, mkNN "openshift-dns" "prometheus-k8s")] ++
    [(KServiceMonitor, DNSServiceMonitorName dns1); (KDaemonSet, NodeResolverDaemonSetName); (KDNS, key_of KDNS dns1);
     (KService, mkNN "default" "openshift")]) a5 w'.
Proof.
  refine (but_trans [_] _ _ _ _ (proj1 run_cm) (but_trans [_] _ _ _ _ (proj1 run_np) (but_trans [_] _ _ _ _ (proj1 run_deny)
    (but_trans [_] _ _ _ _ (proj1 run_svc) (but_trans _ _ _ _ _ Broles _))))).
  exact (but_trans [_] _ _ _ _ (proj1 run_sm) tail_b6).
Qed.

(** Before the handlers. *)
Lemma head_a2 : but [] a2 a4.
Proof. exact (but_trans [] [] _ _ _ (read_run _ _ _ _ (touches_caBundleRevisionMap ∅ dns1) Hm) Bapi). Qed.

Lemma head_w1 : but [(KDNS, key_of KDNS dns)] w1 a1.
Proof.
  pose proof (read_run _ _ _ _ (touches_getClusterIP ∅) Hip) as Bip.
  exact (but_trans [_] [] _ _ _ (proj1 (finalizer_run dns w1 dns1 a0 Hfin)) Bip).
Qed.

Lemma no_deletion : om_DeletionTimestamp (dns_meta dns1) = None.
Proof. destruct (finalizer_run dns w1 dns1 a0 Hfin) as (_ & _ & _ & -> & _). done. Qed.

Lemma run_ca :
  (∀ k n, k ≠ KConfigMap ∨ nn_Namespace n ≠ DefaultOperandNamespace → view a2 k n = view a1 k n) ∧
  ∀ name, name ∈ configmapNames dns1 → synced_as eq name a2.
Proof.
  apply (ensureCABundleConfigMaps_copies verbatim eq) with (dns := dns1); [|apply no_deletion|done]. by intros u o [_ Ho].
Qed.

(** Objects no step of the pass writes. *)
Lemma untouched k n : k ∈ [KPod; KNode; KNetwork; KAPIServer; KNamespace] →
  view w' k n = view a4 k n ∧ view a4 k n = view w1 k n.
Proof.
  intros Hk. assert (k ≠ KConfigMap ∧ k ≠ KDNS ∧ k ≠ KDaemonSet ∧ k ≠ KNetworkPolicy ∧ k ≠ KService ∧ k ≠ KClusterRole ∧
    k ≠ KClusterRoleBinding ∧ k ≠ KRole ∧ k ≠ KRoleBinding ∧ k ≠ KServiceMonitor) as Hne by (set_unfold in Hk; naive_solver).
  split.
  - rewrite tail_a5, (proj1 run_ds) by elsewhere. done.
  - rewrite head_a2, (proj1 run_ca), head_w1; [done|elsewhere|left; tauto|elsewhere].
Qed.
(** The answers of the pass are those of the cluster it leaves. *)
Lemma end_profile : profile_of w' = profile_of a3.
Proof.
  unfold profile_of. destruct (untouched KAPIServer (mkNN "" "cluster") ltac:(fixed_key)) as [-> _].
  by rewrite (Bapi KAPIServer (mkNN "" "cluster")) by elsewhere.
Qed.

Lemma end_ip ip' : cluster_ip w' ip' → ip' = ip.
Proof.
  intros (net & Hnet & Hip'). destruct (untouched KNetwork (mkNN "" "cluster") ltac:(fixed_key)) as [Hv1 Hv2].
  rewrite Hv1, Hv2 in Hnet. revert Hip. unfold getClusterIPFromNetworkConfig.
  intros ([e|net'] & x & Hget & Hret)%bind_inv; [done|]. injection Hret as Hcidr _.
  revert Hget. unfold call. pose proof (get_found KNetwork (mkNN "" "cluster") a0 net') as Hf.
  destruct (client_Get _ _ a0) as [y wy]. intros [= -> ->]. specialize (Hf eq_refl).
  rewrite (proj1 (finalizer_run dns w1 dns1 a0 Hfin)) in Hf by elsewhere. congruence.
Qed.

Lemma end_copies : same_copies a2 w'.
Proof. intros name. rewrite tail_a5, (proj1 run_ds), head_a2 by elsewhere. done. Qed.

Lemma G_a2 : G a2.
Proof.
  eapply run_preserves; [apply preserves_ensureCABundleConfigMaps|exact Hca|].
  eapply run_preserves; [apply preserves_getClusterIP|exact Hip|].
  by eapply run_preserves; [apply preserves_enforceDNSFinalizer|exact Hfin|].
Qed.

Lemma end_revisions m' : possible_revisions G w' dns1 m' → m' = m.
Proof.
  intros Hm'. symmetry. apply (revisions_unique a2 w' dns1 m m'); [apply end_copies| |done].
  exists a2, a3. split; [reflexivity|]. split; [apply G_a2|done].
Qed.

(** The operands at the end of the pass. *)
Lemma end_corefile m' : possible_revisions G w' dns1 m' →
  at_rest (k := KConfigMap) w' (DNSConfigMapName dns1) (λ c u, ∃ d,
    desiredDNSConfigMap dns1 "cluster.local" m' (r_dnsNameResolverEnabled r) (r_dnsNameResolverNamespaces r) = inr d ∧
    corefileChanged c d = u).
Proof.
  intros ->%end_revisions. destruct run_cm as (_ & c & Hc & Hrest). exists c. split; [|done]. rewrite <- Hc.
  rewrite tail_b6, (proj1 run_sm), Broles, (proj1 run_svc), (proj1 run_deny), (proj1 run_np) by elsewhere. done.
Qed.

Lemma end_policy : at_rest (k := KNetworkPolicy) w' (DNSNetworkPolicyName dns1)
  (λ c u, policy_change c (desiredDNSNetworkPolicy dns1) = u).
Proof.
  destruct run_np as (_ & c & Hc & Hrest). exists c. split; [|done]. rewrite <- Hc.
  destruct (tail_b2 KNetworkPolicy (DNSNetworkPolicyName dns1) eq_refl) as [-> ->]. by rewrite (proj1 run_deny) by elsewhere.
Qed.

Lemma end_deny : at_rest (k := KNetworkPolicy) w' (key_of KNetworkPolicy NetworkPolicyDenyAll)
  (λ c u, policy_change c NetworkPolicyDenyAll = u).
Proof.
  destruct run_deny as (_ & c & Hc & Hrest). exists c. split; [|done]. rewrite <- Hc.
  by destruct (tail_b2 KNetworkPolicy (key_of KNetworkPolicy NetworkPolicyDenyAll) eq_refl) as [-> ->].
Qed.

Lemma end_ds : view w' KDaemonSet (DNSDaemonSetName dns1) = Some ds.
Proof. rewrite (proj2 run_ds). by rewrite tail_a5 by elsewhere. Qed.

Lemma end_svc : view w' KService (DNSServiceName dns1) = Some svc.
Proof. rewrite (proj2 run_svc). apply tail_b4; [by left|done|done]. Qed.

Lemma end_daemonset m' : possible_revisions G w' dns1 m' →
  at_rest (k := KDaemonSet) w' (DNSDaemonSetName dns1) (λ c u, ∃ d,
    desiredDNSDaemonSet dns1 (cfg_CoreDNSImage (r_Config r)) (cfg_KubeRBACProxyImage (r_Config r)) m' (profile_of w')
      = Some (inr d) ∧ placed (possible_verdict w') d c u).
Proof.
  intros ->%end_revisions. rewrite end_profile. exists ds. split; [apply end_ds|].
  destruct (handler_run _ _ _ _ _ _ _ _ _ (implements_DNSDaemonSet (acc := verbatim) r dns1 m _ a4) Hds) as (_ & Hs & Hx).
  rewrite <- Hx in Hs. revert Hs. apply daemonset_rests.
  - intros d. by apply desired_wanted.
  - intros c. destruct (finalizer_run dns w1 dns1 a0 Hfin) as (_ & _ & Hname & _).
    assert (DNSDaemonSetName dns1 = DNSDaemonSetName dns) as -> by (unfold DNSDaemonSetName; by rewrite Hname).
    rewrite head_a2, (proj1 run_ca), head_w1; [apply Htwo|elsewhere|by left|elsewhere].
  - intros n. by apply untouched; set_solver.
  - intros n. by apply untouched; set_solver.
Qed.

Lemma end_service ip' ds' : cluster_ip w' ip' → view w' KDaemonSet (DNSDaemonSetName dns1) = Some ds' →
  at_rest (k := KService) w' (DNSServiceName dns1) (λ c u, ∃ hints, possible_hints w' dns1 hints ∧
    serviceChanged c (desiredDNSService dns1 ip' hints (daemonset_owner_ref ds')) = u).
Proof.
  intros ->%end_ip Hds'. assert (ds' = ds) as -> by (rewrite end_ds in Hds'; congruence).
  exists svc. split; [apply end_svc|]. intros u (h & Hh & Hu).
  assert (∀ h', possible_hints b3 dns1 h' → h' = h) as Hsame.
  { intros h' Hh'. apply (hints_unique b3 w' dns1 h' h); [|done|done]. intros n.
    destruct (untouched KNode n ltac:(fixed_key)) as [-> _].
    rewrite (proj1 run_deny), (proj1 run_np), (proj1 run_cm), (proj1 run_ds) by elsewhere. done. }
  pose proof (implements_DNSService (acc := verbatim) dns1 ip (daemonset_owner_ref ds) b3) as Hi. cbv zeta in Hi.
  apply (implements_at_mono verbatim KService _ _ _ (λ d, d = desiredDNSService dns1 ip h (daemonset_owner_ref ds))
    (λ c u, serviceChanged c (desiredDNSService dns1 ip h (daemonset_owner_ref ds)) = u)) in Hi.
  - destruct (handler_rests _ _ _ _ _ _ _ _ _ Hi (settles_service _) Hsvc) as (_ & (c & Hc & Hrest) & Hx).
    assert (c = svc) as -> by congruence. by apply (Hrest u).
  - intros d (h' & Hh' & ->). by rewrite (Hsame h' Hh').
  - intros c u' (h' & Hh' & <-). by rewrite (Hsame h' Hh').
Qed.

Lemma end_monitor svc' ds' : view w' KService (DNSServiceName dns1) = Some svc' →
  view w' KDaemonSet (DNSDaemonSetName dns1) = Some ds' →
  at_rest (k := KServiceMonitor) w' (DNSServiceMonitorName dns1)
    (λ c u, serviceMonitorChanged c (desiredServiceMonitor dns1 svc' (daemonset_owner_ref ds')) = u).
Proof.
  rewrite end_svc, end_ds. intros [= <-] [= <-]. destruct run_sm as (_ & c & Hc & Hrest). exists c. split; [|done].
  rewrite <- Hc. by rewrite tail_b6 by elsewhere.
Qed.

Lemma end_resolver ip' : cluster_ip w' ip' →
  at_rest (k := KDaemonSet) w' NodeResolverDaemonSetName (λ c u, ∃ d,
    desiredNodeResolverDaemonSet dns1 ip' "cluster.local" (cfg_OpenshiftCLIImage (r_Config r)) = inr (Some d) ∧
    nodeResolverDaemonSetConfigChanged c d = Some u).
Proof.
  intros ->%end_ip. destruct run_nr as (_ & c & Hc & Hrest). exists c. split; [|done].
  rewrite <- Hc. by rewrite tail_c1 by elsewhere.
Qed.

Lemma desiredDNSConfigMap_labels dns0 cd revisions b nss d :
  desiredDNSConfigMap dns0 cd revisions b nss = inr d → om_Labels (cm_meta d) = {[ OwningDNSLabel := dns_Name dns0 ]}.
Proof.
  unfold desiredDNSConfigMap. destruct (sanitizeTLSSettings dns0) as [|dns'] eqn:Es; [done|].
  apply sanitizeTLSSettings_iff in Es as (_ & _ & ->).
  destruct (effective_upstreamResolvers _); [done|]. destruct (coreDNSCache _).
  destruct (corefileTemplate _); [done|]. by intros [= <-].
Qed.

Lemma cmSelector_needs ls : Selector_Matches cmSelector ls = true → is_Some (ls !! "dns.operator.openshift.io/ca-bundle").
Proof.
  assert (LabelSelectorAsSelector (Some (mkLabelSelector cmLabels [])) = inr cmSelector) as Es by (vm_compute; reflexivity).
  rewrite (matchLabels_Matches cmLabels cmSelector ls Es). intros Hsub. exists "true".
  eapply lookup_weaken; [|exact Hsub]. apply lookup_singleton_eq.
Qed.

(** The Corefile is not taken for a copy: it is created without their label, and an update
    keeps the labels. *)
Lemma corefile_not_listed c :
  no_stale a2 dns1 → view w' KConfigMap (DNSConfigMapName dns1) = Some c →
  list_matches copies_options (cm_meta c) = true → False.
Proof.
  intros Hstale Hc Hmatch.
  destruct (handler_run _ _ _ _ _ _ _ _ _ (implements_DNSConfigMap (acc := verbatim) r dns1 "cluster.local" m a5) Hcm)
    as (_ & Hs & _).
  assert (view b1 KConfigMap (DNSConfigMapName dns1) = Some c) as Hb1.
  { rewrite <- Hc. rewrite tail_b6, (proj1 run_sm), Broles, (proj1 run_svc), (proj1 run_deny), (proj1 run_np) by elsewhere. done. }
  assert (view a5 KConfigMap (DNSConfigMapName dns1) = view a2 KConfigMap (DNSConfigMapName dns1)) as Ha5
    by (by rewrite (proj1 run_ds), head_a2 by elsewhere).
  assert (∀ c0 : ConfigMap, view a5 KConfigMap (DNSConfigMapName dns1) = Some c0 → same_meta (cm_meta c0) (cm_meta c) → False) as Hold.
  { intros c0 Hc0 (Hn & Hns & Hl & _). rewrite Ha5 in Hc0.
    destruct (Hstale _ c0 Hc0) as (name & _ & Hname).
    - revert Hmatch. unfold list_matches, copies_options. simpl. by rewrite Hns, Hl.
    - pose proof (view_key _ _ _ _ Hc0) as Hk. injection Hk as _ Hk. rewrite Hk in Hname. discriminate Hname. }
  rewrite Hb1 in Hs. apply sync_clean in Hs as [(d & Hd & [Hmeta _])|[Hkept|(c0 & u & Hc0 & (d & Hd & Hu) & [Hmeta _])]].
  - revert Hmatch. destruct Hmeta as (_ & _ & Hl & _). change (om_Labels (cm_meta c) = om_Labels (cm_meta d)) in Hl.
    apply desiredDNSConfigMap_labels in Hd. unfold list_matches, copies_options. cbn [lo_Namespace lo_Selector].
    rewrite Hl, Hd. intros [_ [x Hx]%cmSelector_needs]%andb_true_iff. by rewrite lookup_singleton_ne in Hx.
  - by apply (Hold c).
  - apply (Hold c0); [done|]. revert Hu. unfold corefileChanged. case_match; [done|]. by intros [= <-].
Qed.

Lemma end_pruned : pruned w' dns1.
Proof.
  assert (no_stale a2 dns1) as Hstale.
  { eapply (ensureCABundleConfigMaps_pruned (G := G)); [|..|exact Hca]; [|intros n cm Hn|apply no_deletion].
    - eapply run_preserves; [apply preserves_getClusterIP|exact Hip|].
      by eapply run_preserves; [apply preserves_enforceDNSFinalizer|exact Hfin|].
    - rewrite head_w1 by elsewhere. by apply Hfinz. }
  apply no_stale_pruned. intros n cm Hcm' Hmatch.
  destruct (decide (n = DNSConfigMapName dns1)) as [->|Hne]; [by destruct (corefile_not_listed cm Hstale Hcm' Hmatch)|].
  rewrite tail_a5, (proj1 run_ds), head_a2 in Hcm' by elsewhere. by apply (Hstale n).
Qed.
(** What the chain leaves of the copies and of the cluster role. *)
Lemma end_copied name : name ∈ configmapNames dns1 → copied w' name.
Proof.
  intros Hin src Hsrc. rewrite tail_a5, (proj1 run_ds), head_a2 in Hsrc by elsewhere.
  destruct (proj2 run_ca name Hin src Hsrc) as (cm & Hcopy & Hdata). exists cm. split; [|done]. by rewrite end_copies.
Qed.

Lemma end_clusterrole : view w' KClusterRole dns_clusterrole_key = view w1 KClusterRole dns_clusterrole_key.
Proof.
  rewrite tail_a5, (proj1 run_ds), head_a2, (proj1 run_ca), head_w1; [done|elsewhere|by left|elsewhere..].
Qed.

Lemma end_settled :
  Forall (present w') fixed_keys →
  (∃ ns, view w1 KNamespace DefaultDNSOperandNamespaceName = Some ns ∧ (namespaceLabelsChanged ns DNSNamespace).1 = false) →
  at_rest (k := KClusterRole) w1 dns_clusterrole_key
    (λ c u, clusterRoleChanged c (desiredDNSClusterRole (r_dnsNameResolverEnabled r)) = u) →
  Settled r G w' dns1.
Proof.
  intros Hfixed (ns & Hns & Hlabels) (c & Hc & Hrest).
  split; [done| | |apply end_copied|apply end_pruned|apply end_daemonset|apply end_corefile|apply end_policy|apply end_deny|
          apply end_service|apply end_monitor|apply end_resolver].
  - exists ns. split; [|done]. rewrite <- Hns.
    by destruct (untouched KNamespace DefaultDNSOperandNamespaceName ltac:(fixed_key)) as [-> ->].
  - exists c. split; [|done]. rewrite <- Hc. apply end_clusterrole.
Qed.
End chain.

Lemma namespace_kinds k n :
  (k, n) ∈ namespace_keys → k ∈ [KNamespace; KClusterRole; KClusterRoleBinding; KServiceAccount].
Proof.
  unfold namespace_keys. rewrite !elem_of_cons. intros Hk. repeat destruct Hk as [[= -> _]|Hk]; [set_solver..|].
  by apply not_elem_of_nil in Hk.
Qed.

(** A pass without errors settles the cluster. *)
Lemma pass_settles dns w w1 res w2 :
  images → G w → unfinalized w → om_DeletionTimestamp (dns_meta dns) = None → om_UID (dns_meta dns) ≠ "" →
  (∀ c, view w KDaemonSet (DNSDaemonSetName dns) = Some c → two_containers c) →
  ensureDNSNamespace r w = (Some None, w1) →
  reconcile_managed r dns [] result0 w1 = (Some (inr ([], res)), w2) →
  Settled r G w2 dns.
Proof.
  intros Himg HG Hfinz Hdel Huid Htwo Hns Hman.
  pose proof (managed_present r dns w w1 w2 res Hns Hman) as Hpres.
  assert (G w1) as HG1 by (eapply run_preserves; [apply preserves_ensureDNSNamespace|exact Hns|done]).
  destruct (scaffolding_run r w w1 Hns) as (Bns & Hnamespace & Hrole).
  apply pass_frames in Hman as (dns1 & ip & m & tsp & ds & svc & a0 & a1 & a2 & a3 & a4 & a5 & b1 & b2 & b3 & b4 & b5 & b6 &
    c1 & c2 & x1 & x2 & x3 & x4 & x5 & Hfin & Hip & Hca & Hm & [Htsp Bapi] & Hds & Hcm & Hnp & Hdeny & Hsvc & Broles & Hsm &
    Hnr & Bst & Bext).
  destruct (finalizer_run dns w1 dns1 a0 Hfin) as (_ & Hspec & Hname & _ & _ & Hid).
  apply (Settled_same r dns1 dns); [done..|symmetry; by apply Hid|]. subst tsp.
  eapply end_settled; try eassumption.
  - intros n cm Hn. rewrite Bns by (intros Hk%namespace_kinds; revert Hk; clear; set_solver). by apply Hfinz.
  - intros c. rewrite Bns by (intros Hk%namespace_kinds; revert Hk; clear; set_solver). apply Htwo.
  - unfold operand_keys, fixed_keys in *. rewrite !Forall_cons in *. tauto.
Qed.

(** When nodes can be listed, the step on the service of a settled cluster works. *)
Lemma settled_service_works dns w D :
  D ⊆ volatile → Settled r G w dns → (∀ l w0 e, G w0 → (cache_List KNode l w0).1 ≠ inl e) → service_works G w dns D.
Proof.
  intros HD HS Hnodes ip ds w0 out w1 Hip Hds Hw HG. destruct (settled_service _ _ _ _ HS ip ds Hip Hds) as (c & Hc & Hrest).
  assert (same_operands w w0) as Hops by (intros k n Hk; apply Hw; set_solver).
  assert ((KService, DNSServiceName dns) ∉ D) as Hk by (apply (stable_key _ HD); done).
  unfold ensureDNSService. intros (cur & w2 & Hcur & Hf)%bind_inv. unfold currentDNSService in Hcur.
  apply bind_inv in Hcur as (res & w3 & Hget & Hret).
  destruct (still_Get D G w KService (DNSServiceName dns) Hk w0 Hw HG) as [[Hw3 HG3] Hres].
  rewrite Hget in Hw3, HG3, Hres. cbn [fst snd] in *.
  destruct res as [[t|t]|o]; [congruence| |].
  { destruct (calm_Get (G := G) KService (DNSServiceName dns) w0 t HG). revert Hget. unfold call.
    destruct (client_Get _ _ w0). by intros [= ->]. }
  assert (o = c) as -> by congruence. injection Hret as <- <-.
  apply bind_inv in Hf as ([e|h] & w4 & Hh & Hf).
  { unfold shouldEnableTopologyAwareHints in Hh. apply bind_inv in Hh as ([e'|nodes] & w5 & Hl & Hret); [|done].
    destruct (Hnodes (mkListOptions None None) w3 e' HG3). revert Hl. unfold call. destruct (cache_List _ _ w3).
    by intros [= ->]. }
  apply bind_inv in Hf as (b & w5 & Hup & Hf). unfold updateDNSService in Hup.
  destruct (serviceChanged c _) as [u|] eqn:Eu.
  { destruct (Hrest u). exists h. split; [|done]. exists w3, w4. split; [|done]. intros k n Hkn. apply Hw3. set_solver. }
  injection Hup as <- <-. by injection Hf as <- <-.
Qed.
(** The DNS as another reconciliation finds it: the same object, with the finalizer, still
    to be managed; its status and the rest of its metadata may have changed. *)
Definition found_again (dns dns' : DNS) : Prop :=
  dns_Spec dns' = dns_Spec dns ∧ dns_Name dns' = dns_Name dns ∧ om_UID (dns_meta dns') = om_UID (dns_meta dns) ∧
  spec_ManagementState (dns_Spec dns') ≠ Unmanaged ∧ om_DeletionTimestamp (dns_meta dns') = None ∧
  DNSControllerFinalizer ∈ om_Finalizers (dns_meta dns').


End pass.

(** ** At a concrete cluster *)

Lemma store_get_all (P : ∀ k, obj k → Prop) s k n o :
  Forall (λ e, P (en_kind e) (en_obj e)) s → store_get s k n = Some o → P k o.
Proof.
  induction 1 as [|e s He _ IH]; simpl; [done|]. destruct (decide (en_kind e = k)) as [<-|]; [|done].
  destruct (decide (en_name e = n)); [by intros [= <-]|done].
Qed.

Definition plain_configmaps (m : Mem) : bool :=
  forallb (λ e, negb (bool_decide (en_kind e = KConfigMap)) ||
                match om_Finalizers (meta_of (en_kind e) (en_obj e)) with [] => true | _ => false end) (mem_store m).

Lemma plain_unfinalized m : plain_configmaps m = true → unfinalized m.
Proof.
  intros Hp n cm _ Hv. simpl in Hv. unfold live in Hv. destruct (store_get (mem_store m) KConfigMap n) as [o|] eqn:Eg; [|done].
  assert (o = cm) as -> by (by repeat case_match; simplify_eq).
  apply (store_get_all (λ k o, k = KConfigMap → om_Finalizers (meta_of k o) = []) (mem_store m) KConfigMap n cm); [|done|done].
  apply Forall_forall. intros e He Hk. unfold plain_configmaps in Hp. rewrite forallb_forall in Hp.
  specialize (Hp e (proj1 (list_elem_of_In _ _) He)). rewrite bool_decide_true in Hp by done. simpl in Hp.
  by destruct (om_Finalizers (meta_of (en_kind e) (en_obj e))).
Qed.

(** A cluster whose pods run: one pass, and the pass after it. *)
Definition pass1 : Mem := (ensureDNSNamespace sample_reconciler running_cluster).2.
Definition pass2 : Mem := (reconcile_managed sample_reconciler sample_dns [] result0 pass1).2.
Definition kept_dns : DNS := default sample_dns (view pass2 KDNS DefaultDNSNamespaceName).

Lemma pass1_run : ensureDNSNamespace sample_reconciler running_cluster = (Some None, pass1).
Proof.
  assert ((ensureDNSNamespace sample_reconciler running_cluster).1 = Some None) as E by (vm_compute; reflexivity).
  by rewrite (surjective_pairing (ensureDNSNamespace sample_reconciler running_cluster)), E.
Qed.

Lemma pass2_run :
  reconcile_managed sample_reconciler sample_dns [] result0 pass1 = (Some (inr ([], result0)), pass2).
Proof.
  assert ((reconcile_managed sample_reconciler sample_dns [] result0 pass1).1 = Some (inr ([], result0))) as E
    by (vm_compute; reflexivity).
  by rewrite (surjective_pairing (reconcile_managed sample_reconciler sample_dns [] result0 pass1)), E.
Qed.

