(* ===== verification/StatusControllerProps.v ===== *)
(** * Properties of the status controller

    When the reported versions advance, what the four conditions say, how conditions
    are merged, and when Reconcile stops writing. *)

From S2P Require Import Prelude GoLib Types Util Labels Numbers Client Mem Names Manifests Samples.
From S2P Require Import DaemonSet StatusController.

(** ** Counting instances *)

(** The containers of the available pods that run the new version of an operand. *)
Definition instances (newVersions : Versions) (ds : DaemonSet) (now : Z) (name : string) (pods : list Pod)
    : list Container :=
  filter (λ c, versionNameForContainerName (c_Name c) = Some name ∧ c_Image c = version_of newVersions name)
    (concat (pod_Containers <$>
       filter (λ pod, IsPodAvailable pod (dss_MinReadySeconds (ds_Spec ds)) now = true) pods)).

Lemma updateAvailableFromPod_count newVersions available pod name :
  available_of (updateAvailableFromPod newVersions available pod) name =
  (available_of available name +
   Z.of_nat (length (filter (λ c, versionNameForContainerName (c_Name c) = Some name ∧
                                  c_Image c = version_of newVersions name) (pod_Containers pod))))%Z.
Proof.
  unfold updateAvailableFromPod. revert available.
  induction (pod_Containers pod) as [|c cs IH]; intros available; simpl; [lia|]. rewrite IH, filter_cons.
  destruct (versionNameForContainerName (c_Name c)) as [v|] eqn:Ev; [|by rewrite decide_False by naive_solver].
  destruct (bool_decide (c_Image c = version_of newVersions v)) eqn:Ei; to_prop.
  - unfold available_of at 1. destruct (decide (v = name)) as [->|Hne].
    + rewrite lookup_insert_eq, decide_True by done. simpl. lia.
    + rewrite lookup_insert_ne, decide_False by naive_solver. done.
  - rewrite decide_False; [done|]. intros [[= ->] ?]. done.
Qed.

(** The loop over pods counts the instances. *)
Lemma count_pods_instances newVersions ds now available pods name :
  available_of (count_pods newVersions ds now available pods) name =
  (available_of available name + Z.of_nat (length (instances newVersions ds now name pods)))%Z.
Proof.
  unfold count_pods, instances. revert available.
  induction pods as [|pod pods IH]; intros available; simpl; [lia|]. rewrite IH, filter_cons.
  destruct (IsPodAvailable _ _ _); cbn [negb].
  - rewrite decide_True by done. csimpl. rewrite filter_app, length_app, updateAvailableFromPod_count. lia.
  - rewrite decide_False by done. lia.
Qed.

(** ** Versions *)

Definition operand_names : list string :=
  [OperatorVersionName; CoreDNSVersionName; OpenshiftCLIVersionName; KubeRBACProxyName].

Lemma version_of_new o c cli k :
  version_of (computeNewVersions o c cli k) OperatorVersionName = o ∧
  version_of (computeNewVersions o c cli k) CoreDNSVersionName = c ∧
  version_of (computeNewVersions o c cli k) OpenshiftCLIVersionName = cli ∧
  version_of (computeNewVersions o c cli k) KubeRBACProxyName = k.
Proof. done. Qed.

(** C20: the reported versions.  The CoreDNS and kube-rbac-proxy versions advance together,
    when as many instances of each run the new image in available pods as the DNS daemonset
    wants pods; the CLI version likewise for the node resolver; the operator version
    advances only when all three have, and then the new versions are reported; and a
    version that does not advance is the one reported before. *)
Theorem computeCurrentVersions_spec oldVersions newVersions ds nr pods nrPods now :
  let count name := Z.of_nat (length (instances newVersions ds now name pods) +
                              length (instances newVersions nr now name nrPods)) in
  let enough ds name := bool_decide (dst_DesiredNumberScheduled (ds_Status ds) <= count name)%Z in
  let dnsReady := enough ds CoreDNSVersionName && enough ds KubeRBACProxyName in
  let nrReady := enough nr OpenshiftCLIVersionName in
  let cur := computeCurrentVersions oldVersions newVersions ds nr pods nrPods now in
  let advances name (ready : bool) :=
    version_of cur name = version_of (if ready then newVersions else oldVersions) name in
  advances CoreDNSVersionName dnsReady ∧ advances KubeRBACProxyName dnsReady ∧
  advances OpenshiftCLIVersionName nrReady ∧ advances OperatorVersionName (dnsReady && nrReady) ∧
  (version_of cur OperatorVersionName ≠ version_of oldVersions OperatorVersionName →
   ∀ name, name ∈ operand_names → version_of cur name = version_of newVersions name) ∧
  dom cur = list_to_set operand_names.
Proof.
  intros count enough dnsReady nrReady cur advances. subst advances. cbv beta.
  assert (∀ name, available_of (count_pods newVersions nr now (count_pods newVersions ds now ∅ pods) nrPods) name
                  = count name) as Hcount.
  { intros name. rewrite !count_pods_instances. unfold count, available_of. rewrite lookup_empty. simpl. lia. }
  assert (∀ ds name, (dst_DesiredNumberScheduled (ds_Status ds) <=? count name)%Z = enough ds name) as Hle.
  { intros ds' name. unfold enough. apply eq_bool_prop_intro. rewrite bool_decide_spec, Is_true_true. apply Z.leb_le. }
  unfold cur, computeCurrentVersions. cbv zeta. rewrite !Hcount, !Hle. fold dnsReady nrReady. clear.
  destruct dnsReady, nrReady; cbn [andb].
  all: do 4 (split; [done|]); (split; [|done]).
  all: try (intros Hne; exfalso; by apply Hne).
  intros _ name Hin. unfold operand_names in Hin. rewrite !elem_of_cons in Hin.
  destruct Hin as [->|[->|[->|[->|Hin]]]]; [done..|]. by apply elem_of_nil in Hin.
Qed.

(** ** Upgrading *)

(** Some operand is not at its new version. *)
Definition behind (newVersions : Versions) (nv : string * string) : Prop :=
  ∃ newVersion, newVersions !! nv.1 = Some newVersion ∧ nv.2 ≠ newVersion.

(** The messages of one operand. *)
Definition upgrade_messages (oldVersions newVersions : Versions) (nv : string * string) : list string :=
  match oldVersions !! nv.1 with
  | Some oldVersion => if negb (oldVersion =s nv.2)
                       then ["Upgraded " +:+ nv.1 +:+ " to " +:+ Quote nv.2 +:+ "."] else []
  | None => []
  end ++
  match newVersions !! nv.1 with
  | Some newVersion => if negb (nv.2 =s newVersion)
                       then ["Upgrading " +:+ nv.1 +:+ " to " +:+ Quote newVersion +:+ "."] else []
  | None => []
  end.

Lemma isUpgrading_spec curVersions oldVersions newVersions :
  ((isUpgrading curVersions oldVersions newVersions).1 = true ↔ Exists (behind newVersions) curVersions) ∧
  (isUpgrading curVersions oldVersions newVersions).2
    = concat (upgrade_messages oldVersions newVersions <$> curVersions).
Proof.
  unfold isUpgrading. induction curVersions as [|[name cur] l [IHb IHm]] using rev_ind.
  { simpl. rewrite Exists_nil. naive_solver. }
  rewrite foldl_snoc, fmap_app, concat_app, Exists_app, Exists_cons, Exists_nil. csimpl.
  destruct (foldl _ _ l) as [upg msgs]. cbn [fst snd] in IHb, IHm. subst msgs. rewrite <- IHb. clear IHb.
  unfold behind, upgrade_messages. cbn [fst snd].
  destruct (oldVersions !! name) as [o|]; [destruct (bool_decide (o = cur))|];
  (destruct (newVersions !! name) as [n|]; [destruct (bool_decide (cur = n)) eqn:En; to_prop|]);
    cbn; rewrite ?app_nil_r, <- ?app_assoc; (split; [naive_solver|done]).
Qed.

(** The order of the map does not change whether the operator is upgrading, and
    permutes the messages. *)
Lemma isUpgrading_order c1 c2 oldVersions newVersions :
  c1 ≡ₚ c2 →
  (isUpgrading c1 oldVersions newVersions).1 = (isUpgrading c2 oldVersions newVersions).1 ∧
  (isUpgrading c1 oldVersions newVersions).2 ≡ₚ (isUpgrading c2 oldVersions newVersions).2.
Proof.
  intros Hp. destruct (isUpgrading_spec c1 oldVersions newVersions) as [H1 ->].
  destruct (isUpgrading_spec c2 oldVersions newVersions) as [H2 ->]. split.
  - apply eq_bool_prop_intro. rewrite !Is_true_true, H1, H2. by rewrite Hp.
  - change (concat (map (upgrade_messages oldVersions newVersions) c1) ≡ₚ
            concat (map (upgrade_messages oldVersions newVersions) c2)).
    rewrite <- !flat_map_concat_map. by apply Permutation_flat_map.
Qed.



(** ** Merging conditions *)

(** The first condition of a type. *)
Definition find_type (type : string) (cs : list ClusterOperatorStatusCondition)
    : option ClusterOperatorStatusCondition := List.find (λ c, coc_Type c =s type) cs.

(** The condition after an update: the time of the old one is kept unless the status changes. *)
Definition updated_condition (now : Z) (old : option ClusterOperatorStatusCondition)
    (update : ClusterOperatorStatusCondition) : ClusterOperatorStatusCondition :=
  mkCOCondition (coc_Type update) (coc_Status update)
    (match old with
     | Some o => if coc_Status o =s coc_Status update then coc_LastTransitionTime o else now
     | None => now
     end) (coc_Reason update) (coc_Message update).

Lemma update_condition_spec now u cs :
  match update_condition now u cs with
  | Some cs' => is_Some (find_type (coc_Type u) cs) ∧
                find_type (coc_Type u) cs' = Some (updated_condition now (find_type (coc_Type u) cs) u) ∧
                (∀ t, t ≠ coc_Type u → find_type t cs' = find_type t cs) ∧ coc_Type <$> cs' = coc_Type <$> cs
  | None => find_type (coc_Type u) cs = None
  end.
Proof.
  induction cs as [|c cs IH]; [done|]. simpl. unfold find_type in *. simpl.
  destruct (bool_decide (coc_Type c = coc_Type u)) eqn:Et; to_prop.
  - simpl. rewrite Et, bool_decide_true by done. split; [done|]. split.
    + unfold updated_condition. by destruct (bool_decide _).
    + split; [|done]. intros t Ht. by rewrite !bool_decide_false.
  - destruct (update_condition now u cs) as [cs'|]; simpl; [|done].
    rewrite bool_decide_false by done. destruct IH as (? & ? & Hother & Htypes).
    split; [done|]. split; [done|]. split; [|f_equal; exact Htypes]. intros t Ht.
    destruct (bool_decide _); [done|]. by apply Hother.
Qed.

Lemma find_type_app t cs cs' :
  find_type t (cs ++ cs') = match find_type t cs with Some c => Some c | None => find_type t cs' end.
Proof. unfold find_type. induction cs as [|c cs IH]; [done|]. simpl. by destruct (bool_decide _). Qed.

Lemma find_type_None t cs : find_type t cs = None ↔ t ∉ coc_Type <$> cs.
Proof.
  unfold find_type. induction cs as [|c cs IH]; csimpl; [split; [set_solver|done]|].
  rewrite not_elem_of_cons. destruct (bool_decide (coc_Type c = t)) eqn:E; to_prop; [|naive_solver].
  split; [done|]. naive_solver.
Qed.

(** The state of the loop of mergeConditions after some of the updates. *)
Lemma merge_loop_spec now cs us :
  NoDup (coc_Type <$> us) →
  let '(cs', adds) :=
    foldl (λ (st : list ClusterOperatorStatusCondition * list ClusterOperatorStatusCondition) update,
      match update_condition now update st.1 with
      | Some conditions => (conditions, st.2)
      | None => (st.1, st.2 ++ [mkCOCondition (coc_Type update) (coc_Status update) now
                                  (coc_Reason update) (coc_Message update)])
      end) (cs, []) us in
  (∀ u, u ∈ us → find_type (coc_Type u) (cs' ++ adds) =
                 Some (updated_condition now (find_type (coc_Type u) cs) u)) ∧
  (∀ t, t ∉ coc_Type <$> us → find_type t (cs' ++ adds) = find_type t cs) ∧
  coc_Type <$> cs' = coc_Type <$> cs ∧
  coc_Type <$> adds = filter (λ t, t ∉ coc_Type <$> cs) (coc_Type <$> us).
Proof.
  induction us as [|u us IH] using rev_ind; intros Hnd; simpl.
  { split; [set_solver|]. split; [intros; by rewrite app_nil_r|done]. }
  rewrite fmap_app in Hnd. apply NoDup_app in Hnd as (Hnd & Hfresh & _). specialize (IH Hnd).
  rewrite foldl_snoc. destruct (foldl _ _ us) as [cs' adds]. cbn [fst snd].
  destruct IH as (Hin & Hout & Hty & Hadds).
  assert (coc_Type u ∉ coc_Type <$> us) as Hu by (intros Hx; eapply Hfresh; [exact Hx|set_solver]).
  rewrite fmap_app, filter_app. csimpl.
  assert (∀ t, find_type t cs = None → find_type t cs' = None) as Hnone.
  { intros t. rewrite !find_type_None, Hty. done. }
  pose proof (update_condition_spec now u cs') as Hspec.
  destruct (update_condition now u cs') as [cs2|].
  - destruct Hspec as (Hsome & Hthis & Hother & Htypes).
    assert (coc_Type u ∈ coc_Type <$> cs) as Hold.
    { rewrite <- Hty. apply dec_stable. rewrite <- find_type_None. destruct Hsome as [? ->]. done. }
    pose proof (Hout _ Hu) as Hfu. rewrite find_type_app in Hfu. destruct Hsome as [x Hx]. rewrite Hx in Hfu.
    rewrite filter_cons_False, filter_nil, app_nil_r by tauto.
    split; [|split; [|split; [congruence|done]]].
    + intros v Hv. rewrite find_type_app. apply elem_of_app in Hv as [Hv|Hv].
      * assert (coc_Type v ≠ coc_Type u) as Hne by (intros E; apply Hu; rewrite <- E; by apply list_elem_of_fmap_2).
        rewrite Hother by done. rewrite <- find_type_app. by apply Hin.
      * apply list_elem_of_singleton in Hv as ->. by rewrite Hthis, Hx, Hfu.
    + intros t Ht. rewrite not_elem_of_app, list_elem_of_singleton in Ht. destruct Ht as [Ht Hne].
      rewrite find_type_app, Hother, <- find_type_app by done. by apply Hout.
  - assert (find_type (coc_Type u) cs = None) as Hnew.
    { rewrite find_type_None, <- Hty. by apply find_type_None. }
    rewrite filter_cons_True by (by apply find_type_None).
    rewrite app_assoc. split; [|split; [|split; [done|by rewrite fmap_app, Hadds]]].
    + intros v Hv. rewrite find_type_app. apply elem_of_app in Hv as [Hv|Hv]; [by rewrite Hin|].
      apply list_elem_of_singleton in Hv as ->. rewrite (Hout _ Hu), Hnew. unfold find_type. simpl.
      by rewrite bool_decide_true.
    + intros t Ht. rewrite not_elem_of_app, list_elem_of_singleton in Ht. destruct Ht as [Ht Hne].
      rewrite find_type_app, (Hout _ Ht). destruct (find_type t cs); [done|]. unfold find_type. simpl.
      by rewrite bool_decide_false.
Qed.



(** ** Quiescence *)

(** The order a loop visits a map in is some order of its entries, and asking for it
    changes nothing. *)
Class MapRangeLaws (W : Type) `{ClientLaws W} `{MapRange W} := {
  map_range_perm : ∀ m w, (map_range m w).1 ≡ₚ map_to_list m;
  map_range_frame : ∀ m w k n, view (map_range m w).2 k n = view w k n;
}.

(** The condition of the update's type already says what the update says. *)
Definition said (cs : list ClusterOperatorStatusCondition) (u : ClusterOperatorStatusCondition) : Prop :=
  ∃ c, find_type (coc_Type u) cs = Some c ∧
       coc_Status c = coc_Status u ∧ coc_Reason c = coc_Reason u ∧ coc_Message c = coc_Message u.

Lemma update_condition_said now u cs : said cs u → update_condition now u cs = Some cs.
Proof.
  intros (c & Hc & Hs & Hr & Hm). unfold find_type in Hc.
  induction cs as [|d cs IH]; [done|]. simpl in *. destruct (bool_decide (coc_Type d = coc_Type u)) eqn:E; to_prop.
  - injection Hc as ->. rewrite Hs, bool_decide_true by done. simpl. do 2 f_equal.
    destruct c; simpl in *; congruence.
  - by rewrite IH.
Qed.

(** Updates that say nothing new change nothing, whatever the time. *)
Lemma mergeConditions_said now cs us : Forall (said cs) us → mergeConditions now cs us = cs.
Proof.
  intros Hus. unfold mergeConditions.
  assert (foldl (λ (st : list ClusterOperatorStatusCondition * list ClusterOperatorStatusCondition) update,
      match update_condition now update st.1 with
      | Some conditions => (conditions, st.2)
      | None => (st.1, st.2 ++ [mkCOCondition (coc_Type update) (coc_Status update) now
                                  (coc_Reason update) (coc_Message update)])
      end) (cs, []) us = (cs, [])) as ->; [|apply app_nil_r].
  induction Hus as [|u us Hu Hus IH]; [done|]. simpl. by rewrite (update_condition_said _ _ _ Hu).
Qed.

(** A merged update is said; other conditions stay said. *)
Lemma mergeConditions_says now cs us :
  NoDup (coc_Type <$> us) →
  Forall (said (mergeConditions now cs us)) us ∧
  ∀ v, coc_Type v ∉ coc_Type <$> us → said cs v → said (mergeConditions now cs us) v.
Proof.
  intros Hnd. unfold mergeConditions. pose proof (merge_loop_spec now cs us Hnd) as Hl.
  destruct (foldl _ _ us) as [cs' adds]. destruct Hl as (Hin & Hout & _). split.
  - apply Forall_forall. intros u Hu. eexists. rewrite (Hin u Hu). done.
  - intros v Hv (c & Hc & ?). exists c. by rewrite (Hout _ Hv).
Qed.

(** The versions reported are the new ones once the map read back from them is. *)
Lemma computeOldVersions_roundtrip (m : Versions) order :
  order ≡ₚ map_to_list m → computeOldVersions (computeOperatorStatusVersions order) = m.
Proof.
  intros Hp. unfold computeOldVersions, computeOperatorStatusVersions.
  assert (NoDup order.*1) as Hnd by (rewrite Hp; apply NoDup_fst_map_to_list).
  assert (∀ k v, m !! k = Some v ↔ (k, v) ∈ order) as Hm by (intros; by rewrite Hp, elem_of_map_to_list).
  assert (foldl (λ (m0 : Versions) v, <[ov_Name v:=ov_Version v]> m0) ∅
            (map (λ nv : string * string, mkOperandVersion nv.1 nv.2) order) = list_to_map (rev order)) as ->.
  { clear. induction order as [|[k v] order IH] using rev_ind; [done|].
    rewrite map_app, foldl_app, IH, rev_app_distr. done. }
  apply map_eq. intros k. apply option_eq. intros v. rewrite Hm.
  rewrite <- elem_of_list_to_map.
  - by rewrite <- (Permutation_rev order).
  - change (NoDup (map fst (rev order))). rewrite map_rev. by rewrite <- Permutation_rev.
Qed.

Section quiescence.
Context {W : Type} `{MapRangeLaws W} (config : Config).

(** The versions the operator is configured with. *)
Definition configured_versions : Versions :=
  computeNewVersions (cfg_OperatorReleaseVersion config) (cfg_CoreDNSImage config)
    (cfg_OpenshiftCLIImage config) (cfg_KubeRBACProxyImage config).

(** The two states agree on what the conditions and the related objects depend on. *)
Definition same_inputs (a b : operatorState) : Prop :=
  haveDNS a = haveDNS b ∧ dns a = dns b ∧ haveNamespace a = haveNamespace b ∧ namespace a = namespace b.

(** The three conditions of the first merge. *)
Definition status_updates (co : ClusterOperatorStatus) (state : operatorState)
    (order1 order2 : list (string * string)) : list ClusterOperatorStatusCondition :=
  let old := computeOldVersions (cos_Versions co) in
  [computeOperatorAvailableCondition (haveDNS state) (dns state);
   computeOperatorProgressingCondition (haveDNS state) (dns state) old configured_versions order1;
   computeOperatorDegradedCondition (haveDNS state) (dns state) old configured_versions order2].

(** What compute_status returns, for some times and some orders of the current versions. *)
Lemma compute_status_run co state (w : W) :
  ∃ t1 t2 t3 o1 o2 o3,
    let cur := computeCurrentVersions (computeOldVersions (cos_Versions co)) configured_versions
                 (dnsDaemonSet state) (nodeResolverDaemonSet state) (dnsPodList state)
                 (nodeResolverPodList state) t1 in
    o1 ≡ₚ map_to_list cur ∧ o2 ≡ₚ map_to_list cur ∧ o3 ≡ₚ map_to_list cur ∧
    (compute_status config co state w).1 =
      Some (mkCOStatus (mergeConditions t3 (mergeConditions t2 (cos_Conditions co) (status_updates co state o1 o2))
                          [computeOperatorUpgradeableCondition (dns state)])
              (computeOperatorStatusVersions o3) (relatedObjects (cfg_OperatorNamespace config) state)).
Proof.
  unfold compute_status, mbind, M_bind, call. fold configured_versions.
  destruct (time_Now w) as [t1 w1]. exists t1.
  set (cur := computeCurrentVersions _ _ _ _ _ _ t1).
  pose proof (map_range_perm cur w1) as P1. destruct (map_range cur w1) as [o1 w2].
  pose proof (map_range_perm cur w2) as P2. destruct (map_range cur w2) as [o2 w3].
  destruct (time_Now w3) as [t2 w4]. exists t2.
  pose proof (map_range_perm cur w4) as P3. destruct (map_range cur w4) as [o3 w5].
  destruct (time_Now w5) as [t3 w6]. exists t3, o1, o2, o3. done.
Qed.

Lemma touches_compute_status S co state : touches S (compute_status (W := W) config co state).
Proof.
  assert (∀ m, touches S (call (map_range m))) as Hr by (intros m; apply touches_call; intros; apply map_range_frame).
  unfold compute_status. repeat (apply touches_bind; [first [apply Hr|apply touches_Now]|intros ?]). apply touches_ret.
Qed.

(** The types of the four conditions. *)
Lemma status_updates_types co state o1 o2 :
  coc_Type <$> status_updates co state o1 o2 = [OperatorAvailable; OperatorProgressing; OperatorDegraded].
Proof.
  unfold status_updates. csimpl. unfold computeOperatorAvailableCondition, computeOperatorProgressingCondition,
    computeOperatorDegradedCondition.
  repeat case_match; done.
Qed.

Lemma upgradeable_type d : coc_Type (computeOperatorUpgradeableCondition d) = OperatorUpgradeable.
Proof. unfold computeOperatorUpgradeableCondition. by repeat case_match. Qed.

(** With every version current, the conditions do not depend on the order or on what was
    reported before. *)
Lemma updates_when_current old1 old2 order1 order2 have d :
  order1 ≡ₚ map_to_list configured_versions → order2 ≡ₚ map_to_list configured_versions →
  computeOperatorProgressingCondition have d old1 configured_versions order1 =
  computeOperatorProgressingCondition have d old2 configured_versions order2 ∧
  computeOperatorDegradedCondition have d old1 configured_versions order1 =
  computeOperatorDegradedCondition have d old2 configured_versions order2.
Proof.
  assert (∀ old order, order ≡ₚ map_to_list configured_versions →
    (isUpgrading order old configured_versions).1 = false) as Hup.
  { intros old order Hp. apply not_true_is_false. rewrite (proj1 (isUpgrading_spec _ _ _)), Hp, Exists_exists.
    intros ([k v] & Hin & n & Hn & Hne). apply elem_of_map_to_list in Hin. simpl in *. congruence. }
  intros Ho1 Ho2. apply (Hup old1) in Ho1. apply (Hup old2) in Ho2.
  unfold computeOperatorProgressingCondition, computeOperatorDegradedCondition.
  destruct (isUpgrading order1 _ _) as [u1 m1], (isUpgrading order2 _ _) as [u2 m2]. cbn [fst] in *. by subst.
Qed.

Lemma current_when_configured ds nr pods nrPods now :
  computeCurrentVersions configured_versions configured_versions ds nr pods nrPods now = configured_versions.
Proof.
  unfold computeCurrentVersions. cbv zeta.
  by repeat match goal with |- context [(?a <=? ?b)%Z] => destruct (a <=? b)%Z end.
Qed.

(** Everything the first computation said is said. *)
Lemma status_said t2 t3 co state o1 o2 :
  let cs := mergeConditions t3 (mergeConditions t2 (cos_Conditions co) (status_updates co state o1 o2))
              [computeOperatorUpgradeableCondition (dns state)] in
  Forall (said cs) (status_updates co state o1 o2) ∧ said cs (computeOperatorUpgradeableCondition (dns state)).
Proof.
  intros cs. destruct (mergeConditions_says t2 (cos_Conditions co) (status_updates co state o1 o2)) as [Hu _].
  { rewrite status_updates_types. apply (bool_decide_unpack _). vm_compute. done. }
  destruct (mergeConditions_says t3 (mergeConditions t2 (cos_Conditions co) (status_updates co state o1 o2))
    [computeOperatorUpgradeableCondition (dns state)]) as [Hup Hkeep].
  { csimpl. apply NoDup_singleton. }
  split; [|exact (Forall_inv Hup)]. rewrite Forall_forall in Hu |- *. intros u Hin. apply Hkeep; [|by apply Hu].
  csimpl. rewrite upgradeable_type, list_elem_of_singleton. intros Ht.
  apply (list_elem_of_fmap_2 coc_Type) in Hin. rewrite status_updates_types, Ht in Hin.
  revert Hin. apply (bool_decide_unpack _). vm_compute. done.
Qed.

(** A status computed from the status computed before equals it, once every version has
    advanced: at any later time, for any pods and any order of iteration. *)
Lemma compute_status_stable co state state' (w w' : W) s1 s2 :
  (compute_status config co state w).1 = Some s1 →
  computeOldVersions (cos_Versions s1) = configured_versions → same_inputs state state' →
  (compute_status config s1 state' w').1 = Some s2 → operatorStatusesEqual s1 s2 = Some true.
Proof.
  intros E1 Hver (Hh & Hd & Hhn & Hns) E2.
  destruct (compute_status_run co state w) as (t1 & t2 & t3 & o1 & o2 & o3 & P1 & P2 & P3 & R1).
  rewrite E1 in R1. injection R1 as ->. cbn [cos_Versions] in Hver.
  rewrite (computeOldVersions_roundtrip _ _ P3) in Hver. rewrite Hver in P1, P2, P3.
  match type of E2 with (compute_status _ ?s _ _).1 = _ => set (S1 := s) in * end.
  destruct (compute_status_run S1 state' w') as (t1' & t2' & t3' & o1' & o2' & o3' & P1' & P2' & P3' & R2).
  assert (computeOldVersions (cos_Versions S1) = configured_versions) as Hold
    by (unfold S1; cbn [cos_Versions]; by apply computeOldVersions_roundtrip).
  rewrite Hold, current_when_configured in P1', P2', P3'.
  rewrite E2 in R2. injection R2 as ->.
  destruct (status_said t2 t3 co state o1 o2) as [Hsaid Hup].
  assert (status_updates S1 state' o1' o2' = status_updates co state o1 o2) as ->.
  { unfold status_updates. rewrite <- Hh, <- Hd.
    destruct (updates_when_current (computeOldVersions (cos_Versions S1)) (computeOldVersions (cos_Versions co))
      o1' o1 (haveDNS state) (dns state) P1' P1) as [-> _].
    by destruct (updates_when_current (computeOldVersions (cos_Versions S1)) (computeOldVersions (cos_Versions co))
      o2' o2 (haveDNS state) (dns state) P2' P2) as [_ ->]. }
  rewrite <- Hd. change (cos_Conditions S1) with
    (mergeConditions t3 (mergeConditions t2 (cos_Conditions co) (status_updates co state o1 o2))
       [computeOperatorUpgradeableCondition (dns state)]).
  rewrite !(mergeConditions_said _ _ _ Hsaid), (mergeConditions_said _ _ [_]) by (by apply Forall_singleton).
  assert (relatedObjects (cfg_OperatorNamespace config) state' = relatedObjects (cfg_OperatorNamespace config) state) as ->
    by (unfold relatedObjects; by rewrite <- Hhn, <- Hns).
  unfold operatorStatusesEqual. cbn [cos_Conditions cos_RelatedObjects cos_Versions S1].
  rewrite (cmp_Equal_SortSlices_refl coc_Type) by (intros; by apply bool_decide_true). cbn.
  rewrite (cmp_Equal_SortSlices_refl oref_Name) by (intros; by apply bool_decide_true). cbn.
  rewrite (cmp_Equal_SortSlices_key ov_Name); [rewrite bool_decide_true; [done|]|].
  - unfold computeOperatorStatusVersions. by rewrite P3, P3'.
  - unfold computeOperatorStatusVersions. rewrite <- list_fmap_compose.
    change (NoDup (fst <$> o3)). rewrite P3. apply NoDup_fst_map_to_list.
Qed.

Lemma touches_getOperatorState S : touches S (getOperatorState (W := W)).
Proof. unfold getOperatorState, cache_get_daemonset, list_pods. footprint. Qed.

(** C22: Reconcile of the status controller comes to rest.  When the stored ClusterOperator
    has the status an earlier pass computed, that status reports the configured versions,
    and the DNS and the namespace are as they were then, Reconcile writes nothing: not at
    any later time, whatever the pods do and in whatever order maps are visited. *)
Theorem status_Reconcile_quiescent request co co0 state state' (w0 w : W) :
  view w KClusterOperator DNSClusterOperatorName = Some co →
  (compute_status config co0 state w0).1 = Some (co_Status co) →
  computeOldVersions (cos_Versions (co_Status co)) = configured_versions →
  (getOperatorState (client_Get KClusterOperator DNSClusterOperatorName w).2).1 = Some (inr state') →
  same_inputs state state' →
  ∀ k n, view (Reconcile config request w).2 k n = view w k n.
Proof.
  intros Hco Hs1 Hver Hst Hsame k n. unfold Reconcile, mbind at 1, M_bind at 1, call at 1.
  pose proof (get_frame KClusterOperator DNSClusterOperatorName w) as Hfr.
  pose proof (get_found KClusterOperator DNSClusterOperatorName w) as Hfound.
  pose proof (get_missing KClusterOperator DNSClusterOperatorName w) as Hmiss.
  destruct (client_Get KClusterOperator DNSClusterOperatorName w) as [[err|co'] w1]; cbn [fst snd] in *.
  { destruct err as [m|m]; [specialize (Hmiss m eq_refl); congruence|]. simpl. apply Hfr. }
  specialize (Hfound co' eq_refl). assert (co' = co) as -> by congruence. clear Hfound Hmiss.
  unfold mbind at 1, M_bind at 1, mret at 1, M_ret at 1. unfold mbind at 1, M_bind at 1.
  pose proof (touches_getOperatorState ∅ w1 k n ltac:(set_solver)) as Ht.
  destruct (getOperatorState w1) as [st w2]. cbn [fst snd] in *. subst st.
  unfold mbind at 1, M_bind at 1. pose proof (touches_compute_status ∅ (co_Status co) state' w2 k n ltac:(set_solver)) as Hc.
  destruct (compute_status config (co_Status co) state' w2) as [[s2|] w3] eqn:E2; cbn [snd] in *; [|congruence].
  rewrite <- (Hfr k n), <- Ht, <- Hc.
  pose proof (compute_status_stable co0 state state' w0 w2 (co_Status co) s2 Hs1 Hver Hsame) as Heq.
  rewrite E2 in Heq. specialize (Heq eq_refl).
  unfold mbind at 1, M_bind at 1, lift_option. by rewrite Heq.
Qed.

End quiescence.

(** ** Reconcile on concrete clusters *)

(** An order of iteration that depends on the state of the process: the entries in one
    order or in the opposite one, with the parity of the clock. *)
#[export] Instance Mem_MapRange : MapRange Mem := {|
  map_range m w := (if Z.even (mem_clock w) then map_to_list m else rev (map_to_list m), w) |}.

#[export] Instance Mem_MapRangeLaws : MapRangeLaws Mem.
Proof.
  constructor; [|done]. intros m w. simpl. destruct (Z.even _); [done|]. symmetry. apply Permutation_rev.
Qed.

(** A cluster whose DNS is healthy, without pods: both daemonsets want none. *)
Definition healthy_dns : DNS :=
  mkDNS (dns_meta sample_dns) sample_spec (mkDNSStatus "172.30.0.10" "cluster.local"
    [mkOperatorCondition OperatorStatusTypeAvailable ConditionTrue 1 "AsExpected" "";
     mkOperatorCondition OperatorStatusTypeProgressing ConditionFalse 1 "AsExpected" "";
     mkOperatorCondition OperatorStatusTypeDegraded ConditionFalse 1 "AsExpected" ""]).

Definition healthy_cluster : Mem := mem_add KDNS healthy_dns mem0.

Definition status_run (m : Mem) : option (Result * option error) * Mem :=
  Reconcile sample_config DefaultDNSNamespaceName m.

(** The ClusterOperator and the state the first pass computed its status from. *)
Definition first_co : ClusterOperator :=
  default initializeClusterOperator (store_get (mem_store (status_run healthy_cluster).2) KClusterOperator DNSClusterOperatorName).
Definition first_state : operatorState :=
  mkOperatorState false (mkNamespace meta0) true healthy_dns daemonset0 daemonset0 [] [].

Lemma status_Reconcile_quiescent_witness :
  let w := (status_run healthy_cluster).2 in
  view (status_run w).2 KClusterOperator DNSClusterOperatorName
  = view w KClusterOperator DNSClusterOperatorName.
Proof.
  cbv zeta. set (w := (status_run healthy_cluster).2).
  assert (view w KClusterOperator DNSClusterOperatorName = Some first_co) as Hco by (vm_compute; reflexivity).
  assert ((compute_status sample_config (co_Status (clear_status KClusterOperator initializeClusterOperator)) first_state healthy_cluster).1
          = Some (co_Status first_co)) as Hs by (vm_compute; reflexivity).
  assert (computeOldVersions (cos_Versions (co_Status first_co)) = configured_versions sample_config) as Hv
    by (vm_compute; reflexivity).
  assert ((getOperatorState (client_Get KClusterOperator DNSClusterOperatorName w).2).1
          = Some (inr first_state)) as Hst by (vm_compute; reflexivity).
  exact (status_Reconcile_quiescent sample_config DefaultDNSNamespaceName first_co
    (co_Status (clear_status KClusterOperator initializeClusterOperator)) first_state first_state healthy_cluster w Hco Hs Hv Hst
    (conj eq_refl (conj eq_refl (conj eq_refl eq_refl))) KClusterOperator DNSClusterOperatorName).
Defined.

(** A cluster in the middle of an upgrade: the DNS daemonset wants three pods and none is
    available.  It has been reconciled twice. *)
Definition upgrading_cluster : Mem :=
  (status_run (status_run (mem_add KDaemonSet (sample_daemonset 3 0 0) healthy_cluster)).2).2.

