(* ===== verification/Watches.v ===== *)
(** * Watches: which events wake which controller

    The watches the two New functions register (pkg/operator/controller/controller.go and
    pkg/operator/controller/status/controller.go), the namespaces operator.go restricts the
    cache to, and of the vendored controller-runtime the event handlers and predicates they
    are built from.  An event enqueues requests; the work queue is a set. *)

From S2P Require Import Prelude GoLib Types Util Labels Numbers Client Mem Names Manifests Samples.
From S2P Require Import Tls DaemonSet DaemonSetProps DNSStatus Corefile CorefileProps Service NodeResolver.
From S2P Require Import NetworkPolicies CABundle Controller StatusController Operator.

(** ** Events *)

(** The events of package event, on an object of kind [k]. *)
Inductive Event (k : Kind) :=
| CreateEvent (o : obj k)
| UpdateEvent (objectOld objectNew : obj k)
| DeleteEvent (o : obj k)
| GenericEvent (o : obj k).
Arguments CreateEvent {k} o.
Arguments UpdateEvent {k} objectOld objectNew.
Arguments DeleteEvent {k} o.
Arguments GenericEvent {k} o.

(** The objects a handler looks at, in order. *)
Definition event_objects {k} (e : Event k) : list (obj k) :=
  match e with
  | UpdateEvent old nu => [old; nu]
  | CreateEvent o | DeleteEvent o | GenericEvent o => [o]
  end.

(** The object a predicate made from a filter looks at. *)
Definition event_object {k} (e : Event k) : obj k :=
  match e with
  | UpdateEvent _ nu => nu
  | CreateEvent o | DeleteEvent o | GenericEvent o => o
  end.

(** ** Handlers (sigs.k8s.io/controller-runtime/pkg/handler) *)

(** reqs[req] = empty{} *)
Definition add_request (reqs : list NamespacedName) (req : NamespacedName) : list NamespacedName :=
  if bool_decide (req ∈ reqs) then reqs else reqs ++ [req].

Definition EnqueueRequestForObject {k} (e : Event k) : list NamespacedName := [key_of k (event_object e)].

(** mapAndEnqueue, on each object of the event. *)
Definition EnqueueRequestsFromMapFunc {k} (toRequests : ObjectMeta → list NamespacedName) (e : Event k)
    : list NamespacedName :=
  foldl (λ reqs o, foldl add_request reqs (toRequests (meta_of k o))) [] (event_objects e).

(** strings.Count(s, "/") *)
Fixpoint count_slashes (s : string) : nat :=
  match s with
  | EmptyString => 0
  | String c s => (if bool_decide (c = char_slash) then 1 else 0) + count_slashes s
  end.

(** s[:i] and s[i+1:] for i = strings.Index(s, "/") *)
Fixpoint split_slash (s : string) : string * string :=
  match s with
  | EmptyString => ("", "")
  | String c s' =>
      if bool_decide (c = char_slash) then ("", s')
      else let '(a, b) := split_slash s' in (String c a, b)
  end.

(** schema.ParseGroupVersion: group and version; [None] is its error. *)
Definition ParseGroupVersion (gv : string) : option (string * string) :=
  if (String.length gv =? 0)%nat || (gv =s "/") then Some ("", "")
  else match count_slashes gv with
       | 0%nat => Some ("", gv)
       | 1%nat => Some (split_slash gv)
       | _ => None
       end.

(** The RESTMapper discovers from the API server whether a kind is cluster-scoped: of a
    group, a kind and a version, [Some true] for the scope root and [None] for an error. *)
Class RESTMapper := { RESTMapping_root : string → string → string → option bool }.

(** The group and kind the scheme gives for &operatorv1.DNS{}. *)
Definition dns_group : string := "operator.openshift.io".
Definition dns_kind : string := "DNS".

(** dnses.operator.openshift.io is a cluster-scoped resource of version v1. *)
Class RESTMapperLaws `{RESTMapper} := {
  dns_is_root : RESTMapping_root dns_group dns_kind "v1" = Some true }.

Section watches.
Context `{RESTMapper}.

(** getOwnerReconcileRequest for owners of type DNS: the loop over the references, which
    a reference that does not parse ends. *)
Fixpoint owner_requests (namespace : string) (refs : list OwnerReference) (result : list NamespacedName)
    : list NamespacedName :=
  match refs with
  | [] => result
  | ref :: rest =>
      match ParseGroupVersion (or_APIVersion ref) with
      | None => result
      | Some (group, version) =>
          if (or_Kind ref =s dns_kind) && (group =s dns_group) then
            match RESTMapping_root dns_group dns_kind version with
            | None => result
            | Some root =>
                owner_requests namespace rest
                  (add_request result (mkNN (if root then "" else namespace) (or_Name ref)))
            end
          else owner_requests namespace rest result
      end
  end.

Definition EnqueueRequestForOwner {k} (e : Event k) : list NamespacedName :=
  foldl (λ reqs o, owner_requests (om_Namespace (meta_of k o)) (om_OwnerReferences (meta_of k o)) reqs)
        [] (event_objects e).

(** ** Predicates *)

(** predicate.NewPredicateFuncs *)
Definition NewPredicateFuncs {k} (filter : ObjectMeta → bool) (e : Event k) : bool :=
  filter (meta_of k (event_object e)).

(** One c.Watch call on kind [k]. *)
Record Watch (k : Kind) := mkWatch {
  watch_handler : Event k → list NamespacedName;
  watch_predicates : list (Event k → bool) }.
Arguments mkWatch {k} watch_handler watch_predicates.
Arguments watch_handler {k} w.
Arguments watch_predicates {k} w.

(** OnAdd, OnUpdate and OnDelete of the source: the handler runs if every predicate
    lets the event through. *)
Definition dispatch {k} (e : Event k) (w : Watch k) : list NamespacedName :=
  if forallb (λ p, p e) (watch_predicates w) then watch_handler w e else [].

(** The predicate of the watch on nodes. *)
Definition node_event (e : Event KNode) : bool :=
  match e with
  | UpdateEvent old nu => nodeUpdatePredicate old nu
  | CreateEvent o | DeleteEvent o | GenericEvent o => nodePredicate o
  end.

(** The watches of the DNS controller, in the order New registers them. *)
Definition dns_watches (k : Kind) : list (Watch k) :=
  match k return list (Watch k) with
  | KDNS => [mkWatch EnqueueRequestForObject []]
  | KDaemonSet => [mkWatch EnqueueRequestForOwner []]
  | KService => [mkWatch EnqueueRequestForOwner []]
  | KConfigMap =>
      [mkWatch EnqueueRequestForOwner [];
       mkWatch (EnqueueRequestsFromMapFunc (λ _, objectToDNS))
         [NewPredicateFuncs (isInNS GlobalUserSpecifiedConfigNamespace)]]
  | KNetworkPolicy =>
      [mkWatch (EnqueueRequestsFromMapFunc enqueueRequestForOwningDNS)
         [NewPredicateFuncs (isInNS (nn_Name DefaultDNSOperandNamespaceName))]]
  | KAPIServer => [mkWatch (EnqueueRequestsFromMapFunc (λ _, objectToDNS)) []]
  | KNode => [mkWatch (EnqueueRequestsFromMapFunc (λ _, objectToDNS)) [node_event]]
  | _ => []
  end.

(** The watches of the status controller. *)
Definition status_watches (k : Kind) : list (Watch k) :=
  match k return list (Watch k) with
  | KDNS => [mkWatch EnqueueRequestForObject []]
  | KDaemonSet => [mkWatch EnqueueRequestForOwner []]
  | KClusterOperator =>
      [mkWatch (EnqueueRequestsFromMapFunc (λ _, clusteroperatorToDNS))
         [NewPredicateFuncs isDNSClusterOperator]]
  | _ => []
  end.

(** ** The cache *)

(** Kinds without a namespace. *)
Definition cluster_scoped (k : Kind) : bool :=
  match k with
  | KDNS | KNamespace | KClusterRole | KClusterRoleBinding | KClusterOperator | KAPIServer
  | KNetwork | KNode => true
  | _ => false
  end.

(** cache.Options of operator.go: DefaultNamespaces. *)
Definition cache_namespaces (config : Config) : list string :=
  [cfg_OperatorNamespace config; DefaultOperandNamespace; GlobalUserSpecifiedConfigNamespace].

Definition cached (config : Config) (k : Kind) (o : obj k) : bool :=
  cluster_scoped k || bool_decide (om_Namespace (meta_of k o) ∈ cache_namespaces config).

(** The requests an event in the cluster gives a controller with these watches. *)
Definition requests (config : Config) (watches : ∀ k, list (Watch k)) (k : Kind) (e : Event k)
    : list NamespacedName :=
  if cached config k (event_object e) then mjoin (dispatch e <$> watches k) else [].

Definition dns_requests (config : Config) (k : Kind) (e : Event k) : list NamespacedName :=
  requests config dns_watches k e.

Definition status_requests (config : Config) (k : Kind) (e : Event k) : list NamespacedName :=
  requests config status_watches k e.

End watches.
Arguments mkWatch {k} watch_handler watch_predicates.
Arguments watch_handler {k} w.
Arguments watch_predicates {k} w.
