(* ===== verification/WatchesProps.v ===== *)
(** * Properties of the watches

    Which events about its operands the DNS controller notices. *)

From S2P Require Import Prelude GoLib Types Util Labels Numbers Client Mem Names Manifests Samples.
From S2P Require Import Tls DaemonSet DaemonSetProps DNSStatus Corefile CorefileProps Service NodeResolver.
From S2P Require Import NetworkPolicies CABundle Controller StatusController Operator Watches CorefileGolden.

(** An event as the API server sends it: an update is of one object. *)
Definition valid_event {k} (e : Event k) : Prop :=
  match e with UpdateEvent old nu => key_of k old = key_of k nu | _ => True end.

Section requests.
Context `{RESTMapperLaws}.

Lemma elem_of_add_request reqs req x : x ∈ add_request reqs req ↔ x ∈ reqs ∨ x = req.
Proof. unfold add_request. case_bool_decide; set_solver. Qed.

Lemma elem_of_add_requests rs reqs x : x ∈ foldl add_request reqs rs ↔ x ∈ reqs ∨ x ∈ rs.
Proof.
  revert reqs. induction rs as [|r rs IH]; intros reqs; simpl; [set_solver|].
  rewrite IH, elem_of_add_request. set_solver.
Qed.

(** The requests of a mapping function: those of the objects of the event. *)
Lemma elem_of_mapped {k} f (e : Event k) x :
  x ∈ EnqueueRequestsFromMapFunc f e ↔ ∃ o, o ∈ event_objects e ∧ x ∈ f (meta_of k o).
Proof.
  unfold EnqueueRequestsFromMapFunc. generalize (event_objects e) as os. intros os.
  enough (∀ reqs, x ∈ foldl (λ reqs o, foldl add_request reqs (f (meta_of k o))) reqs os ↔
                  x ∈ reqs ∨ ∃ o, o ∈ os ∧ x ∈ f (meta_of k o)) as -> by set_solver.
  induction os as [|o os IH]; intros reqs; simpl; [set_solver|].
  rewrite IH, elem_of_add_requests. set_solver.
Qed.

(** ** Owner references *)

(** A reference to a DNS, in the version the resource is served in. *)
Definition refers_to (name : string) (ref : OwnerReference) : Prop :=
  ParseGroupVersion (or_APIVersion ref) = Some (dns_group, "v1") ∧ or_Kind ref = dns_kind ∧ or_Name ref = name.

(** A reference the loop does not stop at. *)
Definition passes (ref : OwnerReference) : Prop :=
  ∃ g v, ParseGroupVersion (or_APIVersion ref) = Some (g, v) ∧
         (or_Kind ref = dns_kind → g = dns_group → RESTMapping_root g dns_kind v ≠ None).

Lemma refers_to_passes name ref : refers_to name ref → passes ref.
Proof.
  intros (Hp & _ & _). exists dns_group, "v1". split; [done|]. intros _ _. by rewrite dns_is_root.
Qed.

Lemma dnsOwnerRef_refers dns : refers_to (dns_Name dns) (dnsOwnerRef dns).
Proof. split; [|done]. reflexivity. Qed.

Lemma owner_requests_grow ns refs res x : x ∈ res → x ∈ owner_requests ns refs res.
Proof.
  revert res. induction refs as [|ref refs IH]; intros res Hx; simpl; [done|].
  destruct (ParseGroupVersion _) as [[g v]|]; [|done]. destruct (_ && _); [|by apply IH].
  destruct (RESTMapping_root _ _ _); [|done]. apply IH, elem_of_add_request. by left.
Qed.

Lemma owner_requests_found ns refs res name :
  Forall passes refs → (∃ ref, ref ∈ refs ∧ refers_to name ref) → mkNN "" name ∈ owner_requests ns refs res.
Proof.
  intros Hp (ref & Hin & Href). revert res Hin.
  induction Hp as [|r refs (g & v & Hgv & Hmap) Hp IH]; intros res; [by intros ?%elem_of_nil|].
  intros [->|Hin]%elem_of_cons; simpl.
  - destruct Href as (Hr & Hk & Hn). rewrite Hr, Hk, Hn. rewrite !bool_decide_true by done. simpl.
    rewrite dns_is_root. apply owner_requests_grow, elem_of_add_request. by right.
  - rewrite Hgv. destruct ((or_Kind r =s dns_kind) && (g =s dns_group)) eqn:E; [|by apply IH].
    to_prop. destruct E as [Ek ->]. destruct (RESTMapping_root dns_group dns_kind v) as [[]|] eqn:Em;
      [by apply IH..|]. by destruct (Hmap Ek eq_refl).
Qed.

(** ** Claimed operands *)

(** The object carries the mark by which its watch finds the DNS [name]: an owner
    reference, or for network policies a label. *)
Definition claimed (name : string) (k : Kind) (o : obj k) : Prop :=
  match k with
  | KDaemonSet | KService | KConfigMap =>
      Forall passes (om_OwnerReferences (meta_of k o)) ∧
      ∃ ref, ref ∈ om_OwnerReferences (meta_of k o) ∧ refers_to name ref
  | KNetworkPolicy => om_Labels (meta_of k o) !! OwningDNSLabel = Some name
  | _ => False
  end.

(** Any event about a claimed object of openshift-dns, whichever of its two versions is
    claimed, is a request for the DNS. *)
Lemma claimed_requests config name k o (e : Event k) :
  claimed name k o → om_Namespace (meta_of k o) = DefaultOperandNamespace →
  valid_event e → o ∈ event_objects e → mkNN "" name ∈ dns_requests config k e.
Proof.
  intros Hc Hns Hv Ho. unfold dns_requests, requests, cached.
  assert (om_Namespace (meta_of k (event_object e)) = DefaultOperandNamespace) as Hens.
  { rewrite <- Hns. destruct e; set_unfold in Ho; simpl in *; try (destruct Ho as [->|[]]; done); [].
    injection Hv as Hv1 Hv2. destruct Ho as [->|[->|[]]]; congruence. }
  rewrite Hens, (bool_decide_true (_ ∈ cache_namespaces _)) by (unfold cache_namespaces; set_solver).
  rewrite orb_true_r.
  assert (∀ w, w ∈ dns_watches k → mkNN "" name ∈ dispatch e w →
    mkNN "" name ∈ mjoin (dispatch e <$> dns_watches k)) as Hone.
  { intros w Hw Hx. apply list_elem_of_join. eexists. split; [exact Hx|]. apply list_elem_of_fmap. eauto. }
  assert (Forall passes (om_OwnerReferences (meta_of k o)) ∧
      (∃ ref, ref ∈ om_OwnerReferences (meta_of k o) ∧ refers_to name ref) →
      mkNN "" name ∈ EnqueueRequestForOwner e) as Howner.
  { intros [Hp Href]. unfold EnqueueRequestForOwner. revert Ho. generalize (event_objects e) as os.
    intros os Ho. generalize (@nil NamespacedName) as reqs. induction os as [|x os IH]; intros reqs;
      [by apply elem_of_nil in Ho|].
    apply elem_of_cons in Ho as [<-|Ho]; simpl; [|by apply IH].
    clear IH. generalize (owner_requests_found (om_Namespace (meta_of k o)) _ reqs name Hp Href).
    generalize (owner_requests (om_Namespace (meta_of k o)) (om_OwnerReferences (meta_of k o)) reqs).
    induction os as [|y os IH]; intros l Hl; simpl; [done|]. apply IH. by apply owner_requests_grow. }
  destruct k; try done; simpl in Hc.
  - eapply Hone; [apply list_elem_of_here|]. by apply Howner.
  - eapply Hone; [apply list_elem_of_here|]. by apply Howner.
  - eapply Hone; [apply list_elem_of_here|]. by apply Howner.
  - eapply Hone; [apply list_elem_of_here|]. unfold dispatch. simpl. unfold NewPredicateFuncs, isInNS.
    rewrite Hens. simpl. apply elem_of_mapped. exists o. split; [done|].
    unfold enqueueRequestForOwningDNS. simpl. rewrite Hc. set_solver.
Qed.

(** ** What the controller creates *)

Context `{UnicodeTables} `{FloatConversion} `{Assets}.

(** The objects of openshift-dns the controller builds for a DNS. *)
Inductive built_for (dns : DNS) : ∀ k, obj k → Prop :=
| built_daemonset im1 im2 m tsp ds :
    desiredDNSDaemonSet dns im1 im2 m tsp = Some (inr ds) → built_for dns KDaemonSet ds
| built_node_resolver ip cd im ds :
    desiredNodeResolverDaemonSet dns ip cd im = inr (Some ds) → built_for dns KDaemonSet ds
| built_service ip hints ref : built_for dns KService (desiredDNSService dns ip hints ref)
| built_configmap cd m b nss cm : desiredDNSConfigMap dns cd m b nss = inr cm → built_for dns KConfigMap cm
| built_ca_bundle have source name cm :
    desiredCABundleConfigMap dns have source (CABundleConfigMapName name) = Some cm → built_for dns KConfigMap cm
| built_policy : built_for dns KNetworkPolicy (desiredDNSNetworkPolicy dns)
| built_deny_all : dns_Name dns = DefaultDNSController → built_for dns KNetworkPolicy NetworkPolicyDenyAll.

Lemma desiredDNSConfigMap_owner dns cd m b nss cm :
  desiredDNSConfigMap dns cd m b nss = inr cm → om_OwnerReferences (cm_meta cm) = [dnsOwnerRef dns].
Proof.
  unfold desiredDNSConfigMap. destruct (sanitizeTLSSettings dns) as [|dns'] eqn:Es; [done|].
  apply sanitizeTLSSettings_iff in Es as (_ & _ & ->).
  destruct (effective_upstreamResolvers _); [done|]. destruct (coreDNSCache _).
  destruct (corefileTemplate _); [done|]. by intros [= <-].
Qed.

Lemma owned_claimed dns k (o : obj k) :
  k ∈ [KDaemonSet; KService; KConfigMap] → om_OwnerReferences (meta_of k o) = [dnsOwnerRef dns] →
  claimed (dns_Name dns) k o.
Proof.
  intros Hk Ho. assert (Forall passes [dnsOwnerRef dns] ∧
    ∃ ref, ref ∈ [dnsOwnerRef dns] ∧ refers_to (dns_Name dns) ref) as Hrefs.
  { split; [apply Forall_singleton, (refers_to_passes (dns_Name dns)), dnsOwnerRef_refers|].
    exists (dnsOwnerRef dns). split; [apply list_elem_of_here|apply dnsOwnerRef_refers]. }
  set_unfold in Hk. destruct Hk as [->|[->|[->|[]]]]; unfold claimed; by rewrite Ho.
Qed.

Lemma built_for_claimed dns k o :
  built_for dns k o → claimed (dns_Name dns) k o ∧ om_Namespace (meta_of k o) = DefaultOperandNamespace.
Proof.
  intros [im1 im2 m tsp ds Hd|ip cd im ds Hd|ip hints ref|cd m b nss cm Hd|have source name cm Hd| |Hn].
  - rewrite desiredDNSDaemonSet_eq in Hd. destruct (kubeRBACProxyArgs tsp); [|done]. injection Hd as <-.
    split; [|done]. apply owned_claimed; [set_solver|done].
  - injection Hd as <-. split; [|done]. apply owned_claimed; [set_solver|done].
  - split; [|done]. apply owned_claimed; [set_solver|done].
  - pose proof (desiredDNSConfigMap_key _ _ _ _ _ _ Hd) as Hk. split; [|by injection Hk].
    apply owned_claimed; [set_solver|]. by eapply desiredDNSConfigMap_owner.
  - unfold desiredCABundleConfigMap in Hd. destruct have; [|done]. simpl in Hd.
    destruct (om_DeletionTimestamp _); [done|]. injection Hd as <-. split; [|done].
    apply owned_claimed; [set_solver|done].
  - split; [|done]. simpl. apply lookup_insert_eq.
  - split; [|done]. rewrite Hn. reflexivity.
Qed.

(** The kinds of operands no watch is registered for. *)
Definition unwatched : list Kind :=
  [KNamespace; KClusterRole; KClusterRoleBinding; KRole; KRoleBinding; KServiceAccount; KServiceMonitor].

(** C15: what the DNS controller notices of its operands.  Every event about an object of
    openshift-dns it built for the default DNS (the daemonsets, the service, the
    configmaps, the network policies), whatever the object is changed from or to, enqueues
    the default DNS; an event about an operand of any other kind, or about the service
    openshift in the namespace default, enqueues nothing. *)
Theorem operand_watches config dns :
  dns_Name dns = DefaultDNSController → cfg_OperatorNamespace config ≠ "default" →
  (∀ k o (e : Event k), built_for dns k o → valid_event e → o ∈ event_objects e →
     DefaultDNSNamespaceName ∈ dns_requests config k e) ∧
  (∀ k (e : Event k), k ∈ unwatched → dns_requests config k e = []) ∧
  (∀ e : Event KService, key_of KService (event_object e) = key_of KService openshift_service →
     dns_requests config KService e = []).
Proof.
  intros Hname Hns. split; [|split].
  - intros k o e Hb Hv Ho. destruct (built_for_claimed dns k o Hb) as [Hc Ho'].
    rewrite Hname in Hc. by apply (claimed_requests config DefaultDNSController k o e).
  - intros k e Hk. unfold dns_requests, requests. destruct (cached _ _ _); [|done].
    set_unfold in Hk. by repeat destruct Hk as [->|Hk].
  - intros e Hk. injection Hk as Hk _. unfold dns_requests, requests, cached.
    rewrite bool_decide_false; [done|]. simpl. rewrite Hk. unfold cache_namespaces. simpl. set_solver.
Qed.

End requests.

(** ** At concrete inputs *)

#[export] Instance sample_mapper : RESTMapper := {| RESTMapping_root _ _ _ := Some true |}.
#[export] Instance sample_mapper_laws : RESTMapperLaws.
Proof. constructor. reflexivity. Qed.

Lemma operand_watches_witness :
  DefaultDNSNamespaceName ∈ dns_requests sample_config KNetworkPolicy
    (DeleteEvent (k := KNetworkPolicy) (desiredDNSNetworkPolicy sample_dns)).
Proof.
  assert (cfg_OperatorNamespace sample_config ≠ "default") as Hns by (vm_compute; discriminate).
  refine (proj1 (operand_watches sample_config sample_dns eq_refl Hns) KNetworkPolicy
    (desiredDNSNetworkPolicy sample_dns) (DeleteEvent (k := KNetworkPolicy) (desiredDNSNetworkPolicy sample_dns))
    (built_policy sample_dns) I _).
  apply list_elem_of_here.
Defined.
