(* ===== verification/Startup.v ===== *)
(** * Starting the process

    cmd/dns-operator/main.go, New and Start of pkg/operator/operator.go, the New functions
    of the two controllers, and pkg/operator/client/client.go: which calls the
    process makes to its libraries while it starts, in which order, with which arguments,
    and what it does when one fails.  The libraries' constructors are parameters: each call
    succeeds or returns an error. *)

From S2P Require Import Prelude GoLib Types Util Labels Numbers Client Mem Names Manifests Samples.
From S2P Require Import Tls DaemonSet DaemonSetProps DNSStatus Corefile CorefileProps Service NodeResolver.
From S2P Require Import NetworkPolicies CABundle Controller StatusController Operator Watches WatchesProps.

(** ** Data *)

(** config.Config in full; a TLS option changes the configuration of the server. *)
Record OperatorConfig := mkOperatorConfig {
  oc_Config : Config; oc_MetricsBindAddress : string; oc_MetricsCertDir : string;
  oc_MetricsTLSOpts : list (TLSConfig → TLSConfig) }.

(** metricsserver.Options; [ms_Authenticated] is the filter provider
    WithAuthenticationAndAuthorization. *)
Record MetricsOptions := mkMetricsOptions {
  ms_BindAddress : string; ms_SecureServing : bool; ms_CertDir : string; ms_Authenticated : bool;
  ms_TLSOpts : list (TLSConfig → TLSConfig) }.

(** runtime.Scheme: the versions of API groups whose types are registered. *)
Definition Scheme : Type := list string.

(** manager.Options; [mo_ClientCache] tells whether its client reads from the cache. *)
Record ManagerOptions := mkManagerOptions {
  mo_Scheme : Scheme; mo_Metrics : MetricsOptions; mo_CacheNamespaces : list string; mo_ClientCache : bool }.

(** The reconciler a controller is created with. *)
Inductive Reconciler := DNSReconciler (r : reconciler) | StatusReconciler (config : Config).

Definition dns_controllerName : string := "dns_controller".
Definition status_controllerName : string := "status_controller".

(** featuregates.featureGate *)
Record FeatureGate := mkFeatureGate { fg_enabled : list string; fg_disabled : list string }.

(** Enabled: [None] is its panic for a feature it does not know. *)
Definition FeatureGate_Enabled (f : FeatureGate) (key : string) : option bool :=
  if bool_decide (key ∈ fg_enabled f) then Some true
  else if bool_decide (key ∈ fg_disabled f) then Some false else None.

Definition FeatureGateDNSNameResolver : string := "DNSNameResolver".

(** The group and version of the types the operator works with; a ServiceMonitor is
    unstructured and needs no registration. *)
Definition api_version (k : Kind) : option string :=
  match k with
  | KDNS => Some "operator.openshift.io/v1"
  | KDaemonSet => Some "apps/v1"
  | KService | KConfigMap | KNamespace | KServiceAccount | KNode | KPod => Some "v1"
  | KNetworkPolicy => Some "networking.k8s.io/v1"
  | KClusterRole | KClusterRoleBinding | KRole | KRoleBinding => Some "rbac.authorization.k8s.io/v1"
  | KClusterOperator | KAPIServer | KNetwork => Some "config.openshift.io/v1"
  | KServiceMonitor => None
  end.

(** kscheme.Scheme of client-go: the groups of Kubernetes itself. *)
Definition kscheme : Scheme :=
  ["admissionregistration.k8s.io/v1"; "admissionregistration.k8s.io/v1alpha1"; "admissionregistration.k8s.io/v1beta1";
   "internal.apiserver.k8s.io/v1alpha1"; "apps/v1"; "apps/v1beta1"; "apps/v1beta2"; "authentication.k8s.io/v1";
   "authentication.k8s.io/v1alpha1"; "authentication.k8s.io/v1beta1"; "authorization.k8s.io/v1";
   "authorization.k8s.io/v1beta1"; "autoscaling/v1"; "autoscaling/v2"; "batch/v1"; "batch/v1beta1";
   "certificates.k8s.io/v1"; "certificates.k8s.io/v1beta1"; "certificates.k8s.io/v1alpha1";
   "coordination.k8s.io/v1alpha2"; "coordination.k8s.io/v1beta1"; "coordination.k8s.io/v1"; "v1"; "discovery.k8s.io/v1";
   "discovery.k8s.io/v1beta1"; "events.k8s.io/v1"; "events.k8s.io/v1beta1"; "extensions/v1beta1";
   "flowcontrol.apiserver.k8s.io/v1"; "flowcontrol.apiserver.k8s.io/v1beta1"; "flowcontrol.apiserver.k8s.io/v1beta2";
   "flowcontrol.apiserver.k8s.io/v1beta3"; "networking.k8s.io/v1"; "networking.k8s.io/v1beta1"; "node.k8s.io/v1";
   "node.k8s.io/v1alpha1"; "node.k8s.io/v1beta1"; "policy/v1"; "policy/v1beta1"; "rbac.authorization.k8s.io/v1";
   "rbac.authorization.k8s.io/v1beta1"; "rbac.authorization.k8s.io/v1alpha1"; "resource.k8s.io/v1";
   "resource.k8s.io/v1beta2"; "resource.k8s.io/v1beta1"; "resource.k8s.io/v1alpha3"; "scheduling.k8s.io/v1alpha2";
   "scheduling.k8s.io/v1beta1"; "scheduling.k8s.io/v1"; "storage.k8s.io/v1beta1"; "storage.k8s.io/v1";
   "storage.k8s.io/v1alpha1"; "storagemigration.k8s.io/v1beta1"].

Section startup.
Context `{RESTMapper}.

(** The calls that can fail, with the arguments that matter. *)
Inductive Call :=
| AddToScheme (version : string)                      (* operatorv1.AddToScheme, Install *)
| GetConfig                                           (* config.GetConfig *)
| NewKubeClient                                       (* kubernetes.NewForConfig *)
| NewConfigClient                                     (* configclient.NewForConfig *)
| NewManager (options : ManagerOptions)
| NewController (name : string) (reconciler : Reconciler)
| AddWatch (name : string) (k : Kind) (w : Watch k)   (* c.Watch *)
| NewDNSNameResolver (config : DNSNameResolverConfig)
| HTTPClientFor | NewDynamicRESTMapper | NewControllerClient (scheme : Scheme).

(** What the libraries answer: the error of a call, the feature gates observed within a
    minute if any, and the API's reply for the apiserver configuration. *)
Class Libraries := {
  reply : Call → option error;
  observed_gates : option FeatureGate;
  apiserver_reply : APIError + APIServer }.
Context `{Libraries}.

(** The calls made so far are the state. *)
#[local] Notation Start A := (M (list Call) (error + A)).

Definition ok {A} (a : A) : Start A := λ calls, (Some (inr a), calls).
Definition fail {A} (err : error) : Start A := λ calls, (Some (inl err), calls).

Definition attempt {A} (c : Call) (wrap : error → error) (next : Start A) : Start A := λ calls,
  match reply c with
  | Some err => (Some (inl (wrap err)), calls ++ [c])
  | None => next (calls ++ [c])
  end.

(** Go on with the value of a call of our own, or wrap its error. *)
Definition then_ {A B} (m : Start A) (wrap : error → error) (next : A → Start B) : Start B :=
  res ← m; match res with inl err => fail (wrap err) | inr a => next a end.

(** ** pkg/operator/client/client.go *)

(** init: the package's scheme; a registration that fails is a panic. *)
Definition register (version : string) (scheme : Scheme) : M (list Call) Scheme := λ calls,
  match reply (AddToScheme version) with
  | Some err => (None, calls ++ [AddToScheme version])
  | None => (Some (scheme ++ [version]), calls ++ [AddToScheme version])
  end.

Definition client_init : M (list Call) Scheme :=
  scheme ← register "operator.openshift.io/v1" kscheme;
  scheme ← register "config.openshift.io/v1" scheme;
  register "network.openshift.io/v1alpha1" scheme.

Definition GetScheme (scheme : Scheme) : Scheme := scheme.

Definition NewClient (scheme : Scheme) : Start unit :=
  attempt HTTPClientFor (Errorf_v "failed to create http client: ") $
  attempt NewDynamicRESTMapper (Errorf_v "failed to discover api rest mapper: ") $
  attempt (NewControllerClient scheme) (Errorf_v "failed to create kube client: ") $
  ok ().

(** ** The controllers *)

(** New of pkg/operator/controller/controller.go *)
Definition controller_New (config : reconciler) : Start unit :=
  let name := dns_controllerName in
  let objectToDNS {k} := EnqueueRequestsFromMapFunc (k := k) (λ _, objectToDNS) in
  attempt (NewController name (DNSReconciler config)) id $
  attempt (AddWatch name KDNS (mkWatch EnqueueRequestForObject [])) id $
  attempt (AddWatch name KDaemonSet (mkWatch EnqueueRequestForOwner [])) id $
  attempt (AddWatch name KService (mkWatch EnqueueRequestForOwner [])) id $
  attempt (AddWatch name KConfigMap (mkWatch EnqueueRequestForOwner [])) id $
  attempt (AddWatch name KNetworkPolicy (mkWatch (EnqueueRequestsFromMapFunc enqueueRequestForOwningDNS)
    [NewPredicateFuncs (isInNS (nn_Name DefaultDNSOperandNamespaceName))])) id $
  attempt (AddWatch name KConfigMap (mkWatch objectToDNS
    [NewPredicateFuncs (isInNS GlobalUserSpecifiedConfigNamespace)])) id $
  attempt (AddWatch name KAPIServer (mkWatch objectToDNS [])) id $
  attempt (AddWatch name KNode (mkWatch objectToDNS [node_event])) id $
  ok ().

(** New of pkg/operator/controller/status/controller.go *)
Definition status_controller_New (config : Config) : Start unit :=
  let name := status_controllerName in
  attempt (NewController name (StatusReconciler config)) id $
  attempt (AddWatch name KDNS (mkWatch EnqueueRequestForObject [])) id $
  attempt (AddWatch name KDaemonSet (mkWatch EnqueueRequestForOwner [])) id $
  attempt (AddWatch name KClusterOperator (mkWatch (EnqueueRequestsFromMapFunc (λ _, clusteroperatorToDNS))
    [NewPredicateFuncs isDNSClusterOperator])) id $
  ok ().

(** ** The operator *)

Definition metrics_options (config : OperatorConfig) : MetricsOptions :=
  if negb (oc_MetricsCertDir config =s "")
  then mkMetricsOptions (oc_MetricsBindAddress config) true (oc_MetricsCertDir config) true (oc_MetricsTLSOpts config)
  else mkMetricsOptions (oc_MetricsBindAddress config) false "" false [].

(** CurrentFeatureGates of the accessor. *)
Definition CurrentFeatureGates : error + FeatureGate :=
  match observed_gates with
  | None => inl (ErrNew "featureGates not yet observed")
  | Some featureGates => inr featureGates
  end.

(** New of pkg/operator/operator.go; [scheme] is that of package client. *)
Definition operator_New (scheme : Scheme) (config : OperatorConfig) : Start unit :=
  attempt NewKubeClient (ErrWrap "failed to create kube client: ") $
  attempt NewConfigClient (ErrWrap "failed to create openshift client: ") $
  match observed_gates with
  | None => fail (ErrNew "timed out waiting for FeatureGate detection")
  | Some _ =>
      match CurrentFeatureGates with
      | inl err => fail (ErrWrap "failed to get current feature gates: " err)
      | inr featureGates =>
      dnsNameResolverEnabled ← lift_option (FeatureGate_Enabled featureGates FeatureGateDNSNameResolver);
      attempt (NewManager (mkManagerOptions (GetScheme scheme) (metrics_options config) (cache_namespaces (oc_Config config)) false))
        (Errorf_v "failed to create operator manager: ") $
      let cfg := oc_Config config in
      then_ (controller_New (operator_reconciler cfg dnsNameResolverEnabled))
        (Errorf_v "failed to create operator controller: ") $ λ _,
      then_ (status_controller_New cfg) (Errorf_v "failed to create status controller: ") $ λ _,
      if dnsNameResolverEnabled : bool then
        resolver ← lift_option dnsnameresolver_config;
        attempt (NewDNSNameResolver resolver) (Errorf_v "failed to create dnsnameresolver controller: ") (ok ())
      else ok ()
      end
  end.

(** How the run of the manager ends: the context is done, or Start returns. *)
Inductive Stop := ContextDone | ManagerReturned (err : option error).

(** Start, with the way its select is decided.  The goroutine that keeps the default DNS
    in existence is [default_dns_tick] of [Operator]. *)
Definition operator_Start (stop : Stop) : option error :=
  match stop with ContextDone => None | ManagerReturned err => err end.

(** ** The process *)

(** How main ends: with the message of logrus.Fatalf, or by returning. *)
Inductive Exit := Fatal (msg : string) | Returned.

(** The TLS option main builds from the security profile of the cluster, the default
    profile if the apiserver configuration cannot be read. *)
Definition tls_options : error + list (TLSConfig → TLSConfig) :=
  let tlsSecurityProfile := match apiserver_reply with inl _ => None | inr a => as_TLSSecurityProfile a end in
  match TLSConfigFromProfile (TLSProfileSpecForSecurityProfile tlsSecurityProfile) with
  | inl err => inl (Errorf_v "failed to build TLS config from profile: " err)
  | inr tlsCfg => inr [λ cfg,
      mkTLSConfig (tlsc_CipherSuites tlsCfg) (tlsc_MinVersion tlsCfg)
        (if (0 <? length (tlsc_CurvePreferences tlsCfg))%nat then tlsc_CurvePreferences tlsCfg
         else tlsc_CurvePreferences cfg)
        (tlsc_PreferServerCipherSuites cfg)]
  end.

(** The TLS options of the metrics endpoint: none without a certificate directory. *)
Definition main_tls (certDir : string) : Start (list (TLSConfig → TLSConfig)) :=
  if negb (certDir =s "") then
    attempt NewConfigClient (Errorf_v "failed to create config client: ") $
    match tls_options with inl err => fail err | inr opts => ok opts end
  else ok [].

(** main, with the environment and the two flags. *)
Definition main (scheme : Scheme) (env : string → string) (bindAddr certDir : string) (stop : Stop) : M (list Call) Exit :=
  match collect_config env with
  | inl msg => mret (Fatal msg)
  | inr config =>
      res ← then_ (attempt GetConfig (Errorf_v "failed to get kube config: ") (ok ())) id (λ _,
            then_ (main_tls certDir) id (λ tlsOpts,
            then_ (operator_New scheme (mkOperatorConfig config bindAddr certDir tlsOpts))
              (Errorf_v "failed to create operator: ") (λ _, ok ())));
      match res with
      | inl err => mret (Fatal (Error err))
      | inr _ => match operator_Start stop with
                 | Some err => mret (Fatal (Error (Errorf_v "failed to start operator: " err)))
                 | None => mret Returned
                 end
      end
  end.

(** The process: Go initializes the packages before it calls main. *)
Definition process (env : string → string) (bindAddr certDir : string) (stop : Stop) : M (list Call) Exit :=
  scheme ← client_init; main scheme env bindAddr certDir stop.

(** ** Plans *)

(** The calls made of a plan: up to and with the first that fails. *)
Fixpoint performed (plan : list Call) : list Call :=
  match plan with
  | [] => []
  | c :: plan => c :: (match reply c with Some _ => [] | None => performed plan end)
  end.

Definition all_succeed (plan : list Call) : Prop := Forall (λ c, reply c = None) plan.

(** The program makes the calls of the plan in order, stops at the first that fails with
    an error, and otherwise succeeds. *)
Definition follows {A} (plan : list Call) (m : Start A) : Prop := ∀ calls,
  (m calls).2 = calls ++ performed plan ∧
  (all_succeed plan → ∃ a, (m calls).1 = Some (inr a)) ∧
  (¬ all_succeed plan → ∃ err, (m calls).1 = Some (inl err)).

Lemma follows_ok {A} (a : A) : follows [] (ok a).
Proof.
  intros calls. simpl. rewrite app_nil_r. split; [done|]. split; [by exists a|]. intros Hn. by destruct Hn; constructor.
Qed.

Lemma follows_attempt {A} c wrap plan (next : Start A) : follows plan next → follows (c :: plan) (attempt c wrap next).
Proof.
  intros Hn calls. unfold attempt, all_succeed. simpl. rewrite Forall_cons. destruct (reply c) as [err|].
  - split; [done|]. split; [by intros []|]. by exists (wrap err).
  - destruct (Hn (calls ++ [c])) as (Hcalls & Hok & Herr). rewrite Hcalls, <- app_assoc. split; [done|].
    split; [intros [_ Hp]; by apply Hok|]. intros Hp. apply Herr. tauto.
Qed.

Lemma performed_app p1 p2 : all_succeed p1 → performed (p1 ++ p2) = p1 ++ performed p2.
Proof. induction 1 as [|c p1 Hc _ IH]; simpl; [done|]. by rewrite Hc, IH. Qed.

Lemma performed_stop p1 p2 : ¬ all_succeed p1 → performed (p1 ++ p2) = performed p1.
Proof.
  unfold all_succeed. induction p1 as [|c p1 IH]; simpl; [intros Hn; by destruct Hn; constructor|]. rewrite Forall_cons.
  destruct (reply c); [done|]. intros Hn. rewrite IH; tauto.
Qed.

Lemma performed_all p : all_succeed p → performed p = p.
Proof. intros Hp. pose proof (performed_app p [] Hp) as He. by rewrite app_nil_r, app_nil_r in He. Qed.

Lemma follows_then_value {A B} p1 p2 (m : Start A) wrap (next : A → Start B) :
  follows p1 m → (∀ calls a calls', m calls = (Some (inr a), calls') → follows p2 (next a)) →
  follows (p1 ++ p2) (then_ m wrap next).
Proof.
  intros Hm Hnext calls. destruct (Hm calls) as (Hcalls & Hok & Herr). unfold then_, mbind, M_bind.
  specialize (Hnext calls). destruct (m calls) as [res calls']; cbn [fst snd] in *. subst calls'.
  destruct (decide (Forall (λ c, reply c = None) p1)) as [Hp|Hp].
  - destruct (Hok Hp) as [a ->]. rewrite (performed_all p1 Hp).
    destruct (Hnext a _ eq_refl (calls ++ p1)) as (H1' & H2' & H3').
    rewrite H1', performed_app, app_assoc by done. split; [done|].
    unfold all_succeed in *. rewrite Forall_app. split; [intros []; auto|]. intros Hnot. apply H3'. tauto.
  - destruct (Herr Hp) as [err ->]. cbn [fail fst snd]. rewrite performed_stop by done. split; [done|].
    unfold all_succeed. rewrite Forall_app. split; [by intros []|]. by exists (wrap err).
Qed.

Lemma follows_then {A B} p1 p2 (m : Start A) wrap (next : A → Start B) :
  follows p1 m → (∀ a, follows p2 (next a)) → follows (p1 ++ p2) (then_ m wrap next).
Proof. intros Hm Hn. apply follows_then_value; [done|]. intros. apply Hn. Qed.

(** The calls of the two controllers, and of New. *)
Definition controller_plan (name : string) (reconciler : Reconciler) (watches : ∀ k, list (Watch k)) (kinds : list (Kind * nat))
    : list Call :=
  NewController name reconciler ::
  omap (λ ki : Kind * nat, AddWatch name ki.1 <$> watches ki.1 !! ki.2) kinds.

Definition dns_plan (r : reconciler) : list Call :=
  controller_plan dns_controllerName (DNSReconciler r) dns_watches
    [(KDNS, 0); (KDaemonSet, 0); (KService, 0); (KConfigMap, 0); (KNetworkPolicy, 0); (KConfigMap, 1);
     (KAPIServer, 0); (KNode, 0)].

Definition status_plan (config : Config) : list Call :=
  controller_plan status_controllerName (StatusReconciler config) status_watches
    [(KDNS, 0); (KDaemonSet, 0); (KClusterOperator, 0)].

Definition start_plan (scheme : Scheme) (config : OperatorConfig) (enabled : bool) : list Call :=
  [NewKubeClient; NewConfigClient;
   NewManager (mkManagerOptions scheme (metrics_options config) (cache_namespaces (oc_Config config)) false)]
  ++ dns_plan (operator_reconciler (oc_Config config) enabled)
  ++ status_plan (oc_Config config)
  ++ (if enabled then [NewDNSNameResolver (mkDNSNameResolverConfig "openshift-dns" "dns-default" "5353"
                                             "openshift-ovn-kubernetes")] else []).

Lemma follows_controller_New r : follows (dns_plan r) (controller_New r).
Proof. repeat apply follows_attempt. apply follows_ok. Qed.

Lemma follows_status_controller_New config : follows (status_plan config) (status_controller_New config).
Proof. repeat apply follows_attempt. apply follows_ok. Qed.

(** Without a certificate directory metrics are served in plain text, and nothing confines
    them to the loopback address. *)
Lemma metrics_without_certificates config addr :
  metrics_options (mkOperatorConfig config addr "" []) = mkMetricsOptions addr false "" false [].
Proof. reflexivity. Qed.

(** The watches a plan registers for a controller, on kind [k], in order. *)
Fixpoint registered (name : string) (k : Kind) (calls : list Call) : list (Watch k) :=
  match calls with
  | AddWatch name' k' w :: calls =>
      match decide (k' = k) with
      | left e => if name' =s name then eq_rect k' Watch w k e :: registered name k calls else registered name k calls
      | right _ => registered name k calls
      end
  | _ :: calls => registered name k calls
  | [] => []
  end.

Lemma registered_app name k a b : registered name k (a ++ b) = registered name k a ++ registered name k b.
Proof.
  induction a as [|c a IH]; [done|]. destruct c; simpl; try done.
  destruct (decide _); [case_match; simpl; by rewrite IH|done].
Qed.

Lemma registered_dns r k :
  registered dns_controllerName k (dns_plan r) = dns_watches k ∧ registered status_controllerName k (dns_plan r) = [].
Proof. split; destruct k; reflexivity. Qed.

Lemma registered_status config k :
  registered dns_controllerName k (status_plan config) = [] ∧
  registered status_controllerName k (status_plan config) = status_watches k.
Proof. split; destruct k; reflexivity. Qed.

Lemma controller_plan_calls name r ws kinds c :
  c ∈ controller_plan name r ws kinds → c = NewController name r ∨ ∃ k w, c = AddWatch name k w.
Proof.
  unfold controller_plan. rewrite elem_of_cons. intros [->|Hin]; [by left|right].
  apply list_elem_of_omap in Hin as (ki & _ & Hc). destruct (ws ki.1 !! ki.2); [|done]. injection Hc as <-. eauto.
Qed.

(** What New calls, besides creating the controllers and their watches. *)
Lemma start_plan_calls scheme config enabled c :
  c ∈ start_plan scheme config enabled →
  (∃ name r, c = NewController name r) ∨ (∃ name k w, c = AddWatch name k w) ∨ c = NewKubeClient ∨ c = NewConfigClient ∨
  c = NewManager (mkManagerOptions scheme (metrics_options config) (cache_namespaces (oc_Config config)) false) ∨
  (enabled = true ∧ ∃ r, c = NewDNSNameResolver r).
Proof.
  unfold start_plan, dns_plan, status_plan. rewrite !elem_of_app. intros [Hin|[Hin|[Hin|Hin]]].
  - rewrite !elem_of_cons, elem_of_nil in Hin. naive_solver.
  - apply controller_plan_calls in Hin. naive_solver.
  - apply controller_plan_calls in Hin. naive_solver.
  - destruct enabled; [apply list_elem_of_singleton in Hin as ->|by apply elem_of_nil in Hin]. naive_solver.
Qed.

Lemma follows_operator_New scheme config g enabled :
  observed_gates = Some g → FeatureGate_Enabled g FeatureGateDNSNameResolver = Some enabled →
  follows (start_plan scheme config enabled) (operator_New scheme config).
Proof.
  intros Hg He. unfold operator_New, CurrentFeatureGates. rewrite Hg, He. do 2 apply follows_attempt.
  apply (follows_attempt (NewManager _)).
  apply follows_then; [apply follows_controller_New|]. intros _.
  apply follows_then; [apply follows_status_controller_New|]. intros _.
  destruct enabled; [|apply follows_ok]. exact (follows_attempt _ _ [] _ (follows_ok ())).
Qed.

(** The scheme after the initialization of package client. *)
Definition client_scheme : Scheme :=
  kscheme ++ ["operator.openshift.io/v1"; "config.openshift.io/v1"; "network.openshift.io/v1alpha1"].

Definition init_plan : list Call :=
  [AddToScheme "operator.openshift.io/v1"; AddToScheme "config.openshift.io/v1"; AddToScheme "network.openshift.io/v1alpha1"].

Lemma client_init_run calls :
  if decide (Forall (λ c, reply c = None) init_plan)
  then client_init calls = (Some client_scheme, calls ++ init_plan)
  else (client_init calls).1 = None.
Proof.
  unfold client_init, register, mbind, M_bind, init_plan, client_scheme. destruct (decide _) as [Hp|Hp].
  - rewrite !Forall_cons in Hp. destruct Hp as (H1' & H2' & H3' & _). rewrite H1', H2', H3'.
    by rewrite <- !app_assoc.
  - rewrite !Forall_cons in Hp. destruct (reply (AddToScheme "operator.openshift.io/v1")) eqn:E1; [done|].
    destruct (reply (AddToScheme "config.openshift.io/v1")) eqn:E2; [done|].
    destruct (reply (AddToScheme "network.openshift.io/v1alpha1")) eqn:E3; [done|].
    destruct Hp. do 3 (split; [done|]). constructor.
Qed.

(** Every type the operator works with is registered. *)
Lemma client_scheme_complete k version : api_version k = Some version → version ∈ client_scheme.
Proof. intros Hk. apply (bool_decide_unpack (version ∈ client_scheme)). destruct k; simplify_eq/=; vm_compute; done. Qed.

(** C18: how the operator is put together.  With the feature gates observed, New makes the
    calls of its plan in order, stops with an error at the first that fails, and otherwise
    succeeds.  The plan creates both controllers with the configuration of the process,
    registers for each of them exactly the watches [dns_watches] and [status_watches],
    restricts the cache to the three namespaces, gives the manager a client that knows the
    type of every object the operator works with and does not read from the cache, and
    starts the name-resolver controller exactly when its feature gate is enabled.  Metrics
    are served with TLS and authentication exactly when there is a certificate directory. *)
Theorem operator_New_spec config g enabled :
  observed_gates = Some g → FeatureGate_Enabled g FeatureGateDNSNameResolver = Some enabled →
  let plan := start_plan client_scheme config enabled in
  let r := operator_reconciler (oc_Config config) enabled in
  follows plan (operator_New client_scheme config) ∧
  NewController dns_controllerName (DNSReconciler r) ∈ plan ∧
  NewController status_controllerName (StatusReconciler (oc_Config config)) ∈ plan ∧
  (∀ k, registered dns_controllerName k plan = dns_watches k) ∧
  (∀ k, registered status_controllerName k plan = status_watches k) ∧
  (∀ opts, NewManager opts ∈ plan → mo_CacheNamespaces opts = cache_namespaces (oc_Config config) ∧
     mo_ClientCache opts = false ∧ (∀ k version, api_version k = Some version → version ∈ mo_Scheme opts) ∧
     ms_SecureServing (mo_Metrics opts) = ms_Authenticated (mo_Metrics opts) ∧
     (ms_SecureServing (mo_Metrics opts) = true ↔ oc_MetricsCertDir config ≠ "")) ∧
  ((∃ c, NewDNSNameResolver c ∈ plan) ↔ enabled = true).
Proof.
  intros Hg He. cbv zeta. split; [by eapply follows_operator_New|].
  split; [unfold start_plan; rewrite !elem_of_app; right; left; apply list_elem_of_here|].
  split; [unfold start_plan; rewrite !elem_of_app; right; right; left; apply list_elem_of_here|].
  split; [|split; [|split]].
  - intros k. unfold start_plan. rewrite !registered_app. destruct (registered_dns (operator_reconciler (oc_Config config) enabled) k) as [-> _].
    destruct (registered_status (oc_Config config) k) as [-> _]. rewrite app_nil_l. by destruct enabled; simpl; rewrite app_nil_r.
  - intros k. unfold start_plan. rewrite !registered_app. destruct (registered_dns (operator_reconciler (oc_Config config) enabled) k) as [_ ->].
    destruct (registered_status (oc_Config config) k) as [_ ->]. by destruct enabled; simpl; rewrite app_nil_r.
  - intros opts Hin. apply start_plan_calls in Hin.
    assert (opts = mkManagerOptions client_scheme (metrics_options config) (cache_namespaces (oc_Config config)) false) as ->
      by naive_solver.
    cbn [mo_CacheNamespaces mo_ClientCache mo_Scheme mo_Metrics]. do 2 (split; [done|]). split; [apply client_scheme_complete|].
    unfold metrics_options. destruct (oc_MetricsCertDir config =s "") eqn:E; to_prop; simpl; naive_solver.
  - split; [intros [c Hin%start_plan_calls]; naive_solver|]. intros ->. eexists. unfold start_plan.
    rewrite !elem_of_app. do 3 right. apply list_elem_of_here.
Qed.

(** The calls of main. *)
Definition main_plan (config : OperatorConfig) (enabled : bool) : list Call :=
  GetConfig :: (if oc_MetricsCertDir config =s "" then [] else [NewConfigClient]) ++ start_plan client_scheme config enabled.


End startup.

(** ** At concrete libraries *)

(** Everything succeeds; the name resolver is enabled. *)
#[local] Instance all_well : Libraries := {|
  reply _ := None; observed_gates := Some (mkFeatureGate ["DNSNameResolver"] []);
  apiserver_reply := inl (NotFound "") |}.

Lemma operator_New_spec_witness :
  ∃ u, (operator_New client_scheme (mkOperatorConfig sample_config ":9393" "/certs" []) []).1 = Some (inr u).
Proof.
  destruct (@operator_New_spec sample_mapper all_well (mkOperatorConfig sample_config ":9393" "/certs" []) (mkFeatureGate ["DNSNameResolver"] [])
    true eq_refl eq_refl) as [Hf _].
  apply (Hf []). unfold all_succeed. rewrite Forall_forall. intros c _. reflexivity.
Defined.

