(* ===== verification/Claimed.v ===== *)
(** * The marks of the operands

    The watches find the DNS of an operand by a mark on it: an owner reference or a label.
    Every write of the operator keeps the marks of the operands that are watched. *)

From S2P Require Import Prelude GoLib Types Util Labels Numbers Client Mem Names Manifests Samples.
From S2P Require Import Tls DaemonSet DaemonSetProps DNSStatus Corefile CorefileProps Service NodeResolver.
From S2P Require Import NetworkPolicies CABundle Controller ControllerProps Installed StatusController Operator.
From S2P Require Import Watches WatchesProps.

Create HintDb dnsop_marks.

(** The operands of the DNS [name] that are watched. *)
Definition watched_keys (name : string) : list (Kind * NamespacedName) :=
  [(KDaemonSet, mkNN "openshift-dns" ("dns-" +:+ name)); (KDaemonSet, mkNN "openshift-dns" "node-resolver");
   (KService, mkNN "openshift-dns" ("dns-" +:+ name)); (KConfigMap, mkNN "openshift-dns" ("dns-" +:+ name));
   (KNetworkPolicy, mkNN "openshift-dns" ("dns-" +:+ name));
   (KNetworkPolicy, mkNN "openshift-dns" "openshift-dns-deny-all")].

Section marks.
Context `{RESTMapperLaws} `{UnicodeTables} `{FloatConversion} `{Assets}.
Context {W : Type} `{RuntimeLaws W} (r : reconciler) (name : string).

(** The object is not a watched operand, or it is claimed. *)
Definition marked (k : Kind) (o : obj k) : Prop :=
  (k, key_of k o) ∈ watched_keys name → claimed name k o.

Definition all_marked (w : W) : Prop := ∀ k n o, view w k n = Some o → marked k o.

(** Running [m] keeps the marks, whether or not it panics, and a value it returns
    satisfies [P]. *)
Definition keeps_marks {A} (P : A → Prop) (m : M W A) : Prop :=
  ∀ w, all_marked w → all_marked (m w).2 ∧ ∀ a, (m w).1 = Some a → P a.

Lemma marked_kept k (o o' : obj k) :
  key_of k o' = key_of k o → kept_meta k o o' → marked k o → marked k o'.
Proof.
  unfold marked. intros -> [Hrefs Hlabels] Hm Hin. specialize (Hm Hin). unfold claimed in *.
  destruct k; try done; [by rewrite Hrefs..|]. by eapply lookup_weaken.
Qed.

Lemma marked_other k (o : obj k) : k ∉ [KDaemonSet; KService; KConfigMap; KNetworkPolicy] → marked k o.
Proof. intros Hk Hin. unfold watched_keys in Hin. set_solver. Qed.

Lemma marked_namespace k (o : obj k) : om_Namespace (meta_of k o) ≠ DefaultOperandNamespace → marked k o.
Proof. intros Hn Hin. unfold watched_keys, key_of in Hin. set_unfold in Hin. naive_solver. Qed.

Lemma marked_built dns k o : dns_Name dns = name → built_for dns k o → marked k o.
Proof. intros Hn Hb _. rewrite <- Hn. apply (built_for_claimed dns k o Hb). Qed.

(** ** Rules *)

Lemma marks_ret {A} (P : A → Prop) (a : A) : P a → keeps_marks P (mret a : M W A).
Proof. intros Ha w Hw. split; [done|]. by intros ? [= <-]. Qed.

Lemma marks_bind {A B} (P : A → Prop) (Q : B → Prop) (m : M W A) (f : A → M W B) :
  keeps_marks P m → (∀ a, P a → keeps_marks Q (f a)) → keeps_marks Q (m ≫= f).
Proof.
  intros Hm Hf w Hw. unfold mbind, M_bind. destruct (Hm w Hw) as [Hw1 Ha].
  destruct (m w) as [[a|] w1]; [|done]. by apply Hf; [apply Ha|].
Qed.

Lemma marks_weaken {A} (P Q : A → Prop) (m : M W A) : keeps_marks P m → (∀ a, P a → Q a) → keeps_marks Q m.
Proof. intros Hm HPQ w Hw. destruct (Hm w Hw) as [? HP]. split; [done|]. auto. Qed.

Lemma marks_returns {A} (P Q : A → Prop) (m : M W A) :
  keeps_marks P m → returns Q m → keeps_marks (λ a, P a ∧ Q a) m.
Proof.
  intros Hm HQ w Hw. destruct (Hm w Hw) as [Hw1 HP]. split; [done|]. intros a Ha. split; [auto|].
  apply (HQ w a (m w).2). rewrite <- Ha. apply surjective_pairing.
Qed.

Lemma marks_touches {A} (m : M W A) : touches ∅ m → keeps_marks (λ _, True) m.
Proof.
  intros Hm w Hw. split; [|done]. intros k n o. rewrite (Hm w k n ltac:(set_solver)). apply Hw.
Qed.

Lemma marks_lift {A} (o : option A) : keeps_marks (λ a, o = Some a) (lift_option o : M W A).
Proof. intros w Hw. split; [done|]. by destruct o; intros ? [= <-]. Qed.

Lemma marks_Get k n : keeps_marks (λ res, ∀ o, res = inr o → marked k o) (call (client_Get k n)).
Proof.
  intros w Hw. unfold call. pose proof (get_frame k n w) as Hf. pose proof (get_found k n w) as Hg.
  destruct (client_Get k n w) as [res w1]; cbn [fst snd] in *. split.
  - intros k' n' o. rewrite Hf. apply Hw.
  - intros ? [= <-] o ->. eapply Hw. by apply Hg.
Qed.

(** A write of one object, which the server keeps or changes within its metadata. *)
Lemma marks_write k (o : obj k) (w w' : W) :
  marked k o → all_marked w → (∀ k' n', (k', n') ≠ (k, key_of k o) → view w' k' n' = view w k' n') →
  (∀ o', view w' k (key_of k o) = Some o' → view w k (key_of k o) = Some o' ∨ kept_meta k o o') → all_marked w'.
Proof.
  intros Hm Hw Hother Hthis k' n' o' Ho'.
  destruct (decide ((k', n') = (k, key_of k o))) as [[= -> ->]|Hne].
  - destruct (Hthis o' Ho') as [Ho|Hk]; [by eapply Hw|].
    eapply marked_kept; [|exact Hk|done]. by eapply view_key.
  - rewrite Hother in Ho' by done. by eapply Hw.
Qed.

Lemma marks_Create k o : marked k o → keeps_marks (λ _, True) (call (client_Create k o)).
Proof.
  intros Hm w Hw. unfold call. destruct (create_law k o w) as (Hother & _ & _).
  pose proof (create_meta k o w) as Hthis. destruct (client_Create k o w) as [res w1]; cbn [fst snd] in *.
  split; [|done]. by eapply marks_write.
Qed.

Lemma marks_Update k o : marked k o → keeps_marks (λ _, True) (call (client_Update k o)).
Proof.
  intros Hm w Hw. unfold call. pose proof (update_meta k o w) as Hthis.
  assert (∀ k' n', (k', n') ≠ (k, key_of k o) → view (client_Update k o w).2 k' n' = view w k' n') as Hother.
  { destruct (released k o) eqn:Er; [apply (release_law k o w Er)|apply (update_law k o w Er)]. }
  destruct (client_Update k o w) as [res w1]; cbn [fst snd] in *. split; [|done]. by eapply marks_write.
Qed.

Lemma marks_StatusUpdate k o :
  k ∉ [KDaemonSet; KService; KConfigMap; KNetworkPolicy] → keeps_marks (λ _, True) (call (client_StatusUpdate k o)).
Proof.
  intros Hk w Hw. unfold call. destruct (status_law k o w) as (Hother & _ & _).
  destruct (client_StatusUpdate k o w) as [res w1]; cbn [fst snd] in *. split; [|done].
  intros k' n' o' Ho'. destruct (decide (k' = k)) as [->|Hne]; [by apply marked_other|].
  rewrite Hother in Ho' by congruence. by eapply Hw.
Qed.

Lemma marks_Delete k n : keeps_marks (λ _, True) (call (client_Delete k n)).
Proof.
  intros w Hw. unfold call. pose proof (delete_frame k n w) as Hother. pose proof (delete_meta k n w) as Hthis.
  destruct (client_Delete k n w) as [res w1]; cbn [fst snd] in *. split; [|done].
  intros k' n' o' Ho'. destruct (decide ((k', n') = (k, n))) as [[= -> ->]|Hne].
  - destruct (Hthis o' Ho') as (o & Ho & Hk). eapply marked_kept; [|exact Hk|by eapply Hw].
    rewrite (view_key _ _ _ _ Ho). by eapply view_key.
  - rewrite Hother in Ho' by done. by eapply Hw.
Qed.

Lemma marks_cache_List k l : keeps_marks (λ _, True) (call (cache_List k l)).
Proof. apply marks_touches. exact (touches_cache_List ∅ k l). Qed.

(** The lookup every handler starts with. *)
Lemma marks_lookup k n : keeps_marks (λ res, ∀ o, res.1 = Some o → marked k o) (lookup k n).
Proof.
  unfold lookup. eapply marks_bind; [apply marks_Get|].
  intros [e|o] Ho; [destruct (IsNotFound e)|]; apply marks_ret; naive_solver.
Qed.

Lemma marks_Get_True k n : keeps_marks (λ _, True) (call (client_Get k n)).
Proof. eapply marks_weaken; [apply marks_Get|done]. Qed.

Lemma marks_lookup_True k n : keeps_marks (λ _, True) (lookup k n).
Proof. eapply marks_weaken; [apply marks_lookup|done]. Qed.

#[local] Hint Resolve marks_Get_True marks_cache_List marks_Delete marks_lookup_True : dnsop_marks.

(** Walk through a handler; the side conditions are the marks of what it writes. *)
Ltac marks :=
  repeat (intros; first
    [ solve [auto with dnsop_marks]
    | match goal with
      | |- keeps_marks _ (mret _) => apply marks_ret; done
      | |- keeps_marks _ (call (client_Get ?k ?n)) => apply (marks_Get_True k n)
      | |- keeps_marks _ (call (cache_List ?k ?l)) => apply (marks_cache_List k l)
      | |- keeps_marks _ (call (client_Delete ?k ?n)) => apply (marks_Delete k n)
      | |- keeps_marks _ (lift_option _) => eapply marks_weaken; [apply marks_lift|done]
      | |- keeps_marks _ (call (client_Create ?k ?o)) =>
          apply (marks_Create k o); solve [auto with dnsop_marks | apply marked_other; set_solver]
      | |- keeps_marks _ (call (client_Update ?k ?o)) =>
          apply (marks_Update k o); solve [auto with dnsop_marks | apply marked_other; set_solver]
      end
    | apply (marks_bind (λ _, True))
    | match goal with |- keeps_marks _ (match ?x with _ => _ end) => destruct x end ]).

(** ** Updates *)

(** Everything but these fields of the metadata is free to change. *)
Lemma marked_same k (o o' : obj k) :
  om_Name (meta_of k o') = om_Name (meta_of k o) → om_Namespace (meta_of k o') = om_Namespace (meta_of k o) →
  om_OwnerReferences (meta_of k o') = om_OwnerReferences (meta_of k o) →
  om_Labels (meta_of k o') = om_Labels (meta_of k o) → marked k o → marked k o'.
Proof.
  intros H1' H2' H3' H4'. apply marked_kept; [unfold key_of; congruence|]. split; [done|by rewrite H4'].
Qed.

Lemma marks_updateDNSDaemonSet a b :
  marked KDaemonSet a → keeps_marks (λ _, True) (updateDNSDaemonSet (W := W) a b).
Proof.
  intros Ha. unfold updateDNSDaemonSet.
  assert (∀ u, ds_meta u = ds_meta a → marked KDaemonSet u) as Hu
    by (intros u Hu; apply (marked_same KDaemonSet a); simpl; by rewrite ?Hu).
  eapply marks_bind; [apply marks_lift|]. intros [u|] Hch; [|marks].
  apply daemonsetConfigChanged_meta in Hch.
  apply (marks_bind (λ _, True)); [apply marks_touches, touches_daemonsetUpdateIsSafe|].
  intros [e|[]] _; [marks| |].
  - apply (marks_bind (λ _, True)); [apply (marks_Update KDaemonSet), Hu, Hch|marks].
  - apply (marks_bind (λ _, True)); [marks|]. intros [u'|] _; [|marks].
    apply (marks_bind (λ _, True)); [apply (marks_Update KDaemonSet), Hu, Hch|marks].
Qed.

Lemma marks_updateNodeResolverDaemonSet a b :
  marked KDaemonSet a → keeps_marks (λ _, True) (updateNodeResolverDaemonSet (W := W) a b).
Proof.
  intros Ha. unfold updateNodeResolverDaemonSet. eapply marks_bind; [apply marks_lift|].
  intros [u|] Hch; [|marks]. apply (marks_bind (λ _, True)); [|marks]. apply (marks_Update KDaemonSet).
  pose proof (nodeResolverDaemonSetConfigChanged_meta _ _ _ Hch) as Hu.
  apply (marked_same KDaemonSet a); simpl; by rewrite ?Hu.
Qed.

Lemma marks_updateDNSConfigMap a b :
  marked KConfigMap a → keeps_marks (λ _, True) (updateDNSConfigMap (W := W) a b).
Proof.
  intros Ha. unfold updateDNSConfigMap, corefileChanged. case_bool_decide; [marks|].
  apply (marks_bind (λ _, True)); [|marks]. apply (marks_Update KConfigMap). by apply (marked_same KConfigMap a).
Qed.

Lemma marks_updateDNSService a b : marked KService a → keeps_marks (λ _, True) (updateDNSService (W := W) a b).
Proof.
  intros Ha. unfold updateDNSService. destruct (serviceChanged a b) as [u|] eqn:E; [|marks].
  apply (marks_bind (λ _, True)); [|marks]. apply (marks_Update KService). apply (marked_same KService a); [..|done];
    (revert E; unfold serviceChanged; case_match; [done|by intros [= <-]]).
Qed.

(** A network policy gets the labels and owners of the desired one. *)
Lemma marks_updateDNSNetworkPolicy a b :
  key_of KNetworkPolicy a = key_of KNetworkPolicy b → marked KNetworkPolicy b →
  keeps_marks (λ _, True) (updateDNSNetworkPolicy (W := W) a b).
Proof.
  intros Hk Hb. unfold updateDNSNetworkPolicy. destruct (networkPolicyChanged a b) as [[] u] eqn:E; cbn [negb]; [|marks].
  apply (marks_bind (λ _, True)); [|marks]. apply (marks_Update KNetworkPolicy).
  assert (key_of KNetworkPolicy u = key_of KNetworkPolicy a ∧ om_Labels (netpol_meta u) = om_Labels (netpol_meta b) ∧
    om_OwnerReferences (netpol_meta u) = om_OwnerReferences (netpol_meta b)) as (Hu & Hl & Ho).
  { revert E. unfold networkPolicyChanged. intros E. repeat case_match; simplify_eq/=; to_prop;
      repeat case_bool_decide; simplify_eq/=; auto. }
  eapply marked_kept; [|split; [exact Ho|]|exact Hb]; [congruence|]. simpl. by rewrite Hl.
Qed.

#[local] Hint Resolve marks_updateDNSDaemonSet marks_updateNodeResolverDaemonSet marks_updateDNSConfigMap
  marks_updateDNSService : dnsop_marks.

(** ** Handlers *)

(** A handler: look the object up, then create the built one or update the found one. *)
Lemma marks_ensure k n {A} (P : A → Prop) (f : option (obj k) * option error → M W A) :
  (∀ o e, marked k o → keeps_marks P (f (Some o, e))) → (∀ e, keeps_marks P (f (None, e))) →
  keeps_marks P (lookup k n ≫= f).
Proof.
  intros Hsome Hnone. eapply marks_bind; [apply marks_lookup|]. intros [[o|] e] Ho; [|apply Hnone].
  apply Hsome. by apply Ho.
Qed.

Section dns.
Context (dns : DNS) (Hdns : dns_Name dns = name) (Hname : name = DefaultDNSController).

Lemma marks_ensureDNSDaemonSet m tsp : keeps_marks (λ _, True) (ensureDNSDaemonSet (W := W) r dns m tsp).
Proof.
  apply (marks_ensure KDaemonSet); [intros o [e|] Ho|intros [e|]]; [marks| |marks|]; unfold currentDNSDaemonSet.
  - marks.
  - eapply marks_bind; [apply marks_lift|]. intros [e|desired] Hd; [marks|]. unfold createDNSDaemonSet.
    assert (marked KDaemonSet desired) by (by eapply marked_built; [|by eapply built_daemonset]). marks.
Qed.

Lemma marks_ensureNodeResolverDaemonSet ip cd :
  keeps_marks (λ _, True) (ensureNodeResolverDaemonSet (W := W) r dns ip cd).
Proof.
  apply (marks_ensure KDaemonSet); [intros o [e|] Ho|intros [e|]]; [marks| |marks|];
    cbn [desiredNodeResolverDaemonSet]; unfold currentNodeResolverDaemonSet; [marks|].
  unfold createNodeResolverDaemonSet. set (desired := mkDaemonSet _ _ _).
  assert (marked KDaemonSet desired).
  { eapply marked_built; [done|]. by eapply (built_node_resolver dns ip cd (cfg_OpenshiftCLIImage (r_Config r))). }
  marks.
Qed.

Lemma marks_ensureDNSConfigMap cd m : keeps_marks (λ _, True) (ensureDNSConfigMap (W := W) r dns cd m).
Proof.
  apply (marks_ensure KConfigMap); [intros o [e|] Ho|intros [e|]]; [marks| |marks|];
    unfold currentDNSConfigMap; [marks|].
  destruct (desiredDNSConfigMap _ _ _ _ _) as [e|desired] eqn:Hd; [marks|].
  assert (marked KConfigMap desired) by (by eapply marked_built; [|by eapply built_configmap]). marks.
Qed.

Lemma marks_ensureDNSService ip ref : keeps_marks (λ _, True) (ensureDNSService (W := W) dns ip ref).
Proof.
  assert (∀ hints, marked KService (desiredDNSService dns ip hints ref)) as Hd
    by (intros hints; by eapply marked_built; [|by eapply built_service]).
  apply (marks_ensure KService); [intros o [e|] Ho|intros [e|]]; [marks| |marks|];
    unfold currentDNSService, shouldEnableTopologyAwareHints; marks.
Qed.

Lemma marks_network_policy (desired : NetworkPolicy) n (f : option NetworkPolicy * option error → M W NPResult) :
  marked KNetworkPolicy desired → key_of KNetworkPolicy desired = n →
  (∀ o e, key_of KNetworkPolicy o = n → keeps_marks (λ _, True) (f (Some o, e))) →
  (∀ e, keeps_marks (λ _, True) (f (None, e))) → keeps_marks (λ _, True) (lookup KNetworkPolicy n ≫= f).
Proof.
  intros Hd Hk Hsome Hnone w Hw. unfold mbind, M_bind.
  destruct (marks_lookup_True KNetworkPolicy n w Hw) as [Hw1 _].
  assert (returns (λ res, ∀ o, res.1 = Some o → key_of KNetworkPolicy o = n) (lookup (W := W) KNetworkPolicy n)) as Hr.
  { eapply returns_bind; [apply returns_Get|]. intros [e|o] Ho; [case_match|]; apply returns_ret; naive_solver. }
  specialize (Hr w). destruct (lookup KNetworkPolicy n w) as [[[[o|] e]|] w1]; [| |done].
  - apply Hsome; [|done]. by apply (Hr _ _ eq_refl).
  - by apply Hnone.
Qed.

Lemma marks_ensureDNSNetworkPolicy : keeps_marks (λ _, True) (ensureDNSNetworkPolicy (W := W) dns).
Proof.
  assert (marked KNetworkPolicy (desiredDNSNetworkPolicy dns)) as Hd by (eapply marked_built; [done|constructor]).
  apply (marks_network_policy (desiredDNSNetworkPolicy dns)); [done|done|intros o [e|] Ho|intros [e|]];
    unfold currentDNSNetworkPolicy; [marks| |marks|marks].
  apply (marks_bind (λ _, True)); [by apply marks_updateDNSNetworkPolicy|marks].
Qed.

Lemma marks_ensureDenyAllNetworkPolicy : keeps_marks (λ _, True) (ensureDenyAllNetworkPolicy (W := W)).
Proof.
  assert (marked KNetworkPolicy NetworkPolicyDenyAll) as Hd
    by (eapply (marked_built dns); [done|constructor; congruence]).
  apply (marks_network_policy NetworkPolicyDenyAll); [done|done|intros o [e|] Ho|intros [e|]];
    unfold currentDenyAllNetworkPolicy; [marks| |marks|marks].
  apply (marks_bind (λ _, True)); [by apply marks_updateDNSNetworkPolicy|marks].
Qed.

Lemma marks_for_errs {A} (body : A → M W (list error)) l :
  (∀ a, keeps_marks (λ _, True) (body a)) → keeps_marks (λ _, True) (for_errs body l).
Proof. intros Hb. induction l as [|a l IH]; simpl; marks. Qed.

Lemma marks_ensureCABundleConfigMaps : keeps_marks (λ _, True) (ensureCABundleConfigMaps (W := W) dns).
Proof.
  unfold ensureCABundleConfigMaps.
  apply (marks_bind (λ _, True)).
  - apply marks_for_errs. intros src. unfold sync_ca_bundle.
    apply (marks_bind (λ _, True)); [apply marks_touches, touches_currentCABundleConfigMap|].
    intros [e|[source|]] _; [marks| |marks].
    apply (marks_bind (λ res, ∀ cm, res = inr (Some cm) → marked KConfigMap cm)).
    { unfold currentCABundleConfigMap. case_match; [by apply marks_ret|].
      eapply marks_bind; [apply marks_Get|]. intros [e|cm] Hcm; [case_match|]; apply marks_ret; naive_solver. }
    intros [e|current] Hcur; [marks|].
    destruct (desiredCABundleConfigMap _ _ _ _) as [desired|] eqn:Ed, current as [current|]; unfold deleteConfigMap;
      [| |marks|marks].
    + apply (marks_bind (λ _, True)); [|marks]. unfold updateCABundleConfigMap. case_match; [marks|].
      apply (marks_bind (λ _, True)); [|marks]. apply (marks_Update KConfigMap).
      apply (marked_same KConfigMap current); try done. by apply Hcur.
    + assert (marked KConfigMap desired) by (by eapply marked_built; [|by eapply built_ca_bundle]). marks.
  - intros errs _. apply (marks_bind (λ _, True)); [marks|]. intros res _.
    destruct res; (apply (marks_bind (λ _, True)); [|marks]); apply marks_for_errs; intros cm;
      unfold prune_ca_bundle, deleteConfigMap; marks.
Qed.

Lemma marks_get_or_create k o errorf what :
  marked k o → keeps_marks (λ _, True) (get_or_create (W := W) k o errorf what).
Proof. intros Ho. unfold get_or_create. marks. Qed.

Lemma marks_first_error (steps : list (M W (option error))) :
  Forall (keeps_marks (λ _, True)) steps → keeps_marks (λ _, True) (first_error steps).
Proof. induction 1; simpl; marks. Qed.

Lemma marks_ensureDNSNamespace : keeps_marks (λ _, True) (ensureDNSNamespace (W := W) r).
Proof.
  unfold ensureDNSNamespace. apply marks_first_error.
  constructor; [|constructor; [|repeat (constructor; [apply marks_get_or_create, marked_other; set_solver|]); constructor]].
  - unfold ensure_namespace. marks.
  - apply (marks_bind (λ _, True)); [|intros [? ?] _; marks].
    apply (marks_ensure KClusterRole); unfold currentDNSClusterRole, updateDNSClusterRole; marks.
Qed.

Lemma marks_ensureMetricsIntegration svc ref :
  keeps_marks (λ _, True) (ensureMetricsIntegration (W := W) dns svc ref).
Proof.
  unfold ensureMetricsIntegration. apply marks_first_error.
  do 4 (constructor; [apply marks_get_or_create, marked_other; set_solver|]). constructor; [|constructor].
  apply (marks_bind (λ _, True)); [|intros [? ?] _; marks].
  apply (marks_ensure KServiceMonitor); unfold currentServiceMonitor, updateDNSServiceMonitor; marks.
Qed.

Lemma marks_syncDNSStatus ip cd ods onr tol res :
  keeps_marks (λ _, True) (syncDNSStatus (W := W) dns ip cd ods onr tol res).
Proof.
  unfold syncDNSStatus.
  apply (marks_bind (λ _, True)); [apply marks_touches, touches_computeDNSStatusConditions|].
  intros [[cs [e|]] res'] _; [marks|]. apply (marks_bind (λ _, True)); [marks|]. intros [] _; cbn [negb]; [marks|].
  apply (marks_bind (λ _, True)); [apply (marks_StatusUpdate KDNS); set_solver|marks].
Qed.

#[local] Hint Resolve marks_ensureDNSDaemonSet marks_ensureNodeResolverDaemonSet marks_ensureDNSConfigMap
  marks_ensureDNSService marks_ensureDNSNetworkPolicy marks_ensureDenyAllNetworkPolicy
  marks_ensureCABundleConfigMaps marks_ensureMetricsIntegration marks_syncDNSStatus : dnsop_marks.

Lemma marks_ensureDNS res : keeps_marks (λ _, True) (ensureDNS (W := W) r dns res).
Proof.
  unfold ensureDNS. apply (marks_bind (λ _, True)); [apply marks_touches, touches_getClusterIP|].
  intros [e|ip] _; [marks|]. apply (marks_bind (λ _, True)); [marks|]. intros e1 _.
  apply (marks_bind (λ _, True)); [apply marks_touches, touches_caBundleRevisionMap|]. intros m _.
  apply (marks_bind (λ _, True)); [marks|]. intros api _.
  match goal with |- context [match ?x with inl _ => _ | inr _ => _ end] => destruct x as [e|tsp] end; [marks|].
  unfold ensure_operands, ensure_status. marks.
Qed.

Lemma marks_external :
  keeps_marks (λ _, True) (ensureExternalNameForOpenshiftService (W := W)).
Proof. apply marks_get_or_create, marked_namespace. done. Qed.

Lemma marks_reconcile_unmanaged res : keeps_marks (λ _, True) (reconcile_unmanaged (W := W) dns res).
Proof.
  unfold reconcile_unmanaged. apply (marks_bind (λ _, True)); [apply marks_touches, touches_getClusterIP|].
  intros ip _. destruct (match ip with inl err => _ | inr ip => _ end) as [clusterIP errs].
  unfold currentDNSDaemonSet, currentNodeResolverDaemonSet. marks.
Qed.

Lemma marks_reconcile_deletion errs : keeps_marks (λ _, True) (reconcile_deletion (W := W) dns errs).
Proof.
  unfold reconcile_deletion, ensureOpenshiftExternalNameServiceDeleted, ensureDNSDeleted, ensureDNSDaemonSetDeleted.
  marks.
Qed.

End dns.

Lemma marks_reconcile_managed dns errs res :
  dns_Name dns = name → name = DefaultDNSController →
  keeps_marks (λ _, True) (reconcile_managed (W := W) r dns errs res).
Proof.
  intros Hdns Hname. unfold reconcile_managed.
  apply (marks_bind (λ out : error + DNS, ∀ d, out = inr d → dns_Name d = name)).
  { eapply marks_weaken; [apply (marks_returns (λ _, True)); [unfold enforceDNSFinalizer; marks|]|].
    - by apply (returns_enforceDNSFinalizer (key_of KDNS dns)).
    - intros out [_ Hk] d ->. specialize (Hk d eq_refl). rewrite <- Hdns. by injection Hk. }
  intros [e|d] Hd; [marks|]. specialize (Hd d eq_refl).
  apply (marks_bind (λ _, True)); [by apply marks_ensureDNS|]. intros [[e|] res'] _; [marks|].
  apply (marks_bind (λ _, True)); [apply marks_external|marks].
Qed.

(** Reconcile keeps the marks. *)
Lemma marks_Reconcile :
  name = DefaultDNSController → keeps_marks (λ _, True) (Controller.Reconcile (W := W) r DefaultDNSNamespaceName).
Proof.
  intros Hname. unfold Controller.Reconcile. rewrite bool_decide_true by done. cbn [negb].
  eapply marks_bind; [exact (marks_returns _ _ _ (marks_Get_True KDNS DefaultDNSNamespaceName)
    (returns_Get KDNS DefaultDNSNamespaceName))|].
  intros [e|dns] [_ Hk]; [marks|]. specialize (Hk dns eq_refl).
  assert (dns_Name dns = name) as Hdns by (rewrite Hname; by injection Hk).
  apply (marks_bind (λ _, True)); [apply marks_touches, touches_call; intros; apply setlevel_frame|]. intros _ _.
  destruct (bool_decide (spec_ManagementState _ = _)).
  { apply (marks_bind (λ _, True)); [by apply marks_reconcile_unmanaged|]. intros [? ?] _. marks. }
  apply (marks_bind (λ _, True)); [by apply (marks_ensureDNSNamespace dns)|]. intros err _.
  destruct (om_DeletionTimestamp (dns_meta dns)).
  - apply (marks_bind (λ _, True)); [by apply marks_reconcile_deletion|marks].
  - apply (marks_bind (λ _, True)); [by apply marks_reconcile_managed|marks].
Qed.

End marks.
