(* ===== verification/System.v ===== *)
(** * The running operator

    The two controllers with their work queues, and everybody else who
    writes to the cluster, as a transition system; and the invariants of its reachable
    states. *)

From S2P Require Import Prelude GoLib Types Util Labels Numbers Client Mem Names Manifests Samples.
From S2P Require Import Tls DaemonSet DaemonSetProps DNSStatus Corefile CorefileProps Service NodeResolver.
From S2P Require Import NetworkPolicies CABundle Controller ControllerProps Installed StatusController.
From S2P Require Import StatusControllerProps Operator Watches WatchesProps Claimed.

Section system.
Context `{RESTMapperLaws} `{UnicodeTables} `{FloatConversion} `{Assets}.
Context {W : Type} `{RuntimeLaws W} `{!MapRange W} `{!MapRangeLaws W} (r : reconciler).

(** The cluster, and the requests the two controllers have pending: queued, delayed or
    rate-limited. *)
Record Sys := mkSys {
  sys_world : W; sys_queue : list NamespacedName; sys_status_queue : list NamespacedName }.

(** reconcileHandler of controller-runtime: whether the request is queued again.  A panic
    is recovered and counts as an error. *)
Definition requeued (out : option (Result * option error)) : bool :=
  match out with
  | None => true
  | Some (_, Some _) => true
  | Some (result, None) => (0 <? res_RequeueAfter result)%Z || res_Requeue result
  end.

(** The events between two states of the cluster. *)
Inductive change (w w' : W) : ∀ k, Event k → Prop :=
| change_created k n o : view w k n = None → view w' k n = Some o → change w w' k (CreateEvent o)
| change_updated k n o o' :
    view w k n = Some o → view w' k n = Some o' → o ≠ o' → change w w' k (UpdateEvent o o')
| change_deleted k n o : view w k n = Some o → view w' k n = None → change w w' k (DeleteEvent o).

(** The queue after a step: what was there, and the requests of every event, at least. *)
Definition noticed_by (requests : ∀ k, Event k → list NamespacedName) (w w' : W) (q q' : list NamespacedName) : Prop :=
  q ⊆ q' ∧ ∀ k e, change w w' k e → requests k e ⊆ q'.

Definition noticed : W → W → list NamespacedName → list NamespacedName → Prop := noticed_by (dns_requests (r_Config r)).
Definition status_noticed : W → W → list NamespacedName → list NamespacedName → Prop :=
  noticed_by (status_requests (r_Config r)).

(** What is pending while a request is handled: a request that has to be handled again
    stays. *)
Definition left_over (req : NamespacedName) (out : option (Result * option error)) (q : list NamespacedName)
    : list NamespacedName :=
  if requeued out then q else filter (λ x, x ≠ req) q.

(** What others may do to the cluster: anything, except remove the operator's mark from
    its operands (or put an operand in place without it), and write the status of a DNS. *)
Definition others_may (w w' : W) : Prop :=
  (∀ k n o, view w' k n = Some o → view w k n = Some o ∨ marked DefaultDNSController k o) ∧
  (∀ n d', view w' KDNS n = Some d' →
     st_Conditions (dns_Status d') = [] ∨ ∃ d, view w KDNS n = Some d ∧ dns_Status d' = dns_Status d).

(** A pending request is for a cluster-scoped object; DNSes are. *)
Inductive step : Sys → Sys → Prop :=
| step_reconcile w q p req out w' q' p' :
    req ∈ q → nn_Namespace req = "" → Controller.Reconcile r req w = (out, w') →
    noticed w w' (left_over req out q) q' → status_noticed w w' p p' →
    step (mkSys w q p) (mkSys w' q' p')
| step_status w q p req out w' q' p' :
    req ∈ p → StatusController.Reconcile (r_Config r) req w = (out, w') →
    noticed w w' q q' → status_noticed w w' (left_over req out p) p' →
    step (mkSys w q p) (mkSys w' q' p')
| step_default w q p synced out w' q' p' :
    default_dns_tick synced w = (out, w') → noticed w w' q q' → status_noticed w w' p p' →
    step (mkSys w q p) (mkSys w' q' p')
| step_others w q p w' q' p' :
    others_may w w' → noticed w w' q q' → status_noticed w w' p p' → step (mkSys w q p) (mkSys w' q' p').

(** The operator has started: the objects that exist have been listed, so a default DNS
    is queued for both controllers. *)
Definition started (s : Sys) : Prop :=
  all_marked DefaultDNSController (sys_world s) ∧
  (is_Some (view (sys_world s) KDNS DefaultDNSNamespaceName) →
     DefaultDNSNamespaceName ∈ sys_queue s ∧ DefaultDNSNamespaceName ∈ sys_status_queue s) ∧
  (∀ n d, view (sys_world s) KDNS n = Some d → ¬ reports_degraded (dns_Status d)).

(** The DNS asks for its operands. *)
Definition wanted (dns : DNS) : Prop :=
  spec_ManagementState (dns_Spec dns) ≠ Unmanaged ∧ om_DeletionTimestamp (dns_meta dns) = None.

(** No wake-up is lost: while the default DNS wants its operands, each watched one exists
    or a reconciliation is pending. *)
Definition awake (s : Sys) : Prop :=
  all_marked DefaultDNSController (sys_world s) ∧
  ∀ d, view (sys_world s) KDNS DefaultDNSNamespaceName = Some d → wanted d →
    DefaultDNSNamespaceName ∈ sys_queue s ∨ Forall (present (sys_world s)) (watched_keys DefaultDNSController).

(** ** Wake-ups *)

Lemma change_valid w w' k e : change w w' k e → valid_event e.
Proof.
  intros [k' n o H1' H2'|k' n o o' H1' H2' _|k' n o H1' H2']; [done| |done]. simpl.
  by rewrite (view_key _ _ _ _ H1'), (view_key _ _ _ _ H2').
Qed.

(** A change of the default DNS is noticed. *)
Lemma dns_noticed w w' q q' :
  noticed w w' q q' → DefaultDNSNamespaceName ∉ q' →
  view w' KDNS DefaultDNSNamespaceName = view w KDNS DefaultDNSNamespaceName ∨
  view w' KDNS DefaultDNSNamespaceName = None.
Proof.
  intros [_ Hev] Hq. destruct (view w' KDNS DefaultDNSNamespaceName) as [d'|] eqn:E'; [left|by right].
  assert (∀ e : Event KDNS, change w w' KDNS e → event_object e = d' → False) as Hno.
  { intros e He Hd. apply Hq, (Hev _ _ He). unfold dns_requests, requests, cached. simpl.
    unfold dispatch, EnqueueRequestForObject. simpl. rewrite Hd, (view_key _ _ _ _ E'). set_solver. }
  destruct (view w KDNS DefaultDNSNamespaceName) as [d|] eqn:E.
  - destruct (decide (d = d')) as [->|Hne]; [done|]. exfalso.
    eapply (Hno (UpdateEvent (k := KDNS) d d')); [by eapply change_updated|done].
  - exfalso. eapply (Hno (CreateEvent (k := KDNS) d')); [by eapply change_created|done].
Qed.

(** The removal of a watched operand is noticed. *)
Lemma operand_noticed w w' q q' kn :
  all_marked DefaultDNSController w → noticed w w' q q' → DefaultDNSNamespaceName ∉ q' →
  kn ∈ watched_keys DefaultDNSController → present w kn → present w' kn.
Proof.
  destruct kn as [k n]. unfold present. simpl. intros Hm [_ Hev] Hq Hkn [o Ho].
  destruct (view w' k n) as [o'|] eqn:E'; [by eexists|]. exfalso. apply Hq.
  pose proof (view_key _ _ _ _ Ho) as Hk.
  assert (claimed DefaultDNSController k o) as Hc by (eapply Hm; [exact Ho|by rewrite Hk]).
  apply (Hev k (DeleteEvent o)); [by eapply change_deleted|].
  apply (claimed_requests (r_Config r) DefaultDNSController k o); [done| |done|apply list_elem_of_here].
  assert (nn_Namespace n = DefaultOperandNamespace) as Hn.
  { clear -Hkn. unfold watched_keys in Hkn. set_unfold in Hkn. naive_solver. }
  by rewrite <- Hn, <- Hk.
Qed.

(** A step in which nothing of this happens, and the queue only grows. *)
Lemma awake_passive w w' q q' p p' :
  all_marked DefaultDNSController w' → noticed w w' q q' → awake (mkSys w q p) → awake (mkSys w' q' p').
Proof.
  intros Hm' Hn [Hm Hd]. split; [done|]. simpl in *. intros d Hview Hwanted.
  destruct (decide (DefaultDNSNamespaceName ∈ q')) as [|Hq]; [by left|right].
  destruct (dns_noticed w w' q q' Hn Hq) as [Hsame|]; [|congruence].
  destruct (Hd d ltac:(congruence) Hwanted) as [Hin|Hall]; [by apply Hn in Hin|].
  rewrite Forall_forall in Hall |- *. intros kn Hkn. by eapply operand_noticed; eauto.
Qed.

(** ** Reconcile puts the operands back *)

Lemma Reconcile_restores w d res w' :
  view w KDNS DefaultDNSNamespaceName = Some d → wanted d →
  Controller.Reconcile r DefaultDNSNamespaceName w = (Some (res, None), w') →
  Forall (present w') (watched_keys DefaultDNSController).
Proof.
  intros Hd [Hman Hlive]. unfold Controller.Reconcile. rewrite bool_decide_true by done. cbn [negb].
  unfold mbind at 1, M_bind at 1, call at 1.
  pose proof (get_found KDNS DefaultDNSNamespaceName w) as Hfound.
  pose proof (get_missing KDNS DefaultDNSNamespaceName w) as Hmiss.
  pose proof (get_key KDNS DefaultDNSNamespaceName w) as Hkey.
  destruct (client_Get KDNS DefaultDNSNamespaceName w) as [[err|dns] w1]; cbn [fst snd] in *.
  { destruct err as [m|m]; [specialize (Hmiss m eq_refl); congruence|done]. }
  assert (dns = d) as -> by (specialize (Hfound dns eq_refl); congruence).
  specialize (Hkey d eq_refl). assert (dns_Name d = DefaultDNSController) as Hname by (by injection Hkey).
  unfold mbind at 1, M_bind at 1, call at 1. destruct (logrus_SetLevel _ w1) as [u w2].
  rewrite bool_decide_false by done. unfold mbind at 1, M_bind at 1.
  destruct (ensureDNSNamespace r w2) as [[err|] w3]; [|done]. rewrite Hlive. unfold mbind at 1, M_bind at 1.
  match goal with |- context [reconcile_managed r d ?es result0 w3] =>
    pose proof (provides_reconcile_managed_early r d es result0 w3) as Hp end.
  unfold wlp in Hp. destruct (reconcile_managed r d _ result0 w3) as [[out|] w4]; [|done].
  intros Hout. assert (nothing_failed out ∧ w4 = w') as [Hok ->].
  { destruct out as [early|[errs res']]; [by injection Hout as <- <-|].
    injection Hout as _ Herr ->. by apply NewAggregate_somes in Herr. }
  specialize (Hp Hok). revert Hp. unfold ensureDNS_keys, operands_keys, metrics_keys, watched_keys.
  unfold DNSDaemonSetName, DNSConfigMapName, DNSNetworkPolicyName, DNSServiceName. rewrite Hname. simpl.
  rewrite !Forall_cons. tauto.
Qed.

(** ** The other steps *)

(** The status controller writes the ClusterOperator only. *)
Lemma touches_status_Reconcile req :
  touches {[ (KClusterOperator, DNSClusterOperatorName) ]} (StatusController.Reconcile (W := W) (r_Config r) req).
Proof.
  unfold StatusController.Reconcile.
  eapply touches_bind_returns; [exact (touches_Get _ KClusterOperator _)|exact (returns_Get KClusterOperator _)|].
  intros res Hres.
  eapply (touches_bind_returns _ (λ res : error + ClusterOperator, ∀ co, res = inr co →
    key_of KClusterOperator co = DNSClusterOperatorName)).
  - destruct res as [err|co]; [|footprint]. destruct (IsNotFound err); [|footprint].
    apply touches_bind; [apply (touches_Create _ KClusterOperator); set_solver|footprint].
  - destruct res as [err|co]; [|apply returns_ret; naive_solver].
    destruct (IsNotFound err); [|apply returns_ret; naive_solver].
    eapply (returns_bind (λ res : APIError + ClusterOperator, ∀ co, res = inr co →
      key_of KClusterOperator co = DNSClusterOperatorName)).
    + intros w a w'. unfold call. destruct (create_law KClusterOperator initializeClusterOperator w) as (_ & _ & Hok).
      destruct (client_Create KClusterOperator initializeClusterOperator w) as [a' w1]. intros [= <- <-] co ->.
      destruct (Hok co eq_refl) as [Hk _]. exact Hk.
    + intros [err'|co] Hco; apply returns_ret; naive_solver.
  - intros [err|co] Hco; [footprint|]. specialize (Hco co eq_refl).
    apply touches_bind; [apply touches_getOperatorState|]. intros [err|state]; [footprint|].
    apply touches_bind; [apply touches_compute_status|]. intros status.
    apply touches_bind; [footprint|]. intros [] ; cbn [negb]; [footprint|].
    apply touches_bind; [apply (touches_StatusUpdate _ KClusterOperator)|footprint].
    change (key_of KClusterOperator (mkClusterOperator (co_meta co) status)) with (key_of KClusterOperator co).
    rewrite Hco. set_solver.
Qed.

(** Steps that write no watched operand keep the marks. *)
Lemma marked_touches {A} S (m : M W A) w :
  touches S m → (∀ kn, kn ∈ S → kn.1 ∉ [KDaemonSet; KService; KConfigMap; KNetworkPolicy]) →
  all_marked DefaultDNSController w → all_marked DefaultDNSController (m w).2.
Proof.
  intros Hm HS Hw k n o Ho. destruct (decide (k ∈ [KDaemonSet; KService; KConfigMap; KNetworkPolicy])) as [Hk|Hk];
    [|by apply marked_other].
  rewrite (Hm w k n) in Ho; [by eapply Hw|]. intros Hin. by apply (HS (k, n) Hin).
Qed.

Lemma awake_step s s' : awake s → step s s' → awake s'.
Proof.
  intros Haw Hstep. pose proof Haw as [Hm Hd].
  destruct Hstep as [w q p req out w' q' p' Hreq Hns Hrun Hn _|w q p req out w' q' p' _ Hrun Hn _|
                     w q p synced out w' q' p' Hrun Hn _|w q p w' q' p' [Hothers _] Hn _]; simpl in *; unfold left_over in *.
  - destruct (decide (req = DefaultDNSNamespaceName)) as [->|Hne].
    + assert (all_marked DefaultDNSController w') as Hm'.
      { pose proof (marks_Reconcile r DefaultDNSController eq_refl w Hm) as [Hm' _]. by rewrite Hrun in Hm'. }
      destruct (requeued out) eqn:Er; [by eapply awake_passive|].
      split; [done|]. simpl. intros d Hview Hwanted.
      destruct (decide (DefaultDNSNamespaceName ∈ q')) as [|Hq]; [by left|right].
      destruct (dns_noticed w w' _ q' Hn Hq) as [Hsame|]; [|congruence].
      destruct out as [[res [e|]]|]; [done| |done]. rewrite Hsame in Hview. by eapply Reconcile_restores.
    + assert (nn_Name req ≠ DefaultDNSController) as Hname.
      { intros Hname. apply Hne. destruct req; simpl in *; subst. reflexivity. }
      unfold Controller.Reconcile in Hrun. rewrite bool_decide_false in Hrun by done. injection Hrun as <- <-.
      eapply (awake_passive _ _ _ _ p); [done|exact Hn|]. split; [done|]. simpl. intros d Hview Hwanted.
      destruct (Hd d Hview Hwanted) as [Hin|Hall]; [left|by right]. apply list_elem_of_filter. by split; [apply not_eq_sym|].
  - eapply awake_passive; [|exact Hn|done]. replace w' with (StatusController.Reconcile (r_Config r) req w).2 by (by rewrite Hrun).
    eapply marked_touches; [apply touches_status_Reconcile|set_solver|done].
  - eapply awake_passive; [|exact Hn|done]. replace w' with (default_dns_tick synced w).2 by (by rewrite Hrun).
    eapply (marked_touches {[ (KDNS, mkNN "" "default") ]}); [|set_solver|done].
    intros w0 k n Hk. apply default_dns_tick_frame. set_solver.
  - eapply awake_passive; [|exact Hn|done]. intros k n o Ho. destruct (Hothers k n o Ho); [by eapply Hm|done].
Qed.

Lemma awake_reachable s0 s : started s0 → rtc step s0 s → awake s.
Proof.
  intros (Hm & Hq & _) Hrun. assert (awake s0) as Haw.
  { split; [done|]. intros d Hd _. left. apply (Hq (mk_is_Some _ _ Hd)). }
  clear Hm Hq. induction Hrun as [s|s0 s1 s Hstep _ IH]; [done|]. by eapply IH, awake_step.
Qed.

(** C4: no wake-up is lost.  In every state the running operator reaches, while the
    default DNS is managed and not being deleted, either a reconciliation of it is pending
    or all of its watched operands exist: the two daemonsets, the service, the Corefile and
    the network policies.  This holds whatever errors and panics occur, in whatever order
    both controllers and everybody else act, as long as nobody removes the owner references
    and labels the watches go by. *)
Theorem no_lost_wakeup s0 s d :
  started s0 → rtc step s0 s →
  view (sys_world s) KDNS DefaultDNSNamespaceName = Some d → wanted d →
  DefaultDNSNamespaceName ∉ sys_queue s →
  Forall (present (sys_world s)) (watched_keys DefaultDNSController).
Proof.
  intros Hs Hrun Hd Hw Hn. destruct (awake_reachable s0 s Hs Hrun) as [_ Haw]. by destruct (Haw d Hd Hw).
Qed.

(** ** Degraded *)

(** No DNS reports Degraded=True. *)
Definition none_degraded (w : W) : Prop := ∀ n d, view w KDNS n = Some d → ¬ reports_degraded (dns_Status d).

Definition keeps_none_degraded {A} (m : M W A) : Prop := ∀ w, none_degraded w → none_degraded (m w).2.

Lemma degraded_bind {A B} (P : A → Prop) (m : M W A) (f : A → M W B) :
  keeps_none_degraded m → returns P m → (∀ a, P a → keeps_none_degraded (f a)) → keeps_none_degraded (m ≫= f).
Proof.
  intros Hm HP Hf w Hw. unfold mbind, M_bind. specialize (Hm w Hw). specialize (HP w).
  destruct (m w) as [[a|] w1]; [|done]. by apply (Hf a (HP a w1 eq_refl)).
Qed.

(** Everything but the DNSes. *)
Definition not_dns : propset (Kind * NamespacedName) := {[ kn | kn.1 ≠ KDNS ]}.

Lemma degraded_touches {A} (m : M W A) : touches not_dns m → keeps_none_degraded m.
Proof. intros Hm w Hw n d. rewrite (Hm w KDNS n) by (unfold not_dns; set_solver). apply Hw. Qed.

Lemma degraded_Update dns : keeps_none_degraded (call (client_Update KDNS dns)).
Proof.
  intros w Hw n d. unfold call. pose proof (update_status dns w) as Hs.
  assert (∀ k' n', (k', n') ≠ (KDNS, key_of KDNS dns) → view (client_Update KDNS dns w).2 k' n' = view w k' n') as Hother.
  { destruct (released KDNS dns) eqn:Er; [apply (release_law KDNS dns w Er)|apply (update_law KDNS dns w Er)]. }
  destruct (client_Update KDNS dns w) as [res w1]; cbn [snd] in *. intros Hd.
  destruct (decide (n = key_of KDNS dns)) as [->|Hne]; [|rewrite Hother in Hd by congruence; by eapply Hw].
  destruct (Hs d Hd) as (d0 & Hd0 & ->). by eapply Hw.
Qed.

Lemma degraded_syncDNSStatus dns ip cd ods onr tol res :
  keeps_none_degraded (syncDNSStatus (W := W) dns ip cd ods onr tol res).
Proof.
  intros w Hw n d. pose proof (syncDNSStatus_never_degraded dns ip cd ods onr tol res w) as Hwp. unfold wp in Hwp.
  destruct (syncDNSStatus dns ip cd ods onr tol res w) as [[a|] w1]; [|done]. cbn [snd].
  destruct Hwp as [Hother Hthis]. intros Hd.
  destruct (decide (n = key_of KDNS dns)) as [->|Hne]; [|rewrite Hother in Hd by congruence; by eapply Hw].
  destruct Hthis as [Hsame|(d' & Hd' & _ & _ & Hnd & _)]; [rewrite Hsame in Hd; by eapply Hw|].
  by simplify_eq.
Qed.

(** A key of another kind. *)
Ltac other_kind := unfold not_dns; first [done|set_solver].

Lemma touches_namespace_not_dns : touches not_dns (ensureDNSNamespace (W := W) r).
Proof.
  unfold ensureDNSNamespace. apply touches_first_error. repeat apply Forall_cons_2; [..|constructor].
  - apply touches_ensure_namespace. other_kind.
  - apply touches_bind; [apply touches_ensureDNSClusterRole; other_kind|]. intros [? ?]. footprint.
  - apply touches_get_or_create. other_kind.
  - apply touches_get_or_create. other_kind.
  - apply touches_get_or_create. other_kind.
Qed.

Lemma touches_metrics_not_dns dns svc ref : touches not_dns (ensureMetricsIntegration (W := W) dns svc ref).
Proof.
  unfold ensureMetricsIntegration. apply touches_first_error. repeat apply Forall_cons_2; [..|constructor].
  - apply touches_get_or_create. other_kind.
  - apply touches_get_or_create. other_kind.
  - apply touches_get_or_create. other_kind.
  - apply touches_get_or_create. other_kind.
  - apply touches_bind; [apply touches_ensureServiceMonitor; other_kind|]. intros [? ?]. footprint.
Qed.

Lemma touches_operands_not_dns dns ds ip cd m : touches not_dns (ensure_operands (W := W) r dns ds ip cd m).
Proof.
  unfold ensure_operands. apply touches_bind; [apply touches_ensureDNSConfigMap; other_kind|]. intros [? e1].
  apply touches_bind; [apply touches_ensureDNSNetworkPolicy; other_kind|]. intros [? e2].
  apply touches_bind; [apply touches_ensureDenyAllNetworkPolicy; other_kind|]. intros [? [e3|]]; [footprint|].
  apply touches_bind; [apply touches_ensureDNSService; other_kind|]. intros [[svc|] [e4|]]; [footprint| |footprint|footprint].
  apply touches_bind; [apply touches_metrics_not_dns|footprint].
Qed.

Lemma degraded_ret {A} (a : A) : keeps_none_degraded (mret a : M W A).
Proof. intros w Hw. exact Hw. Qed.

(** A step that does not write DNSes, then the rest. *)
Lemma degraded_then {A B} (m : M W A) (f : A → M W B) :
  touches not_dns m → (∀ a, keeps_none_degraded (f a)) → keeps_none_degraded (m ≫= f).
Proof. intros Hm Hf. apply (degraded_bind (λ _, True)); [by apply degraded_touches|done|auto]. Qed.

Lemma degraded_ensure_status dns ip cd ods errs res :
  keeps_none_degraded (ensure_status (W := W) r dns ip cd ods errs res).
Proof.
  unfold ensure_status. apply degraded_then; [apply touches_ensureNodeResolverDaemonSet; other_kind|]. intros [nr e].
  apply (degraded_bind (λ _, True)); [apply degraded_syncDNSStatus|done|]. intros [e' res'] _. apply degraded_ret.
Qed.

Lemma degraded_ensureDNS dns res : keeps_none_degraded (ensureDNS (W := W) r dns res).
Proof.
  unfold ensureDNS. apply degraded_then; [apply touches_getClusterIP|]. intros [e|ip]; [apply degraded_ret|].
  apply degraded_then; [apply touches_ensureCABundleConfigMaps; intros; other_kind|]. intros e1.
  apply degraded_then; [apply touches_caBundleRevisionMap|]. intros m.
  apply degraded_then; [exact (touches_Get not_dns KAPIServer _)|]. intros api.
  match goal with |- context [match ?x with inl _ => _ | inr _ => _ end] => destruct x as [e|tsp] end; [apply degraded_ret|].
  apply degraded_then; [apply touches_ensureDNSDaemonSet; other_kind|].
  intros [[ds|] [e|]]; try apply degraded_ensure_status.
  apply degraded_then; [apply touches_operands_not_dns|]. intros [e|[errs ip']]; [apply degraded_ret|apply degraded_ensure_status].
Qed.

Lemma degraded_reconcile_managed dns errs res : keeps_none_degraded (reconcile_managed (W := W) r dns errs res).
Proof.
  unfold reconcile_managed. apply (degraded_bind (λ _, True)); [|done|].
  { unfold enforceDNSFinalizer. case_match; [|apply degraded_ret].
    apply (degraded_bind (λ _, True)); [apply degraded_Update|done|]. intros [e|d] _; apply degraded_ret. }
  intros [e|d] _; [apply degraded_ret|].
  apply (degraded_bind (λ _, True)); [apply degraded_ensureDNS|done|]. intros [[e|] res'] _.
  - destruct (retryable.After e); apply degraded_ret.
  - apply degraded_then; [apply touches_get_or_create; other_kind|]. intros. apply degraded_ret.
Qed.

Lemma degraded_reconcile_deletion dns errs : keeps_none_degraded (reconcile_deletion (W := W) dns errs).
Proof.
  unfold reconcile_deletion. apply degraded_then.
  { unfold ensureOpenshiftExternalNameServiceDeleted. apply touches_bind; [apply touches_Delete; other_kind|footprint]. }
  intros e1. apply degraded_then.
  { unfold ensureDNSDeleted. apply touches_bind; [apply touches_ensureDNSDaemonSetDeleted; other_kind|footprint]. }
  intros e2. match goal with |- context [if ?b then _ else _] => destruct b end; [|apply degraded_ret].
  destruct (slice.ContainsString _ _); [|apply degraded_ret].
  apply (degraded_bind (λ _, True)); [apply degraded_Update|done|]. intros [e|d] _; apply degraded_ret.
Qed.

Lemma degraded_reconcile_unmanaged dns res : keeps_none_degraded (reconcile_unmanaged (W := W) dns res).
Proof.
  unfold reconcile_unmanaged. apply degraded_then; [apply touches_getClusterIP|]. intros ip.
  destruct (match ip with inl err => _ | inr ip => _ end) as [clusterIP errs].
  apply degraded_then; [apply touches_currentDNSDaemonSet|]. intros [ds e1].
  apply degraded_then; [unfold currentNodeResolverDaemonSet; footprint|]. intros [nr e2].
  apply (degraded_bind (λ _, True)); [apply degraded_syncDNSStatus|done|]. intros [e' res'] _. apply degraded_ret.
Qed.

Lemma degraded_Reconcile req : keeps_none_degraded (Controller.Reconcile (W := W) r req).
Proof.
  unfold Controller.Reconcile. destruct (bool_decide (nn_Name req = _)); cbn [negb]; [|apply degraded_ret].
  apply degraded_then; [exact (touches_Get not_dns KDNS _)|]. intros [err|dns]; [apply degraded_ret|].
  apply degraded_then; [apply touches_call; intros; apply setlevel_frame|]. intros _.
  destruct (bool_decide (spec_ManagementState _ = _)).
  { apply (degraded_bind (λ _, True)); [apply degraded_reconcile_unmanaged|done|]. intros [? ?] _. apply degraded_ret. }
  apply degraded_then; [apply touches_namespace_not_dns|]. intros err.
  destruct (om_DeletionTimestamp (dns_meta dns)).
  - apply (degraded_bind (λ _, True)); [apply degraded_reconcile_deletion|done|]. intros ? _. apply degraded_ret.
  - apply (degraded_bind (λ _, True)); [apply degraded_reconcile_managed|done|]. intros [?|[? ?]] _; apply degraded_ret.
Qed.

Lemma degraded_Create dns : keeps_none_degraded (call (client_Create KDNS dns)).
Proof.
  intros w Hw n d. unfold call. pose proof (create_status dns w) as Hs.
  destruct (create_law KDNS dns w) as (Hother & _ & _).
  destruct (client_Create KDNS dns w) as [res w1]; cbn [snd] in *. intros Hd.
  destruct (decide (n = key_of KDNS dns)) as [->|Hne]; [|rewrite Hother in Hd by congruence; by eapply Hw].
  destruct (Hs d Hd) as [|Hc]; [by eapply Hw|]. intros (c & Hin & _). rewrite Hc in Hin. by apply elem_of_nil in Hin.
Qed.

Lemma degraded_ensureDefaultDNS : keeps_none_degraded (ensureDefaultDNS (W := W)).
Proof.
  unfold ensureDefaultDNS. apply degraded_then; [exact (touches_Get not_dns KDNS _)|].
  intros [err|d]; [|apply degraded_ret]. destruct (IsNotFound err); cbn [negb]; [|apply degraded_ret].
  apply (degraded_bind (λ _, True)); [apply degraded_Create|done|]. intros [e|d] _; apply degraded_ret.
Qed.

Lemma none_degraded_step s s' : none_degraded (sys_world s) → step s s' → none_degraded (sys_world s').
Proof.
  intros Hw Hstep.
  destruct Hstep as [w q p req out w' q' p' _ _ Hrun _ _|w q p req out w' q' p' _ Hrun _ _|
                     w q p synced out w' q' p' Hrun _ _|w q p w' q' p' [_ Hothers] _ _]; simpl in *.
  - pose proof (degraded_Reconcile req w Hw) as Hw'. by rewrite Hrun in Hw'.
  - pose proof (touches_status_Reconcile req w KDNS) as Ht. rewrite Hrun in Ht. cbn [snd] in Ht.
    intros n d. rewrite Ht by set_solver. apply Hw.
  - replace w' with (default_dns_tick synced w).2 by (by rewrite Hrun). rewrite default_dns_tick_world.
    destruct synced; [by apply degraded_ensureDefaultDNS|done].
  - intros n d' Hd'. destruct (Hothers n d' Hd') as [Hc|(d & Hd & ->)]; [|by eapply Hw].
    intros (c & Hin & _). rewrite Hc in Hin. by apply elem_of_nil in Hin.
Qed.

Lemma none_degraded_reachable s0 s : started s0 → rtc step s0 s → none_degraded (sys_world s).
Proof.
  intros (_ & _ & Hd) Hrun. change (none_degraded (sys_world s0)) in Hd.
  induction Hrun as [s|s0 s1 s Hstep _ IH]; [done|]. by eapply IH, none_degraded_step.
Qed.

(** ** The ClusterOperator *)

Definition operator_degraded (co : ClusterOperator) : Prop :=
  ∃ c, c ∈ cos_Conditions (co_Status co) ∧ coc_Type c = OperatorDegraded ∧ coc_Status c = ConditionTrue.

(** A condition after the merge was there before or says what an update says. *)
Lemma update_condition_elem now u cs cs' c :
  update_condition now u cs = Some cs' → c ∈ cs' →
  c ∈ cs ∨ (coc_Type c = coc_Type u ∧ coc_Status c = coc_Status u).
Proof.
  revert cs'. induction cs as [|x cs IH]; intros cs'; simpl; [done|].
  destruct (bool_decide (coc_Type x = coc_Type u)) eqn:E; to_prop.
  - intros [= <-]. rewrite elem_of_cons. intros [->|]; [by right|]. left. set_solver.
  - destruct (update_condition now u cs) as [cs2|]; [|done]. intros [= <-]. rewrite elem_of_cons.
    intros [->|Hc]; [left; set_solver|]. destruct (IH cs2 eq_refl Hc); [left; set_solver|by right].
Qed.

Lemma mergeConditions_elem now cs us c :
  c ∈ mergeConditions now cs us →
  c ∈ cs ∨ ∃ u, u ∈ us ∧ coc_Type c = coc_Type u ∧ coc_Status c = coc_Status u.
Proof.
  unfold mergeConditions. match goal with |- context [foldl ?f (cs, []) us] => set (add := f) end.
  set (from := λ c, c ∈ cs ∨ ∃ u, u ∈ us ∧ coc_Type c = coc_Type u ∧ coc_Status c = coc_Status u).
  enough (∀ us' st, (∀ c, c ∈ st.1 ++ st.2 → from c) → us' ⊆ us →
    ∀ c, c ∈ (foldl add st us').1 ++ (foldl add st us').2 → from c) as Hgen.
  { specialize (Hgen us (cs, []) ltac:(intros x; simpl; rewrite app_nil_r; by left) ltac:(done) c).
    destruct (foldl add (cs, []) us). exact Hgen. }
  clear c. intros us'. induction us' as [|u us' IH]; intros st Hst Hsub; simpl; [done|].
  apply IH; [|set_solver]. intros c. specialize (Hst c). unfold add, from in *.
  destruct (update_condition now u st.1) as [cs'|] eqn:E; simpl; rewrite !elem_of_app in *.
  - intros [Hc|Hc]; [|auto]. destruct (update_condition_elem _ _ _ _ _ E Hc) as [|Heq]; [auto|]. right. exists u. set_solver.
  - intros [Hc|[Hc|Hc]]; [auto|auto|]. apply list_elem_of_singleton in Hc as ->. right. exists u. set_solver.
Qed.

Lemma degraded_condition haveDNS dns old new order :
  coc_Status (computeOperatorDegradedCondition haveDNS dns old new order) = ConditionTrue →
  haveDNS = false ∨ reports_degraded (dns_Status dns).
Proof.
  unfold computeOperatorDegradedCondition. destruct haveDNS; [|by left]. simpl.
  destruct (isUpgrading order old new) as [[] ?]; simpl; [done|].
  destruct (degraded_messages dns) as [|m ms] eqn:E; simpl; [done|]. intros _. right.
  unfold degraded_messages in E. destruct (filter _ _) as [|c rest] eqn:Ef; [done|]. exists c.
  assert (c ∈ c :: rest) as Hc by set_solver. rewrite <- Ef in Hc. apply list_elem_of_filter in Hc. tauto.
Qed.

Lemma compute_status_degraded co meta state w st :
  (compute_status (r_Config r) (co_Status co) state w).1 = Some st → operator_degraded (mkClusterOperator meta st) →
  operator_degraded co ∨ haveDNS state = false ∨ reports_degraded (dns_Status (dns state)).
Proof.
  destruct (compute_status_run (r_Config r) (co_Status co) state w) as (t1 & t2 & t3 & o1 & o2 & o3 & _ & _ & _ & ->).
  intros [= <-] (c & Hc & Ht & Hs). simpl in Hc.
  apply mergeConditions_elem in Hc as [Hc|(u & Hu & Hut & Hus)].
  2:{ apply list_elem_of_singleton in Hu as ->. exfalso. rewrite Hut in Ht. revert Ht.
      unfold computeOperatorUpgradeableCondition. repeat case_match; done. }
  apply mergeConditions_elem in Hc as [Hc|(u & Hu & Hut & Hus)]; [left; by exists c|right].
  unfold status_updates in Hu. rewrite !elem_of_cons in Hu. destruct Hu as [->|[->|[->|Hu]]].
  - exfalso. rewrite Hut in Ht. revert Ht. unfold computeOperatorAvailableCondition. repeat case_match; done.
  - exfalso. rewrite Hut in Ht. revert Ht. unfold computeOperatorProgressingCondition. repeat case_match; done.
  - rewrite Hus in Hs. by apply degraded_condition in Hs.
  - by apply elem_of_nil in Hu.
Qed.

Lemma returns_then {A B} (P : B → Prop) (m : M W A) (f : A → M W B) :
  (∀ a, returns P (f a)) → returns P (m ≫= f).
Proof. intros Hf. apply (returns_bind (λ _, True)); [by intros ? ? ? ?|auto]. Qed.

(** The DNSes the cache lists are in the cluster. *)
Class CoherentCache := {
  cached_dns : ∀ l w os o, (cache_List KDNS l w).1 = inr os → o ∈ os → ∃ n, view w KDNS n = Some o }.

Lemma getOperatorState_dns `{CoherentCache} w state w' :
  getOperatorState w = (Some (inr state), w') → haveDNS state = true → ∃ n, view w KDNS n = Some (dns state).
Proof.
  unfold getOperatorState. unfold mbind at 1, M_bind at 1, call at 1.
  pose proof (get_frame KNamespace (mkNN "" DefaultOperandNamespace) w) as Hf.
  destruct (client_Get KNamespace (mkNN "" DefaultOperandNamespace) w) as [res w1]; cbn [snd] in Hf.
  match goal with |- context [match ?x with inl _ => _ | inr _ => _ end] => destruct x as [e|ns] end; [done|].
  unfold mbind at 1, M_bind at 1, call at 1.
  pose proof (cached_dns (mkListOptions None None) w1) as Hc.
  destruct (cache_List KDNS (mkListOptions None None) w1) as [[e|items] w2]; [done|]. specialize (Hc items).
  assert (∀ m : M W (error + operatorState), returns (λ out, ∀ st, out = inr st → haveDNS st = true →
    ∃ o, o ∈ items ∧ dns st = o) m → m w2 = (Some (inr state), w') → haveDNS state = true →
    ∃ n, view w KDNS n = Some (dns state)) as Hret.
  { intros m Hm Hrun Hhave. destruct (Hm w2 _ w' Hrun state eq_refl Hhave) as (o & Ho & ->).
    destruct (Hc o eq_refl Ho) as [n Hn]. exists n. by rewrite <- Hf. }
  apply Hret. clear. apply returns_then. intros [e|nr]; [apply returns_ret; naive_solver|].
  apply returns_then. intros [e|pods]; [apply returns_ret; naive_solver|].
  destruct items as [|theDNS rest]; [apply returns_ret; naive_solver|].
  apply returns_then. intros [e|ds]; [apply returns_ret; naive_solver|].
  apply returns_then. intros [e|pods']; apply returns_ret; [naive_solver|].
  intros st [= <-] _. exists theDNS. split; [apply list_elem_of_here|done].
Qed.

(** What a status pass that reads the cluster at [w] may base Degraded=True on. *)
Definition no_dns_read (w : W) : Prop :=
  ∃ w1 state w2, (∀ n, view w1 KDNS n = view w KDNS n) ∧
    getOperatorState w1 = (Some (inr state), w2) ∧ haveDNS state = false.

(** The second half of the pass, once it has the ClusterOperator. *)
Definition publish (co : ClusterOperator) : M W (Result * option error) :=
  state ← getOperatorState;
  match state with
  | inl err => mret (result0, Some (ErrWrap "failed to get operator state: " err))
  | inr state =>
      status ← compute_status (r_Config r) (co_Status co) state;
      equal ← lift_option (operatorStatusesEqual (co_Status co) status);
      if negb equal then
        res ← call (client_StatusUpdate KClusterOperator (mkClusterOperator (co_meta co) status));
        match res with
        | inl err => mret (result0, Some (ErrWrap ("failed to update clusteroperator "
                            +:+ Quote (nn_Name DNSClusterOperatorName) +:+ ": ") (api_error err)))
        | inr _ => mret (result0, None)
        end
      else mret (result0, None)
  end.

Lemma publish_degraded `{CoherentCache} co w co' :
  none_degraded w → key_of KClusterOperator co = DNSClusterOperatorName →
  view (publish co w).2 KClusterOperator DNSClusterOperatorName = Some co' → operator_degraded co' →
  view w KClusterOperator DNSClusterOperatorName = Some co' ∨ operator_degraded co ∨ no_dns_read w.
Proof.
  intros Hnd Hk. unfold publish. unfold mbind at 1, M_bind at 1.
  pose proof (touches_getOperatorState ∅ w KClusterOperator DNSClusterOperatorName ltac:(set_solver)) as Hv.
  destruct (getOperatorState w) as [[[e|state]|] w1] eqn:Es; cbn [snd] in Hv;
    [cbn [snd mret M_ret]; rewrite Hv; by left| |cbn [snd]; rewrite Hv; by left].
  unfold mbind at 1, M_bind at 1.
  pose proof (touches_compute_status (r_Config r) ∅ (co_Status co) state w1 KClusterOperator DNSClusterOperatorName ltac:(set_solver)) as Hv2.
  pose proof (compute_status_degraded co (co_meta co) state w1) as Hdeg.
  destruct (compute_status (r_Config r) (co_Status co) state w1) as [[status|] w2]; cbn [fst snd] in *;
    [|rewrite Hv2, Hv; by left].
  unfold mbind at 1, M_bind at 1, lift_option.
  destruct (operatorStatusesEqual (co_Status co) status) as [[]|]; cbn [snd negb mret M_ret];
    [rewrite Hv2, Hv; by left| |rewrite Hv2, Hv; by left].
  set (sent := mkClusterOperator (co_meta co) status) in *. unfold mbind at 1, M_bind at 1, call at 1.
  destruct (status_law KClusterOperator sent w2) as (_ & Hw & _).
  change (key_of KClusterOperator sent) with (key_of KClusterOperator co) in Hw. rewrite Hk in Hw.
  destruct (client_StatusUpdate KClusterOperator sent w2) as [res w3]; cbn [snd] in *. intros Hco' Hd'.
  assert (view w3 KClusterOperator DNSClusterOperatorName = Some co') as Hco by (by destruct res).
  destruct Hw as [Hw|(o' & [_ Hst] & Ho')]; [left; congruence|right].
  destruct (Hdeg status eq_refl) as [Hd|[Hd|Hd]]; [|by left| |].
  - assert (o' = co') as <- by congruence. unfold operator_degraded in *. by rewrite Hst in Hd'.
  - right. by exists w, state, w1.
  - right. destruct (haveDNS state) eqn:Eh; [|by exists w, state, w1]. exfalso.
    destruct (getOperatorState_dns w state w1 Es Eh) as [n Hn]. by apply (Hnd n _ Hn).
Qed.

Lemma no_dns_read_after w w' : (∀ n, view w' KDNS n = view w KDNS n) → no_dns_read w' → no_dns_read w.
Proof.
  intros Hv (w1 & state & w2 & Hw1 & Hs & Hh). exists w1, state, w2. split; [|done]. intros n. by rewrite Hw1.
Qed.

Lemma status_Reconcile_degraded `{CoherentCache} w req co' :
  none_degraded w →
  view (StatusController.Reconcile (r_Config r) req w).2 KClusterOperator DNSClusterOperatorName = Some co' →
  operator_degraded co' →
  (∃ co, view w KClusterOperator DNSClusterOperatorName = Some co ∧ operator_degraded co) ∨ no_dns_read w.
Proof.
  intros Hnd. unfold StatusController.Reconcile. unfold mbind at 1, M_bind at 1, call at 1.
  pose proof (get_frame KClusterOperator DNSClusterOperatorName w) as Hf.
  pose proof (get_found KClusterOperator DNSClusterOperatorName w) as Hfound.
  pose proof (get_key KClusterOperator DNSClusterOperatorName w) as Hkey.
  destruct (client_Get KClusterOperator DNSClusterOperatorName w) as [[err|co] w1]; cbn [fst snd] in *.
  - destruct (IsNotFound err) eqn:En; unfold mbind at 1, M_bind at 1; [|cbn; rewrite Hf; eauto].
    unfold mbind at 1, M_bind at 1, call at 1. set (co0 := initializeClusterOperator) in *.
    destruct (create_law KClusterOperator co0 w1) as (Hother & _ & Hok).
    pose proof (create_operator_status co0 w1) as Hst. change (key_of KClusterOperator co0) with DNSClusterOperatorName in *.
    destruct (client_Create KClusterOperator co0 w1) as [[e|co] w2]; cbn [fst snd] in *.
    + cbn. intros Hco' Hd'. destruct (Hst co' Hco') as [Hold|Hnil]; [left; rewrite Hf in Hold; eauto|].
      destruct Hd' as (c & Hc & _). rewrite Hnil in Hc. by apply elem_of_nil in Hc.
    + fold (publish co). intros Hco' Hd'. destruct (Hok co eq_refl) as [Hk Hco].
      assert (none_degraded w2) as Hnd2 by (intros n d; rewrite Hother, Hf by done; apply Hnd).
      assert (operator_degraded co → ∃ co, view w KClusterOperator DNSClusterOperatorName = Some co ∧ operator_degraded co)
        as Hback.
      { intros Hd. destruct (Hst co Hco) as [Hold|Hnil]; [rewrite Hf in Hold; eauto|].
        destruct Hd as (c & Hc & _). rewrite Hnil in Hc. by apply elem_of_nil in Hc. }
      destruct (publish_degraded co w2 co' Hnd2 Hk Hco' Hd') as [Hsame|[Hd|Hno]]; [| |right].
      * left. apply Hback. assert (co' = co) as <- by congruence. done.
      * left. by apply Hback.
      * eapply no_dns_read_after; [|exact Hno]. intros n. by rewrite Hother, Hf by done.
  - unfold mbind at 1, M_bind at 1. cbn [mret M_ret]. fold (publish co). intros Hco' Hd'.
    assert (none_degraded w1) as Hnd1 by (intros n d; rewrite Hf; apply Hnd).
    destruct (publish_degraded co w1 co' Hnd1 (Hkey co eq_refl) Hco' Hd') as [Hsame|[Hd|Hno]].
    + left. rewrite Hf in Hsame. eauto.
    + left. eauto.
    + right. exact (no_dns_read_after w w1 (Hf KDNS) Hno).
Qed.

(** C7: Degraded says nothing about the DNS.  In every state the running operator
    reaches, no DNS reports Degraded=True, and a pass of the status controller leaves the
    ClusterOperator Degraded only if it was so before or no DNS was listed in that pass:
    whatever becomes of the operands of a DNS, neither object ever says so. *)
Theorem degraded_only_without_dns `{CoherentCache} s0 s req :
  started s0 → rtc step s0 s →
  (∀ n d, view (sys_world s) KDNS n = Some d → ¬ reports_degraded (dns_Status d)) ∧
  ∀ co', view (StatusController.Reconcile (r_Config r) req (sys_world s)).2 KClusterOperator DNSClusterOperatorName
         = Some co' → operator_degraded co' →
    (∃ co, view (sys_world s) KClusterOperator DNSClusterOperatorName = Some co ∧ operator_degraded co) ∨
    ∃ w1 state w2, (∀ n, view w1 KDNS n = view (sys_world s) KDNS n) ∧
      getOperatorState w1 = (Some (inr state), w2) ∧ haveDNS state = false.
Proof.
  intros Hs Hrun. pose proof (none_degraded_reachable s0 s Hs Hrun) as Hnd. split; [exact Hnd|].
  intros co' Hco' Hd'. exact (status_Reconcile_degraded (sys_world s) req co' Hnd Hco' Hd').
Qed.

End system.
