(* ===== verification/Freshness.v ===== *)
(** * The ClusterOperator is not left behind

    The work queue of the status controller: in every state the running operator reaches,
    a pass of the status controller is pending, or the ClusterOperator is as a successful
    pass left it and so is everything the controller watches. *)

From S2P Require Import Prelude GoLib Types Util Labels Numbers Client Mem Names Manifests Samples.
From S2P Require Import Tls DaemonSet DaemonSetProps DNSStatus Corefile CorefileProps Service NodeResolver.
From S2P Require Import NetworkPolicies CABundle Controller ControllerProps Installed StatusController Pass.
From S2P Require Import StatusControllerProps Operator Watches WatchesProps Claimed System.

Section freshness.
Context `{RESTMapperLaws} `{UnicodeTables} `{FloatConversion} `{Assets}.
Context {W : Type} `{RuntimeLaws W} `{!MapRange W} `{!MapRangeLaws W} (r : reconciler).

(** ** What a successful pass leaves *)

Lemma status_Reconcile_present req w res w' :
  StatusController.Reconcile (W := W) (r_Config r) req w = (Some (res, None), w') →
  present w' (KClusterOperator, DNSClusterOperatorName).
Proof.
  unfold StatusController.Reconcile. intros (got & w1 & Hget & Hrun)%bind_inv.
  apply bind_inv in Hrun as (co & w2 & Hco & Hrun).
  assert (∀ o, co = inr o → key_of KClusterOperator o = DNSClusterOperatorName ∧
    view w2 KClusterOperator DNSClusterOperatorName = Some o) as Hpres.
  { intros o ->. revert Hget. unfold call. pose proof (get_found KClusterOperator DNSClusterOperatorName w) as Hf.
    pose proof (get_frame KClusterOperator DNSClusterOperatorName w) as Hfr.
    destruct (client_Get _ _ w) as [x y]. intros [= -> ->]. cbn [fst snd] in *. destruct got as [e|o'].
    - destruct (IsNotFound e); [|done]. apply bind_inv in Hco as ([e'|o''] & w3 & Hc & Hret); [done|].
      injection Hret as -> ->. revert Hc. unfold call.
      destruct (create_law KClusterOperator initializeClusterOperator w1) as (_ & _ & Hok).
      destruct (client_Create _ _ w1) as [x y]. intros [= -> ->]. destruct (Hok o eq_refl) as [Hk Hv]. by split.
    - injection Hco as -> ->. specialize (Hf o eq_refl). split; [by eapply view_key|by rewrite Hfr]. }
  destruct co as [e|o]; [done|]. destruct (Hpres o eq_refl) as [Hkey Hv].
  apply bind_inv in Hrun as ([e|state] & w3 & Hst & Hrun); [done|].
  pose proof (run_frame ∅ _ _ _ _ (touches_getOperatorState ∅) Hst) as B3.
  apply bind_inv in Hrun as (status & w4 & Hcs & Hrun).
  pose proof (run_frame ∅ _ _ _ _ (touches_compute_status ∅ _ _ _) Hcs) as B4.
  apply bind_inv in Hrun as (equal & w5 & Heq & Hrun).
  assert (w5 = w4) as -> by (destruct (operatorStatusesEqual _ _); [by injection Heq|done]).
  destruct equal; cbn [negb] in Hrun.
  { injection Hrun as _ <-. exists o. cbn [fst snd]. rewrite B4, B3; [done|set_solver..]. }
  apply bind_inv in Hrun as ([e|o'] & w6 & Hup & Hret); [done|]. injection Hret as _ <-. revert Hup. unfold call.
  set (u := mkClusterOperator _ _). destruct (status_law KClusterOperator u w4) as (_ & _ & Hok).
  destruct (client_StatusUpdate _ _ w4) as [x y]. intros [= -> ->]. destruct (Hok o' eq_refl) as [_ Hv'].
  exists o'. exact (eq_trans (f_equal (view w6 KClusterOperator) (eq_sym Hkey)) Hv').
Qed.

(** ** What the status controller watches *)

Definition status_input (k : Kind) (n : NamespacedName) : Prop :=
  k = KDNS ∨ (k, n) = (KClusterOperator, DNSClusterOperatorName) ∨
  (k, n) = (KDaemonSet, mkNN "openshift-dns" "dns-default") ∨ (k, n) = (KDaemonSet, NodeResolverDaemonSetName).

(** An object none of whose events is a request has not changed. *)
Lemma unnoticed `{!EqDecision (obj k)} (w w' : W) n p :
  status_noticed r w w' p [] →
  (∀ e : Event k, change w w' k e → (∃ o, o ∈ event_objects e ∧ key_of k o = n) →
     status_requests (r_Config r) k e ≠ []) →
  view w' k n = view w k n.
Proof.
  intros [_ Hev] Hreq.
  assert (∀ (e : Event k) o, change w w' k e → o ∈ event_objects e → key_of k o = n → False) as Hno.
  { intros e o He Ho Hk. apply (Hreq e He); [by exists o|]. specialize (Hev k e He).
    destruct (status_requests _ k e) as [|x l]; [done|]. exfalso. by apply (not_elem_of_nil x), Hev, list_elem_of_here. }
  destruct (view w k n) as [o|] eqn:E, (view w' k n) as [o'|] eqn:E'; [| | |done].
  - destruct (decide (o = o')) as [->|Hne]; [done|]. exfalso.
    eapply (Hno (UpdateEvent o o')); [by eapply change_updated|apply list_elem_of_here|by eapply view_key].
  - exfalso. eapply (Hno (DeleteEvent o)); [by eapply change_deleted|apply list_elem_of_here|by eapply view_key].
  - exfalso. eapply (Hno (CreateEvent o')); [by eapply change_created|apply list_elem_of_here|by eapply view_key].
Qed.

(** Events about a DNS and about the ClusterOperator. *)
Lemma dns_event (e : Event KDNS) : status_requests (r_Config r) KDNS e ≠ [].
Proof. unfold status_requests, requests, cached. simpl. unfold dispatch. simpl. by destruct e. Qed.

Lemma operator_event (e : Event KClusterOperator) o :
  valid_event e → o ∈ event_objects e → key_of KClusterOperator o = DNSClusterOperatorName →
  status_requests (r_Config r) KClusterOperator e ≠ [].
Proof.
  intros Hv Ho Hk. assert (key_of KClusterOperator (event_object e) = DNSClusterOperatorName) as Hke.
  { destruct e; simpl in Hv, Ho |- *; rewrite !elem_of_cons, elem_of_nil in Ho;
      repeat destruct Ho as [->|Ho]; first [done|congruence]. }
  assert (isDNSClusterOperator (meta_of KClusterOperator (event_object e)) = true) as Hp
    by (injection Hke as Hname; by apply bool_decide_true).
  unfold status_requests, requests, cached. simpl. unfold dispatch. cbn [forallb watch_predicates]. unfold NewPredicateFuncs.
  rewrite Hp. by destruct e.
Qed.

(** The objects of an event are those before or after it. *)
Lemma change_objects (w w' : W) k (e : Event k) :
  change w w' k e → ∀ o, o ∈ event_objects e → ∃ n, view w k n = Some o ∨ view w' k n = Some o.
Proof.
  intros [k' n x Hx Hx'|k' n x x' Hx Hx' _|k' n x Hx Hx'] o; simpl; rewrite !elem_of_cons, elem_of_nil;
    intros Ho; repeat destruct Ho as [->|Ho]; try done; eauto.
Qed.

(** If nothing is pending after a step, nothing that is watched has changed. *)
Lemma inputs_unnoticed (w w' : W) p :
  all_marked DefaultDNSController w → all_marked DefaultDNSController w' → status_noticed r w w' p [] →
  ∀ k n, status_input k n → view w' k n = view w k n.
Proof.
  intros Hm Hm' Hn k n Hk.
  assert (∀ n, (KDaemonSet, n) ∈ watched_keys DefaultDNSController → nn_Namespace n = DefaultOperandNamespace →
    view w' KDaemonSet n = view w KDaemonSet n) as Hds.
  { intros n' Hin Hns. eapply (unnoticed (k := KDaemonSet)); [exact Hn|]. intros e He (o & Ho & Hko).
    assert (claimed DefaultDNSController KDaemonSet o) as Hc.
    { destruct (change_objects w w' _ e He o Ho) as [x [Hv|Hv]]; [apply (Hm _ _ _ Hv)|apply (Hm' _ _ _ Hv)]; by rewrite Hko. }
    change (dns_requests (r_Config r) KDaemonSet e ≠ []). intros Hnil.
    pose proof (claimed_requests (r_Config r) DefaultDNSController KDaemonSet o e Hc) as Hreq.
    rewrite Hnil in Hreq. eapply not_elem_of_nil, Hreq; [|by eapply change_valid|done].
    rewrite <- Hns, <- Hko. done. }
  destruct Hk as [->|[[= -> ->]|[[= -> ->]|[= -> ->]]]].
  - eapply (unnoticed (k := KDNS)); [exact Hn|]. intros e _ _. apply dns_event.
  - eapply (unnoticed (k := KClusterOperator)); [exact Hn|]. intros e He (o & Ho & Hko).
    eapply operator_event; [by eapply change_valid|done|done].
  - apply Hds; [apply list_elem_of_here|done].
  - apply Hds; [apply list_elem_of_further, list_elem_of_here|done].
Qed.
(** ** The invariant *)

(** What is watched is as a pass without an error left it, somewhere on the way from [s0]. *)
Definition published (s0 : Sys) (w : W) : Prop :=
  ∃ s1 w0 req res, rtc (step r) s0 s1 ∧
    StatusController.Reconcile (r_Config r) req w0 = (Some (res, None), sys_world s1) ∧
    ∀ k n, status_input k n → view w k n = view (sys_world s1) k n.

Definition fresh (s0 s : Sys) : Prop :=
  is_Some (view (sys_world s) KDNS DefaultDNSNamespaceName) →
  sys_status_queue s ≠ [] ∨ published s0 (sys_world s).

(** A step of anybody else. *)
Lemma fresh_passive s0 w w' q q' p p' :
  all_marked DefaultDNSController w → all_marked DefaultDNSController w' → status_noticed r w w' p p' →
  fresh s0 (mkSys w q p) → fresh s0 (mkSys w' q' p').
Proof.
  intros Hm Hm' Hn Hf Hd. simpl in *. destruct p' as [|x p']; [right|by left].
  pose proof (inputs_unnoticed w w' p Hm Hm' Hn) as Hsame. rewrite Hsame in Hd by (by left).
  destruct (Hf Hd) as [Hp|(s1 & w0 & req & res & Hr1 & Hrec & Hin)]; simpl in *.
  - exfalso. destruct Hn as [Hsub _]. destruct p as [|x p]; [done|]. by apply (not_elem_of_nil x), Hsub, list_elem_of_here.
  - exists s1, w0, req, res. split; [done|]. split; [done|]. intros k n Hk. rewrite Hsame by done. by apply Hin.
Qed.

Lemma fresh_step s0 s s' : started s0 → rtc (step r) s0 s → step r s s' → fresh s0 s → fresh s0 s'.
Proof.
  intros Hs0 Hrun Hstep Hf. destruct (awake_reachable r s0 s Hs0 Hrun) as [Hm _].
  destruct (awake_step r s s' (awake_reachable r s0 s Hs0 Hrun) Hstep) as [Hm' _].
  pose proof (rtc_r _ _ _ Hrun Hstep) as Hrun'.
  destruct Hstep as [w q p req out w' q' p' _ _ _ _ Hn|w q p req out w' q' p' Hreq Hrec _ Hn|
                     w q p synced out w' q' p' _ _ Hn|w q p w' q' p' _ _ Hn]; simpl in *;
    [by apply (fresh_passive s0 w w' q q' p p')| |by apply (fresh_passive s0 w w' q q' p p')..].
  intros _. destruct p' as [|x p']; [right|by left]. unfold left_over in Hn. destruct (requeued out) eqn:Er.
  { exfalso. destruct Hn as [Hsub _]. by apply (not_elem_of_nil req), Hsub. }
  destruct out as [[res [e|]]|]; [done| |done].
  exists (mkSys w' q' []), w, req, res. by repeat split.
Qed.

Lemma fresh_reachable s0 s : started s0 → rtc (step r) s0 s → fresh s0 s.
Proof.
  intros Hs0. revert s. apply (rtc_ind_r (fresh s0) s0); [|intros s s' Hrun Hstep; by apply fresh_step].
  intros Hd. left. destruct Hs0 as (_ & Hq & _). destruct (Hq Hd) as [_ Hp].
  intros Hnil. rewrite Hnil in Hp. by apply not_elem_of_nil in Hp.
Qed.

(** C5: the ClusterOperator is not left behind.  In every state the running operator
    reaches, while the default DNS exists and no pass of the status controller is pending,
    the ClusterOperator exists, and it, every DNS and the two daemonsets are exactly as a
    pass of the status controller that reported no error left them: no change of what the
    controller watches goes unreported, whatever errors occur and in whatever order the
    controllers and everybody else act. *)
Theorem operator_status_fresh s0 s d :
  started s0 → rtc (step r) s0 s →
  view (sys_world s) KDNS DefaultDNSNamespaceName = Some d → sys_status_queue s = [] →
  present (sys_world s) (KClusterOperator, DNSClusterOperatorName) ∧ published s0 (sys_world s).
Proof.
  intros Hs0 Hrun Hd Hq. destruct (fresh_reachable s0 s Hs0 Hrun (mk_is_Some _ _ Hd)) as [|Hp]; [done|].
  split; [|done]. destruct Hp as (s1 & w0 & req & res & _ & Hrec & Hin). unfold present. cbn [fst snd].
  rewrite Hin by (right; by left). exact (status_Reconcile_present req w0 res (sys_world s1) Hrec).
Qed.
End freshness.
