(* ===== verification/SystemRuns.v ===== *)
(** * Runs of the operator

    The theorems of [System.v] at concrete clusters of [Mem.v]. *)

From S2P Require Import Prelude GoLib Types Util Labels Numbers Client Mem Names Manifests Samples.
From S2P Require Import Tls DaemonSet DaemonSetProps DNSStatus Corefile CorefileGolden CorefileProps Service NodeResolver.
From S2P Require Import NetworkPolicies CABundle Controller ControllerProps Installed ControllerRuns StatusController.
From S2P Require Import StatusControllerProps Operator Watches WatchesProps Claimed System Freshness.

#[export] Instance Mem_CoherentCache : CoherentCache (W := Mem).
Proof.
  constructor. intros l w os o. simpl. unfold mem_List. pose proof (mem_fault_store w) as Hs.
  destruct (mem_fault w) as [[e|] m]; simpl in *; [done|]. intros [= <-] Ho.
  apply list_elem_of_filter in Ho as [_ Ho]. apply list_elem_of_omap in Ho as (e & _ & He). rewrite <- Hs.
  exists (en_name e). case_match; [exact He|done].
Qed.

(** ** Marks of concrete clusters *)

Lemma all_marked_get (m : Mem) name :
  (∀ k n o, store_get (mem_store m) k n = Some o → marked name k o) → all_marked name m.
Proof.
  intros Hm k n o. simpl. unfold live. destruct (store_get _ k n) as [o'|] eqn:E; [|done].
  case_match; [done|]. intros [= <-]. by eapply Hm.
Qed.

Lemma all_marked_add (m : Mem) name k o : all_marked name m → marked name k o → all_marked name (mem_add k o m).
Proof.
  intros Hm Ho k' n' o'. simpl. destruct (decide ((k', n') = (k, key_of k o))) as [Heq|Hne].
  - injection Heq as -> ->. intros Ho'. apply live_written in Ho' as ->. done.
  - rewrite live_set_ne by done. apply Hm.
Qed.

Lemma all_marked_empty name : all_marked name mem0.
Proof. by intros k n o. Qed.

Lemma all_marked_set_pods (m : Mem) name ds n :
  (∀ d, store_get (mem_store m) KDaemonSet (mkNN "openshift-dns" ds) = Some d →
     view m KDaemonSet (mkNN "openshift-dns" ds) = Some d) →
  all_marked name m → all_marked name (set_pods ds n m).
Proof.
  intros Hlive Hm. unfold set_pods. destruct (store_get _ _ _) as [d|]; [|done].
  apply all_marked_add; [done|]. specialize (Hm KDaemonSet _ d (Hlive d eq_refl)). revert Hm.
  apply marked_same; done.
Qed.

Lemma all_marked_fresh : all_marked DefaultDNSController fresh_cluster.
Proof.
  unfold fresh_cluster. eapply (marked_touches {[ (KDNS, mkNN "" "default") ]}).
  - intros w0 k n Hk. apply (ensureDefaultDNS_spec w0). set_solver.
  - set_solver.
  - apply all_marked_add; [apply all_marked_empty|]. apply marked_other. set_solver.
Qed.

Lemma all_marked_settled : all_marked DefaultDNSController settled_cluster.
Proof.
  unfold settled_cluster, run. eapply marks_Reconcile; [done|]. unfold running_cluster.
  apply all_marked_set_pods; [intros d Hd; vm_compute in Hd |- *; exact Hd|].
  apply all_marked_set_pods; [intros d Hd; vm_compute in Hd |- *; exact Hd|].
  unfold installed_cluster, run. eapply marks_Reconcile; [done|]. apply all_marked_fresh.
Qed.

(** A step that stores nothing new is followed by no event. *)
Lemma noticed_same requests (w w' : Mem) q : mem_store w' = mem_store w → noticed_by requests w w' q q.
Proof.
  intros Hs. split; [done|]. intros k e He.
  destruct He as [k n o H1' H2'|k n o o' H1' H2' Hne|k n o H1' H2']; simpl in *; rewrite Hs in *; congruence.
Qed.

(** The running operator reconciles the cluster at rest, and rests. *)
Lemma settled_step :
  step started_reconciler (mkSys settled_cluster [DefaultDNSNamespaceName] [DefaultDNSNamespaceName])
    (mkSys (run settled_cluster).2 [] [DefaultDNSNamespaceName]).
Proof.
  eapply (step_reconcile _ _ _ _ DefaultDNSNamespaceName (run settled_cluster).1);
    [apply list_elem_of_here|done|by destruct (run settled_cluster) eqn:E| |].
  - unfold left_over. assert (requeued (run settled_cluster).1 = false) as -> by (vm_compute; reflexivity).
    apply noticed_same. vm_compute. reflexivity.
  - apply noticed_same. vm_compute. reflexivity.
Qed.

Lemma none_degraded_set_pods ds n (m : Mem) : none_degraded m → none_degraded (set_pods ds n m).
Proof.
  intros Hm. unfold set_pods. destruct (store_get _ _ _); [|done]. intros n' d. simpl.
  rewrite live_set_ne by done. apply Hm.
Qed.

Lemma none_degraded_settled : none_degraded settled_cluster.
Proof.
  unfold settled_cluster, run. apply degraded_Reconcile. do 2 apply none_degraded_set_pods.
  unfold installed_cluster, run. apply degraded_Reconcile. apply degraded_ensureDefaultDNS. by intros n d.
Qed.

Lemma started_settled : started (mkSys settled_cluster [DefaultDNSNamespaceName] [DefaultDNSNamespaceName]).
Proof.
  split; [apply all_marked_settled|]. split; [intros _; split; apply list_elem_of_here|]. apply none_degraded_settled.
Qed.

Lemma no_lost_wakeup_witness :
  present (run settled_cluster).2 (KDaemonSet, mkNN "openshift-dns" "dns-default").
Proof.
  destruct (view (run settled_cluster).2 KDNS DefaultDNSNamespaceName) as [d|] eqn:Ed;
    [|exfalso; vm_compute in Ed; discriminate].
  assert (wanted d) as Hw by (vm_compute in Ed; injection Ed as <-; split; [discriminate|reflexivity]).
  pose proof (no_lost_wakeup started_reconciler _ _ d started_settled (rtc_once _ _ settled_step) Ed Hw
    ltac:(apply not_elem_of_nil)) as Hall.
  exact (Forall_inv Hall).
Defined.

(** A cluster without a DNS: the first pass of the status controller says Degraded. *)
Lemma degraded_only_without_dns_witness :
  let w := (StatusController.Reconcile (r_Config started_reconciler) DefaultDNSNamespaceName mem0).2 in
  (∃ co, view w KClusterOperator DNSClusterOperatorName = Some co ∧ operator_degraded co) ∧
  ∃ w1 state w2, getOperatorState (W := Mem) w1 = (Some (inr state), w2) ∧ haveDNS state = false.
Proof.
  cbv zeta.
  assert (started (mkSys mem0 [] [])) as Hs.
  { split; [apply all_marked_empty|]. split; [by intros [d Hd]|by intros n d]. }
  pose proof (proj2 (degraded_only_without_dns started_reconciler (mkSys mem0 [] []) (mkSys mem0 [] [])
    DefaultDNSNamespaceName Hs (rtc_refl _ _))) as Hdeg.
  set (w := (StatusController.Reconcile _ _ _).2) in *.
  destruct (view w KClusterOperator DNSClusterOperatorName) as [co|] eqn:Eco; [|exfalso; vm_compute in Eco; discriminate].
  assert (operator_degraded co) as Hco.
  { vm_compute in Eco. injection Eco as <-. eexists. split; [do 2 apply list_elem_of_further; apply list_elem_of_here|].
    split; reflexivity. }
  split; [exact (ex_intro _ co (conj eq_refl Hco))|]. clearbody w.
  destruct (Hdeg co eq_refl Hco) as [(co0 & H0 & _)|(w1 & st & w2 & _ & Hst & Hh)]; [discriminate H0|].
  exact (ex_intro _ w1 (ex_intro _ st (ex_intro _ w2 (conj Hst Hh)))).
Defined.

(** ** Two passes of the status controller over a healthy cluster *)

(** The first creates the ClusterOperator, whose events ask for another pass; the second
    has nothing to write. *)
Definition reported : Mem := (status_run healthy_cluster).2.
Definition reported_again : Mem := (status_run reported).2.

Lemma operator_requests (e : Event KClusterOperator) :
  dns_requests (r_Config sample_reconciler) KClusterOperator e = [] ∧
  status_requests (r_Config sample_reconciler) KClusterOperator e ⊆ [DefaultDNSNamespaceName].
Proof.
  split; [by destruct e|]. unfold status_requests, requests, cached. simpl. unfold dispatch.
  cbn [forallb watch_predicates watch_handler]. destruct (NewPredicateFuncs _ _); [|set_solver]. by destruct e.
Qed.

Lemma change_operator (w w' : Mem) k (e : Event k) :
  (∀ k n, (k, n) ≠ (KClusterOperator, DNSClusterOperatorName) → view w' k n = view w k n) →
  change w w' k e → k = KClusterOperator.
Proof.
  intros Ht Hc. assert (∃ n, view w' k n ≠ view w k n) as [n Hn].
  { destruct Hc as [k n o H1' H2'|k n o o' H1' H2' Hne|k n o H1' H2']; exists n; congruence. }
  destruct (decide (k = KClusterOperator)) as [|Hk]; [done|]. destruct Hn. apply Ht. congruence.
Qed.

(** A pass of the status controller gives the DNS controller no request, and its own
    controller at most one for the default DNS. *)
Lemma status_run_noticed (w : Mem) :
  noticed sample_reconciler w (status_run w).2 [DefaultDNSNamespaceName] [DefaultDNSNamespaceName] ∧
  ∀ q, q ⊆ [DefaultDNSNamespaceName] →
    status_noticed sample_reconciler w (status_run w).2 q [DefaultDNSNamespaceName].
Proof.
  assert (∀ k e, change w (status_run w).2 k e → k = KClusterOperator) as Hk.
  { intros k e. apply change_operator. intros k' n' Hne.
    apply (touches_status_Reconcile sample_reconciler DefaultDNSNamespaceName w). by rewrite elem_of_singleton. }
  split.
  - split; [done|]. intros k e He. pose proof (Hk k e He) as ->. rewrite (proj1 (operator_requests e)).
    apply list_subseteq_nil.
  - intros q Hq. split; [done|]. intros k e He. pose proof (Hk k e He) as ->. apply operator_requests.
Qed.

Lemma left_over_sub req out q : left_over req out q ⊆ q.
Proof. unfold left_over. destruct (requeued out); [done|]. apply list_subseteq_filter. Qed.

Lemma reported_step :
  step sample_reconciler (mkSys healthy_cluster [DefaultDNSNamespaceName] [DefaultDNSNamespaceName])
    (mkSys reported [DefaultDNSNamespaceName] [DefaultDNSNamespaceName]).
Proof.
  unfold reported. destruct (status_run_noticed healthy_cluster) as [Hn Hs]. revert Hn Hs.
  generalize healthy_cluster. intros w Hn Hs.
  apply (step_status _ _ _ _ DefaultDNSNamespaceName (status_run w).1);
    [apply list_elem_of_here|exact (surjective_pairing (status_run w))|exact Hn|apply Hs, left_over_sub].
Qed.

Lemma reported_again_step :
  step sample_reconciler (mkSys reported [DefaultDNSNamespaceName] [DefaultDNSNamespaceName])
    (mkSys reported_again [DefaultDNSNamespaceName] []).
Proof.
  eapply (step_status _ _ _ _ DefaultDNSNamespaceName (status_run reported).1);
    [apply list_elem_of_here|exact (surjective_pairing (status_run reported))| |].
  - apply noticed_same. vm_compute. reflexivity.
  - unfold left_over. assert (requeued (status_run reported).1 = false) as -> by (vm_compute; reflexivity).
    apply noticed_same. vm_compute. reflexivity.
Qed.

Lemma started_healthy : started (mkSys healthy_cluster [DefaultDNSNamespaceName] [DefaultDNSNamespaceName]).
Proof.
  split; [apply all_marked_add; [apply all_marked_empty|apply marked_other; set_solver]|].
  split; [intros _; split; apply list_elem_of_here|]. intros n d Hd. simpl in Hd.
  assert (d = healthy_dns) as ->.
  { unfold live in Hd. simpl in Hd. repeat case_match; congruence. }
  intros (c & Hc & Ht & Hs). simpl in Hc. rewrite !elem_of_cons, elem_of_nil in Hc.
  destruct Hc as [->|[->|[->|[]]]]; discriminate.
Qed.

Lemma operator_status_fresh_witness :
  present reported_again (KClusterOperator, DNSClusterOperatorName).
Proof.
  destruct (view reported_again KDNS DefaultDNSNamespaceName) as [d|] eqn:Ed;
    [|exfalso; vm_compute in Ed; discriminate].
  exact (proj1 (operator_status_fresh sample_reconciler _ (mkSys reported_again [DefaultDNSNamespaceName] []) d started_healthy
    (rtc_l _ _ _ _ reported_step (rtc_once _ _ reported_again_step)) Ed eq_refl)).
Defined.
